(** * hardline: rewiring ComfyUI Set/Get nodes into direct links

    A shallow embedding of [convert_setget_to_hardlines] (hardline.py) and
    the properties of the rewire engine.

    The workflow is the tree of Python values that [json.load] produces:
    [None], booleans, integers, strings, lists and string-keyed dicts, plus
    tuples, which the function itself builds for its report.  Floating point
    numbers are outside the model.  A dict is an association list in
    insertion order with pairwise different keys; a string is its UTF-8
    encoding.  The function takes one more argument than in the source, the
    depth of nesting that [copy.deepcopy] can follow before the interpreter
    raises [RecursionError].

    Python raises where the embedding returns [Raise e]; every primitive
    below states which exception the interpreter raises and when.  Mutable
    objects reached through [nodes_by_id] and [link_map] are modelled by their
    position in [wf['nodes']] and [wf['links']]: the two dicts map a key to an
    index, and a mutation through the dict updates the list at that index.

    Which objects the function writes to is not visible in a tree of values:
    [Store] embeds the function a second time, over a store in which lists
    and dicts are objects with an identity, for the property that the
    caller's workflow is left alone. *)

From stdpp Require Import base list strings numbers option.
From Stdlib Require Import ZArith.

Open Scope Z_scope.

(** ** Python values *)

#[local] Set Warnings "-register-all".

Inductive value : Type :=
| VNone
| VBool (b : bool)
| VInt (z : Z)
| VStr (s : string)
| VList (l : list value)
| VTuple (l : list value)
| VDict (d : list (string * value)).

Abbreviation dict := (list (string * value)).

(** The exceptions the function can raise.  [ValueError NotAWorkflow] is the
    [raise ValueError(...)] of the precondition check; [ValueError Unpack] is
    the interpreter's error for a sequence unpacking of the wrong length,
    [ValueError NotInList] that of [list.remove] for an absent element.
    [RecursionError] is raised by [copy.deepcopy] on a workflow nested more
    deeply than the interpreter's recursion limit allows. *)
Inductive value_error := NotAWorkflow | Unpack | NotInList.

Inductive exn :=
| ValueError (why : value_error)
| KeyError
| TypeError
| IndexError
| AttributeError
| RecursionError.

Inductive result (A : Type) : Type :=
| Ok (a : A)
| Raise (e : exn).
Arguments Ok {A} a.
Arguments Raise {A} e.

Definition bind {A B : Type} (m : result A) (f : A → result B) : result B :=
  match m with
  | Ok a => f a
  | Raise e => Raise e
  end.

Notation "x <- m ;; k" := (bind m (fun x => k))
  (at level 100, m at next level, right associativity).

(** A nested induction principle: the elements of a list, a tuple and a dict
    satisfy the property. *)
Section value_induction.
Variable P : value → Prop.
Hypothesis HNone : P VNone.
Hypothesis HBool : ∀ b, P (VBool b).
Hypothesis HInt : ∀ z, P (VInt z).
Hypothesis HStr : ∀ s, P (VStr s).
Hypothesis HList : ∀ l, Forall P l → P (VList l).
Hypothesis HTuple : ∀ l, Forall P l → P (VTuple l).
Hypothesis HDict : ∀ d, Forall (λ kv, P kv.2) d → P (VDict d).

Fixpoint value_nested_ind (v : value) : P v :=
  match v with
  | VNone => HNone
  | VBool b => HBool b
  | VInt z => HInt z
  | VStr s => HStr s
  | VList l =>
      HList l ((fix go (l : list value) : Forall P l :=
                  match l with
                  | [] => Forall_nil_2 P
                  | x :: r => Forall_cons_2 P x r (value_nested_ind x) (go r)
                  end) l)
  | VTuple l =>
      HTuple l ((fix go (l : list value) : Forall P l :=
                   match l with
                   | [] => Forall_nil_2 P
                   | x :: r => Forall_cons_2 P x r (value_nested_ind x) (go r)
                   end) l)
  | VDict d =>
      HDict d ((fix go (d : dict) : Forall (λ kv, P kv.2) d :=
                  match d with
                  | [] => Forall_nil_2 _
                  | kv :: r =>
                      Forall_cons_2 (λ kv, P kv.2) kv r
                        (value_nested_ind kv.2) (go r)
                  end) d)
  end.
End value_induction.

(** Structural equality, as a function. *)
Fixpoint value_eqb (a b : value) : bool :=
  match a, b with
  | VNone, VNone => true
  | VBool x, VBool y => Bool.eqb x y
  | VInt x, VInt y => (x =? y)
  | VStr x, VStr y => String.eqb x y
  | VList l, VList m =>
      (fix go (l m : list value) : bool :=
         match l, m with
         | [], [] => true
         | x :: l', y :: m' => value_eqb x y && go l' m'
         | _, _ => false
         end) l m
  | VTuple l, VTuple m =>
      (fix go (l m : list value) : bool :=
         match l, m with
         | [], [] => true
         | x :: l', y :: m' => value_eqb x y && go l' m'
         | _, _ => false
         end) l m
  | VDict l, VDict m =>
      (fix go (l m : dict) : bool :=
         match l, m with
         | [], [] => true
         | (k, x) :: l', (k', y) :: m' =>
             String.eqb k k' && value_eqb x y && go l' m'
         | _, _ => false
         end) l m
  | _, _ => false
  end.

(** *** Python's [==]

    On these values [a == b] is structural equality up to two identifications:
    [True == 1] and [False == 0], and two dicts are equal when they hold equal
    values under the same keys, in whatever order.  [norm] picks the
    representative: booleans become integers and dicts are sorted by key. *)
Fixpoint insert_key (kv : string * value) (d : dict) : dict :=
  match d with
  | [] => [kv]
  | kv' :: r =>
      if String.leb kv.1 kv'.1 then kv :: d else kv' :: insert_key kv r
  end.

Definition sort_keys (d : dict) : dict := foldr insert_key [] d.

Fixpoint norm (v : value) : value :=
  match v with
  | VNone => VNone
  | VBool b => VInt (Z.b2z b)
  | VInt z => VInt z
  | VStr s => VStr s
  | VList l => VList (map norm l)
  | VTuple l => VTuple (map norm l)
  | VDict d => VDict (sort_keys (map (λ kv, (kv.1, norm kv.2)) d))
  end.

Definition py_eq (a b : value) : bool := value_eqb (norm a) (norm b).

(** [hash(v)] succeeds on immutable values only. *)
Fixpoint py_hashable (v : value) : bool :=
  match v with
  | VNone | VBool _ | VInt _ | VStr _ => true
  | VTuple l => forallb py_hashable l
  | VList _ | VDict _ => false
  end.

(** [bool(v)]. *)
Definition truthy (v : value) : bool :=
  match v with
  | VNone => false
  | VBool b => b
  | VInt z => negb (z =? 0)
  | VStr s => negb (String.eqb s "")
  | VList l | VTuple l => negb (bool_decide (length l = 0%nat))
  | VDict d => negb (bool_decide (length d = 0%nat))
  end.

Definition is_none (v : value) : bool :=
  match v with VNone => true | _ => false end.

(** The integer a value stands for where Python wants a number
    ([bool] is a subclass of [int]). *)
Definition as_int (v : value) : option Z :=
  match v with
  | VInt z => Some z
  | VBool b => Some (Z.b2z b)
  | _ => None
  end.

(** ** Dicts with string keys (JSON objects) *)

Fixpoint dict_get (d : dict) (k : string) : option value :=
  match d with
  | [] => None
  | (k', v) :: r => if String.eqb k' k then Some v else dict_get r k
  end.

(** [d[k] = v]: an existing key keeps its place, a new key goes last. *)
Fixpoint dict_set (d : dict) (k : string) (v : value) : dict :=
  match d with
  | [] => [(k, v)]
  | (k', v') :: r =>
      if String.eqb k' k then (k', v) :: r else (k', v') :: dict_set r k v
  end.

(** ** Dicts and sets keyed by arbitrary hashable values

    [nodes_by_id], [link_map], [name_to_source] and [dropped_ids].  Keys are
    compared with [==]; assigning to a key that is already there keeps the
    first key object and its position. *)
Definition pdict (V : Type) := list (value * V).

Fixpoint pdict_get {V} (d : pdict V) (k : value) : option V :=
  match d with
  | [] => None
  | (k', v) :: r => if py_eq k' k then Some v else pdict_get r k
  end.

Fixpoint pdict_set {V} (d : pdict V) (k : value) (v : V) : pdict V :=
  match d with
  | [] => [(k, v)]
  | (k', v') :: r =>
      if py_eq k' k then (k', v) :: r else (k', v') :: pdict_set r k v
  end.

(** [d.get(k)] and [k in d]: the key is hashed first, so an unhashable key
    raises [TypeError] even on an empty dict. *)
Definition pdict_lookup {V} (d : pdict V) (k : value) : result (option V) :=
  if py_hashable k then Ok (pdict_get d k) else Raise TypeError.

(** ** The operations of the interpreter the function uses *)

(** A [str] is held as its UTF-8 encoding, the way the JSON file holds it;
    [len], indexing and iteration go by code point.  A byte [10xxxxxx]
    continues the code point of the byte before it. *)
Definition is_continuation (c : Ascii.ascii) : bool :=
  match c with
  | Ascii.Ascii _ _ _ _ _ _ b6 b7 => b7 && negb b6
  end.

Fixpoint code_points (s : string) : list string :=
  match s with
  | EmptyString => []
  | String c r =>
      let rest := code_points r in
      match r, rest with
      | String c' _, x :: xs =>
          if is_continuation c' then String c x :: xs
          else String c EmptyString :: rest
      | _, _ => String c EmptyString :: rest
      end
  end.

Definition str_chars (s : string) : list value := map VStr (code_points s).

Definition is_substring (sub s : string) : bool :=
  match String.index 0 sub s with
  | Some _ => true
  | None => false
  end.

(** [iter(v)]: the elements of a list or tuple, the characters of a string,
    the keys of a dict; anything else is not iterable. *)
Definition py_iter (v : value) : result (list value) :=
  match v with
  | VList l | VTuple l => Ok l
  | VStr s => Ok (str_chars s)
  | VDict d => Ok (map (λ kv, VStr kv.1) d)
  | VNone | VBool _ | VInt _ => Raise TypeError
  end.

(** [len(v)]. *)
Definition py_len (v : value) : result Z :=
  match v with
  | VList l | VTuple l => Ok (Z.of_nat (length l))
  | VStr s => Ok (Z.of_nat (length (code_points s)))
  | VDict d => Ok (Z.of_nat (length d))
  | VNone | VBool _ | VInt _ => Raise TypeError
  end.

(** [x in c].  A list or tuple is searched with [==]; a dict hashes [x] and
    looks for the key; a string accepts only a string on the left. *)
Definition py_contains (c x : value) : result bool :=
  match c with
  | VList l | VTuple l => Ok (existsb (py_eq x) l)
  | VDict d =>
      if py_hashable x then
        Ok (match x with
            | VStr k => bool_decide (is_Some (dict_get d k))
            | _ => false
            end)
      else Raise TypeError
  | VStr s =>
      match x with
      | VStr sub => Ok (is_substring sub s)
      | _ => Raise TypeError
      end
  | VNone | VBool _ | VInt _ => Raise TypeError
  end.

(** [v.get(k)] with a default: only dicts have the method. *)
Definition py_get_default (v : value) (k : string) (dflt : value) : result value :=
  match v with
  | VDict d => Ok (default dflt (dict_get d k))
  | _ => Raise AttributeError
  end.

Definition py_get (v : value) (k : string) : result value :=
  py_get_default v k VNone.

(** [v[k]] for a string [k]. *)
Definition py_getitem_key (v : value) (k : string) : result value :=
  match v with
  | VDict d =>
      match dict_get d k with
      | Some x => Ok x
      | None => Raise KeyError
      end
  | _ => Raise TypeError
  end.

(** [v[i]] for an integer [i >= 0].  A dict has string keys only, so an
    integer key is never found. *)
Definition py_getitem_idx (v : value) (i : nat) : result value :=
  match v with
  | VList l | VTuple l =>
      match l !! i with
      | Some x => Ok x
      | None => Raise IndexError
      end
  | VStr s =>
      match str_chars s !! i with
      | Some x => Ok x
      | None => Raise IndexError
      end
  | VDict _ => Raise KeyError
  | VNone | VBool _ | VInt _ => Raise TypeError
  end.

(** [v[i] = x] for an integer [i >= 0]: lists only.  (A dict would accept the
    assignment, but no link is a dict: it would have failed [l[0]].) *)
Definition py_setitem_idx (v : value) (i : nat) (x : value) : result value :=
  match v with
  | VList l =>
      if bool_decide (i < length l)%nat then Ok (VList (<[i := x]> l))
      else Raise IndexError
  | _ => Raise TypeError
  end.

(** [_, a, _, b, _, c = v] and the like: exactly six elements. *)
Definition py_unpack6 (v : value)
  : result (value * value * value * value * value * value) :=
  l <- py_iter v;;
  match l with
  | [a; b; c; d; e; f] => Ok (a, b, c, d, e, f)
  | _ => Raise (ValueError Unpack)
  end.

(** A comprehension whose element expression may raise. *)
Fixpoint map_result {A B : Type} (f : A → result B) (xs : list A)
  : result (list B) :=
  match xs with
  | [] => Ok []
  | x :: r => y <- f x;; ys <- map_result f r;; Ok (y :: ys)
  end.

(** [copy.deepcopy] on a tree of values rebuilds the tree.  It calls itself
    for every element of a list, tuple or dict, so the calls nest as deeply
    as the value does; [limit] is the number of nested calls the
    interpreter's recursion limit leaves room for, and a value nested more
    deeply makes the copy raise [RecursionError]. *)
Fixpoint deepcopy (limit : nat) (v : value) : result value :=
  match limit with
  | O => Raise RecursionError
  | S limit =>
      match v with
      | VList l => l' <- map_result (deepcopy limit) l;; Ok (VList l')
      | VTuple l => l' <- map_result (deepcopy limit) l;; Ok (VTuple l')
      | VDict d =>
          d' <- map_result (λ kv, x <- deepcopy limit kv.2;; Ok (kv.1, x)) d;;
          Ok (VDict d')
      | VNone | VBool _ | VInt _ | VStr _ => Ok v
      end
  end.

(** The nesting depth of a value: 1 for a value without elements. *)
Fixpoint depth (v : value) : nat :=
  match v with
  | VList l | VTuple l => S (foldr Nat.max 0%nat (map depth l))
  | VDict d => S (foldr Nat.max 0%nat (map (λ kv, depth kv.2) d))
  | VNone | VBool _ | VInt _ | VStr _ => 1
  end.

#[global] Instance value_inhabited : Inhabited value := populate VNone.

(** A [for] loop whose body may raise. *)
Fixpoint foldM {A S : Type} (f : S → A → result S) (s : S) (xs : list A)
  : result S :=
  match xs with
  | [] => Ok s
  | x :: r => s' <- f s x;; foldM f s' r
  end.

(** ** convert_setget_to_hardlines *)

(** A binding of [name_to_source]: [(src_node, src_slot, link_type)]. *)
Definition triple : Type := value * value * value.

Definition tuple3 (c : triple) : value := VTuple [c.1.1; c.1.2; c.2].

(** [{key(x): x for x in xs}], the values being positions in [xs]. *)
Fixpoint build_index (key : value → result value) (i : nat) (xs : list value)
    (acc : pdict nat) : result (pdict nat) :=
  match xs with
  | [] => Ok acc
  | x :: r =>
      k <- key x;;
      if py_hashable k then build_index key (S i) r (pdict_set acc k i)
      else Raise TypeError
  end.

Definition node_key (n : value) : result value := py_getitem_key n "id".
Definition link_key (l : value) : result value := py_getitem_idx l 0.

(** [(n.get('widgets_values') or [None])[0]] *)
Definition bound_name (n : value) : result value :=
  wv <- py_get n "widgets_values";;
  py_getitem_idx (if truthy wv then wv else VList [VNone]) 0.

(** [0 <= slot_index < len(outs)]: the left comparison is evaluated first and
    needs a number; [len] is only taken when it holds. *)
Definition slot_in_range (slot_index outs : value) : result (option nat) :=
  match as_int slot_index with
  | None => Raise TypeError
  | Some z =>
      if z <? 0 then Ok None
      else
        n <- py_len outs;;
        Ok (if z <? n then Some (Z.to_nat z) else None)
  end.

(** The node with the list under [outputs[s]['links']] replaced.  Python
    mutates the port in place; the node keeps every other key and port. *)
Definition set_port_links (node : value) (s : nat) (lk : value) : value :=
  match node with
  | VDict nd =>
      match dict_get nd "outputs" with
      | Some (VList ps) =>
          match ps !! s with
          | Some (VDict pd) =>
              VDict (dict_set nd "outputs"
                       (VList (<[s := VDict (dict_set pd "links" lk)]> ps)))
          | _ => node
          end
      | Some (VTuple ps) =>
          match ps !! s with
          | Some (VDict pd) =>
              VDict (dict_set nd "outputs"
                       (VTuple (<[s := VDict (dict_set pd "links" lk)]> ps)))
          | _ => node
          end
      | _ => node
      end
  | _ => node
  end.

(** [links.remove(x)]: the first element equal to [x] goes. *)
Fixpoint remove_first (x : value) (l : list value) : list value :=
  match l with
  | [] => []
  | y :: r => if py_eq y x then r else y :: remove_first x r
  end.

Section passes.
(** [nodes_by_id] and [link_map] are built once, before any mutation. *)
Variables nodes_by_id link_map : pdict nat.

(** [add_output_link(node_id, slot_index, link_id)] on the node list. *)
Definition add_output_link (ns : list value)
    (node_id slot_index link_id : value) : result (list value) :=
  r <- pdict_lookup nodes_by_id node_id;;
  match r with
  | None => Ok ns
  | Some j =>
      let node := ns !!! j in
      outs <- py_get_default node "outputs" (VList []);;
      r <- slot_in_range slot_index outs;;
      match r with
      | None => Ok ns
      | Some s =>
          port <- py_getitem_idx outs s;;
          lk <- py_get port "links";;
          if is_none lk then
            (* [links = []], then [link_id not in []], then [append] *)
            Ok (<[j := set_port_links node s (VList [link_id])]> ns)
          else
            present <- py_contains lk link_id;;
            if present then Ok ns
            else
              match lk with
              | VList l =>
                  Ok (<[j := set_port_links node s (VList (l ++ [link_id]))]> ns)
              | _ => Raise AttributeError
              end
      end
  end.

(** [remove_output_link(node_id, slot_index, link_id)]; [slot_index] is the
    integer [enumerate] produced. *)
Definition remove_output_link (ns : list value)
    (node_id : value) (slot_index : nat) (link_id : value)
  : result (list value) :=
  r <- pdict_lookup nodes_by_id node_id;;
  match r with
  | None => Ok ns
  | Some j =>
      let node := ns !!! j in
      outs <- py_get_default node "outputs" (VList []);;
      n <- py_len outs;;
      if Z.of_nat slot_index <? n then
        port <- py_getitem_idx outs slot_index;;
        lk <- py_get port "links";;
        match lk with
        | VList l =>
            if existsb (py_eq link_id) l then
              Ok (<[j := set_port_links node slot_index
                           (VList (remove_first link_id l))]> ns)
            else Ok ns
        | _ => Ok ns
        end
      else Ok ns
  end.

(** *** The SetNode pass *)

(** The first half of the body of the first loop: the name and the triple a
    node offers to [name_to_source], [None] where the body reaches
    [continue] or the node is no SetNode. *)
Definition set_candidate (ls : list value) (n : value)
  : result (option (value * triple)) :=
  ty <- py_get n "type";;
  if negb (py_eq ty (VStr "SetNode")) then Ok None else
  name <- bound_name n;;
  if negb (truthy name) then Ok None else
  inputs <- py_get n "inputs";;
  if negb (truthy inputs) then Ok None else
  inputs <- py_getitem_key n "inputs";;
  inp <- py_getitem_idx inputs 0;;
  link_id <- py_get inp "link";;
  if is_none link_id then Ok None else
  r <- pdict_lookup link_map link_id;;
  match r with
  | None => Ok None
  | Some p =>
      let link := ls !!! p in
      if negb (truthy link) then Ok None else
      fields <- py_unpack6 link;;
      let '(_, src_node, src_slot, _, _, ltype) := fields in
      Ok (Some (name, (src_node, src_slot, ltype)))
  end.

(** The second half: [prev = name_to_source.get(name)] and the branch on
    it.  The accumulator is [(name_to_source, conflicts)]; a binding is a
    3-tuple, hence true in a condition. *)
Definition record_binding (acc : pdict triple * list value) (n : value)
    (name : value) (candidate : triple)
  : result (pdict triple * list value) :=
  prev <- pdict_lookup acc.1 name;;
  match prev with
  | Some pv =>
      if negb (py_eq (tuple3 pv) (tuple3 candidate)) then
        nid <- py_getitem_key n "id";;
        Ok (acc.1,
            acc.2 ++ [VTuple [name; tuple3 pv; tuple3 candidate; nid]])
      else Ok (pdict_set acc.1 name candidate, acc.2)
  | None => Ok (pdict_set acc.1 name candidate, acc.2)
  end.

Definition set_node (ls : list value) (acc : pdict triple * list value)
    (n : value) : result (pdict triple * list value) :=
  r <- set_candidate ls n;;
  match r with
  | None => Ok acc
  | Some (name, candidate) => record_binding acc n name candidate
  end.

Definition set_pass (ns ls : list value)
  : result (pdict triple * list value) :=
  foldM (set_node ls) ([], []) ns.

(** *** The GetNode pass *)

Record state := State {
  st_nodes : list value;
  st_links : list value;
  st_rewired : list value;
  st_skipped : list value
}.

Variable name_to_source : pdict triple.

(** [link[1] = src_node; link[2] = src_slot; link[5] = ltype] *)
Definition rewrite_origin (c : triple) (link : value) : result value :=
  link <- py_setitem_idx link 1 c.1.1;;
  link <- py_setitem_idx link 2 c.1.2;;
  py_setitem_idx link 5 c.2.

(** The body of the innermost loop, for one [lid] of the snapshot taken
    from port [k] of the node at position [i]. *)
Definition rewire_link (name : value) (c : triple) (i k : nat)
    (st : state) (lid : value) : result state :=
  r <- pdict_lookup link_map lid;;
  match r with
  | None => Ok st
  | Some p =>
      let link := st_links st !!! p in
      if negb (truthy link) then Ok st else
      link <- rewrite_origin c link;;
      ns <- add_output_link (st_nodes st) c.1.1 c.1.2 lid;;
      nid <- py_getitem_key (ns !!! i) "id";;
      ns <- remove_output_link ns nid k lid;;
      Ok {| st_nodes := ns;
            st_links := <[p := link]> (st_links st);
            st_rewired := st_rewired st ++ [VTuple [name; lid; nid; c.1.1]];
            st_skipped := st_skipped st |}
  end.

(** [list(out.get('links') or [])] *)
Definition port_snapshot (out : value) : result (list value) :=
  lk <- py_get out "links";;
  py_iter (if truthy lk then lk else VList []).

(** One step of [enumerate(outs)]: the port is read when the loop reaches
    it, so it shows what earlier iterations registered on it. *)
Definition rewire_port (name : value) (c : triple) (i : nat)
    (st : state) (k : nat) : result state :=
  outs <- py_get_default (st_nodes st !!! i) "outputs" (VList []);;
  ports <- py_iter outs;;
  match ports !! k with
  | None => Ok st
  | Some out =>
      link_ids <- port_snapshot out;;
      foldM (rewire_link name c i k) st link_ids
  end.

(** One iteration of the second loop over [wf['nodes']]. *)
Definition get_node (st : state) (i : nat) : result state :=
  let n := st_nodes st !!! i in
  ty <- py_get n "type";;
  if negb (py_eq ty (VStr "GetNode")) then Ok st else
  name <- bound_name n;;
  r <- pdict_lookup name_to_source name;;
  match r with
  | None =>
      nid <- py_getitem_key n "id";;
      Ok {| st_nodes := st_nodes st;
            st_links := st_links st;
            st_rewired := st_rewired st;
            st_skipped := st_skipped st ++ [VTuple [nid; name]] |}
  | Some c =>
      outs <- py_get_default n "outputs" (VList []);;
      ports <- py_iter outs;;
      foldM (rewire_port name c i) st (seq 0 (length ports))
  end.

Definition get_pass (ns ls : list value) : result state :=
  foldM get_node
    {| st_nodes := ns; st_links := ls; st_rewired := []; st_skipped := [] |}
    (seq 0 (length ns)).
End passes.

(** The tables the function builds and, with them, the two passes: lines
    90-162, in the order the interpreter evaluates them. *)
Record tables := Tables {
  t_nodes_by_id : pdict nat;
  t_link_map : pdict nat;
  t_name_to_source : pdict triple;
  t_conflicts : list value
}.

Definition rewrite_pass (wf : dict) : result (tables * state) :=
  nodes <- py_getitem_key (VDict wf) "nodes";;
  ns <- py_iter nodes;;
  nodes_by_id <- build_index node_key 0 ns [];;
  links <- py_getitem_key (VDict wf) "links";;
  ls <- py_iter links;;
  link_map <- build_index link_key 0 ls [];;
  r <- set_pass link_map ns ls;;
  st <- get_pass nodes_by_id link_map r.1 ns ls;;
  Ok ({| t_nodes_by_id := nodes_by_id; t_link_map := link_map;
         t_name_to_source := r.1; t_conflicts := r.2 |}, st).

(** *** Dropping the routing nodes *)

(** [n.get('type') in ('SetNode', 'GetNode')] *)
Definition is_routing (n : value) : result bool :=
  ty <- py_get n "type";;
  Ok (py_eq ty (VStr "SetNode") || py_eq ty (VStr "GetNode")).

(** The accumulator is [(new_nodes, dropped_ids)]; the set is only ever read
    through [in]. *)
Definition drop_node (acc : list value * list value) (n : value)
  : result (list value * list value) :=
  b <- is_routing n;;
  if b then
    nid <- py_getitem_key n "id";;
    if py_hashable nid then Ok (acc.1, acc.2 ++ [nid]) else Raise TypeError
  else Ok (acc.1 ++ [n], acc.2).

(** [x in dropped_ids] *)
Definition in_dropped (dropped : list value) (x : value) : result bool :=
  if py_hashable x then Ok (existsb (py_eq x) dropped) else Raise TypeError.

Definition drop_link (dropped : list value) (keep : list value) (l : value)
  : result (list value) :=
  fields <- py_unpack6 l;;
  let '(_, from_id, _, to_id, _, _) := fields in
  b <- in_dropped dropped from_id;;
  if b then Ok keep else
  b <- in_dropped dropped to_id;;
  if b then Ok keep else Ok (keep ++ [l]).

(** The [if drop_setget:] block: the nodes and links that stay, and the ids
    of the dropped nodes. *)
Definition prune (ns ls : list value)
  : result (list value * list value * list value) :=
  r <- foldM drop_node ([], []) ns;;
  keep_links <- foldM (drop_link r.2) [] ls;;
  Ok (r.1, keep_links, r.2).

(** *** The report *)

(** [wf.setdefault('extra', {}).setdefault('__hardline_rewire', {})[key] = v] *)
Definition set_report (wf : dict) (key : string) (v : value) : result dict :=
  match default (VDict []) (dict_get wf "extra") with
  | VDict extra =>
      match default (VDict []) (dict_get extra "__hardline_rewire") with
      | VDict rep =>
          Ok (dict_set wf "extra"
                (VDict (dict_set extra "__hardline_rewire"
                          (VDict (dict_set rep key v)))))
      | _ => Raise TypeError
      end
  | _ => Raise AttributeError
  end.

Definition attach_report (wf : dict) (rewired skipped_gets conflicts : list value)
  : result dict :=
  wf <- set_report wf "rewired_count" (VInt (Z.of_nat (length rewired)));;
  wf <- set_report wf "skipped_gets" (VList skipped_gets);;
  set_report wf "conflicts" (VList conflicts).

(** The elements of a list (or tuple) held under [k] after the objects in it
    were mutated; a string or a dict under [k] holds nothing mutable. *)
Definition store_elements (wf : dict) (k : string) (xs : list value) : dict :=
  match dict_get wf k with
  | Some (VList _) => dict_set wf k (VList xs)
  | Some (VTuple _) => dict_set wf k (VTuple xs)
  | _ => wf
  end.

(** The function after [wf = deepcopy(workflow)] and the precondition
    check. *)
Definition rewire (wf : dict) (drop_setget : bool) : result value :=
  r <- rewrite_pass wf;;
  let '(t, st) := r in
  let wf := store_elements wf "nodes" (st_nodes st) in
  let wf := store_elements wf "links" (st_links st) in
  wf <- (if drop_setget then
          r <- prune (st_nodes st) (st_links st);;
          let wf := dict_set wf "nodes" (VList r.1.1) in
          Ok (dict_set wf "links" (VList r.1.2))
        else Ok wf);;
  wf <- attach_report wf (st_rewired st) (st_skipped st) (t_conflicts t);;
  Ok (VDict wf).

Definition convert_setget_to_hardlines (limit : nat) (workflow : value)
    (drop_setget : bool) : result value :=
  wf <- deepcopy limit workflow;;
  has_nodes <- py_contains wf (VStr "nodes");;
  if negb has_nodes then Raise (ValueError NotAWorkflow) else
  has_links <- py_contains wf (VStr "links");;
  if negb has_links then Raise (ValueError NotAWorkflow) else
  match wf with
  | VDict d => rewire d drop_setget
  | _ => _ <- py_getitem_key wf "nodes";; Raise TypeError
  end.

(** ** What the claims observe *)

(** [out['nodes']], [out['links']] and [out['extra']['__hardline_rewire']]
    of a returned workflow. *)
Definition out_field (out : value) (k : string) : option value :=
  match out with
  | VDict d => dict_get d k
  | _ => None
  end.

Definition report_of (wf : dict) : option value :=
  match dict_get wf "extra" with
  | Some (VDict extra) => dict_get extra "__hardline_rewire"
  | _ => None
  end.

Definition get_report (out : value) : option value :=
  match out with
  | VDict d => report_of d
  | _ => None
  end.

(** The entries a dict already holds under [extra.__hardline_rewire]. *)
Definition prior_report (wf : dict) : dict :=
  match report_of wf with
  | Some (VDict rep) => rep
  | _ => []
  end.

(** The nodes the pruning keeps, and the links it keeps for a given set of
    dropped ids. *)
Definition non_routing (n : value) : bool :=
  match is_routing n with
  | Ok b => negb b
  | Raise _ => false
  end.

Definition routing (n : value) : bool :=
  match is_routing n with
  | Ok b => b
  | Raise _ => false
  end.

Definition survives (dropped : list value) (l : value) : bool :=
  match py_unpack6 l with
  | Ok (_, from_id, _, to_id, _, _) =>
      negb (existsb (py_eq from_id) dropped)
      && negb (existsb (py_eq to_id) dropped)
  | Raise _ => false
  end.

(** ** Example workflows *)

Definition link6 (id src slot dst dslot : Z) (ty : string) : value :=
  VList [VInt id; VInt src; VInt slot; VInt dst; VInt dslot; VStr ty].

Definition port (lids : list Z) : value :=
  VDict [("links", VList (map VInt lids))].

Definition plain_node (id : Z) (ins outs : list Z) : value :=
  VDict [("id", VInt id); ("type", VStr "Plain");
         ("inputs", VList (map (λ l, VDict [("link", VInt l)]) ins));
         ("outputs", VList [port outs])].

Definition set_node_of (id : Z) (name : string) (lid : Z) : value :=
  VDict [("id", VInt id); ("type", VStr "SetNode");
         ("widgets_values", VList [VStr name]);
         ("inputs", VList [VDict [("link", VInt lid)]])].

Definition get_node_of (id : Z) (name : string) (outs : list Z) : value :=
  VDict [("id", VInt id); ("type", VStr "GetNode");
         ("widgets_values", VList [VStr name]);
         ("outputs", VList [port outs])].

Definition graph_of (ns ls : list value) : dict :=
  [("nodes", VList ns); ("links", VList ls)].

(** The example of the specification: node 5 feeds [Set X], [Get X] feeds
    node 3. *)
Definition g_example : dict :=
  graph_of
    [plain_node 5 [] [10]; set_node_of 1 "X" 10; get_node_of 2 "X" [20];
     plain_node 3 [20] []]
    [link6 10 5 0 1 0 "IMAGE"; link6 20 2 0 3 0 "IMAGE"].

(** [Get B] feeds [Set A], and [Get A] comes before [Get B] in node order. *)
Definition g_chain : dict :=
  graph_of
    [plain_node 6 [] [30]; set_node_of 1 "B" 30; get_node_of 2 "A" [20];
     get_node_of 3 "B" [10]; set_node_of 4 "A" 10; plain_node 7 [20] []]
    [link6 30 6 0 1 0 "T"; link6 10 3 0 4 0 "T"; link6 20 2 0 7 0 "T"].

(** [Set X] captures the output of [Get X] itself. *)
Definition g_self : dict :=
  graph_of
    [set_node_of 1 "X" 10; get_node_of 2 "X" [10; 20]; plain_node 3 [20] []]
    [link6 10 2 0 1 0 "T"; link6 20 2 0 3 0 "T"].

(** [Get Z] has no [Set Z] and feeds [Set A]. *)
Definition g_unresolved : dict :=
  graph_of
    [get_node_of 9 "Z" [10]; set_node_of 1 "A" 10; get_node_of 2 "A" [20];
     plain_node 3 [20] []]
    [link6 10 9 0 1 0 "T"; link6 20 2 0 3 0 "T"].

(** A node without an [id]. *)
Definition g_no_id : dict :=
  graph_of [VDict [("type", VStr "Plain")]] [].

Definition wf_example : value := VDict g_example.
Definition wf_chain : value := VDict g_chain.
Definition wf_self : value := VDict g_self.
Definition wf_unresolved : value := VDict g_unresolved.
Definition wf_no_id : value := VDict g_no_id.

(** A workflow that already carries a foreign entry in the report slot. *)
Definition wf_prior_report : value :=
  VDict [("nodes", VList []); ("links", VList []);
         ("extra", VDict [("__hardline_rewire", VDict [("foo", VInt 1)])])].

(** The bindings the SetNodes offer, in node order: the name, the triple
    and the node that offers them. *)
Fixpoint writes (link_map : pdict nat) (ls ns : list value)
  : result (list (value * triple * value)) :=
  match ns with
  | [] => Ok []
  | n :: r =>
      c <- set_candidate link_map ls n;;
      ws <- writes link_map ls r;;
      Ok (match c with
          | Some (name, candidate) => (name, candidate, n) :: ws
          | None => ws
          end)
  end.

(** The triple of the first write to a name. *)
Fixpoint first_binding (ws : list (value * triple * value)) (k : value)
  : option triple :=
  match ws with
  | [] => None
  | (name, c, _) :: r => if py_eq name k then Some c else first_binding r k
  end.

(** A write conflicts when its triple differs from the first one written to
    its name. *)
Definition conflicting (ws : list (value * triple * value))
    (w : value * triple * value) : bool :=
  match first_binding ws w.1.1 with
  | Some c0 => negb (py_eq (tuple3 c0) (tuple3 w.1.2))
  | None => false
  end.

(** Two SetNodes write [X] from different sources. *)
Definition conflict_nodes : list value :=
  [plain_node 5 [] [10]; plain_node 6 [] [11]; set_node_of 1 "X" 10;
   set_node_of 4 "X" 11; get_node_of 2 "X" [20]; plain_node 3 [20] []].

Definition conflict_links : list value :=
  [link6 10 5 0 1 0 "T"; link6 11 6 0 4 0 "T"; link6 20 2 0 3 0 "T"].

Definition conflict_link_map : pdict nat :=
  [(VInt 10, 0%nat); (VInt 11, 1%nat); (VInt 20, 2%nat)].

(** The triples of the writes to [k] that are [==] to the first one, in
    node order. *)
Definition agreeing (ws : list (value * triple * value)) (k : value)
  : list triple :=
  match first_binding ws k with
  | None => []
  | Some c0 =>
      map (λ w, w.1.2)
        (List.filter
           (λ w, py_eq w.1.1 k && py_eq (tuple3 w.1.2) (tuple3 c0)) ws)
  end.

(** The triple recorded for [k] after the writes [ws]: that of the last
    write to [k] whose triple is [==] to the first one's. *)
Definition recorded_binding (ws : list (value * triple * value)) (k : value)
  : option triple :=
  list.last (agreeing ws k).

(** A write that comes after the writes [pre] conflicts when its triple
    differs from the one recorded for its name. *)
Definition conflicts_with (pre : list (value * triple * value))
    (w : value * triple * value) : bool :=
  match recorded_binding pre w.1.1 with
  | Some prev => negb (py_eq (tuple3 prev) (tuple3 w.1.2))
  | None => false
  end.

(** Each element with the elements before it. *)
Fixpoint prefixes {A} (pre xs : list A) : list (list A * A) :=
  match xs with
  | [] => []
  | x :: r => (pre, x) :: prefixes (pre ++ [x]) r
  end.

(** The conflicts entry of a write [w] that comes after the writes [pre]. *)
Definition conflict_entry (e : value)
    (pw : list (value * triple * value) * (value * triple * value)) : Prop :=
  ∃ prev nid,
    recorded_binding pw.1 pw.2.1.1 = Some prev
    ∧ py_getitem_key pw.2.2 "id" = Ok nid
    ∧ e = VTuple [pw.2.1.1; tuple3 prev; tuple3 pw.2.1.2; nid].

(** The two SetNodes of [conflict_nodes] in a graph. *)
Definition g_conflict : dict := graph_of conflict_nodes conflict_links.

(** Two SetNodes write [X] from links whose sources are [==] and not the
    same: node id [1], slot [0] and node id [true], slot [false]. *)
Definition g_rebind : dict :=
  graph_of
    [plain_node 1 [] [10; 11]; set_node_of 2 "X" 10; set_node_of 3 "X" 11;
     get_node_of 4 "X" [20]; plain_node 5 [20] []]
    [link6 10 1 0 2 0 "T";
     VList [VInt 11; VBool true; VBool false; VInt 3; VInt 0; VStr "T"];
     link6 20 4 0 5 0 "T"].

(** ** The shape of a graph

    The data model as far as the function relies on it.  A node is a dict
    with a hashable [id]; a link has six fields with hashable ids; the report
    slot, where present, is a dict inside a dict. *)
Definition node_has_id (n : value) : bool :=
  match n with
  | VDict nd =>
      match dict_get nd "id" with
      | Some nid => py_hashable nid
      | None => false
      end
  | _ => false
  end.

Definition link_fields_ok (l : value) : bool :=
  match l with
  | VList [lid; src; _; dst; _; _] =>
      py_hashable lid && py_hashable src && py_hashable dst
  | _ => false
  end.

Definition report_slot_ok (wf : dict) : bool :=
  match dict_get wf "extra" with
  | None => true
  | Some (VDict extra) =>
      match dict_get extra "__hardline_rewire" with
      | None | Some (VDict _) => true
      | _ => false
      end
  | _ => false
  end.

(** A graph of plain nodes. *)
Definition plain_graph : dict :=
  [("nodes", VList [plain_node 5 [] [10]; plain_node 3 [10] []]);
   ("links", VList [link6 10 5 0 3 0 "T"])].

(** A graph of plain nodes, one of them without an [id]. *)
Definition g_plain_no_id : dict :=
  graph_of
    [plain_node 5 [] [10];
     VDict [("type", VStr "Plain");
            ("inputs", VList [VDict [("link", VInt 10)]])]]
    [link6 10 5 0 3 0 "T"].

(** A graph of plain nodes with a link of three fields. *)
Definition g_short_link : dict :=
  graph_of [plain_node 5 [] [10]; plain_node 3 [10] []]
    [VList [VInt 10; VInt 5; VInt 0]].

(** ** Reading ports and links

    What the loops of the GetNode pass see of a node: the ports
    [enumerate(outs)] yields and the link ids [list(out.get('links') or [])]
    yields, empty where the interpreter would raise. *)
Definition node_ports (n : value) : list value :=
  match (outs <- py_get_default n "outputs" (VList []);; py_iter outs) with
  | Ok ps => ps
  | Raise _ => []
  end.

Definition snapshot (out : value) : list value :=
  match port_snapshot out with
  | Ok l => l
  | Raise _ => []
  end.

(** [x] is among the link ids of port [k] of the node; of some port. *)
Definition port_has (n : value) (k : nat) (x : value) : bool :=
  match node_ports n !! k with
  | Some out => existsb (py_eq x) (snapshot out)
  | None => false
  end.

Definition attached (x : value) (n : value) : bool :=
  existsb (λ out, existsb (py_eq x) (snapshot out)) (node_ports n).

Definition is_get (n : value) : bool :=
  match py_get n "type" with
  | Ok ty => py_eq ty (VStr "GetNode")
  | Raise _ => false
  end.

(** Two versions of a node that differ in [outputs] at most. *)
Definition same_meta (n n' : value) : Prop :=
  n' = n
  ∨ ∃ nd nd', n = VDict nd ∧ n' = VDict nd'
              ∧ ∀ k, k ≠ "outputs" → dict_get nd' k = dict_get nd k.

(** The fields of a link after [link[1], link[2], link[5] = c]. *)
Definition with_origin (c : triple) (fs : list value) : list value :=
  <[5%nat := c.2]> (<[2%nat := c.1.2]> (<[1%nat := c.1.1]> fs)).

(** A link and what the pass may have made of it: the same fields, except
    that the origin may be some triple. *)
Definition link_frame (l l' : value) : Prop :=
  l' = l ∨ ∃ fs c, l = VList fs ∧ l' = VList (with_origin c fs).

(** A node and a later version of it: the same entries except [outputs],
    and as many ports. *)
Definition node_frame (n n' : value) : Prop :=
  same_meta n n' ∧ length (node_ports n') = length (node_ports n).

(** A state and a later one. *)
Definition evolves (st st' : state) : Prop :=
  length (st_nodes st') = length (st_nodes st)
  ∧ (∀ j, node_frame (st_nodes st !!! j) (st_nodes st' !!! j))
  ∧ length (st_links st') = length (st_links st)
  ∧ (∀ q, link_frame (st_links st !!! q) (st_links st' !!! q)).

(** The link ids of port [k], as the loop over the port reads them. *)
Definition port_ids (n : value) (k : nat) : list value :=
  match node_ports n !! k with
  | Some out => snapshot out
  | None => []
  end.

(** The entry a node contributes to [skipped_gets]: one for a GetNode whose
    name the index does not bind. *)
Definition skipped_entry (name_to_source : pdict triple) (n : value)
  : list value :=
  if is_get n then
    match bound_name n, py_getitem_key n "id" with
    | Ok name, Ok nid =>
        match pdict_get name_to_source name with
        | None => [VTuple [nid; name]]
        | Some _ => []
        end
    | _, _ => []
    end
  else [].

(** The position a dict built by [build_index] holds under [k]: the last
    element whose key equals [k]. *)
Fixpoint last_match (key : value → result value) (k : value) (i : nat)
    (xs : list value) : option nat :=
  match xs with
  | [] => None
  | x :: r =>
      match last_match key k (S i) r with
      | Some q => Some q
      | None =>
          match key x with
          | Ok kx => if py_eq kx k then Some i else None
          | Raise _ => None
          end
      end
  end.

(** The elements of [wf['nodes']] and [wf['links']] as the loops yield
    them. *)
Definition graph_nodes (wf : dict) : list value :=
  match (nodes <- py_getitem_key (VDict wf) "nodes";; py_iter nodes) with
  | Ok ns => ns
  | Raise _ => []
  end.

Definition graph_links (wf : dict) : list value :=
  match (links <- py_getitem_key (VDict wf) "links";; py_iter links) with
  | Ok ls => ls
  | Raise _ => []
  end.

(** Between two states nothing happened to the link id [lid]: it sits on the
    same ports, its link is the same, and no GetNode was skipped. *)
Definition undisturbed (link_map : pdict nat) (lid : value) (st s : state)
  : Prop :=
  (∀ j kk, port_has (st_nodes s !!! j) kk lid
           = port_has (st_nodes st !!! j) kk lid)
  ∧ (∀ p, pdict_get link_map lid = Some p →
          st_links s !!! p = st_links st !!! p)
  ∧ st_skipped s = st_skipped st.

(** Port [k] of the node is a dict whose [links] is a list. *)
Definition port_is_list (n : value) (k : nat) : Prop :=
  ∃ pd l, node_ports n !! k = Some (VDict pd)
          ∧ dict_get pd "links" = Some (VList l).

(** [Set X] captures link 10, whose source, node 99, is not in the graph. *)
Definition g_missing : dict :=
  graph_of
    [set_node_of 1 "X" 10; get_node_of 2 "X" [20]; plain_node 3 [20] []]
    [link6 10 99 0 1 0 "T"; link6 20 2 0 3 0 "T"].

(** As [g_missing], with a later node that has the id of [Get X]. *)
Definition g_dup : dict :=
  graph_of
    [set_node_of 1 "X" 10; get_node_of 2 "X" [20]; plain_node 3 [20] [];
     plain_node 2 [] []]
    [link6 10 99 0 1 0 "T"; link6 20 2 0 3 0 "T"].

(** Link 20 is on a port of [Get X] and of [Get Y]; neither source is in
    the graph. *)
Definition g_shared : dict :=
  graph_of
    [set_node_of 1 "X" 10; set_node_of 4 "Y" 11; get_node_of 2 "X" [20];
     get_node_of 5 "Y" [20]; plain_node 3 [20] []]
    [link6 10 99 0 1 0 "T"; link6 11 98 0 4 0 "T"; link6 20 2 0 3 0 "T"].

(** ** Counting the pairs of the GetNode pass *)

Definition is_present (link_map : pdict nat) (x : value) : bool :=
  match pdict_get link_map x with
  | Some _ => true
  | None => false
  end.

Definition sum_nat (l : list nat) : nat := foldr Nat.add 0%nat l.

(** The link ids of a port that map to a link, counted with repetition. *)
Definition present_count (link_map : pdict nat) (ids : list value) : nat :=
  length (List.filter (is_present link_map) ids).

(** The (port, link id) pairs of a node that the pass rewrites: those of a
    GetNode whose name is bound, summed over its ports. *)
Definition node_pairs (name_to_source : pdict triple) (link_map : pdict nat)
    (n : value) : nat :=
  if is_get n then
    match bound_name n with
    | Ok name =>
        match pdict_get name_to_source name with
        | Some _ =>
            sum_nat (map (λ k, present_count link_map (port_ids n k))
                       (seq 0 (length (node_ports n))))
        | None => 0%nat
        end
    | Raise _ => 0%nat
    end
  else 0%nat.

Definition graph_pairs (name_to_source : pdict triple) (link_map : pdict nat)
    (ns : list value) : nat :=
  sum_nat (map (node_pairs name_to_source link_map) ns).

(** ** A well-formed graph

    The shapes under which no lookup of the function fails.  A node may
    lack [widgets_values], [inputs] and [outputs]; a link id may map to no
    link. *)

(** [widgets_values] is absent, false in a condition, or a list that starts
    with a hashable name. *)
Definition widgets_ok (nd : dict) : bool :=
  match dict_get nd "widgets_values" with
  | None => true
  | Some wv =>
      if truthy wv then
        match wv with
        | VList (name :: _) => py_hashable name
        | _ => false
        end
      else true
  end.

(** [inputs] is absent, false in a condition, or a list that starts with a
    dict whose [link], if any, is hashable. *)
Definition inputs_ok (nd : dict) : bool :=
  match dict_get nd "inputs" with
  | None => true
  | Some ins =>
      if truthy ins then
        match ins with
        | VList (VDict inp :: _) =>
            match dict_get inp "link" with
            | None => true
            | Some lk => py_hashable lk
            end
        | _ => false
        end
      else true
  end.

(** A port is a dict whose [links] is absent, [None] or a list of hashable
    ids. *)
Definition port_ok (p : value) : bool :=
  match p with
  | VDict pd =>
      match dict_get pd "links" with
      | None | Some VNone => true
      | Some (VList ids) => forallb py_hashable ids
      | Some _ => false
      end
  | _ => false
  end.

Definition outputs_ok (nd : dict) : bool :=
  match dict_get nd "outputs" with
  | None => true
  | Some (VList ps) => forallb port_ok ps
  | Some _ => false
  end.

Definition node_ok (n : value) : bool :=
  match n with
  | VDict nd => node_has_id n && widgets_ok nd && inputs_ok nd && outputs_ok nd
  | _ => false
  end.

(** A binding the links can carry: a hashable source id and an integer
    slot. *)
Definition triple_ok (c : triple) : bool :=
  py_hashable c.1.1 && bool_decide (is_Some (as_int c.1.2)).

(** A link has six fields, hashable ids and an integer source slot. *)
Definition link_ok (l : value) : bool :=
  match l with
  | VList [lid; src; slot; dst; _; ty] =>
      py_hashable lid && triple_ok (src, slot, ty) && py_hashable dst
  | _ => false
  end.

Definition graph_ok (wf : dict) : bool :=
  match dict_get wf "nodes", dict_get wf "links" with
  | Some (VList ns), Some (VList ls) =>
      forallb node_ok ns && forallb link_ok ls && report_slot_ok wf
  | _, _ => false
  end.

(** A workflow with nodes that lack fields and ids that map to no link. *)
Definition g_sparse : dict :=
  graph_of
    [VDict [("id", VInt 1); ("type", VStr "SetNode")];
     VDict [("id", VInt 2); ("type", VStr "GetNode");
            ("widgets_values", VList [VStr "X"]);
            ("outputs", VList [port [77]])];
     VDict [("id", VInt 4); ("type", VStr "SetNode");
            ("widgets_values", VList [VStr "X"]);
            ("inputs", VList [VDict [("link", VInt 10)]])];
     VDict [("id", VInt 3)]]
    [link6 10 5 0 4 0 "T"].

(** The result is not the failure of the precondition check. *)
Definition not_nw {A : Type} (r : result A) : Prop :=
  r ≠ Raise (ValueError NotAWorkflow).

(** ** The function on a store of mutable objects

    The tree of values above says what the function computes.  Which
    objects it writes to is a question about object identity: here lists and
    dicts live in a store and a value refers to them by location.
    [copy.deepcopy] allocates the copy, the rest of the function reads and
    writes through references. *)
Module Store.

Abbreviation loc := nat.

(** Immutable values are held directly; [HRef l] is the list or dict at
    location [l]. *)
Inductive hval : Type :=
| HNone
| HBool (b : bool)
| HInt (z : Z)
| HStr (s : string)
| HTuple (l : list hval)
| HRef (l : loc).

Inductive obj : Type :=
| OList (xs : list hval)
| ODict (d : list (string * hval)).

Abbreviation heap := (list obj).

(** Besides the exceptions of the tree model, [RecursionError] being raised
    by [deepcopy] and [==] beyond the recursion limit: [Stuck], the outcome
    of a dangling reference or of a loop that outruns the step bound. *)
Inductive fault := Py (e : exn) | Stuck.

(** A computation returns a value or a fault, and the store it leaves. *)
Definition M (A : Type) : Type := heap → (A + fault) * heap.

Definition ret {A} (a : A) : M A := λ h, (inl a, h).
Definition fail {A} (f : fault) : M A := λ h, (inr f, h).
Definition raise {A} (e : exn) : M A := fail (Py e).

Definition mbind {A B} (m : M A) (f : A → M B) : M B :=
  λ h, match m h with
       | (inl a, h') => f a h'
       | (inr e, h') => (inr e, h')
       end.

Notation "x <~ m ;; k" := (mbind m (fun x => k))
  (at level 100, m at next level, right associativity).
Notation "m ;;; k" := (mbind m (fun _ => k))
  (at level 100, right associativity).

(** The three accesses to the store. *)
Definition alloc (o : obj) : M hval := λ h, (inl (HRef (length h)), h ++ [o]).

Definition deref (l : loc) : M obj :=
  λ h, match h !! l with
       | Some o => (inl o, h)
       | None => (inr Stuck, h)
       end.

Definition store (l : loc) (o : obj) : M unit := λ h, (inl tt, <[l := o]> h).

(** A loop over a list that is not an object of the store. *)
Fixpoint mfold {A St} (f : St → A → M St) (s : St) (xs : list A) : M St :=
  match xs with
  | [] => ret s
  | x :: r => s' <~ f s x;; mfold f s' r
  end.

(** A value as an operation sees it: the contents of the object together
    with its location. *)
Inductive shape : Type :=
| SNone
| SBool (b : bool)
| SInt (z : Z)
| SStr (s : string)
| STuple (xs : list hval)
| SList (l : loc) (xs : list hval)
| SDict (l : loc) (d : list (string * hval)).

Definition view (v : hval) : M shape :=
  match v with
  | HNone => ret SNone
  | HBool b => ret (SBool b)
  | HInt z => ret (SInt z)
  | HStr s => ret (SStr s)
  | HTuple xs => ret (STuple xs)
  | HRef l =>
      o <~ deref l;;
      ret (match o with
           | OList xs => SList l xs
           | ODict d => SDict l d
           end)
  end.

(** String-keyed dicts, as in the tree model. *)
Fixpoint dict_get (d : list (string * hval)) (k : string) : option hval :=
  match d with
  | [] => None
  | (k', v) :: r => if String.eqb k' k then Some v else dict_get r k
  end.

Fixpoint dict_set (d : list (string * hval)) (k : string) (v : hval)
  : list (string * hval) :=
  match d with
  | [] => [(k, v)]
  | (k', v') :: r =>
      if String.eqb k' k then (k', v) :: r else (k', v') :: dict_set r k v
  end.

(** *** Hashing and the keys of the function's own dicts *)

(** Lists and dicts are unhashable; a tuple hashes its elements. *)
Fixpoint py_hashable (v : hval) : bool :=
  match v with
  | HRef _ => false
  | HTuple xs => forallb py_hashable xs
  | _ => true
  end.

Definition num (v : hval) : option Z :=
  match v with
  | HInt z => Some z
  | HBool b => Some (Z.b2z b)
  | _ => None
  end.

(** [==] on hashable values: no object of the store is involved. *)
Fixpoint key_eq (a b : hval) : bool :=
  match a, b with
  | HNone, HNone => true
  | HStr x, HStr y => String.eqb x y
  | (HInt _ | HBool _), (HInt _ | HBool _) =>
      match num a, num b with
      | Some x, Some y => x =? y
      | _, _ => false
      end
  | HTuple l, HTuple m =>
      (fix go (l m : list hval) : bool :=
         match l, m with
         | [], [] => true
         | x :: l', y :: m' => key_eq x y && go l' m'
         | _, _ => false
         end) l m
  | _, _ => false
  end.

(** [nodes_by_id], [link_map], [name_to_source] and [dropped_ids] are
    created by the function and never stored in the workflow: they are
    association lists held by the computation. *)
Abbreviation kdict V := (list (hval * V)).

Fixpoint kdict_get {V} (d : kdict V) (k : hval) : option V :=
  match d with
  | [] => None
  | (k', v) :: r => if key_eq k' k then Some v else kdict_get r k
  end.

Fixpoint kdict_set {V} (d : kdict V) (k : hval) (v : V) : kdict V :=
  match d with
  | [] => [(k, v)]
  | (k', v') :: r =>
      if key_eq k' k then (k', v) :: r else (k', v') :: kdict_set r k v
  end.

(** [d.get(k)], [k in d], [d[k] = v]: the key is hashed first. *)
Definition kdict_lookup {V} (d : kdict V) (k : hval) : M (option V) :=
  if py_hashable k then ret (kdict_get d k) else raise TypeError.

(** *** The operations of the interpreter *)

Definition truthy (v : hval) : M bool :=
  sh <~ view v;;
  ret (match sh with
       | SNone => false
       | SBool b => b
       | SInt z => negb (z =? 0)
       | SStr s => negb (String.eqb s "")
       | STuple xs | SList _ xs => negb (bool_decide (length xs = 0%nat))
       | SDict _ d => negb (bool_decide (length d = 0%nat))
       end).

Definition is_none (v : hval) : bool :=
  match v with HNone => true | _ => false end.

Definition str_chars (s : string) : list hval := map HStr (code_points s).

(** The elements [iter(v)] yields when [v] is not written meanwhile. *)
Definition py_iter (v : hval) : M (list hval) :=
  sh <~ view v;;
  match sh with
  | SList _ xs | STuple xs => ret xs
  | SStr s => ret (str_chars s)
  | SDict _ d => ret (map (λ kv, HStr kv.1) d)
  | SNone | SBool _ | SInt _ => raise TypeError
  end.

Definition py_len (v : hval) : M Z :=
  sh <~ view v;;
  match sh with
  | SList _ xs | STuple xs => ret (Z.of_nat (length xs))
  | SStr s => ret (Z.of_nat (length (code_points s)))
  | SDict _ d => ret (Z.of_nat (length d))
  | SNone | SBool _ | SInt _ => raise TypeError
  end.

(** [v.get(k, dflt)]: the method is looked up before the default is
    built. *)
Definition py_get_default (v : hval) (k : string) (dflt : M hval) : M hval :=
  sh <~ view v;;
  match sh with
  | SDict _ d =>
      x <~ dflt;;
      ret (default x (dict_get d k))
  | _ => raise AttributeError
  end.

Definition py_get (v : hval) (k : string) : M hval :=
  py_get_default v k (ret HNone).

(** [v[k]] for a string [k]. *)
Definition py_getitem_key (v : hval) (k : string) : M hval :=
  sh <~ view v;;
  match sh with
  | SDict _ d =>
      match dict_get d k with
      | Some x => ret x
      | None => raise KeyError
      end
  | _ => raise TypeError
  end.

(** [v[i]] for an integer [i >= 0]. *)
Definition py_getitem_idx (v : hval) (i : nat) : M hval :=
  sh <~ view v;;
  match sh with
  | SList _ xs | STuple xs =>
      match xs !! i with
      | Some x => ret x
      | None => raise IndexError
      end
  | SStr s =>
      match str_chars s !! i with
      | Some x => ret x
      | None => raise IndexError
      end
  | SDict _ _ => raise KeyError
  | SNone | SBool _ | SInt _ => raise TypeError
  end.

(** [v[i] = x] for an integer [i >= 0]: the list at [v] is written.  (No
    link is a dict: it would have failed [l[0]].) *)
Definition py_setitem_idx (v : hval) (i : nat) (x : hval) : M unit :=
  sh <~ view v;;
  match sh with
  | SList l xs =>
      if bool_decide (i < length xs)%nat then store l (OList (<[i := x]> xs))
      else raise IndexError
  | _ => raise TypeError
  end.

(** [v[k] = x] for a string [k]: the dict at [v] is written. *)
Definition py_setitem_key (v : hval) (k : string) (x : hval) : M unit :=
  sh <~ view v;;
  match sh with
  | SDict l d => store l (ODict (dict_set d k x))
  | _ => raise TypeError
  end.

(** [v.setdefault(k, dflt)] *)
Definition py_setdefault (v : hval) (k : string) (dflt : M hval) : M hval :=
  sh <~ view v;;
  match sh with
  | SDict l d =>
      x <~ dflt;;
      match dict_get d k with
      | Some y => ret y
      | None => store l (ODict (dict_set d k x));;; ret x
      end
  | _ => raise AttributeError
  end.

(** [v.append(x)] *)
Definition py_append (v : hval) (x : hval) : M unit :=
  sh <~ view v;;
  match sh with
  | SList l xs => store l (OList (xs ++ [x]))
  | _ => raise AttributeError
  end.

(** [a == b] reads the store and writes nothing.  Every nested comparison
    uses one level of the recursion limit; an element that is the same
    object is equal without a comparison. *)
Fixpoint py_eq_in (h : heap) (fuel : nat) (a b : hval) : bool + fault :=
  match fuel with
  | O => inr (Py RecursionError)
  | S fuel =>
      let prefix_eq :=
        fix go (l m : list hval) : bool + fault :=
          match l, m with
          | x :: l', y :: m' =>
              match py_eq_in h fuel x y with
              | inl true => go l' m'
              | r => r
              end
          | _, _ => inl true
          end in
      let dict_le :=
        fix go (d e : list (string * hval)) : bool + fault :=
          match d with
          | [] => inl true
          | (k, x) :: d' =>
              match dict_get e k with
              | None => inl false
              | Some y =>
                  match py_eq_in h fuel x y with
                  | inl true => go d' e
                  | r => r
                  end
              end
          end in
      match a, b with
      | HNone, HNone => inl true
      | HStr x, HStr y => inl (String.eqb x y)
      | (HInt _ | HBool _), (HInt _ | HBool _) =>
          inl (match num a, num b with
               | Some x, Some y => x =? y
               | _, _ => false
               end)
      | HTuple l, HTuple m =>
          match prefix_eq l m with
          | inl true => inl (bool_decide (length l = length m))
          | r => r
          end
      | HRef la, HRef lb =>
          if bool_decide (la = lb) then inl true
          else
            match h !! la, h !! lb with
            | Some (OList l), Some (OList m) =>
                if bool_decide (length l = length m) then prefix_eq l m
                else inl false
            | Some (ODict d), Some (ODict e) =>
                if bool_decide (length d = length e) then dict_le d e
                else inl false
            | Some _, Some _ => inl false
            | _, _ => inr Stuck
            end
      | _, _ => inl false
      end
  end.

Definition py_eq (limit : nat) (a b : hval) : M bool :=
  λ h, (py_eq_in h limit a b, h).

(** The position of the first element of [xs] equal to [x]. *)
Fixpoint index_in (h : heap) (limit : nat) (x : hval) (i : nat)
    (xs : list hval) : option nat + fault :=
  match xs with
  | [] => inl None
  | y :: r =>
      match py_eq_in h limit y x with
      | inl true => inl (Some i)
      | inl false => index_in h limit x (S i) r
      | inr f => inr f
      end
  end.

Definition py_index (limit : nat) (x : hval) (xs : list hval)
  : M (option nat) :=
  λ h, (index_in h limit x 0 xs, h).

(** [x in c] *)
Definition py_contains (limit : nat) (c x : hval) : M bool :=
  sh <~ view c;;
  match sh with
  | SList _ xs | STuple xs =>
      r <~ py_index limit x xs;;
      ret (bool_decide (is_Some r))
  | SDict _ d =>
      if py_hashable x then
        ret (match x with
             | HStr k => bool_decide (is_Some (dict_get d k))
             | _ => false
             end)
      else raise TypeError
  | SStr s =>
      match x with
      | HStr sub => ret (is_substring sub s)
      | _ => raise TypeError
      end
  | SNone | SBool _ | SInt _ => raise TypeError
  end.

(** [v.remove(x)] on a list: the first element equal to [x] goes. *)
Definition py_remove (limit : nat) (v x : hval) : M unit :=
  sh <~ view v;;
  match sh with
  | SList l xs =>
      r <~ py_index limit x xs;;
      match r with
      | Some i => store l (OList (delete i xs))
      | None => raise (ValueError NotInList)
      end
  | _ => raise AttributeError
  end.

(** [_, a, _, b, _, c = v] *)
Definition py_unpack6 (v : hval)
  : M (hval * hval * hval * hval * hval * hval) :=
  l <~ py_iter v;;
  match l with
  | [a; b; c; d; e; f] => ret (a, b, c, d, e, f)
  | _ => raise (ValueError Unpack)
  end.

(** [for i, x in enumerate(v)].  The iterator of a list reads position [i]
    of the list when iteration [i] starts, so it sees what the body wrote;
    [steps] bounds the number of iterations.  The elements of a tuple, a
    string or a dict are fixed when the loop starts (the body of every loop
    below raises on a string, and a tuple cannot change). *)
Fixpoint for_list {St} (steps : nat) (l : loc) (i : nat)
    (body : St → nat → hval → M St) (s : St) : M St :=
  match steps with
  | O => fail Stuck
  | S steps =>
      o <~ deref l;;
      match o with
      | OList xs =>
          match xs !! i with
          | None => ret s
          | Some x => s' <~ body s i x;; for_list steps l (S i) body s'
          end
      | ODict _ => fail Stuck
      end
  end.

Fixpoint for_seq {St} (body : St → nat → hval → M St) (i : nat) (s : St)
    (xs : list hval) : M St :=
  match xs with
  | [] => ret s
  | x :: r => s' <~ body s i x;; for_seq body (S i) s' r
  end.

Definition py_for {St} (steps : nat) (v : hval)
    (body : St → nat → hval → M St) (s : St) : M St :=
  sh <~ view v;;
  match sh with
  | SList l _ => for_list steps l 0 body s
  | STuple xs => for_seq body 0 s xs
  | SStr str => for_seq body 0 s (str_chars str)
  | SDict _ d => for_seq body 0 s (map (λ kv, HStr kv.1) d)
  | SNone | SBool _ | SInt _ => raise TypeError
  end.

(** [copy.deepcopy(v)].  [memo] maps the objects already copied to their
    copies, so that sharing and cycles are copied as such; the copy of a list
    or dict is allocated empty and filled element by element. *)
Definition memo_get (memo : list (loc * hval)) (l : loc) : option hval :=
  snd <$> List.find (λ p, bool_decide (p.1 = l)) memo.

Fixpoint deepcopy (fuel : nat) (memo : list (loc * hval)) (v : hval)
  : M (hval * list (loc * hval)) :=
  match fuel with
  | O => raise RecursionError
  | S fuel =>
      match v with
      | HRef l =>
          match memo_get memo l with
          | Some y => ret (y, memo)
          | None =>
              o <~ deref l;;
              match o with
              | OList xs =>
                  y <~ alloc (OList []);;
                  memo <~ mfold (λ memo a,
                                   r <~ deepcopy fuel memo a;;
                                   py_append y r.1;;; ret r.2)
                                ((l, y) :: memo) xs;;
                  ret (y, memo)
              | ODict d =>
                  y <~ alloc (ODict []);;
                  memo <~ mfold (λ memo kv,
                                   r <~ deepcopy fuel memo kv.2;;
                                   py_setitem_key y kv.1 r.1;;; ret r.2)
                                ((l, y) :: memo) d;;
                  ret (y, memo)
              end
          end
      | HTuple xs =>
          r <~ mfold (λ acc a,
                        r <~ deepcopy fuel acc.2 a;;
                        ret (acc.1 ++ [r.1], r.2))
                     ([], memo) xs;;
          ret (HTuple r.1, r.2)
      | HNone | HBool _ | HInt _ | HStr _ => ret (v, memo)
      end
  end.

(** *** convert_setget_to_hardlines *)

Abbreviation triple := (hval * hval * hval)%type.

Definition tuple3 (c : triple) : hval := HTuple [c.1.1; c.1.2; c.2].

(** [(n.get('widgets_values') or [None])[0]] *)
Definition bound_name (n : hval) : M hval :=
  wv <~ py_get n "widgets_values";;
  t <~ truthy wv;;
  seq <~ (if t then ret wv else alloc (OList [HNone]));;
  py_getitem_idx seq 0.

(** [0 <= slot_index < len(outs)] *)
Definition slot_in_range (slot_index outs : hval) : M (option nat) :=
  match num slot_index with
  | None => raise TypeError
  | Some z =>
      if z <? 0 then ret None
      else
        n <~ py_len outs;;
        ret (if z <? n then Some (Z.to_nat z) else None)
  end.

Section store_passes.
(** [limit] is the interpreter's recursion limit, [steps] the bound on the
    iterations of a loop. *)
Variables limit steps : nat.
Variables nodes_by_id link_map : kdict hval.

Definition add_output_link (node_id slot_index link_id : hval) : M unit :=
  r <~ kdict_lookup nodes_by_id node_id;;
  match r with
  | None => ret tt
  | Some node =>
      outs <~ py_get_default node "outputs" (alloc (OList []));;
      r <~ slot_in_range slot_index outs;;
      match r with
      | None => ret tt
      | Some s =>
          port <~ py_getitem_idx outs s;;
          lk <~ py_get port "links";;
          (if is_none lk then
             new <~ alloc (OList []);;
             port <~ py_getitem_idx outs s;;
             py_setitem_key port "links" new
           else ret tt);;;
          port <~ py_getitem_idx outs s;;
          lk <~ py_getitem_key port "links";;
          present <~ py_contains limit lk link_id;;
          if present then ret tt
          else
            port <~ py_getitem_idx outs s;;
            lk <~ py_getitem_key port "links";;
            py_append lk link_id
      end
  end.

Definition remove_output_link (node_id : hval) (slot_index : nat)
    (link_id : hval) : M unit :=
  r <~ kdict_lookup nodes_by_id node_id;;
  match r with
  | None => ret tt
  | Some node =>
      outs <~ py_get_default node "outputs" (alloc (OList []));;
      n <~ py_len outs;;
      if Z.of_nat slot_index <? n then
        port <~ py_getitem_idx outs slot_index;;
        links <~ py_get port "links";;
        sh <~ view links;;
        match sh with
        | SList _ _ =>
            present <~ py_contains limit links link_id;;
            if present then py_remove limit links link_id else ret tt
        | _ => ret tt
        end
      else ret tt
  end.

(** The body of the first loop over [wf['nodes']]; the accumulator is
    [(name_to_source, conflicts)]. *)
Definition set_node (acc : kdict triple * list hval) (n : hval)
  : M (kdict triple * list hval) :=
  ty <~ py_get n "type";;
  is_set <~ py_eq limit ty (HStr "SetNode");;
  if negb is_set then ret acc else
  name <~ bound_name n;;
  t <~ truthy name;;
  if negb t then ret acc else
  inputs <~ py_get n "inputs";;
  t <~ truthy inputs;;
  if negb t then ret acc else
  inputs <~ py_getitem_key n "inputs";;
  inp <~ py_getitem_idx inputs 0;;
  link_id <~ py_get inp "link";;
  if is_none link_id then ret acc else
  r <~ kdict_lookup link_map link_id;;
  match r with
  | None => ret acc
  | Some link =>
      t <~ truthy link;;
      if negb t then ret acc else
      fields <~ py_unpack6 link;;
      let '(_, src_node, src_slot, _, _, ltype) := fields in
      let candidate := (src_node, src_slot, ltype) in
      prev <~ kdict_lookup acc.1 name;;
      match prev with
      | Some pv =>
          same <~ py_eq limit (tuple3 pv) (tuple3 candidate);;
          if negb same then
            nid <~ py_getitem_key n "id";;
            ret (acc.1,
                 acc.2 ++ [HTuple [name; tuple3 pv; tuple3 candidate; nid]])
          else ret (kdict_set acc.1 name candidate, acc.2)
      | None => ret (kdict_set acc.1 name candidate, acc.2)
      end
  end.

Variable name_to_source : kdict triple.

(** The body of the innermost loop; the accumulator is
    [(rewired, skipped_gets)]. *)
Definition rewire_link (name : hval) (c : triple) (n : hval) (k : nat)
    (s : list hval * list hval) (lid : hval) : M (list hval * list hval) :=
  r <~ kdict_lookup link_map lid;;
  match r with
  | None => ret s
  | Some link =>
      t <~ truthy link;;
      if negb t then ret s else
      py_setitem_idx link 1 c.1.1;;;
      py_setitem_idx link 2 c.1.2;;;
      py_setitem_idx link 5 c.2;;;
      add_output_link c.1.1 c.1.2 lid;;;
      nid <~ py_getitem_key n "id";;
      remove_output_link nid k lid;;;
      nid <~ py_getitem_key n "id";;
      ret (s.1 ++ [HTuple [name; lid; nid; c.1.1]], s.2)
  end.

(** The body of [for out_slot_index, out in enumerate(outs)]. *)
Definition rewire_port (name : hval) (c : triple) (n : hval)
    (s : list hval * list hval) (k : nat) (out : hval)
  : M (list hval * list hval) :=
  lk <~ py_get out "links";;
  t <~ truthy lk;;
  src <~ (if t then ret lk else alloc (OList []));;
  link_ids <~ py_iter src;;
  mfold (rewire_link name c n k) s link_ids.

(** The body of the second loop over [wf['nodes']]. *)
Definition get_node (s : list hval * list hval) (n : hval)
  : M (list hval * list hval) :=
  ty <~ py_get n "type";;
  is_get <~ py_eq limit ty (HStr "GetNode");;
  if negb is_get then ret s else
  name <~ bound_name n;;
  r <~ kdict_lookup name_to_source name;;
  match r with
  | None =>
      nid <~ py_getitem_key n "id";;
      ret (s.1, s.2 ++ [HTuple [nid; name]])
  | Some c =>
      outs <~ py_get_default n "outputs" (alloc (OList []));;
      py_for steps outs (rewire_port name c n) s
  end.

(** [n.get('type') in ('SetNode', 'GetNode')] *)
Definition is_routing (n : hval) : M bool :=
  ty <~ py_get n "type";;
  py_contains limit (HTuple [HStr "SetNode"; HStr "GetNode"]) ty.

(** The accumulator is [(new_nodes, dropped_ids)]. *)
Definition drop_node (acc : list hval * list hval) (n : hval)
  : M (list hval * list hval) :=
  b <~ is_routing n;;
  if b then
    nid <~ py_getitem_key n "id";;
    if py_hashable nid then ret (acc.1, acc.2 ++ [nid]) else raise TypeError
  else ret (acc.1 ++ [n], acc.2).

(** [x in dropped_ids] *)
Definition in_dropped (dropped : list hval) (x : hval) : M bool :=
  if py_hashable x then ret (existsb (key_eq x) dropped) else raise TypeError.

Definition drop_link (dropped : list hval) (keep : list hval) (l : hval)
  : M (list hval) :=
  fields <~ py_unpack6 l;;
  let '(_, from_id, _, to_id, _, _) := fields in
  b <~ in_dropped dropped from_id;;
  if b then ret keep else
  b <~ in_dropped dropped to_id;;
  if b then ret keep else ret (keep ++ [l]).

(** The [if drop_setget:] block.  [new_nodes] and [keep_links] enter the
    store when they are assigned to the workflow. *)
Definition prune (wf : hval) : M unit :=
  nodes <~ py_getitem_key wf "nodes";;
  r <~ py_for steps nodes (λ acc _ n, drop_node acc n) ([], []);;
  new_nodes <~ alloc (OList r.1);;
  py_setitem_key wf "nodes" new_nodes;;;
  links <~ py_getitem_key wf "links";;
  keep <~ py_for steps links (λ keep _ l, drop_link r.2 keep l) [];;
  keep_links <~ alloc (OList keep);;
  py_setitem_key wf "links" keep_links.

(** [wf.setdefault('extra', {}).setdefault('__hardline_rewire', {})[key] = v] *)
Definition set_report (wf : hval) (key : string) (v : hval) : M unit :=
  extra <~ py_setdefault wf "extra" (alloc (ODict []));;
  rep <~ py_setdefault extra "__hardline_rewire" (alloc (ODict []));;
  py_setitem_key rep key v.
End store_passes.

Definition index_by (key : hval → M hval) (acc : kdict hval) (x : hval)
  : M (kdict hval) :=
  k <~ key x;;
  if py_hashable k then ret (kdict_set acc k x) else raise TypeError.

(** The function after [wf = deepcopy(workflow)]. *)
Definition rewire (limit steps : nat) (wf : hval) (drop_setget : bool)
  : M hval :=
  has_nodes <~ py_contains limit wf (HStr "nodes");;
  if negb has_nodes then raise (ValueError NotAWorkflow) else
  has_links <~ py_contains limit wf (HStr "links");;
  if negb has_links then raise (ValueError NotAWorkflow) else
  nodes <~ py_getitem_key wf "nodes";;
  nodes_by_id <~ py_for steps nodes
                   (λ acc _ n, index_by (λ n, py_getitem_key n "id") acc n) [];;
  links <~ py_getitem_key wf "links";;
  link_map <~ py_for steps links
                (λ acc _ l, index_by (λ l, py_getitem_idx l 0) acc l) [];;
  nodes <~ py_getitem_key wf "nodes";;
  r <~ py_for steps nodes (λ acc _ n, set_node limit link_map acc n) ([], []);;
  let '(name_to_source, conflicts) := r in
  nodes <~ py_getitem_key wf "nodes";;
  s <~ py_for steps nodes
         (λ s _ n, get_node limit steps nodes_by_id link_map name_to_source s n)
         ([], []);;
  let '(rewired, skipped_gets) := s in
  (if drop_setget then prune limit steps wf else ret tt);;;
  set_report wf "rewired_count" (HInt (Z.of_nat (length rewired)));;;
  skipped <~ alloc (OList skipped_gets);;
  set_report wf "skipped_gets" skipped;;;
  conflicts <~ alloc (OList conflicts);;
  set_report wf "conflicts" conflicts;;;
  ret wf.

Definition convert_setget_to_hardlines (limit steps : nat)
    (workflow : hval) (drop_setget : bool) : M hval :=
  r <~ deepcopy limit [] workflow;;
  rewire limit steps r.1 drop_setget.

(** *** Between the store and the tree model *)

(** A tree of values laid out in the store, and the tree a value of the
    store denotes ([None] for a dangling reference or beyond depth
    [fuel]). *)
Fixpoint store_value (v : value) : M hval :=
  match v with
  | VNone => ret HNone
  | VBool b => ret (HBool b)
  | VInt z => ret (HInt z)
  | VStr s => ret (HStr s)
  | VTuple l =>
      xs <~ (fix go (l : list value) : M (list hval) :=
               match l with
               | [] => ret []
               | x :: r => a <~ store_value x;; b <~ go r;; ret (a :: b)
               end) l;;
      ret (HTuple xs)
  | VList l =>
      xs <~ (fix go (l : list value) : M (list hval) :=
               match l with
               | [] => ret []
               | x :: r => a <~ store_value x;; b <~ go r;; ret (a :: b)
               end) l;;
      alloc (OList xs)
  | VDict d =>
      xs <~ (fix go (d : list (string * value)) : M (list (string * hval)) :=
               match d with
               | [] => ret []
               | kv :: r =>
                   a <~ store_value kv.2;; b <~ go r;; ret ((kv.1, a) :: b)
               end) d;;
      alloc (ODict xs)
  end.

Fixpoint reify (fuel : nat) (h : heap) (v : hval) : option value :=
  match fuel with
  | O => None
  | S fuel =>
      match v with
      | HNone => Some VNone
      | HBool b => Some (VBool b)
      | HInt z => Some (VInt z)
      | HStr s => Some (VStr s)
      | HTuple xs => VTuple <$> mapM (reify fuel h) xs
      | HRef l =>
          match h !! l with
          | Some (OList xs) => VList <$> mapM (reify fuel h) xs
          | Some (ODict d) =>
              VDict <$> mapM (λ kv, pair kv.1 <$> reify fuel h kv.2) d
          | None => None
          end
      end
  end.

(** The caller's side of a call: the workflow is laid out in an empty
    store, the function runs, and the caller looks at its own workflow and
    at what was returned. *)
Definition call (f : hval → M hval) (workflow : value)
  : option value * option (value + fault) :=
  match store_value workflow [] with
  | (inl root, h) =>
      match f root h with
      | (inl out, h') => (reify 64 h' root, inl <$> reify 64 h' out)
      | (inr e, h') => (reify 64 h' root, Some (inr e))
      end
  | (inr e, _) => (None, None)
  end.

(** *** Objects a call may write *)

(** [n0] is the size of the store when the call starts: the objects below
    [n0] are the caller's.  A datum is fresh when every reference in it
    points at or above [n0]. *)
Fixpoint fresh_val (n0 : nat) (v : hval) : Prop :=
  match v with
  | HRef l => (n0 ≤ l)%nat
  | HTuple xs =>
      (fix go (xs : list hval) : Prop :=
         match xs with
         | [] => True
         | x :: r => fresh_val n0 x ∧ go r
         end) xs
  | HNone | HBool _ | HInt _ | HStr _ => True
  end.

Class Fresh (n0 : nat) (A : Type) := fresh : A → Prop.
Arguments fresh n0 {A _} a.

#[global] Instance fresh_hval n0 : Fresh n0 hval := fresh_val n0.
#[global] Instance fresh_unit n0 : Fresh n0 unit := λ _, True.
#[global] Instance fresh_bool n0 : Fresh n0 bool := λ _, True.
#[global] Instance fresh_nat n0 : Fresh n0 nat := λ _, True.
#[global] Instance fresh_Z n0 : Fresh n0 Z := λ _, True.
#[global] Instance fresh_string n0 : Fresh n0 string := λ _, True.
#[global] Instance fresh_list n0 `{Fresh n0 A} : Fresh n0 (list A) :=
  Forall (fresh n0).
#[global] Instance fresh_prod n0 `{Fresh n0 A, Fresh n0 B} : Fresh n0 (A * B) :=
  λ p, fresh n0 p.1 ∧ fresh n0 p.2.
#[global] Instance fresh_option n0 `{Fresh n0 A} : Fresh n0 (option A) :=
  λ o, match o with Some a => fresh n0 a | None => True end.
#[global] Instance fresh_obj n0 : Fresh n0 obj :=
  λ o, match o with OList xs => fresh n0 xs | ODict d => fresh n0 d end.
#[global] Instance fresh_shape n0 : Fresh n0 shape :=
  λ sh, match sh with
        | STuple xs => fresh n0 xs
        | SList l xs => (n0 ≤ l)%nat ∧ fresh n0 xs
        | SDict l d => (n0 ≤ l)%nat ∧ fresh n0 d
        | SNone | SBool _ | SInt _ | SStr _ => True
        end.

(** The objects allocated since the call started hold fresh data only. *)
Definition closed (n0 : nat) (h : heap) : Prop :=
  (n0 ≤ length h)%nat
  ∧ ∀ l o, (n0 ≤ l)%nat → h !! l = Some o → fresh n0 o.

(** The caller's objects are what they were. *)
Definition kept (n0 : nat) (h h' : heap) : Prop :=
  ∀ l, (l < n0)%nat → h' !! l = h !! l.

(** [m] leaves the caller's objects alone and returns a datum that
    satisfies [P]. *)
Definition sound (n0 : nat) {A} (P : A → Prop) (m : M A) : Prop :=
  ∀ h, closed n0 h →
       closed n0 (m h).2 ∧ kept n0 h (m h).2
       ∧ ∀ a, (m h).1 = inl a → P a.

Definition safe (n0 : nat) {A} `{Fresh n0 A} (m : M A) : Prop :=
  sound n0 (fresh n0) m.

(** The workflow of the specification's example in a store of its own. *)
Definition example_store : hval * heap :=
  match store_value wf_example [] with
  | (inl root, h) => (root, h)
  | (inr _, h) => (HNone, h)
  end.
End Store.

Definition tree_outcome (r : result value) : option (value + Store.fault) :=
  match r with
  | Ok v => Some (inl v)
  | Raise e => Some (inr (Store.Py e))
  end.

(** ** Further observations *)

(** [wf['extra'][k]], where there is such an entry. *)
Definition extra_entry (wf : dict) (k : string) : option value :=
  match dict_get wf "extra" with
  | Some (VDict extra) => dict_get extra k
  | _ => None
  end.

(** A link the pruning loop reads without an exception: it unpacks into six
    fields, and its source and target ids are hashable. *)
Definition link_prunable (l : value) : bool :=
  match py_unpack6 l with
  | Ok (_, src, _, dst, _, _) => py_hashable src && py_hashable dst
  | Raise _ => false
  end.

(** [x] is among the link ids of some port of some node of the list. *)
Definition on_some_port (ns : list value) (x : value) : Prop :=
  ∃ n k, n ∈ ns ∧ port_has n k x = true.

(** Every id on a port of [ns] is an id on a port of [ns0]. *)
Definition ids_known (ns0 ns : list value) : Prop :=
  ∀ n k y, n ∈ ns → port_has n k y = true → on_some_port ns0 y.

(** What goes wrong when [x] enters [{key(x): x for x in xs}]: the key
    expression raises, or the key is unhashable. *)
Definition key_fault (key : value → result value) (x : value) : option exn :=
  match key x with
  | Raise e => Some e
  | Ok k => if py_hashable k then None else Some TypeError
  end.

(** The links of [s] are those of [ls0] wherever [link_map] does not point,
    and likewise the nodes. *)
Definition links_indexed (link_map : pdict nat) (ls0 : list value)
    (s : state) : Prop :=
  ∀ q, (∀ x, pdict_get link_map x ≠ Some q) → st_links s !!! q = ls0 !!! q.

Definition nodes_indexed (nodes_by_id : pdict nat) (ns0 ns : list value)
  : Prop :=
  ∀ q, (∀ x, pdict_get nodes_by_id x ≠ Some q) → ns !!! q = ns0 !!! q.

(** *** Reachability in the store *)

(** [v] is the object at [l], or a tuple with such an element at some
    depth. *)
Fixpoint holds (v : Store.hval) (l : nat) : Prop :=
  match v with
  | Store.HRef l' => l' = l
  | Store.HTuple xs =>
      (fix go (xs : list Store.hval) : Prop :=
         match xs with
         | [] => False
         | x :: r => holds x l ∨ go r
         end) xs
  | _ => False
  end.

Definition obj_elems (o : Store.obj) : list Store.hval :=
  match o with
  | Store.OList xs => xs
  | Store.ODict d => map snd d
  end.

(** The objects one can get to from [v] by following references. *)
Inductive reaches (h : list Store.obj) : Store.hval → nat → Prop :=
| reaches_held v l : holds v l → reaches h v l
| reaches_through v l o x l' :
    holds v l → h !! l = Some o → x ∈ obj_elems o → reaches h x l' →
    reaches h v l'.

(** [y] is among the link ids of some port of a GetNode of [ns0]. *)
Definition on_get_port (ns0 : list value) (y : value) : Prop :=
  ∃ j k, is_get (ns0 !!! j) = true ∧ port_has (ns0 !!! j) k y = true.

(** The ids on the ports of the GetNodes are ids the GetNodes of [ns0]
    held, and only links such an id maps to have changed. *)
Definition get_ports_known (ns0 : list value) (s : state) : Prop :=
  ∀ j k y, is_get (ns0 !!! j) = true →
           port_has (st_nodes s !!! j) k y = true → on_get_port ns0 y.

Definition links_known (link_map : pdict nat) (ns0 ls0 : list value)
    (s : state) : Prop :=
  ∀ p, (∀ x, on_get_port ns0 x → pdict_get link_map x ≠ Some p) →
       st_links s !!! p = ls0 !!! p.

(** Position [q] is neither where [nodes_by_id] finds the source of a
    binding nor where it finds the id of a GetNode. *)
Definition off_the_routes (nodes_by_id : pdict nat)
    (name_to_source : pdict triple) (ns0 : list value) (q : nat) : Prop :=
  (∀ name c, pdict_get name_to_source name = Some c →
             pdict_get nodes_by_id c.1.1 ≠ Some q)
  ∧ (∀ j nid, is_get (ns0 !!! j) = true → node_key (ns0 !!! j) = Ok nid →
              pdict_get nodes_by_id nid ≠ Some q).

Definition nodes_off_routes_kept (nodes_by_id : pdict nat)
    (name_to_source : pdict triple) (ns0 : list value) (s : state) : Prop :=
  ∀ q, off_the_routes nodes_by_id name_to_source ns0 q →
       st_nodes s !!! q = ns0 !!! q.

(** ** The GUI's computations *)

(** [App.convert], lines 335-341: what the method reads back from the
    returned workflow for its message, namely the value shown as
    "Rewired links" and the two lengths shown as "Skipped GetNodes" and
    "Conflicts", in the order the f-string evaluates them. *)
Definition summary_stats (new_wf : value) : result (value * Z * Z) :=
  extra <- py_get_default new_wf "extra" (VDict []);;
  rep <- py_get_default extra "__hardline_rewire" (VDict []);;
  let stats := if truthy rep then rep else VDict [] in
  rewired_count <- py_get stats "rewired_count";;
  skipped <- py_get stats "skipped_gets";;
  n_skipped <- py_len (if truthy skipped then skipped else VList []);;
  conflicts <- py_get stats "conflicts";;
  n_conflicts <- py_len (if truthy conflicts then conflicts else VList []);;
  Ok (rewired_count, n_skipped, n_conflicts).

(** [App.default_output_path].  A [pathlib] path is seen as what precedes
    its final component and the final component, its [name] (empty for a root
    and for [Path('.')]).  [stem] and [suffix] are [pathlib]'s way of
    splitting a name in two, [valid_name] is the test of [with_name] on the
    new name: they belong to the library and are parameters here. *)
Record path := Path { p_parent : string; p_name : string }.

Section default_output.
Variables stem suffix : string → string.
Variable valid_name : string → bool.

(** [p.with_name(name)]; [None] stands for its ValueError, raised for a path
    without a name and for a name the library rejects. *)
Definition with_name (p : path) (name : string) : option path :=
  if String.eqb (p_name p) "" then None
  else if valid_name name then Some {| p_parent := p_parent p; p_name := name |}
  else None.

(** [suffix_var] is [self.suffix_var.get()]. *)
Definition default_output_path (suffix_var : string) (in_path : path)
  : option path :=
  let suf := if String.eqb suffix_var "" then "_hardline" else suffix_var in
  with_name in_path
    (String.append (String.append (stem (p_name in_path)) suf)
       (suffix (p_name in_path))).
End default_output.

(** [PurePath.stem] and [PurePath.suffix] as CPython has them up to 3.13:
    the name is split at its last dot, unless that dot is its first or its
    last character. *)
Fixpoint rfind_dot (s : string) : option nat :=
  match s with
  | EmptyString => None
  | String c r =>
      match rfind_dot r with
      | Some i => Some (S i)
      | None => if String.eqb (String c EmptyString) "." then Some 0%nat else None
      end
  end.

Definition split_at (name : string) : option nat :=
  match rfind_dot name with
  | Some i =>
      if ((0 <? i)%nat && (i <? String.length name - 1)%nat)%bool then Some i
      else None
  | None => None
  end.

Definition py_stem (name : string) : string :=
  match split_at name with
  | Some i => String.substring 0 i name
  | None => name
  end.

Definition py_suffix (name : string) : string :=
  match split_at name with
  | Some i => String.substring i (String.length name - i) name
  | None => ""
  end.

(** [with_name]'s test on the new name, as CPython 3.12 and 3.13 have it on
    POSIX: a name is not empty, not ["."] and has no ["/"].  (Up to 3.11 the
    name is parsed instead, and a name such as ["wf/."] is accepted.) *)
Fixpoint has_slash (s : string) : bool :=
  match s with
  | EmptyString => false
  | String c r => String.eqb (String c EmptyString) "/" || has_slash r
  end.

Definition posix_valid_name (name : string) : bool :=
  negb (String.eqb name "") && negb (String.eqb name ".")
  && negb (has_slash name).

(** Two nodes with id 5 and two links with id 20: the tables keep the later
    of each. *)
Definition g_shadow : dict :=
  graph_of
    [plain_node 5 [] [10]; plain_node 5 [] []; set_node_of 1 "X" 10;
     get_node_of 2 "X" [20]; plain_node 3 [20] []]
    [link6 20 9 9 9 9 "OLD"; link6 10 5 0 1 0 "T"; link6 20 2 0 3 0 "T"].

(** A link without fields. *)
Definition g_bad_link : dict :=
  graph_of [plain_node 5 [] []] [VList []].

(** The example of the specification with entries of the caller's own. *)
Definition g_annotated : dict :=
  [("version", VInt 1);
   ("nodes", VList [plain_node 5 [] [10]; set_node_of 1 "X" 10;
                    get_node_of 2 "X" [20]; plain_node 3 [20] []]);
   ("links", VList [link6 10 5 0 1 0 "IMAGE"; link6 20 2 0 3 0 "IMAGE"]);
   ("extra", VDict [("ds", VStr "view")])].

(** * Properties *)

(** ** The result monad *)

Lemma bind_Ok {A B} (m : result A) (f : A → result B) (b : B) :
  bind m f = Ok b → ∃ a, m = Ok a ∧ f a = Ok b.
Proof. destruct m as [a|e]; simpl; [eauto | discriminate]. Qed.

(** Splits a successful run into its successful steps. *)
Ltac inv_ok :=
  repeat match goal with
  | H : Raise _ = Ok _ |- _ => discriminate H
  | H : Ok _ = Raise _ |- _ => discriminate H
  | H : Ok _ = Ok _ |- _ => injection H as H; try subst
  | H : bind ?m _ = Ok _ |- _ =>
      let a := fresh "a" in
      let E := fresh "E" in
      apply bind_Ok in H; destruct H as (a & E & H)
  | H : (if ?b then _ else _) = Ok _ |- _ =>
      let E := fresh "E" in destruct b eqn:E
  | H : match ?x with _ => _ end = Ok _ |- _ =>
      let E := fresh "E" in destruct x eqn:E
  end.

Lemma foldM_app {A S} (f : S → A → result S) s xs ys :
  foldM f s (xs ++ ys) = (s' <- foldM f s xs;; foldM f s' ys).
Proof.
  revert s; induction xs as [|x xs IH]; intros s; simpl; [done|].
  destruct (f s x); simpl; auto.
Qed.

(** A loop invariant. *)
Lemma foldM_inv {A S} (P : S → Prop) (f : S → A → result S) xs s s' :
  P s →
  (∀ s x s', x ∈ xs → P s → f s x = Ok s' → P s') →
  foldM f s xs = Ok s' → P s'.
Proof.
  revert s; induction xs as [|x xs IH]; intros s Hs Hstep H; simpl in H.
  - by inv_ok.
  - inv_ok. eapply IH; [| |exact H].
    + eapply Hstep; [left| |]; eauto.
    + intros; eapply Hstep; [right| |]; eauto.
Qed.

(** A loop invariant that depends on the position reached. *)
Lemma foldM_seq_inv {St} (P : nat → St → Prop) (f : St → nat → result St) a n s s' :
  P a s →
  (∀ m s s', (a ≤ m < a + n)%nat → P m s → f s m = Ok s' → P (S m) s') →
  foldM f s (seq a n) = Ok s' → P (a + n)%nat s'.
Proof.
  revert a s; induction n as [|n IH]; intros a s Hs Hstep H; simpl in H.
  - inv_ok. by rewrite Nat.add_0_r.
  - inv_ok. replace (a + S n)%nat with (S a + n)%nat by lia.
    eapply IH; [| |exact H].
    + eapply Hstep; [|exact Hs|exact E]. lia.
    + intros m s1 s2 Hm. apply Hstep. lia.
Qed.

(** ** Equality of values *)

Lemma value_eqb_refl v : value_eqb v v = true.
Proof.
  induction v as [| | | |l IH|l IH|d IH] using value_nested_ind; simpl.
  - done.
  - by destruct b.
  - apply Z.eqb_refl.
  - apply String.eqb_refl.
  - induction IH as [|x l Hx _ IHl]; [done|]. by rewrite Hx, IHl.
  - induction IH as [|x l Hx _ IHl]; [done|]. by rewrite Hx, IHl.
  - induction IH as [|[k x] l Hx _ IHl]; [done|].
    simpl in Hx. by rewrite String.eqb_refl, Hx, IHl.
Qed.

Lemma value_eqb_eq a b : value_eqb a b = true ↔ a = b.
Proof.
  split; [|intros ->; apply value_eqb_refl].
  revert b.
  induction a as [| | | |l IH|l IH|d IH] using value_nested_ind;
    intros [| | | |m|m|m]; simpl; try discriminate; try done.
  - intros H. f_equal. by apply Bool.eqb_prop.
  - intros H. f_equal. by apply Z.eqb_eq.
  - intros H. f_equal. by apply String.eqb_eq.
  - intros H. f_equal. revert m H.
    induction IH as [|x l Hx _ IHl]; intros [|y m] H; try done.
    apply andb_true_iff in H as [H1 H2]. f_equal; auto.
  - intros H. f_equal. revert m H.
    induction IH as [|x l Hx _ IHl]; intros [|y m] H; try done.
    apply andb_true_iff in H as [H1 H2]. f_equal; auto.
  - intros H. f_equal. revert m H.
    induction IH as [|[k x] l Hx _ IHl]; intros [|[k' y] m] H; try done.
    apply andb_true_iff in H as [H1 H2].
    apply andb_true_iff in H1 as [H0 H1].
    apply String.eqb_eq in H0. simpl in Hx. f_equal; [f_equal|]; auto.
Qed.

(** [==] is the kernel of [norm], hence an equivalence. *)
Lemma py_eq_norm a b : py_eq a b = true ↔ norm a = norm b.
Proof. apply value_eqb_eq. Qed.

Lemma py_eq_refl a : py_eq a a = true.
Proof. by apply py_eq_norm. Qed.

Lemma py_eq_sym a b : py_eq a b = py_eq b a.
Proof.
  destruct (py_eq a b) eqn:E1, (py_eq b a) eqn:E2; try done.
  - apply py_eq_norm in E1. symmetry in E1. apply py_eq_norm in E1. congruence.
  - apply py_eq_norm in E2. symmetry in E2. apply py_eq_norm in E2. congruence.
Qed.

Lemma py_eq_trans a b c : py_eq a b = true → py_eq b c = true → py_eq a c = true.
Proof. rewrite !py_eq_norm. congruence. Qed.

(** Equal values are interchangeable on either side of [==]. *)
Lemma py_eq_congr_l a b c : py_eq a b = true → py_eq a c = py_eq b c.
Proof.
  intros Hab. destruct (py_eq b c) eqn:E.
  - eapply py_eq_trans; eauto.
  - destruct (py_eq a c) eqn:E'; [|done].
    rewrite py_eq_sym in Hab. rewrite <- E. symmetry. eapply py_eq_trans; eauto.
Qed.

Lemma py_eq_congr_r a b c : py_eq a b = true → py_eq c a = py_eq c b.
Proof. intros. rewrite (py_eq_sym c a), (py_eq_sym c b). by apply py_eq_congr_l. Qed.

Lemma py_eq_str v s : py_eq v (VStr s) = true ↔ v = VStr s.
Proof.
  rewrite py_eq_norm. split; [|by intros ->].
  destruct v; simpl; try discriminate; done.
Qed.

Lemma py_hashable_norm a b : norm a = norm b → py_hashable a = py_hashable b.
Proof.
  revert b.
  induction a as [| | | |l IH|l IH|d IH] using value_nested_ind;
    intros [| | | |m|m|m]; simpl; try discriminate; try done.
  intros H. injection H as H. revert m H.
  induction IH as [|x l Hx _ IHl]; intros [|y m] H; simpl in *; try done.
  injection H as H1 H2. rewrite (Hx _ H1). f_equal. auto.
Qed.

Lemma py_hashable_eq a b : py_eq a b = true → py_hashable a = py_hashable b.
Proof. rewrite py_eq_norm. apply py_hashable_norm. Qed.

Lemma map_result_decide {A} (f : A → result A) (g : A → bool) e (xs : list A) :
  Forall (λ x, f x = if g x then Ok x else Raise e) xs →
  map_result f xs = if forallb g xs then Ok xs else Raise e.
Proof.
  induction 1 as [|x xs Hx _ IH]; simpl; [done|].
  rewrite Hx. destruct (g x); simpl; [|done]. rewrite IH.
  by destruct (forallb g xs).
Qed.

Lemma forallb_depth {A} (f : A → nat) (xs : list A) n :
  forallb (λ x, (f x <=? n)%nat) xs
  = (foldr Nat.max 0%nat (map f xs) <=? n)%nat.
Proof.
  induction xs as [|x xs IH]; simpl; [done|]. rewrite IH.
  destruct (f x <=? n)%nat eqn:E1,
    (foldr Nat.max 0%nat (map f xs) <=? n)%nat eqn:E2; simpl; symmetry;
    rewrite ?Nat.leb_le, ?Nat.leb_gt in *; lia.
Qed.

(** The copy is the value, or the value is nested too deeply. *)
Lemma deepcopy_depth limit : ∀ v,
  deepcopy limit v
  = if (depth v <=? limit)%nat then Ok v else Raise RecursionError.
Proof.
  induction limit as [|limit IH]; intros v.
  - by destruct v.
  - destruct v as [| | | |l|l|d]; simpl; try done.
    + rewrite (map_result_decide _ (λ x, (depth x <=? limit)%nat) RecursionError)
        by (apply List.Forall_forall; intros x _; apply IH).
      rewrite forallb_depth. by destruct (_ <=? _)%nat.
    + rewrite (map_result_decide _ (λ x, (depth x <=? limit)%nat) RecursionError)
        by (apply List.Forall_forall; intros x _; apply IH).
      rewrite forallb_depth. by destruct (_ <=? _)%nat.
    + rewrite (map_result_decide _ (λ kv, (depth kv.2 <=? limit)%nat) RecursionError).
      * rewrite (forallb_depth (λ kv : string * value, depth kv.2)).
        by destruct (_ <=? _)%nat.
      * apply List.Forall_forall. intros [k x] _. simpl. rewrite IH.
        by destruct (_ <=? _)%nat.
Qed.

Lemma deepcopy_Ok limit v v' :
  deepcopy limit v = Ok v' → v' = v ∧ (depth v ≤ limit)%nat.
Proof.
  rewrite deepcopy_depth. destruct (depth v <=? limit)%nat eqn:E; [|done].
  intros [= <-]. split; [done|]. by apply Nat.leb_le.
Qed.

Lemma deepcopy_fits limit v :
  (depth v ≤ limit)%nat → deepcopy limit v = Ok v.
Proof. intros H. rewrite deepcopy_depth. by apply Nat.leb_le in H as ->. Qed.

Lemma deepcopy_deep limit v :
  (limit < depth v)%nat → deepcopy limit v = Raise RecursionError.
Proof. intros H. rewrite deepcopy_depth. by apply Nat.leb_gt in H as ->. Qed.

(** ** Dicts *)

Lemma dict_get_set d k v : dict_get (dict_set d k v) k = Some v.
Proof.
  induction d as [|[k' v'] d IH]; simpl.
  - by rewrite String.eqb_refl.
  - destruct (String.eqb k' k) eqn:E; simpl; by rewrite E.
Qed.

Lemma dict_get_set_ne d k k' v : k ≠ k' → dict_get (dict_set d k v) k' = dict_get d k'.
Proof.
  intros Hne. induction d as [|[k0 v0] d IH]; simpl.
  - destruct (String.eqb k k') eqn:E; [|done]. by apply String.eqb_eq in E.
  - destruct (String.eqb k0 k) eqn:E; simpl.
    + apply String.eqb_eq in E as ->.
      destruct (String.eqb k k') eqn:E'; [|done]. by apply String.eqb_eq in E'.
    + by rewrite IH.
Qed.

Lemma dict_set_same d k v : dict_get d k = Some v → dict_set d k v = d.
Proof.
  induction d as [|[k' v'] d IH]; simpl; [done|].
  destruct (String.eqb k' k) eqn:E.
  - by intros [= ->].
  - intros H. by rewrite IH.
Qed.

Lemma pdict_get_congr {V} (d : pdict V) a b :
  py_eq a b = true → pdict_get d a = pdict_get d b.
Proof.
  intros Hab. induction d as [|[k v] d IH]; simpl; [done|].
  by rewrite (py_eq_congr_r a b k Hab), IH.
Qed.

Lemma pdict_get_set {V} (d : pdict V) k k' (v : V) :
  pdict_get (pdict_set d k v) k' =
  if py_eq k k' then Some v else pdict_get d k'.
Proof.
  induction d as [|[k0 v0] d IH]; simpl; [done|].
  destruct (py_eq k0 k) eqn:E; simpl.
  - rewrite (py_eq_congr_l k0 k k' E). by destruct (py_eq k k').
  - rewrite IH. destruct (py_eq k0 k') eqn:E'; [|done].
    destruct (py_eq k k') eqn:E''; [|done].
    rewrite py_eq_sym in E''. rewrite (py_eq_trans _ _ _ E' E'') in E. done.
Qed.

(** ** The report *)

Lemma report_of_set_ne wf k v :
  k ≠ "extra" → report_of (dict_set wf k v) = report_of wf.
Proof. intros H. unfold report_of. by rewrite dict_get_set_ne. Qed.

Lemma prior_report_set_ne wf k v :
  k ≠ "extra" → prior_report (dict_set wf k v) = prior_report wf.
Proof. intros H. unfold prior_report. by rewrite report_of_set_ne. Qed.

Lemma prior_report_store wf k xs :
  k ≠ "extra" → prior_report (store_elements wf k xs) = prior_report wf.
Proof.
  intros H. unfold store_elements.
  destruct (dict_get wf k) as [[]|]; try done; by apply prior_report_set_ne.
Qed.

Lemma set_report_Ok wf key v wf' :
  set_report wf key v = Ok wf' →
  report_of wf' = Some (VDict (dict_set (prior_report wf) key v))
  ∧ ∀ k, k ≠ "extra" → dict_get wf' k = dict_get wf k.
Proof.
  unfold set_report, prior_report, report_of. intros H.
  destruct (dict_get wf "extra") as [ex|] eqn:Eex; simpl in H.
  - destruct ex as [| | | | | |extra]; try discriminate.
    destruct (dict_get extra "__hardline_rewire") as [rp|] eqn:Erp; simpl in H.
    + destruct rp as [| | | | | |rep]; try discriminate. inv_ok.
      rewrite !dict_get_set. split; [done|]. intros; by apply dict_get_set_ne.
    + inv_ok. rewrite !dict_get_set. split; [done|].
      intros; by apply dict_get_set_ne.
  - inv_ok. rewrite !dict_get_set. simpl. split; [done|].
    intros; by apply dict_get_set_ne.
Qed.

Lemma attach_report_Ok wf rw sk cf wf' :
  attach_report wf rw sk cf = Ok wf' →
  report_of wf' =
    Some (VDict (dict_set (dict_set (dict_set (prior_report wf)
                   "rewired_count" (VInt (Z.of_nat (length rw))))
                   "skipped_gets" (VList sk))
                   "conflicts" (VList cf)))
  ∧ ∀ k, k ≠ "extra" → dict_get wf' k = dict_get wf k.
Proof.
  unfold attach_report. intros H. inv_ok.
  apply set_report_Ok in E as [R1 F1].
  apply set_report_Ok in E0 as [R2 F2].
  apply set_report_Ok in H as [R3 F3].
  unfold prior_report in R2, R3. rewrite R1 in R2. rewrite R2 in R3.
  split; [done|]. intros k Hk. by rewrite F3, F2, F1.
Qed.

(** The shape of a successful call. *)
Lemma convert_Ok limit workflow drop_setget out :
  convert_setget_to_hardlines limit workflow drop_setget = Ok out →
  ∃ d, workflow = VDict d
       ∧ is_Some (dict_get d "nodes") ∧ is_Some (dict_get d "links")
       ∧ rewire d drop_setget = Ok out.
Proof.
  unfold convert_setget_to_hardlines. intros H.
  apply bind_Ok in H as (wf & Hcopy & H).
  apply deepcopy_Ok in Hcopy as [-> _].
  inv_ok; simpl in *; try discriminate.
  exists d. split; [done|].
  simpl in E, E1. destruct (dict_get d "nodes"), (dict_get d "links");
    simpl in *; inv_ok; try done; eauto.
Qed.

Lemma convert_depth limit workflow drop_setget out :
  convert_setget_to_hardlines limit workflow drop_setget = Ok out →
  (depth workflow ≤ limit)%nat.
Proof.
  unfold convert_setget_to_hardlines. intros H.
  apply bind_Ok in H as (wf & Hcopy & _). by apply deepcopy_Ok in Hcopy as [_ ?].
Qed.

Lemma rewire_Ok d drop_setget out :
  rewire d drop_setget = Ok out →
  ∃ t st wf1 wf2,
    rewrite_pass d = Ok (t, st)
    ∧ wf1 = store_elements (store_elements d "nodes" (st_nodes st))
              "links" (st_links st)
    ∧ (if drop_setget then
         ∃ r, prune (st_nodes st) (st_links st) = Ok r
              ∧ wf2 = dict_set (dict_set wf1 "nodes" (VList r.1.1))
                        "links" (VList r.1.2)
       else wf2 = wf1)
    ∧ ∃ wf3, attach_report wf2 (st_rewired st) (st_skipped st) (t_conflicts t)
             = Ok wf3
             ∧ out = VDict wf3.
Proof.
  unfold rewire. intros H. inv_ok.
  - eexists _, _, _, _. split; [done|]. split; [done|]. split; [eauto|]. eauto.
  - eexists _, _, _, _. split; [done|]. split; [done|]. split; [eauto|]. eauto.
Qed.

(** ** C9: the report slot *)

(** C9, as the code has it.  After a successful call
    [extra.__hardline_rewire] is an object whose keys [rewired_count],
    [skipped_gets] and [conflicts] hold the values this call computed,
    replacing earlier values of these keys; every other key of an object that
    was already there is kept, and with no earlier entries the object has
    exactly these three keys. *)
Theorem report_attached limit workflow drop_setget out :
  convert_setget_to_hardlines limit workflow drop_setget = Ok out →
  ∃ d t st rep,
    workflow = VDict d
    ∧ rewrite_pass d = Ok (t, st)
    ∧ get_report out = Some (VDict rep)
    ∧ dict_get rep "rewired_count"
      = Some (VInt (Z.of_nat (length (st_rewired st))))
    ∧ dict_get rep "skipped_gets" = Some (VList (st_skipped st))
    ∧ dict_get rep "conflicts" = Some (VList (t_conflicts t))
    ∧ (∀ k, k ≠ "rewired_count" → k ≠ "skipped_gets" → k ≠ "conflicts" →
         dict_get rep k = dict_get (prior_report d) k)
    ∧ (prior_report d = [] →
       rep = [("rewired_count", VInt (Z.of_nat (length (st_rewired st))));
              ("skipped_gets", VList (st_skipped st));
              ("conflicts", VList (t_conflicts t))]).
Proof.
  intros H. apply convert_Ok in H as (d & -> & _ & _ & H).
  apply rewire_Ok in H as (t & st & wf1 & wf2 & Hpass & Hwf1 & Hwf2 & wf3 & Hrep & ->).
  apply attach_report_Ok in Hrep as [Hrep _].
  assert (prior_report wf2 = prior_report d) as Hprior.
  { assert (prior_report wf1 = prior_report d) as H1.
    { subst wf1. by rewrite !prior_report_store. }
    destruct drop_setget.
    - destruct Hwf2 as (r & _ & ->). by rewrite !prior_report_set_ne.
    - by subst wf2. }
  rewrite Hprior in Hrep.
  eexists d, t, st, _. split; [done|]. split; [done|]. split; [exact Hrep|].
  split; [by rewrite dict_get_set_ne, dict_get_set_ne, dict_get_set|].
  split; [by rewrite dict_get_set_ne, dict_get_set|].
  split; [by rewrite dict_get_set|].
  split.
  - intros k H1 H2 H3. by rewrite !dict_get_set_ne.
  - by intros ->.
Qed.

Lemma report_attached_witness :
  ∃ out, convert_setget_to_hardlines 64 wf_prior_report false = Ok out
         ∧ ∃ rep, get_report out = Some (VDict rep)
                  ∧ dict_get rep "rewired_count" = Some (VInt 0)
                  ∧ dict_get rep "foo" = Some (VInt 1).
Proof.
  eexists. split; [vm_compute; reflexivity|].
  destruct (report_attached 64 wf_prior_report false _ eq_refl)
    as (d & t & st & rep & Hd & Hpass & Hrep & Hrc & _ & _ & Hother & _).
  injection Hd as <-. vm_compute in Hpass. injection Hpass as <- <-.
  exists rep. split; [exact Hrep|]. split; [exact Hrc|].
  rewrite Hother; [reflexivity|discriminate..].
Defined.

(** C9 as stated fails: an entry already stored under the report key stays
    in the object, which then has four keys. *)
Lemma report_keeps_foreign_keys :
  ∃ out rep,
    convert_setget_to_hardlines 64 wf_prior_report false = Ok out
    ∧ get_report out = Some (VDict rep)
    ∧ dict_get rep "foo" = Some (VInt 1)
    ∧ length rep = 4%nat.
Proof. eexists _, _. vm_compute. repeat split. Qed.

(** ** C3: failures *)

(** C3 as stated fails: a graph with both collections whose node has no
    [id] makes [n['id']] raise [KeyError]. *)
Lemma node_without_id_raises :
  out_field wf_no_id "nodes" = Some (VList [VDict [("type", VStr "Plain")]])
  ∧ out_field wf_no_id "links" = Some (VList [])
  ∧ convert_setget_to_hardlines 64 wf_no_id false = Raise KeyError
  ∧ convert_setget_to_hardlines 64 wf_no_id true = Raise KeyError.
Proof. vm_compute. repeat split. Qed.

(** ** C5: pruning *)

Lemma drop_nodes_spec ns new0 dr0 new dr :
  foldM drop_node (new0, dr0) ns = Ok (new, dr) →
  new = new0 ++ List.filter non_routing ns
  ∧ ∃ ids, dr = dr0 ++ ids
           ∧ Forall2 (λ n nid, py_getitem_key n "id" = Ok nid)
               (List.filter routing ns) ids.
Proof.
  revert new0 dr0. induction ns as [|n ns IH]; intros new0 dr0 H; simpl in H.
  - inv_ok. rewrite !app_nil_r. split; [done|]. exists []. by rewrite app_nil_r.
  - apply bind_Ok in H as ([new1 dr1] & Hn & H).
    apply IH in H as (-> & ids & -> & Hids).
    unfold drop_node in Hn. simpl. unfold non_routing, routing.
    destruct (is_routing n) as [b|] eqn:Eb; simpl in Hn; [|discriminate].
    destruct b; simpl in *; inv_ok.
    + split; [done|]. exists (a :: ids). rewrite <- app_assoc. split; [done|].
      by constructor.
    + rewrite <- app_assoc. split; [done|]. by exists ids.
Qed.

Lemma drop_links_spec dropped ls keep0 keep :
  foldM (drop_link dropped) keep0 ls = Ok keep →
  keep = keep0 ++ List.filter (survives dropped) ls.
Proof.
  revert keep0. induction ls as [|l ls IH]; intros keep0 H; simpl in H.
  - inv_ok. by rewrite app_nil_r.
  - apply bind_Ok in H as (keep1 & Hl & H). apply IH in H as ->.
    simpl. unfold drop_link, survives, in_dropped in *.
    destruct (py_unpack6 l) as [ [[[[[a src] b] dst] c] ty] | ]; simpl in Hl;
      [|discriminate].
    destruct (py_hashable src); simpl in Hl; [|discriminate].
    destruct (existsb (py_eq src) dropped); simpl in *; [by inv_ok|].
    destruct (py_hashable dst); simpl in Hl; [|discriminate].
    destruct (existsb (py_eq dst) dropped); simpl in *; inv_ok; [done|].
    by rewrite <- app_assoc.
Qed.

Lemma survives_spec dropped l :
  survives dropped l = true →
  ∃ a src b dst c ty,
    py_unpack6 l = Ok (a, src, b, dst, c, ty)
    ∧ Forall (λ nid, py_eq src nid = false ∧ py_eq dst nid = false) dropped.
Proof.
  unfold survives.
  destruct (py_unpack6 l) as [ [[[[[a src] b] dst] c] ty] | ]; [|discriminate].
  intros H. apply andb_true_iff in H as [H1 H2].
  apply negb_true_iff in H1, H2.
  exists a, src, b, dst, c, ty. split; [done|].
  apply List.Forall_forall. intros nid Hin. split.
  - destruct (py_eq src nid) eqn:E; [|done].
    rewrite <- H1. symmetry. apply existsb_exists. by exists nid.
  - destruct (py_eq dst nid) eqn:E; [|done].
    rewrite <- H2. symmetry. apply existsb_exists. by exists nid.
Qed.

(** C5.  With [drop_setget] the returned node list is the list after the
    rewrite pass without the SetNodes and GetNodes, in its order; the returned
    link list is the list after the rewrite pass without the links whose source
    or target id is the id of a dropped node, each surviving link being the
    very value the rewrite pass left. *)
Theorem pruning_closure limit workflow out :
  convert_setget_to_hardlines limit workflow true = Ok out →
  ∃ d t st new_nodes keep_links dropped_ids,
    workflow = VDict d
    ∧ rewrite_pass d = Ok (t, st)
    ∧ out_field out "nodes" = Some (VList new_nodes)
    ∧ out_field out "links" = Some (VList keep_links)
    ∧ new_nodes = List.filter non_routing (st_nodes st)
    ∧ Forall (λ n, is_routing n = Ok false) new_nodes
    ∧ Forall2 (λ n nid, py_getitem_key n "id" = Ok nid)
        (List.filter routing (st_nodes st)) dropped_ids
    ∧ keep_links = List.filter (survives dropped_ids) (st_links st)
    ∧ Forall (λ l, ∃ a src b dst c ty,
                py_unpack6 l = Ok (a, src, b, dst, c, ty)
                ∧ Forall (λ nid, py_eq src nid = false ∧ py_eq dst nid = false)
                    dropped_ids) keep_links.
Proof.
  intros H. apply convert_Ok in H as (d & -> & _ & _ & H).
  apply rewire_Ok in H
    as (t & st & wf1 & wf2 & Hpass & Hwf1 & (r & Hprune & Hwf2) & wf3 & Hrep & ->).
  apply attach_report_Ok in Hrep as [_ Hframe].
  unfold prune in Hprune. apply bind_Ok in Hprune as ([new dr] & Hn & Hprune).
  apply bind_Ok in Hprune as (keep & Hl & Hprune). simpl in Hl.
  injection Hprune as <-. simpl in Hwf2.
  apply drop_nodes_spec in Hn as (Hnew & ids & Hdr & Hids). simpl in Hnew, Hdr.
  apply drop_links_spec in Hl. simpl in Hl. subst new dr keep.
  exists d, t, st, (List.filter non_routing (st_nodes st)),
    (List.filter (survives ids) (st_links st)), ids.
  split; [done|]. split; [done|].
  split.
  { simpl. rewrite Hframe by done. subst wf2.
    by rewrite dict_get_set_ne, dict_get_set. }
  split.
  { simpl. rewrite Hframe by done. subst wf2. by rewrite dict_get_set. }
  split; [done|].
  split.
  { apply List.Forall_forall. intros n Hin. apply filter_In in Hin as [_ Hn].
    unfold non_routing in Hn. destruct (is_routing n) as [[]|]; done. }
  split; [done|]. split; [done|].
  apply List.Forall_forall. intros l Hin. apply filter_In in Hin as [_ Hl].
  by apply survives_spec.
Qed.

Lemma pruning_closure_witness :
  ∃ out new_nodes keep_links,
    convert_setget_to_hardlines 64 wf_example true = Ok out
    ∧ out_field out "nodes" = Some (VList new_nodes)
    ∧ out_field out "links" = Some (VList keep_links)
    ∧ Forall (λ n, is_routing n = Ok false) new_nodes
    ∧ length keep_links = 1%nat.
Proof.
  eexists.
  destruct (pruning_closure 64 wf_example _ eq_refl)
    as (d & t & st & new & keep & dr & Hd & Hpass & Hn & Hl & _ & Hr & _ & _ & _).
  exists new, keep. split; [reflexivity|]. split; [exact Hn|].
  split; [exact Hl|]. split; [exact Hr|].
  vm_compute in Hl. by injection Hl as <-.
Defined.

(** ** C2: the first binding of a name wins *)

Section first_wins.
Variable link_map : pdict nat.
Variable ls : list value.

Lemma first_binding_app ws w k :
  first_binding (ws ++ [w]) k =
  match first_binding ws k with
  | Some c => Some c
  | None => if py_eq w.1.1 k then Some w.1.2 else None
  end.
Proof.
  induction ws as [|[[name c] n] ws IH]; simpl.
  - by destruct w as [[name c] n].
  - by destruct (py_eq name k).
Qed.

Lemma first_binding_congr ws a b :
  py_eq a b = true → first_binding ws a = first_binding ws b.
Proof.
  intros Hab. induction ws as [|[[name c] n] ws IH]; simpl; [done|].
  by rewrite (py_eq_congr_r a b name Hab), IH.
Qed.

Lemma first_binding_elem ws w :
  w ∈ ws → is_Some (first_binding ws w.1.1).
Proof.
  induction 1 as [[[name c] n] ws|[[name c] n] [[name' c'] n'] ws _ IH]; simpl.
  - by rewrite py_eq_refl.
  - destruct (py_eq name' name); [done|]. apply IH.
Qed.

(** What holds between the writes seen so far and the accumulator. *)
Definition recorded (ws : list (value * triple * value))
    (acc : pdict triple * list value) : Prop :=
  (∀ k, match first_binding ws k with
        | None => pdict_get acc.1 k = None
        | Some c0 => ∃ c, pdict_get acc.1 k = Some c
                          ∧ py_eq (tuple3 c) (tuple3 c0) = true
        end)
  ∧ Forall2 (λ e w, ∃ prev nid c0,
               e = VTuple [w.1.1; tuple3 prev; tuple3 w.1.2; nid]
               ∧ py_getitem_key w.2 "id" = Ok nid
               ∧ first_binding ws w.1.1 = Some c0
               ∧ py_eq (tuple3 prev) (tuple3 c0) = true)
      acc.2 (List.filter (conflicting ws) ws).

Lemma conflicting_filter_app ws w :
  List.filter (conflicting (ws ++ [w])) (ws ++ [w]) =
  List.filter (conflicting ws) ws
  ++ (if conflicting (ws ++ [w]) w then [w] else []).
Proof.
  rewrite List.filter_app. simpl. f_equal.
  apply List.filter_ext_in. intros x Hx. rewrite <- list_elem_of_In in Hx.
  unfold conflicting. rewrite first_binding_app.
  by destruct (first_binding_elem _ _ Hx) as [c ->].
Qed.

Lemma recorded_step ws acc n name candidate acc' :
  recorded ws acc →
  record_binding acc n name candidate = Ok acc' →
  recorded (ws ++ [(name, candidate, n)]) acc'.
Proof.
  intros [Hidx Hconf] H. unfold record_binding, pdict_lookup in H.
  destruct (py_hashable name); simpl in H; [|discriminate].
  assert (Forall2 (λ e w, ∃ prev nid c0,
               e = VTuple [w.1.1; tuple3 prev; tuple3 w.1.2; nid]
               ∧ py_getitem_key w.2 "id" = Ok nid
               ∧ first_binding (ws ++ [(name, candidate, n)]) w.1.1 = Some c0
               ∧ py_eq (tuple3 prev) (tuple3 c0) = true)
            acc.2 (List.filter (conflicting ws) ws)) as Hconf'.
  { eapply Forall2_impl; [|exact Hconf]. simpl.
    intros e w (prev & nid & c0 & -> & Hid & Hf & Hp).
    exists prev, nid, c0. rewrite first_binding_app, Hf. done. }
  pose proof (Hidx name) as Hname.
  destruct (first_binding ws name) as [c0|] eqn:Ef.
  - destruct Hname as (c & Hget & Hc). rewrite Hget in H.
    destruct (py_eq (tuple3 c) (tuple3 candidate)) eqn:Ecand; simpl in H.
    + (* the same triple again *)
      inv_ok. split; simpl.
      * intros k. rewrite first_binding_app, pdict_get_set. simpl.
        destruct (py_eq name k) eqn:Ek.
        -- rewrite <- (first_binding_congr ws name k Ek), Ef.
           exists candidate. split; [done|].
           rewrite py_eq_sym in Ecand. eapply py_eq_trans; eauto.
        -- specialize (Hidx k). by destruct (first_binding ws k).
      * rewrite conflicting_filter_app. unfold conflicting at 2.
        rewrite first_binding_app. simpl. rewrite Ef.
        rewrite py_eq_sym in Hc. rewrite (py_eq_trans _ _ _ Hc Ecand). simpl.
        by rewrite app_nil_r.
    + (* a different triple: a conflict *)
      inv_ok. split; simpl.
      * intros k. rewrite first_binding_app. simpl.
        specialize (Hidx k). destruct (first_binding ws k) as [ck|] eqn:Ek; [done|].
        destruct (py_eq name k) eqn:Enk; [|done].
        rewrite (first_binding_congr ws name k Enk) in Ef. congruence.
      * rewrite conflicting_filter_app. unfold conflicting at 2.
        rewrite first_binding_app. simpl. rewrite Ef.
        rewrite (py_eq_congr_l _ _ _ Hc) in Ecand. rewrite Ecand. simpl.
        apply Forall2_app; [done|]. constructor; [|constructor].
        exists c, a, c0. simpl. rewrite first_binding_app, Ef. done.
  - rewrite Hname in H. inv_ok. split; simpl.
    + intros k. rewrite first_binding_app, pdict_get_set. simpl.
      destruct (py_eq name k) eqn:Ek.
      * rewrite <- (first_binding_congr ws name k Ek), Ef.
        exists candidate. split; [done|apply py_eq_refl].
      * specialize (Hidx k). by destruct (first_binding ws k).
    + rewrite conflicting_filter_app. unfold conflicting at 2.
      rewrite first_binding_app. simpl. rewrite Ef, py_eq_refl, py_eq_refl.
      simpl. by rewrite app_nil_r.
Qed.

Lemma set_pass_recorded ns ws0 acc acc' :
  recorded ws0 acc →
  foldM (set_node link_map ls) acc ns = Ok acc' →
  ∃ ws, writes link_map ls ns = Ok ws ∧ recorded (ws0 ++ ws) acc'.
Proof.
  revert ws0 acc. induction ns as [|n ns IH]; intros ws0 acc Hrec H; simpl in H.
  - inv_ok. exists []. by rewrite app_nil_r.
  - apply bind_Ok in H as (acc1 & Hn & H). unfold set_node in Hn.
    apply bind_Ok in Hn as (c & Hc & Hn). simpl. rewrite Hc. simpl.
    destruct c as [[name candidate]|].
    + eapply recorded_step in Hn; [|exact Hrec].
      destruct (IH _ _ Hn H) as (ws & -> & Hws). simpl.
      eexists. split; [done|]. by rewrite <- app_assoc in Hws.
    + inv_ok. destruct (IH _ _ Hrec H) as (ws & -> & Hws). simpl. eauto.
Qed.
End first_wins.

(** *** The triple the index holds *)

Lemma first_binding_none ws k :
  first_binding ws k = None →
  Forall (λ w : value * triple * value, py_eq w.1.1 k = false) ws.
Proof.
  induction ws as [|[[name c] n] ws IH]; simpl; [constructor|].
  destruct (py_eq name k) eqn:E; [done|]. intros H. constructor; auto.
Qed.

Lemma filter_none {A} (f : A → bool) xs :
  Forall (λ x, f x = false) xs → List.filter f xs = [].
Proof. induction 1 as [|x xs Hx _ IH]; simpl; [done|]. by rewrite Hx. Qed.

Lemma recorded_binding_app ws w k :
  recorded_binding (ws ++ [w]) k =
  match first_binding ws k with
  | Some c0 =>
      if py_eq w.1.1 k && py_eq (tuple3 w.1.2) (tuple3 c0) then Some w.1.2
      else recorded_binding ws k
  | None => if py_eq w.1.1 k then Some w.1.2 else None
  end.
Proof.
  unfold recorded_binding, agreeing. rewrite first_binding_app.
  destruct (first_binding ws k) as [c0|] eqn:E.
  - rewrite List.filter_app, map_app. simpl.
    destruct (py_eq w.1.1 k && py_eq (tuple3 w.1.2) (tuple3 c0)); simpl.
    + by rewrite last_snoc.
    + by rewrite app_nil_r.
  - destruct (py_eq w.1.1 k) eqn:Ek; [|done].
    rewrite List.filter_app, map_app. simpl. rewrite Ek, py_eq_refl. simpl.
    by rewrite last_snoc.
Qed.

Lemma recorded_binding_first ws k c :
  recorded_binding ws k = Some c →
  ∃ c0, first_binding ws k = Some c0 ∧ py_eq (tuple3 c) (tuple3 c0) = true.
Proof.
  unfold recorded_binding, agreeing.
  destruct (first_binding ws k) as [c0|]; [|done]. intros H.
  exists c0. split; [done|]. apply last_Some in H as [l H].
  assert (c ∈ map (λ w : value * triple * value, w.1.2)
                (List.filter (λ w, py_eq w.1.1 k
                                   && py_eq (tuple3 w.1.2) (tuple3 c0)) ws))
    as Hin.
  { rewrite H. apply elem_of_app. right. by left. }
  apply list_elem_of_In, in_map_iff in Hin as (w & <- & Hw).
  apply filter_In in Hw as [_ Hw]. by apply andb_true_iff in Hw as [_ ?].
Qed.

Lemma first_binding_recorded ws : ∀ k c0,
  first_binding ws k = Some c0 → is_Some (recorded_binding ws k).
Proof.
  induction ws as [|w ws IH] using rev_ind; intros k c0; [done|].
  rewrite first_binding_app, recorded_binding_app.
  destruct (first_binding ws k) as [c|] eqn:E.
  - intros _. destruct (_ && _); [done|]. by eapply IH.
  - destruct (py_eq w.1.1 k); done.
Qed.

Lemma recorded_binding_none ws k :
  first_binding ws k = None → recorded_binding ws k = None.
Proof. unfold recorded_binding, agreeing. by intros ->. Qed.

Lemma recorded_binding_congr ws a b :
  py_eq a b = true → recorded_binding ws a = recorded_binding ws b.
Proof.
  intros Hab. unfold recorded_binding, agreeing.
  rewrite (first_binding_congr ws a b Hab).
  destruct (first_binding ws b) as [c0|]; [|done]. do 2 f_equal.
  apply List.filter_ext. intros w. by rewrite (py_eq_congr_r a b w.1.1 Hab).
Qed.

(** Where the writes to [k] that are [==] to the first one are the first
    one's triple itself, that triple is the one recorded. *)
Lemma recorded_binding_exact ws k c0 :
  first_binding ws k = Some c0 →
  (∀ w, w ∈ ws → py_eq w.1.1 k = true →
        py_eq (tuple3 w.1.2) (tuple3 c0) = true → w.1.2 = c0) →
  recorded_binding ws k = Some c0.
Proof.
  intros Hf Hsame.
  destruct (first_binding_recorded ws k c0 Hf) as [c Hc]. rewrite Hc. f_equal.
  unfold recorded_binding, agreeing in Hc. rewrite Hf in Hc.
  apply last_Some in Hc as [l H].
  assert (c ∈ map (λ w : value * triple * value, w.1.2)
                (List.filter (λ w, py_eq w.1.1 k
                                   && py_eq (tuple3 w.1.2) (tuple3 c0)) ws))
    as Hin.
  { rewrite H. apply elem_of_app. right. by left. }
  apply list_elem_of_In, in_map_iff in Hin as (w & <- & Hw).
  apply filter_In in Hw as [Hw Hp]. apply andb_true_iff in Hp as [H1 H2].
  apply Hsame; [by apply list_elem_of_In|done|done].
Qed.

Lemma prefixes_snoc {A} (xs : list A) : ∀ pre x,
  prefixes pre (xs ++ [x]) = prefixes pre xs ++ [(pre ++ xs, x)].
Proof.
  induction xs as [|y xs IH]; intros pre x; simpl.
  - by rewrite app_nil_r.
  - rewrite IH. by rewrite <- app_assoc.
Qed.

Section exact_index.
Variable link_map : pdict nat.
Variable ls : list value.

(** What holds between the writes seen so far and the accumulator. *)
Definition recorded_exactly (ws : list (value * triple * value))
    (acc : pdict triple * list value) : Prop :=
  (∀ k, pdict_get acc.1 k = recorded_binding ws k)
  ∧ Forall2 conflict_entry acc.2
      (List.filter (λ pw, conflicts_with pw.1 pw.2) (prefixes [] ws)).

Lemma recorded_exactly_step ws acc n name candidate acc' :
  recorded_exactly ws acc →
  record_binding acc n name candidate = Ok acc' →
  recorded_exactly (ws ++ [(name, candidate, n)]) acc'.
Proof.
  intros [Hidx Hconf] H. unfold record_binding, pdict_lookup in H.
  destruct (py_hashable name); simpl in H; [|discriminate].
  unfold recorded_exactly.
  rewrite prefixes_snoc, List.filter_app. simpl.
  unfold conflicts_with at 2. simpl.
  rewrite Hidx in H.
  destruct (recorded_binding ws name) as [pv|] eqn:Er; simpl in H.
  - destruct (recorded_binding_first _ _ _ Er) as (c0 & Hf & Hpv).
    destruct (py_eq (tuple3 pv) (tuple3 candidate)) eqn:Ecand; simpl in H.
    + inv_ok. simpl. rewrite app_nil_r. split; [|done].
      intros k. rewrite pdict_get_set, recorded_binding_app. simpl.
      destruct (py_eq name k) eqn:Ek; simpl.
      * rewrite <- (first_binding_congr ws name k Ek), Hf.
        rewrite py_eq_sym in Ecand.
        by rewrite (py_eq_trans _ _ _ Ecand Hpv).
      * rewrite Hidx. destruct (first_binding ws k) eqn:E; [done|].
        by apply recorded_binding_none.
    + apply bind_Ok in H as (nid & Hnid & H). inv_ok. simpl. split.
      * intros k. rewrite recorded_binding_app. simpl.
        destruct (py_eq name k) eqn:Ek; simpl.
        -- rewrite <- (first_binding_congr ws name k Ek), Hf.
           rewrite (py_eq_sym (tuple3 candidate)).
           rewrite <- (py_eq_congr_l _ _ (tuple3 candidate) Hpv), Ecand.
           apply Hidx.
        -- rewrite Hidx. destruct (first_binding ws k) eqn:E; [done|].
           by apply recorded_binding_none.
      * apply Forall2_app; [done|]. constructor; [|constructor].
        by exists pv, nid.
  - inv_ok. simpl. rewrite app_nil_r. split; [|done].
    assert (first_binding ws name = None) as Hf.
    { destruct (first_binding ws name) as [c0|] eqn:E; [|done].
      destruct (first_binding_recorded _ _ _ E) as [c Hc]. congruence. }
    intros k. rewrite pdict_get_set, recorded_binding_app. simpl.
    destruct (py_eq name k) eqn:Ek; simpl.
    + by rewrite <- (first_binding_congr ws name k Ek), Hf.
    + rewrite Hidx. destruct (first_binding ws k) eqn:E; [done|].
      by apply recorded_binding_none.
Qed.

Lemma set_pass_recorded_exactly ns ws0 acc acc' :
  recorded_exactly ws0 acc →
  foldM (set_node link_map ls) acc ns = Ok acc' →
  ∃ ws, writes link_map ls ns = Ok ws ∧ recorded_exactly (ws0 ++ ws) acc'.
Proof.
  revert ws0 acc. induction ns as [|n ns IH]; intros ws0 acc Hrec H; simpl in H.
  - inv_ok. exists []. by rewrite app_nil_r.
  - apply bind_Ok in H as (acc1 & Hn & H). unfold set_node in Hn.
    apply bind_Ok in Hn as (c & Hc & Hn). simpl. rewrite Hc. simpl.
    destruct c as [[name candidate]|].
    + eapply recorded_exactly_step in Hn; [|exact Hrec].
      destruct (IH _ _ Hn H) as (ws & -> & Hws). simpl.
      eexists. split; [done|]. by rewrite <- app_assoc in Hws.
    + inv_ok. destruct (IH _ _ Hrec H) as (ws & -> & Hws). simpl. eauto.
Qed.
End exact_index.

(** ** C8: a graph without routing nodes *)

Lemma build_index_Ok key xs :
  Forall (λ x, ∃ k, key x = Ok k ∧ py_hashable k = true) xs →
  ∀ i acc, ∃ m, build_index key i xs acc = Ok m.
Proof.
  induction 1 as [|x xs (k & Hk & Hh) _ IH]; intros i acc; simpl; [eauto|].
  rewrite Hk. simpl. rewrite Hh. apply IH.
Qed.

Lemma node_has_id_key n :
  node_has_id n = true → ∃ k, node_key n = Ok k ∧ py_hashable k = true.
Proof.
  unfold node_has_id, node_key, py_getitem_key.
  destruct n; try discriminate. destruct (dict_get d "id"); [eauto|discriminate].
Qed.

Lemma link_fields_ok_inv l :
  link_fields_ok l = true →
  ∃ lid src slot dst dslot ty,
    l = VList [lid; src; slot; dst; dslot; ty]
    ∧ py_hashable lid = true ∧ py_hashable src = true
    ∧ py_hashable dst = true.
Proof.
  unfold link_fields_ok.
  destruct l as [| | | |l| |]; try discriminate.
  do 6 (destruct l as [|? l]; try discriminate).
  destruct l; [|discriminate].
  intros H. apply andb_true_iff in H as [H H3]. apply andb_true_iff in H as [H1 H2].
  eexists _, _, _, _, _, _. eauto.
Qed.

Lemma link_fields_ok_key l :
  link_fields_ok l = true → ∃ k, link_key l = Ok k ∧ py_hashable k = true.
Proof.
  intros H. apply link_fields_ok_inv in H
    as (lid & src & slot & dst & dslot & ty & -> & H1 & _). simpl. eauto.
Qed.

Lemma non_routing_is_routing n : non_routing n = true ↔ is_routing n = Ok false.
Proof.
  unfold non_routing. destruct (is_routing n) as [[]|]; split; try done.
Qed.

Lemma is_routing_false_inv n :
  is_routing n = Ok false →
  ∃ ty, py_get n "type" = Ok ty
        ∧ py_eq ty (VStr "SetNode") = false
        ∧ py_eq ty (VStr "GetNode") = false.
Proof.
  unfold is_routing. intros H. apply bind_Ok in H as (ty & Hty & H).
  injection H as H. apply orb_false_iff in H as [H1 H2]. eauto.
Qed.

Section no_routing.
Variables nodes_by_id link_map : pdict nat.
Variable name_to_source : pdict triple.

Lemma set_pass_no_routing ns ls acc :
  Forall (λ n, non_routing n = true) ns →
  foldM (set_node link_map ls) acc ns = Ok acc.
Proof.
  induction 1 as [|n ns Hn _ IH]; simpl; [done|].
  apply non_routing_is_routing, is_routing_false_inv in Hn as (ty & Hty & H1 & _).
  unfold set_node, set_candidate. rewrite Hty. simpl. rewrite H1. simpl. exact IH.
Qed.

Lemma get_pass_no_routing st idxs :
  Forall (λ n, non_routing n = true) (st_nodes st) →
  Forall (λ i, (i < length (st_nodes st))%nat) idxs →
  foldM (get_node nodes_by_id link_map name_to_source) st idxs = Ok st.
Proof.
  intros Hns. induction 1 as [|i idxs Hi _ IH]; simpl; [done|].
  destruct (lookup_lt_is_Some_2 _ _ Hi) as [n Hn].
  unfold get_node. rewrite (list_lookup_total_correct _ _ _ Hn).
  assert (non_routing n = true) as Hnr.
  { rewrite Forall_lookup in Hns. eauto. }
  apply non_routing_is_routing, is_routing_false_inv in Hnr as (ty & Hty & _ & H2).
  rewrite Hty. simpl. rewrite H2. simpl. exact IH.
Qed.
End no_routing.

Lemma prune_no_routing ns ls :
  Forall (λ n, non_routing n = true) ns →
  Forall (λ l, link_fields_ok l = true) ls →
  prune ns ls = Ok (ns, ls, []).
Proof.
  intros Hns Hls. unfold prune.
  assert (∀ new0, foldM drop_node (new0, []) ns = Ok (new0 ++ ns, [])) as Hn.
  { induction Hns as [|n ns Hn _ IH]; intros new0; simpl.
    - by rewrite app_nil_r.
    - apply non_routing_is_routing in Hn. unfold drop_node at 1.
      rewrite Hn. simpl. rewrite IH. by rewrite <- app_assoc. }
  rewrite Hn. simpl.
  assert (∀ keep0, foldM (drop_link []) keep0 ls = Ok (keep0 ++ ls)) as Hl.
  { induction Hls as [|l ls Hl _ IH]; intros keep0; simpl.
    - by rewrite app_nil_r.
    - apply link_fields_ok_inv in Hl
        as (lid & src & slot & dst & dslot & ty & -> & _ & H1 & H2).
      unfold drop_link at 1, in_dropped. simpl. rewrite H1, H2. simpl.
      rewrite IH. by rewrite <- app_assoc. }
  by rewrite Hl.
Qed.

Lemma store_elements_same wf k xs :
  dict_get wf k = Some (VList xs) → store_elements wf k xs = wf.
Proof. intros H. unfold store_elements. rewrite H. by apply dict_set_same. Qed.

Lemma attach_report_total wf rw sk cf :
  report_slot_ok wf = true → ∃ wf', attach_report wf rw sk cf = Ok wf'.
Proof.
  assert (∀ wf key v, report_slot_ok wf = true →
            ∃ wf', set_report wf key v = Ok wf' ∧ report_slot_ok wf' = true)
    as Hstep.
  { intros d key v H. unfold report_slot_ok, set_report in *.
    destruct (dict_get d "extra") as [[| | | | | |extra]|] eqn:E; try discriminate;
      simpl.
    - destruct (dict_get extra "__hardline_rewire") as [[| | | | | |rep]|];
        try discriminate; simpl; eexists; (split; [done|]);
        by rewrite !dict_get_set.
    - eexists; split; [done|]. by rewrite !dict_get_set. }
  intros H. unfold attach_report.
  destruct (Hstep wf "rewired_count" (VInt (Z.of_nat (length rw))) H)
    as (wf1 & -> & H1). simpl.
  destruct (Hstep wf1 "skipped_gets" (VList sk) H1) as (wf2 & -> & H2). simpl.
  destruct (Hstep wf2 "conflicts" (VList cf) H2) as (wf3 & -> & _). eauto.
Qed.

(** C8, as the code has it.  Take a graph whose nodes are neither SetNodes
    nor GetNodes, each of them a dict with a hashable [id]; whose links each
    have a hashable id [l[0]] and, when [drop_setget] is set, six fields
    with hashable source and target ids; whose report slot, if there is one,
    is a dict in a dict; and which is nested no deeper than [deepcopy] can
    follow.  The call returns, for both values of [drop_setget], the input
    with the empty report attached: the nodes, the links and every other
    top-level entry are the input's, and the report slot holds
    [rewired_count = 0] and empty [skipped_gets] and [conflicts]. *)
Theorem no_routing_nodes_unchanged limit d ns ls (drop_setget : bool) :
  (depth (VDict d) ≤ limit)%nat →
  dict_get d "nodes" = Some (VList ns) →
  dict_get d "links" = Some (VList ls) →
  Forall (λ n, node_has_id n = true ∧ non_routing n = true) ns →
  Forall (λ l, if drop_setget then link_fields_ok l = true
               else ∃ k, link_key l = Ok k ∧ py_hashable k = true) ls →
  report_slot_ok d = true →
  ∃ d' rep,
    convert_setget_to_hardlines limit (VDict d) drop_setget = Ok (VDict d')
    ∧ attach_report d [] [] [] = Ok d'
    ∧ dict_get d' "nodes" = Some (VList ns)
    ∧ dict_get d' "links" = Some (VList ls)
    ∧ (∀ k, k ≠ "extra" → dict_get d' k = dict_get d k)
    ∧ report_of d' = Some (VDict rep)
    ∧ dict_get rep "rewired_count" = Some (VInt 0)
    ∧ dict_get rep "skipped_gets" = Some (VList [])
    ∧ dict_get rep "conflicts" = Some (VList []).
Proof.
  intros Hfit Hnodes Hlinks Hns Hls Hslot.
  destruct (attach_report_total d [] [] [] Hslot) as (d' & Hrep).
  pose proof (attach_report_Ok _ _ _ _ _ Hrep) as [Hr Hframe].
  exists d', (dict_set (dict_set (dict_set (prior_report d)
                 "rewired_count" (VInt 0)) "skipped_gets" (VList []))
                 "conflicts" (VList [])).
  split; [|split; [done|]].
  - unfold convert_setget_to_hardlines. rewrite (deepcopy_fits _ _ Hfit).
    simpl. rewrite Hnodes, Hlinks. simpl.
    assert (Forall (λ n, non_routing n = true) ns) as Hnr.
    { eapply Forall_impl; [|exact Hns]. by intros n [_ ?]. }
    assert (∃ nbi, build_index node_key 0 ns [] = Ok nbi) as [nbi Hnbi].
    { apply build_index_Ok. eapply Forall_impl; [|exact Hns].
      intros n [Hid _]. by apply node_has_id_key. }
    assert (∃ lm, build_index link_key 0 ls [] = Ok lm) as [lm Hlm].
    { apply build_index_Ok. eapply Forall_impl; [|exact Hls].
      intros l. destruct drop_setget; [apply link_fields_ok_key|done]. }
    unfold rewire, rewrite_pass. simpl. rewrite Hnodes, Hlinks. simpl.
    rewrite Hnbi. simpl. rewrite Hlm. simpl.
    unfold set_pass. rewrite set_pass_no_routing by done. simpl.
    unfold get_pass. rewrite get_pass_no_routing; simpl; [|done|].
    2:{ apply List.Forall_forall. intros i Hi. apply in_seq in Hi. lia. }
    rewrite (store_elements_same d "nodes" ns Hnodes).
    rewrite (store_elements_same d "links" ls Hlinks).
    destruct drop_setget; simpl.
    + rewrite prune_no_routing by done. simpl.
      rewrite (dict_set_same d "nodes" _ Hnodes).
      rewrite (dict_set_same d "links" _ Hlinks). simpl.
      by rewrite Hrep.
    + by rewrite Hrep.
  - rewrite !Hframe by done. split; [done|]. split; [done|].
    split; [exact Hframe|]. split; [exact Hr|].
    split; [by rewrite dict_get_set_ne, dict_get_set_ne, dict_get_set|].
    split; [by rewrite dict_get_set_ne, dict_get_set|].
    by rewrite dict_get_set.
Qed.

Lemma no_routing_nodes_unchanged_witness :
  ∃ d' rep,
    convert_setget_to_hardlines 64 (VDict plain_graph) true = Ok (VDict d')
    ∧ dict_get d' "nodes" = dict_get plain_graph "nodes"
    ∧ dict_get d' "links" = dict_get plain_graph "links"
    ∧ report_of d' = Some (VDict rep)
    ∧ dict_get rep "rewired_count" = Some (VInt 0).
Proof.
  destruct (no_routing_nodes_unchanged 64 plain_graph
              [plain_node 5 [] [10]; plain_node 3 [10] []]
              [link6 10 5 0 3 0 "T"] true)
    as (d' & rep & H1 & _ & H2 & H3 & _ & H4 & H5 & _);
    [vm_compute; lia|reflexivity|reflexivity|repeat constructor
    |repeat constructor|reflexivity|].
  exists d', rep. repeat split; assumption.
Defined.

(** C8 as stated fails.  A graph of plain nodes one of which has no [id]
    makes the call raise [KeyError]; a graph of plain nodes with a link of
    three fields is returned without pruning and makes the pruning call
    raise [ValueError]; a graph of plain nodes nested more deeply than the
    copy can follow makes the call raise [RecursionError]. *)
Lemma routing_free_graph_raises :
  (Forall (λ n, non_routing n = true) (graph_nodes g_plain_no_id)
   ∧ convert_setget_to_hardlines 64 (VDict g_plain_no_id) false
     = Raise KeyError
   ∧ convert_setget_to_hardlines 64 (VDict g_plain_no_id) true
     = Raise KeyError)
  ∧ (Forall (λ n, non_routing n = true) (graph_nodes g_short_link)
     ∧ (∃ out, convert_setget_to_hardlines 64 (VDict g_short_link) false
               = Ok out)
     ∧ convert_setget_to_hardlines 64 (VDict g_short_link) true
       = Raise (ValueError Unpack))
  ∧ (Forall (λ n, non_routing n = true) (graph_nodes plain_graph)
     ∧ depth (VDict plain_graph) = 7%nat
     ∧ convert_setget_to_hardlines 6 (VDict plain_graph) false
       = Raise RecursionError).
Proof.
  split; [|split].
  - split; [repeat constructor|]. by vm_compute.
  - split; [repeat constructor|]. split; [eexists|]; by vm_compute.
  - split; [repeat constructor|]. by vm_compute.
Qed.

(** ** The GetNode pass, step by step *)

Lemma same_meta_refl n : same_meta n n.
Proof. by left. Qed.

Lemma same_meta_trans a b c : same_meta a b → same_meta b c → same_meta a c.
Proof.
  intros [->|(nd & nd' & -> & -> & H1)] [->|(md & md' & Hmd & -> & H2)];
    try (by left); try (right; eauto; fail).
  injection Hmd as <-. right. exists nd, md'. split; [done|]. split; [done|].
  intros k Hk. by rewrite H2, H1.
Qed.

Lemma same_meta_get n n' k dflt :
  same_meta n n' → k ≠ "outputs" →
  py_get_default n' k dflt = py_get_default n k dflt.
Proof.
  intros [->|(nd & nd' & -> & -> & H)] Hk; [done|]. simpl. by rewrite H.
Qed.

Lemma same_meta_getitem n n' k :
  same_meta n n' → k ≠ "outputs" → py_getitem_key n' k = py_getitem_key n k.
Proof.
  intros [->|(nd & nd' & -> & -> & H)] Hk; [done|]. simpl. by rewrite H.
Qed.

Lemma same_meta_bound_name n n' : same_meta n n' → bound_name n' = bound_name n.
Proof.
  intros H. unfold bound_name, py_get. by rewrite (same_meta_get n n').
Qed.

Lemma same_meta_is_get n n' : same_meta n n' → is_get n' = is_get n.
Proof. intros H. unfold is_get, py_get. by rewrite (same_meta_get n n'). Qed.

Lemma snapshot_set pd new : snapshot (VDict (dict_set pd "links" (VList new))) = new.
Proof.
  unfold snapshot, port_snapshot. simpl. rewrite dict_get_set. simpl.
  destruct new; simpl; done.
Qed.

(** The elements of a string are strings. *)
Lemma str_chars_lookup s i x : str_chars s !! i = Some x → ∃ c, x = VStr c.
Proof.
  unfold str_chars. rewrite list_lookup_fmap.
  destruct (code_points s !! i) as [c|]; [|done]. intros [= <-]. eauto.
Qed.

(** The ports of a node after [set_port_links]. *)
Lemma set_port_links_ports node s lk :
  node_ports (set_port_links node s lk) =
  match node_ports node !! s with
  | Some (VDict pd) => <[s := VDict (dict_set pd "links" lk)]> (node_ports node)
  | _ => node_ports node
  end.
Proof.
  unfold set_port_links, node_ports.
  destruct node as [| | | | | |nd]; simpl; try done.
  destruct (dict_get nd "outputs") as [[| | |str|ps|ps|od]|] eqn:E; simpl;
    try rewrite E; simpl; try done.
  - destruct (str_chars str !! s) as [x|] eqn:Es; [|done].
    by destruct (str_chars_lookup _ _ _ Es) as [c ->].
  - destruct (ps !! s) as [[| | | | | |pd]|]; simpl; try rewrite E; simpl; try done.
    by rewrite dict_get_set.
  - destruct (ps !! s) as [[| | | | | |pd]|]; simpl; try rewrite E; simpl; try done.
    by rewrite dict_get_set.
  - destruct (map (λ kv, VStr kv.1) od !! s) as [[]|] eqn:Es; try done.
    exfalso. rewrite list_lookup_fmap in Es.
    destruct (od !! s); simpl in Es; done.
Qed.

Lemma set_port_links_meta node s lk : same_meta node (set_port_links node s lk).
Proof.
  unfold set_port_links.
  destruct node as [| | | | | |nd]; try (by left).
  destruct (dict_get nd "outputs") as [[| | | |ps|ps|]|]; try (by left).
  - destruct (ps !! s) as [[| | | | | |pd]|]; try (by left).
    right. eexists _, _. split; [done|]. split; [done|].
    intros k Hk. by apply dict_get_set_ne.
  - destruct (ps !! s) as [[| | | | | |pd]|]; try (by left).
    right. eexists _, _. split; [done|]. split; [done|].
    intros k Hk. by apply dict_get_set_ne.
Qed.

Lemma port_has_set_port_links node s new k x :
  port_has (set_port_links node s (VList new)) k x =
  match node_ports node !! s with
  | Some (VDict pd) =>
      if bool_decide (k = s) then existsb (py_eq x) new else port_has node k x
  | _ => port_has node k x
  end.
Proof.
  unfold port_has. rewrite set_port_links_ports.
  destruct (node_ports node !! s) as [[| | | | | |pd]|] eqn:Es; try done.
  case_bool_decide as Hk.
  - subst k. rewrite list_lookup_insert_eq by (by eapply lookup_lt_Some).
    by rewrite snapshot_set.
  - by rewrite list_lookup_insert_ne.
Qed.

Lemma attached_spec x n :
  attached x n = true ↔ ∃ k, port_has n k x = true.
Proof.
  unfold attached, port_has. rewrite existsb_exists. split.
  - intros (out & Hin & Hx). rewrite <- list_elem_of_In in Hin.
    apply list_elem_of_lookup_1 in Hin as [k Hk]. exists k. by rewrite Hk.
  - intros (k & Hk). destruct (node_ports n !! k) as [out|] eqn:E; [|done].
    exists out. split; [|done]. rewrite <- list_elem_of_In.
    by eapply list_elem_of_lookup_2.
Qed.

Lemma existsb_remove_first_1 y x l :
  existsb (py_eq y) (remove_first x l) = true → existsb (py_eq y) l = true.
Proof.
  induction l as [|z l IH]; simpl; [done|].
  destruct (py_eq z x); simpl.
  - intros ->. apply orb_true_r.
  - intros H. apply orb_true_iff in H as [->|H]; [done|].
    rewrite IH by done. apply orb_true_r.
Qed.

Lemma existsb_remove_first_2 y x l :
  py_eq y x = false →
  existsb (py_eq y) l = true → existsb (py_eq y) (remove_first x l) = true.
Proof.
  intros Hyx. induction l as [|z l IH]; simpl; [done|].
  intros H. destruct (py_eq z x) eqn:Ezx; simpl.
  - apply orb_true_iff in H as [H|H]; [|done].
    rewrite (py_eq_congr_r _ _ y Ezx) in H. congruence.
  - apply orb_true_iff in H as [->|H]; [done|].
    rewrite IH by done. apply orb_true_r.
Qed.

Lemma port_lookup node outs s prt lk :
  py_get_default node "outputs" (VList []) = Ok outs →
  py_getitem_idx outs s = Ok prt →
  py_get prt "links" = Ok lk →
  ∃ pd, prt = VDict pd
        ∧ node_ports node !! s = Some (VDict pd)
        ∧ lk = default VNone (dict_get pd "links").
Proof.
  intros Houts Hport Hlk. unfold node_ports. rewrite Houts. simpl.
  destruct prt as [| | | | | |pd]; try discriminate. injection Hlk as <-.
  exists pd. split; [done|]. split; [|done].
  destruct outs as [| | |str|ps|ps|]; simpl in *; try discriminate.
  - destruct (str_chars str !! s) eqn:E; inv_ok; done.
  - destruct (ps !! s) eqn:E; inv_ok; done.
  - destruct (ps !! s) eqn:E; inv_ok; done.
Qed.

Lemma slot_in_range_Some b outs s :
  slot_in_range b outs = Ok (Some s) → as_int b = Some (Z.of_nat s).
Proof.
  unfold slot_in_range. destruct (as_int b) as [z|]; [|done].
  destruct (z <? 0) eqn:Ez; [done|]. intros H.
  apply bind_Ok in H as (n & _ & H). destruct (z <? n); [|done].
  injection H as <-. f_equal. apply Z.ltb_ge in Ez. lia.
Qed.

Section port_updates.
Variable nodes_by_id : pdict nat.

Lemma add_output_link_effect ns a b x ns' :
  add_output_link nodes_by_id ns a b x = Ok ns' →
  ns' = ns
  ∨ ∃ t s pd,
      pdict_get nodes_by_id a = Some t
      ∧ as_int b = Some (Z.of_nat s)
      ∧ node_ports (ns !!! t) !! s = Some (VDict pd)
      ∧ existsb (py_eq x) (snapshot (VDict pd)) = false
      ∧ ns' = <[t := set_port_links (ns !!! t) s
                       (VList (snapshot (VDict pd) ++ [x]))]> ns.
Proof.
  unfold add_output_link, pdict_lookup. intros H.
  destruct (py_hashable a); simpl in H; [|discriminate].
  destruct (pdict_get nodes_by_id a) as [t|] eqn:Et; [|inv_ok; by left].
  apply bind_Ok in H as (outs & Houts & H).
  apply bind_Ok in H as (r & Hr & H).
  destruct r as [s|]; [|inv_ok; by left].
  apply slot_in_range_Some in Hr.
  apply bind_Ok in H as (prt & Hport & H).
  apply bind_Ok in H as (lk & Hlk & H).
  destruct (port_lookup _ _ _ _ _ Houts Hport Hlk) as (pd & -> & Hs & ->).
  destruct (dict_get pd "links") as [lk|] eqn:Elk; simpl in H.
  - destruct (is_none lk) eqn:En.
    + destruct lk; try discriminate. injection H as <-. right. exists t, s, pd.
      unfold snapshot, port_snapshot. simpl. rewrite Elk. simpl. done.
    + apply bind_Ok in H as (present & Hp & H).
      destruct present; [injection H as <-; by left|].
      destruct lk as [| | | |l| |]; try discriminate. injection H as <-.
      simpl in Hp. injection Hp as Hp.
      assert (snapshot (VDict pd) = l) as Hsnap.
      { unfold snapshot, port_snapshot. simpl. rewrite Elk. simpl. by destruct l. }
      right. exists t, s, pd. by rewrite Hsnap.
  - injection H as <-. right. exists t, s, pd.
    unfold snapshot, port_snapshot. simpl. rewrite Elk. simpl. done.
Qed.

Lemma remove_output_link_effect ns nid k x ns' :
  remove_output_link nodes_by_id ns nid k x = Ok ns' →
  ns' = ns
  ∨ ∃ t pd l,
      pdict_get nodes_by_id nid = Some t
      ∧ node_ports (ns !!! t) !! k = Some (VDict pd)
      ∧ snapshot (VDict pd) = l
      ∧ ns' = <[t := set_port_links (ns !!! t) k (VList (remove_first x l))]> ns.
Proof.
  unfold remove_output_link, pdict_lookup. intros H.
  destruct (py_hashable nid); simpl in H; [|discriminate].
  destruct (pdict_get nodes_by_id nid) as [t|] eqn:Et; [|inv_ok; by left].
  apply bind_Ok in H as (outs & Houts & H).
  apply bind_Ok in H as (n & Hn & H).
  destruct (Z.of_nat k <? n); [|inv_ok; by left].
  apply bind_Ok in H as (prt & Hport & H).
  apply bind_Ok in H as (lk & Hlk & H).
  destruct (port_lookup _ _ _ _ _ Houts Hport Hlk) as (pd & -> & Hs & ->).
  destruct (dict_get pd "links") as [lk|] eqn:Elk; simpl in H; [|inv_ok; by left].
  destruct lk as [| | | |l| |]; try (inv_ok; by left).
  destruct (existsb (py_eq x) l); inv_ok; [|by left].
  right. exists t, pd, l. split; [done|]. split; [done|]. split; [|done].
  unfold snapshot, port_snapshot. simpl. rewrite Elk. simpl. by destruct l.
Qed.

(** What the two updates do to any node [j] and to what is attached
    where. *)
Lemma add_output_link_nodes ns a b x ns' :
  add_output_link nodes_by_id ns a b x = Ok ns' →
  length ns' = length ns
  ∧ ∀ j,
      same_meta (ns !!! j) (ns' !!! j)
      ∧ (pdict_get nodes_by_id a ≠ Some j → ns' !!! j = ns !!! j)
      ∧ ∀ k y,
          (port_has (ns !!! j) k y = true → port_has (ns' !!! j) k y = true)
          ∧ (port_has (ns' !!! j) k y = true →
             port_has (ns !!! j) k y = true
             ∨ (py_eq y x = true
                ∧ pdict_get nodes_by_id a = Some j
                ∧ as_int b = Some (Z.of_nat k)
                ∧ (k < length (node_ports (ns !!! j)))%nat)).
Proof.
  intros H. apply add_output_link_effect in H
    as [->|(t & s & pd & Ht & Hb & Hs & Hx & ->)].
  { split; [done|]. intros j. split; [apply same_meta_refl|]. split; [done|].
    intros; split; auto. }
  split; [apply length_insert|]. intros j.
  rewrite list_lookup_total_insert. case_decide as Hj.
  - destruct Hj as [<- Hlen]. split; [apply set_port_links_meta|].
    split; [done|]. intros k y. rewrite port_has_set_port_links, Hs.
    case_bool_decide as Hk; [|split; auto]. subst k.
    unfold port_has. rewrite Hs. rewrite existsb_app. simpl.
    split.
    + intros ->. done.
    + intros Hy. apply orb_true_iff in Hy as [Hy|Hy]; [by left|right].
      apply orb_true_iff in Hy as [Hy|Hy]; [|done].
      split; [done|]. split; [done|]. split; [done|].
      by eapply lookup_lt_Some.
  - split; [apply same_meta_refl|]. split; [done|]. intros; split; auto.
Qed.

Lemma remove_output_link_nodes ns nid k x ns' :
  remove_output_link nodes_by_id ns nid k x = Ok ns' →
  length ns' = length ns
  ∧ ∀ j,
      same_meta (ns !!! j) (ns' !!! j)
      ∧ (pdict_get nodes_by_id nid ≠ Some j → ns' !!! j = ns !!! j)
      ∧ ∀ k' y,
          (port_has (ns' !!! j) k' y = true → port_has (ns !!! j) k' y = true)
          ∧ (port_has (ns !!! j) k' y = true →
             k' ≠ k ∨ py_eq y x = false →
             port_has (ns' !!! j) k' y = true).
Proof.
  intros H. apply remove_output_link_effect in H
    as [->|(t & pd & l & Ht & Hs & Hl & ->)].
  { split; [done|]. intros j. split; [apply same_meta_refl|]. split; [done|].
    intros; split; auto. }
  split; [apply length_insert|]. intros j.
  rewrite list_lookup_total_insert. case_decide as Hj.
  - destruct Hj as [<- Hlen]. split; [apply set_port_links_meta|].
    split; [done|]. intros k' y. rewrite port_has_set_port_links, Hs.
    case_bool_decide as Hk; [|split; auto]. subst k'.
    unfold port_has. rewrite Hs, Hl. split.
    + apply existsb_remove_first_1.
    + intros Hy [?|Hyx]; [done|]. by apply existsb_remove_first_2.
  - split; [apply same_meta_refl|]. split; [done|]. intros; split; auto.
Qed.
End port_updates.

(** *** Links *)

Lemma with_origin_length c fs : length (with_origin c fs) = length fs.
Proof. unfold with_origin. by rewrite !length_insert. Qed.

Lemma with_origin_twice c c' fs :
  with_origin c' (with_origin c fs) = with_origin c' fs.
Proof.
  unfold with_origin. apply list_eq. intros j.
  rewrite !list_lookup_insert, !length_insert.
  repeat case_decide; try done; lia.
Qed.

Lemma with_origin_fields c fs :
  (5 < length fs)%nat →
  with_origin c fs !! 1%nat = Some c.1.1
  ∧ with_origin c fs !! 2%nat = Some c.1.2
  ∧ with_origin c fs !! 5%nat = Some c.2
  ∧ with_origin c fs !! 0%nat = fs !! 0%nat
  ∧ with_origin c fs !! 3%nat = fs !! 3%nat
  ∧ with_origin c fs !! 4%nat = fs !! 4%nat.
Proof.
  intros Hlen. unfold with_origin.
  repeat split;
    repeat first
      [ rewrite list_lookup_insert_eq by (rewrite ?length_insert; lia)
      | rewrite list_lookup_insert_ne by done ]; done.
Qed.

Lemma rewrite_origin_Ok c link link' :
  rewrite_origin c link = Ok link' →
  ∃ fs, link = VList fs ∧ (5 < length fs)%nat
        ∧ link' = VList (with_origin c fs).
Proof.
  unfold rewrite_origin. intros H.
  destruct link as [| | | |fs| |]; try discriminate. simpl in H.
  case_bool_decide; simpl in H; [|discriminate].
  case_bool_decide; simpl in H; [|discriminate].
  case_bool_decide as H5; simpl in H; [|discriminate].
  rewrite !length_insert in H5. injection H as <-. by exists fs.
Qed.

Lemma link_frame_refl l : link_frame l l.
Proof. by left. Qed.

Lemma link_frame_trans a b c : link_frame a b → link_frame b c → link_frame a c.
Proof.
  intros [->|(fs & c1 & -> & ->)] [->|(fs' & c2 & Hfs & ->)];
    try (by left); try (right; eauto; fail).
  injection Hfs as <-. right. exists fs, c2. by rewrite with_origin_twice.
Qed.

Lemma link_frame_truthy l l' : link_frame l l' → truthy l' = truthy l.
Proof.
  intros [->|(fs & c & -> & ->)]; [done|]. simpl. by rewrite with_origin_length.
Qed.

(** *** Nodes *)

Lemma node_frame_refl n : node_frame n n.
Proof. split; [apply same_meta_refl|done]. Qed.

Lemma node_frame_trans a b c : node_frame a b → node_frame b c → node_frame a c.
Proof.
  intros [H1 L1] [H2 L2]. split; [by eapply same_meta_trans|congruence].
Qed.

Lemma set_port_links_frame node s lk : node_frame node (set_port_links node s lk).
Proof.
  split; [apply set_port_links_meta|]. rewrite set_port_links_ports.
  destruct (node_ports node !! s) as [[]|]; try done. apply length_insert.
Qed.

Lemma evolves_refl st : evolves st st.
Proof.
  split; [done|]. split; [intros; apply node_frame_refl|]. split; [done|].
  intros; apply link_frame_refl.
Qed.

Lemma evolves_trans a b c : evolves a b → evolves b c → evolves a c.
Proof.
  intros (N1 & F1 & L1 & K1) (N2 & F2 & L2 & K2).
  split; [congruence|]. split; [intros; by eapply node_frame_trans|].
  split; [congruence|]. intros; by eapply link_frame_trans.
Qed.

Section link_step.
Variables nodes_by_id link_map : pdict nat.

Lemma add_output_link_frame ns a b x ns' :
  add_output_link nodes_by_id ns a b x = Ok ns' →
  length ns' = length ns ∧ ∀ j, node_frame (ns !!! j) (ns' !!! j).
Proof.
  intros H. apply add_output_link_effect in H
    as [->|(t & s & pd & Ht & Hb & Hs & Hx & ->)].
  { split; [done|]. intros; apply node_frame_refl. }
  split; [apply length_insert|]. intros j.
  rewrite list_lookup_total_insert. case_decide as Hj.
  - destruct Hj as [<- _]. apply set_port_links_frame.
  - apply node_frame_refl.
Qed.

Lemma remove_output_link_frame ns nid k x ns' :
  remove_output_link nodes_by_id ns nid k x = Ok ns' →
  length ns' = length ns ∧ ∀ j, node_frame (ns !!! j) (ns' !!! j).
Proof.
  intros H. apply remove_output_link_effect in H
    as [->|(t & pd & l & Ht & Hs & Hl & ->)].
  { split; [done|]. intros; apply node_frame_refl. }
  split; [apply length_insert|]. intros j.
  rewrite list_lookup_total_insert. case_decide as Hj.
  - destruct Hj as [<- _]. apply set_port_links_frame.
  - apply node_frame_refl.
Qed.

(** The innermost loop body either leaves the state alone, because the link
    id maps to no link, or rewrites the link it maps to and moves the id. *)
Lemma rewire_link_effect name c i k st x st' :
  rewire_link nodes_by_id link_map name c i k st x = Ok st' →
  (st' = st
   ∧ (pdict_get link_map x = None
      ∨ ∃ p, pdict_get link_map x = Some p
             ∧ truthy (st_links st !!! p) = false))
  ∨ ∃ p fs ns1 nid,
      pdict_get link_map x = Some p
      ∧ st_links st !!! p = VList fs ∧ (5 < length fs)%nat
      ∧ add_output_link nodes_by_id (st_nodes st) c.1.1 c.1.2 x = Ok ns1
      ∧ py_getitem_key (ns1 !!! i) "id" = Ok nid
      ∧ remove_output_link nodes_by_id ns1 nid k x = Ok (st_nodes st')
      ∧ st_links st' = <[p := VList (with_origin c fs)]> (st_links st)
      ∧ st_rewired st' = st_rewired st ++ [VTuple [name; x; nid; c.1.1]]
      ∧ st_skipped st' = st_skipped st.
Proof.
  unfold rewire_link, pdict_lookup. intros H.
  destruct (py_hashable x); simpl in H; [|discriminate].
  destruct (pdict_get link_map x) as [p|] eqn:Ep; [|inv_ok; left; auto].
  destruct (truthy (st_links st !!! p)) eqn:Et; simpl in H;
    [|inv_ok; left; split; [done|right; eauto]].
  apply bind_Ok in H as (link' & Hl & H).
  apply bind_Ok in H as (ns1 & Hadd & H).
  apply bind_Ok in H as (nid & Hnid & H).
  apply bind_Ok in H as (ns2 & Hrem & H). injection H as <-. simpl.
  apply rewrite_origin_Ok in Hl as (fs & Hfs & Hlen & ->).
  right. exists p, fs, ns1, nid. by rewrite Hfs.
Qed.

Lemma rewire_link_evolves name c i k st x st' :
  rewire_link nodes_by_id link_map name c i k st x = Ok st' → evolves st st'.
Proof.
  intros H. apply rewire_link_effect in H
    as [[-> _]|(p & fs & ns1 & nid & Hp & Hfs & Hlen & Hadd & Hnid & Hrem & Hl & _)];
    [apply evolves_refl|].
  apply add_output_link_frame in Hadd as [N1 F1].
  apply remove_output_link_frame in Hrem as [N2 F2].
  split; [congruence|]. split; [intros; by eapply node_frame_trans|].
  rewrite Hl. split; [apply length_insert|]. intros q.
  rewrite list_lookup_total_insert. case_decide as Hq; [|apply link_frame_refl].
  destruct Hq as [<- _]. right. exists fs, c. by rewrite Hfs.
Qed.
End link_step.

(** *** The loops *)

Lemma port_has_ids n k x : port_has n k x = existsb (py_eq x) (port_ids n k).
Proof. unfold port_has, port_ids. by destruct (node_ports n !! k). Qed.

Lemma port_has_attached n k x : port_has n k x = true → attached x n = true.
Proof. intros H. apply attached_spec. eauto. Qed.

Lemma existsb_py_eq_congr x y l :
  py_eq x y = true → existsb (py_eq x) l = existsb (py_eq y) l.
Proof.
  intros H. induction l as [|z l IH]; simpl; [done|].
  by rewrite (py_eq_congr_l x y z H), IH.
Qed.

Lemma port_has_congr n k x y :
  py_eq x y = true → port_has n k x = port_has n k y.
Proof. intros H. rewrite !port_has_ids. by apply existsb_py_eq_congr. Qed.

Lemma attached_congr n x y : py_eq x y = true → attached x n = attached y n.
Proof.
  intros H. unfold attached. induction (node_ports n) as [|out ps IH]; simpl; [done|].
  by rewrite (existsb_py_eq_congr x y _ H), IH.
Qed.

Lemma elem_port_ids_has n k x : x ∈ port_ids n k → port_has n k x = true.
Proof.
  intros Hx. rewrite port_has_ids. apply existsb_exists. exists x.
  split; [by apply list_elem_of_In|apply py_eq_refl].
Qed.

Section loops.
Variables nodes_by_id link_map : pdict nat.
Variable name_to_source : pdict triple.

Lemma rewire_port_Ok name c i st k st' :
  rewire_port nodes_by_id link_map name c i st k = Ok st' →
  foldM (rewire_link nodes_by_id link_map name c i k) st
    (port_ids (st_nodes st !!! i) k) = Ok st'.
Proof.
  unfold rewire_port, port_ids, node_ports, snapshot. intros H.
  apply bind_Ok in H as (outs & -> & H). simpl.
  apply bind_Ok in H as (ports & -> & H).
  destruct (ports !! k) as [out|]; [|by inv_ok].
  apply bind_Ok in H as (ids & -> & H). done.
Qed.

Lemma get_node_Ok st m st' :
  get_node nodes_by_id link_map name_to_source st m = Ok st' →
  (is_get (st_nodes st !!! m) = false ∧ st' = st)
  ∨ (is_get (st_nodes st !!! m) = true
     ∧ ∃ name, bound_name (st_nodes st !!! m) = Ok name
         ∧ ((pdict_get name_to_source name = None
             ∧ ∃ nid, py_getitem_key (st_nodes st !!! m) "id" = Ok nid
                 ∧ st' = {| st_nodes := st_nodes st; st_links := st_links st;
                            st_rewired := st_rewired st;
                            st_skipped := st_skipped st ++ [VTuple [nid; name]] |})
            ∨ ∃ c, pdict_get name_to_source name = Some c
                ∧ foldM (rewire_port nodes_by_id link_map name c m) st
                    (seq 0 (length (node_ports (st_nodes st !!! m)))) = Ok st')).
Proof.
  unfold get_node, is_get. generalize (st_nodes st !!! m). intros n H.
  apply bind_Ok in H as (ty & -> & H).
  destruct (py_eq ty (VStr "GetNode")); simpl in H; [|inv_ok; by left].
  right. split; [done|].
  apply bind_Ok in H as (name & -> & H). exists name. split; [done|].
  unfold pdict_lookup in H. destruct (py_hashable name); [|discriminate]. simpl in H.
  destruct (pdict_get name_to_source name) as [c|].
  - right. exists c. split; [done|]. unfold node_ports.
    apply bind_Ok in H as (outs & -> & H). simpl.
    apply bind_Ok in H as (ports & -> & H). done.
  - left. split; [done|]. apply bind_Ok in H as (nid & -> & H). inv_ok. eauto.
Qed.

(** An invariant of the link rewrites is an invariant of a node's step:
    the ids the rewrites are run on are ids the node holds when its port is
    reached. *)
Lemma get_node_lift (Inv : state → Prop) (ok : value → Prop) m st st' :
  (∀ s k x, Inv s → port_has (st_nodes s !!! m) k x = true → ok x) →
  (∀ name c k s x s',
     Inv s → ok x →
     rewire_link nodes_by_id link_map name c m k s x = Ok s' → Inv s') →
  (∀ s sk, Inv s →
     Inv {| st_nodes := st_nodes s; st_links := st_links s;
            st_rewired := st_rewired s; st_skipped := sk |}) →
  Inv st →
  get_node nodes_by_id link_map name_to_source st m = Ok st' →
  Inv st'.
Proof.
  intros Hok Hstep Hskip Hst H.
  apply get_node_Ok in H as [[_ ->]|(_ & name & _ & [(_ & nid & _ & ->)|(c & _ & H)])];
    [done|by apply Hskip|].
  revert H. apply foldM_inv; [done|]. intros s k s' _ Hs H.
  apply rewire_port_Ok in H.
  assert (∀ x, x ∈ port_ids (st_nodes s !!! m) k → ok x) as Hids.
  { intros x Hx. eapply Hok; [exact Hs|]. by apply elem_port_ids_has. }
  revert Hids H. generalize (port_ids (st_nodes s !!! m) k). intros ids Hids.
  revert Hs. revert s. induction ids as [|x ids IH]; intros s Hs H; simpl in H.
  - by inv_ok.
  - apply bind_Ok in H as (s1 & H1 & H). eapply IH; [| |exact H].
    + intros y Hy. apply Hids. by right.
    + eapply Hstep; [exact Hs| |exact H1]. apply Hids. by left.
Qed.

Lemma get_node_evolves st m st' :
  get_node nodes_by_id link_map name_to_source st m = Ok st' → evolves st st'.
Proof.
  intros H.
  eapply (get_node_lift (λ s, evolves st s) (λ _, True)); [done| | | |exact H].
  - intros name c k s x s' Hs _ H'. eapply evolves_trans; [exact Hs|].
    by eapply rewire_link_evolves.
  - intros s sk Hs. exact Hs.
  - apply evolves_refl.
Qed.

Lemma get_nodes_evolves st idxs st' :
  foldM (get_node nodes_by_id link_map name_to_source) st idxs = Ok st' →
  evolves st st'.
Proof.
  apply (foldM_inv (λ s, evolves st s)); [apply evolves_refl|].
  intros s m s' _ Hs H. eapply evolves_trans; [exact Hs|].
  by eapply get_node_evolves.
Qed.
End loops.

(** *** The tables *)

Lemma build_index_spec key xs i acc m :
  build_index key i xs acc = Ok m →
  ∀ k, pdict_get m k =
       match last_match key k i xs with
       | Some q => Some q
       | None => pdict_get acc k
       end.
Proof.
  revert i acc. induction xs as [|x xs IH]; intros i acc H k; simpl in *.
  - by inv_ok.
  - apply bind_Ok in H as (kx & Hkx & H). rewrite Hkx.
    destruct (py_hashable kx); [|discriminate].
    rewrite (IH _ _ H k). destruct (last_match key k (S i) xs); [done|].
    rewrite pdict_get_set. by destruct (py_eq kx k).
Qed.

Lemma last_match_sound key k i xs q :
  last_match key k i xs = Some q →
  (i ≤ q)%nat ∧ ∃ x kx, xs !! (q - i)%nat = Some x ∧ key x = Ok kx
                        ∧ py_eq kx k = true.
Proof.
  revert i. induction xs as [|x xs IH]; intros i H; simpl in H; [done|].
  destruct (last_match key k (S i) xs) as [q'|] eqn:E.
  - injection H as ->. apply IH in E as (Hle & y & ky & Hy & Hk & He).
    split; [lia|]. exists y, ky. split; [|done].
    replace (q - i)%nat with (S (q - S i)) by lia. done.
  - destruct (key x) as [kx|] eqn:Ek; [|done].
    destruct (py_eq kx k) eqn:Ee; [|done]. injection H as <-.
    split; [done|]. exists x, kx. by rewrite Nat.sub_diag.
Qed.

Lemma last_match_unique key i xs q x kx :
  xs !! q = Some x → key x = Ok kx →
  (∀ q' x' kx', q' ≠ q → xs !! q' = Some x' → key x' = Ok kx' →
     py_eq kx' kx = false) →
  last_match key kx i xs = Some (i + q)%nat.
Proof.
  revert i q. induction xs as [|y xs IH]; intros i q Hq Hk Huniq; [done|].
  simpl. destruct q as [|q]; simpl in Hq.
  - injection Hq as ->. rewrite Hk, py_eq_refl, Nat.add_0_r.
    destruct (last_match key kx (S i) xs) as [q'|] eqn:E; [|done].
    apply last_match_sound in E as (Hle & z & kz & Hz & Hkz & He).
    rewrite (Huniq (S (q' - S i)) z kz) in He; done.
  - rewrite (IH (S i) q); [f_equal; lia|done|done|].
    intros q' x' kx' Hne Hx'. apply (Huniq (S q')); [lia|done].
Qed.

Lemma build_index_sound key xs m k q :
  build_index key 0 xs [] = Ok m →
  pdict_get m k = Some q →
  ∃ x kx, xs !! q = Some x ∧ key x = Ok kx ∧ py_eq kx k = true.
Proof.
  intros H Hq. rewrite (build_index_spec _ _ _ _ _ H k) in Hq.
  destruct (last_match key k 0 xs) as [q'|] eqn:E; [|done].
  injection Hq as ->. apply last_match_sound in E as (_ & x & kx & Hx & ?).
  rewrite Nat.sub_0_r in Hx. eauto.
Qed.

Lemma build_index_unique key xs m q x kx :
  build_index key 0 xs [] = Ok m →
  xs !! q = Some x → key x = Ok kx →
  (∀ q' x' kx', q' ≠ q → xs !! q' = Some x' → key x' = Ok kx' →
     py_eq kx' kx = false) →
  pdict_get m kx = Some q.
Proof.
  intros H Hx Hk Hu. rewrite (build_index_spec _ _ _ _ _ H kx).
  by rewrite (last_match_unique key 0 xs q x kx).
Qed.

(** The phases of [rewrite_pass]. *)
Lemma rewrite_pass_Ok d t st :
  rewrite_pass d = Ok (t, st) →
  build_index node_key 0 (graph_nodes d) [] = Ok (t_nodes_by_id t)
  ∧ build_index link_key 0 (graph_links d) [] = Ok (t_link_map t)
  ∧ set_pass (t_link_map t) (graph_nodes d) (graph_links d)
    = Ok (t_name_to_source t, t_conflicts t)
  ∧ get_pass (t_nodes_by_id t) (t_link_map t) (t_name_to_source t)
      (graph_nodes d) (graph_links d) = Ok st.
Proof.
  unfold rewrite_pass, graph_nodes, graph_links. intros H.
  destruct (py_getitem_key (VDict d) "nodes") as [nodes|]; [|done].
  cbn [bind] in *.
  destruct (py_iter nodes) as [ns|]; [|done]. cbn [bind] in *.
  apply bind_Ok in H as (nbi & Hnbi & H).
  destruct (py_getitem_key (VDict d) "links") as [links|]; [|done].
  cbn [bind] in *.
  destruct (py_iter links) as [ls|]; [|done]. cbn [bind] in *.
  apply bind_Ok in H as (lm & Hlm & H).
  apply bind_Ok in H as ([idx cf] & Hset & H).
  apply bind_Ok in H as (st1 & Hget & H). injection H as <- <-. done.
Qed.

(** *** Rewrites that do not concern a given link id *)

Section quiet.
Variables nodes_by_id link_map : pdict nat.
Variable name_to_source : pdict triple.
Variable ls0 : list value.
Hypothesis link_map_sound :
  ∀ x q, pdict_get link_map x = Some q →
         ∃ l kx, ls0 !! q = Some l ∧ link_key l = Ok kx ∧ py_eq kx x = true.

Lemma link_map_inj x y q :
  pdict_get link_map x = Some q → pdict_get link_map y = Some q →
  py_eq x y = true.
Proof.
  intros Hx Hy.
  apply link_map_sound in Hx as (l & kx & Hl & Hk & Hx).
  apply link_map_sound in Hy as (l' & ky & Hl' & Hk' & Hy).
  assert (kx = ky) as <- by congruence.
  rewrite py_eq_sym in Hx. by eapply py_eq_trans.
Qed.

Lemma undisturbed_refl lid st : undisturbed link_map lid st st.
Proof. by split. Qed.

Lemma undisturbed_trans lid a b c :
  undisturbed link_map lid a b → undisturbed link_map lid b c →
  undisturbed link_map lid a c.
Proof.
  intros (P1 & L1 & S1) (P2 & L2 & S2). split; [|split].
  - intros j kk. by rewrite P2, P1.
  - intros p Hp. by rewrite L2, L1.
  - congruence.
Qed.

Lemma undisturbed_attached lid st s j :
  undisturbed link_map lid st s →
  attached lid (st_nodes s !!! j) = attached lid (st_nodes st !!! j).
Proof.
  intros (P & _).
  destruct (attached lid (st_nodes st !!! j)) eqn:E.
  - apply attached_spec in E as [kk E]. apply attached_spec. exists kk.
    by rewrite P.
  - destruct (attached lid (st_nodes s !!! j)) eqn:E'; [|done].
    apply attached_spec in E' as [kk E']. rewrite P in E'.
    rewrite <- E. symmetry. by eapply port_has_attached.
Qed.

(** A rewrite run on an id other than [lid] attaches [lid] nowhere, detaches
    it nowhere and leaves its link alone. *)
Lemma rewire_link_quiet lid name c m k st x st' :
  rewire_link nodes_by_id link_map name c m k st x = Ok st' →
  py_eq lid x = false →
  undisturbed link_map lid st st'.
Proof.
  intros H Hne. apply rewire_link_effect in H
    as [[-> _]|(p & fs & ns1 & nid & Hp & Hfs & Hlen & Hadd & Hnid & Hrem & Hl & _ & Hsk)];
    [apply undisturbed_refl|].
  apply add_output_link_nodes in Hadd as [_ Hadd].
  apply remove_output_link_nodes in Hrem as [_ Hrem].
  split; [|split; [|done]].
  - intros j kk. destruct (port_has (st_nodes st !!! j) kk lid) eqn:E.
    + apply (Hrem j); [|by right]. by apply (Hadd j).
    + destruct (port_has (st_nodes st' !!! j) kk lid) eqn:E'; [|done].
      apply (Hrem j) in E'. apply (Hadd j) in E' as [E'|[E' _]]; congruence.
  - intros q Hq. rewrite Hl, list_lookup_total_insert.
    case_decide as Hpq; [|done]. destruct Hpq as [<- _].
    rewrite (link_map_inj _ _ _ Hq Hp) in Hne. done.
Qed.

(** The same for all the rewrites a GetNode runs, when it does not hold
    [lid]. *)
Lemma rewire_ports_quiet lid name c m st ks st' :
  foldM (rewire_port nodes_by_id link_map name c m) st ks = Ok st' →
  attached lid (st_nodes st !!! m) = false →
  undisturbed link_map lid st st'.
Proof.
  intros H Hm. revert H.
  apply (foldM_inv (undisturbed link_map lid st)); [apply undisturbed_refl|].
  intros s k s' _ Hs H. apply rewire_port_Ok in H.
  assert (∀ x, x ∈ port_ids (st_nodes s !!! m) k → py_eq lid x = false) as Hids.
  { intros x Hx. apply elem_port_ids_has, port_has_attached in Hx.
    destruct (py_eq lid x) eqn:E; [|done].
    rewrite <- (attached_congr _ lid x E), (undisturbed_attached _ _ _ _ Hs) in Hx.
    congruence. }
  revert Hids H. generalize (port_ids (st_nodes s !!! m) k). intros ids.
  revert s Hs. induction ids as [|x ids IH]; intros s Hs Hids H; simpl in H.
  - by inv_ok.
  - apply bind_Ok in H as (s1 & H1 & H). eapply IH; [| |exact H].
    + eapply undisturbed_trans; [exact Hs|].
      eapply rewire_link_quiet; [exact H1|]. apply Hids. by left.
    + intros y Hy. apply Hids. by right.
Qed.

(** And for a whole step of the node loop, at a node that does not hold
    [lid], is no GetNode or has no binding. *)
Lemma get_node_quiet lid st m st' :
  get_node nodes_by_id link_map name_to_source st m = Ok st' →
  (is_get (st_nodes st !!! m) = true →
   (∀ name, bound_name (st_nodes st !!! m) = Ok name →
            pdict_get name_to_source name ≠ None) →
   attached lid (st_nodes st !!! m) = false) →
  (∀ j kk, port_has (st_nodes st' !!! j) kk lid
           = port_has (st_nodes st !!! j) kk lid)
  ∧ (∀ j, attached lid (st_nodes st' !!! j)
          = attached lid (st_nodes st !!! j))
  ∧ (∀ p, pdict_get link_map lid = Some p →
          st_links st' !!! p = st_links st !!! p).
Proof.
  intros H Hm.
  apply get_node_Ok in H
    as [[_ ->]|(Hg & name & Hn & [(_ & nid & _ & ->)|(c & Hc & H)])];
    [done|done|].
  eapply rewire_ports_quiet in H.
  - split; [apply H|]. split; [|apply H].
    intros j. by apply undisturbed_attached.
  - apply Hm; [done|]. intros name' Hn'. congruence.
Qed.
End quiet.

(** ** C6: a GetNode without a binding *)

Lemma build_index_keys key xs i acc m :
  build_index key i xs acc = Ok m →
  Forall (λ x, ∃ k, key x = Ok k ∧ py_hashable k = true) xs.
Proof.
  revert i acc. induction xs as [|x xs IH]; intros i acc H; simpl in H; [done|].
  apply bind_Ok in H as (k & Hk & H).
  destruct (py_hashable k) eqn:Eh; [|discriminate].
  constructor; [eauto|]. by eapply IH.
Qed.

Lemma skipped_entry_frame idx n n' :
  node_frame n n' → skipped_entry idx n' = skipped_entry idx n.
Proof.
  intros [Hm _]. unfold skipped_entry.
  by rewrite (same_meta_is_get _ _ Hm), (same_meta_bound_name _ _ Hm),
    (same_meta_getitem _ _ "id" Hm).
Qed.

Lemma skipped_entry_inv idx n e :
  e ∈ skipped_entry idx n →
  ∃ nid name, e = VTuple [nid; name] ∧ py_getitem_key n "id" = Ok nid.
Proof.
  unfold skipped_entry. destruct (is_get n); [|by intros ?%elem_of_nil].
  destruct (bound_name n) as [name|]; [|by intros ?%elem_of_nil].
  destruct (py_getitem_key n "id") as [nid|]; [|by intros ?%elem_of_nil].
  destruct (pdict_get idx name); [by intros ?%elem_of_nil|].
  intros ->%list_elem_of_singleton. eauto.
Qed.

Section skipped.
Variables nodes_by_id link_map : pdict nat.
Variable name_to_source : pdict triple.

Lemma rewire_ports_skipped name c m st ks st' :
  foldM (rewire_port nodes_by_id link_map name c m) st ks = Ok st' →
  st_skipped st' = st_skipped st.
Proof.
  apply (foldM_inv (λ s, st_skipped s = st_skipped st)); [done|].
  intros s k s' _ Hs H. apply rewire_port_Ok in H. rewrite <- Hs. revert H.
  apply (foldM_inv (λ s', st_skipped s' = st_skipped s)); [done|].
  intros s1 x s2 _ Hs1 H. rewrite <- Hs1.
  apply rewire_link_effect in H as [[-> _]|(?&?&?&?&?&?&?&?&?&?&?&?&?)]; done.
Qed.

Lemma get_node_skipped st m st' :
  get_node nodes_by_id link_map name_to_source st m = Ok st' →
  st_skipped st' = st_skipped st
                   ++ skipped_entry name_to_source (st_nodes st !!! m).
Proof.
  intros H. unfold skipped_entry.
  apply get_node_Ok in H
    as [[-> ->]|(-> & name & -> & [(-> & nid & -> & ->)|(c & -> & H)])].
  - by rewrite app_nil_r.
  - done.
  - apply rewire_ports_skipped in H. rewrite H.
    destruct (py_getitem_key _ _); by rewrite app_nil_r.
Qed.

Lemma get_pass_skipped ns ls st :
  get_pass nodes_by_id link_map name_to_source ns ls = Ok st →
  st_skipped st = flat_map (skipped_entry name_to_source) ns.
Proof.
  unfold get_pass. intros H.
  set (st0 := {| st_nodes := ns; st_links := ls; st_rewired := [];
                 st_skipped := [] |}) in *.
  cut (evolves st0 st
       ∧ st_skipped st
         = flat_map (skipped_entry name_to_source) (take (0 + length ns) ns)).
  { intros [_ ->]. by rewrite take_ge. }
  revert H.
  apply (foldM_seq_inv (λ m s, evolves st0 s
           ∧ st_skipped s = flat_map (skipped_entry name_to_source) (take m ns))).
  - split; [apply evolves_refl|done].
  - intros m s s' Hm [Hev Hsk] H. split.
    + eapply evolves_trans; [exact Hev|]. by eapply get_node_evolves.
    + rewrite (get_node_skipped _ _ _ H), Hsk.
      destruct (lookup_lt_is_Some_2 ns m) as [n Hn]; [lia|].
      rewrite (take_S_r _ _ _ Hn), flat_map_app. simpl. rewrite app_nil_r.
      f_equal. destruct Hev as (_ & Hf & _). specialize (Hf m). simpl in Hf.
      rewrite (list_lookup_total_correct _ _ _ Hn) in Hf.
      by apply skipped_entry_frame.
Qed.
End skipped.

Lemma port_is_list_ids n k pd l :
  node_ports n !! k = Some (VDict pd) →
  dict_get pd "links" = Some (VList l) →
  port_ids n k = l.
Proof.
  intros Hk Hl. unfold port_ids. rewrite Hk.
  unfold snapshot, port_snapshot. simpl. rewrite Hl. simpl. by destruct l.
Qed.

Lemma set_port_links_is_list node s new kk :
  port_is_list node kk → port_is_list (set_port_links node s (VList new)) kk.
Proof.
  intros (pd & l & Hk & Hl). unfold port_is_list. rewrite set_port_links_ports.
  destruct (node_ports node !! s) as [[| | | | | |pd']|] eqn:Es; eauto.
  destruct (decide (kk = s)) as [->|Hne].
  - eexists _, new.
    rewrite list_lookup_insert_eq by (by eapply lookup_lt_Some).
    split; [done|]. apply dict_get_set.
  - exists pd, l. by rewrite list_lookup_insert_ne.
Qed.

Lemma set_port_links_ids node s new j :
  port_ids (set_port_links node s (VList new)) j =
  match node_ports node !! s with
  | Some (VDict _) => if decide (j = s) then new else port_ids node j
  | _ => port_ids node j
  end.
Proof.
  unfold port_ids. rewrite set_port_links_ports.
  destruct (node_ports node !! s) as [[| | | | | |pd]|] eqn:Es; try done.
  case_decide as Hj.
  - subst j. rewrite list_lookup_insert_eq by (by eapply lookup_lt_Some).
    apply snapshot_set.
  - by rewrite list_lookup_insert_ne.
Qed.

(** *** Ports nothing is removed from *)

Section port_growth.
Variables nodes_by_id link_map : pdict nat.
Variable name_to_source : pdict triple.
Variables ns0 ls0 : list value.
Variable u : nat.

(** No GetNode with a binding has an id that [nodes_by_id] finds at [u]:
    [remove_output_link] never works on node [u]. *)
Hypothesis no_removal :
  ∀ j nid name,
    is_get (ns0 !!! j) = true → bound_name (ns0 !!! j) = Ok name →
    is_Some (pdict_get name_to_source name) →
    node_key (ns0 !!! j) = Ok nid →
    pdict_get nodes_by_id nid ≠ Some u.

Let st0 : state :=
  {| st_nodes := ns0; st_links := ls0; st_rewired := []; st_skipped := [] |}.

(** The ports of node [u] hold the ids they held, in order, followed by ids
    appended where a binding of the index names the port. *)
Definition ports_grown (ns : list value) : Prop :=
  ∀ kk, ∃ extra,
    port_ids (ns !!! u) kk = port_ids (ns0 !!! u) kk ++ extra
    ∧ (extra ≠ [] →
       ∃ name c, pdict_get name_to_source name = Some c
                 ∧ pdict_get nodes_by_id c.1.1 = Some u
                 ∧ as_int c.1.2 = Some (Z.of_nat kk)).

Definition node_kept (ns : list value) : Prop :=
  (∀ name c, pdict_get name_to_source name = Some c →
             pdict_get nodes_by_id c.1.1 ≠ Some u) →
  ns !!! u = ns0 !!! u.

Lemma add_output_link_grows ns a b x ns' kk :
  add_output_link nodes_by_id ns a b x = Ok ns' →
  ∃ extra,
    port_ids (ns' !!! u) kk = port_ids (ns !!! u) kk ++ extra
    ∧ (extra ≠ [] →
       pdict_get nodes_by_id a = Some u ∧ as_int b = Some (Z.of_nat kk)).
Proof.
  intros H. apply add_output_link_effect in H
    as [->|(t & s & pd & Ht & Hb & Hs & Hx & ->)].
  { exists []. by rewrite app_nil_r. }
  rewrite list_lookup_total_insert. case_decide as Hj.
  - destruct Hj as [<- _]. rewrite set_port_links_ids, Hs.
    destruct (decide (kk = s)) as [->|Hne].
    + exists [x]. split; [|done]. unfold port_ids. by rewrite Hs.
    + exists []. by rewrite app_nil_r.
  - exists []. by rewrite app_nil_r.
Qed.

Lemma rewire_link_grows name c m k s x s' :
  pdict_get name_to_source name = Some c →
  is_get (ns0 !!! m) = true →
  bound_name (ns0 !!! m) = Ok name →
  evolves st0 s →
  ports_grown (st_nodes s) ∧ node_kept (st_nodes s) →
  rewire_link nodes_by_id link_map name c m k s x = Ok s' →
  ports_grown (st_nodes s') ∧ node_kept (st_nodes s').
Proof.
  intros Hc Hm Hname (_ & Hframe & _) [Hgrown Hkept] H.
  apply rewire_link_effect in H
    as [[-> _]|(p & fs & ns1 & nid & _ & _ & _ & Hadd & Hid & Hrem & _)];
    [done|].
  destruct (add_output_link_nodes _ _ _ _ _ _ Hadd) as [_ Ha].
  destruct (remove_output_link_nodes _ _ _ _ _ _ Hrem) as [_ Hr].
  assert (node_key (ns0 !!! m) = Ok nid) as Hkey.
  { unfold node_key. rewrite <- Hid. symmetry. apply same_meta_getitem; [|done].
    destruct (Hframe m) as [H1 _]. destruct (Ha m) as (H2 & _).
    by eapply same_meta_trans. }
  assert (st_nodes s' !!! u = ns1 !!! u) as Hu.
  { apply (Hr u). by eapply no_removal. }
  split.
  - intros kk. rewrite Hu.
    destruct (add_output_link_grows _ _ _ _ _ kk Hadd) as (e1 & -> & He1).
    destruct (Hgrown kk) as (e0 & -> & He0).
    exists (e0 ++ e1). split; [by rewrite app_assoc|]. intros Hne.
    destruct e1 as [|y e1].
    + rewrite app_nil_r in Hne. by apply He0.
    + destruct He1 as [H1 H2]; [done|]. by exists name, c.
  - intros Hnone. rewrite Hu. destruct (Ha u) as (_ & Ha2 & _).
    rewrite Ha2 by (by eapply Hnone). by apply Hkept.
Qed.

Lemma get_pass_grows st :
  get_pass nodes_by_id link_map name_to_source ns0 ls0 = Ok st →
  ports_grown (st_nodes st) ∧ node_kept (st_nodes st).
Proof.
  unfold get_pass. fold st0. intros H.
  cut (evolves st0 st ∧ ports_grown (st_nodes st) ∧ node_kept (st_nodes st)).
  { by intros [_ ?]. }
  revert H.
  apply (foldM_inv (λ s, evolves st0 s
                         ∧ ports_grown (st_nodes s) ∧ node_kept (st_nodes s))).
  { split; [apply evolves_refl|]. split; [|done].
    intros kk. exists []. by rewrite app_nil_r. }
  intros s m s' _ (He & Hs) H.
  assert (node_frame (ns0 !!! m) (st_nodes s !!! m)) as [Hmeta _].
  { destruct He as (_ & Hf & _). apply Hf. }
  apply get_node_Ok in H
    as [[_ ->]|(Hg & name & Hn & [(_ & nid & _ & ->)|(c & Hc & H)])];
    [done|done|].
  rewrite (same_meta_is_get _ _ Hmeta) in Hg.
  rewrite (same_meta_bound_name _ _ Hmeta) in Hn.
  revert H.
  apply (foldM_inv (λ s, evolves st0 s
                         ∧ ports_grown (st_nodes s) ∧ node_kept (st_nodes s)));
    [done|].
  intros s1 k s2 _ Hs1 H. apply rewire_port_Ok in H. revert H.
  apply (foldM_inv (λ s, evolves st0 s
                         ∧ ports_grown (st_nodes s) ∧ node_kept (st_nodes s)));
    [done|].
  intros s3 x s4 _ [He3 Hs3] H. split.
  - eapply evolves_trans; [exact He3|]. by eapply rewire_link_evolves.
  - by eapply rewire_link_grows.
Qed.
End port_growth.

(** C6, as the code has it.  A GetNode whose name the index does not bind
    contributes the pair [(id, name)] to [skipped_gets], which holds one
    entry per such node, hence this pair exactly once when no other node has
    its id.  A link id attached to one of its ports and to no port of another
    GetNode is still attached to that port after the pass, and the link it
    denotes is the input's.  When no GetNode with a binding has its id, each
    of its ports holds the ids it held, in the same order, followed by ids
    appended only where a binding of the index names this node and that port
    as its source; when no binding names this node, the node is exactly the
    input's. *)
Theorem unresolved_get_kept d t st u n name :
  rewrite_pass d = Ok (t, st) →
  graph_nodes d !! u = Some n →
  is_get n = true →
  bound_name n = Ok name →
  pdict_get (t_name_to_source t) name = None →
  ∃ nid,
    py_getitem_key n "id" = Ok nid
    ∧ st_skipped st
      = flat_map (skipped_entry (t_name_to_source t)) (graph_nodes d)
    ∧ ((∀ j n', j ≠ u → graph_nodes d !! j = Some n' →
          py_getitem_key n' "id" ≠ Ok nid) →
       ∃ l1 l2, st_skipped st = l1 ++ (VTuple [nid; name] :: l2)
                ∧ (VTuple [nid; name] ∉ l1) ∧ (VTuple [nid; name] ∉ l2))
    ∧ (∀ k lid,
        port_has n k lid = true →
        (∀ j n', j ≠ u → graph_nodes d !! j = Some n' → is_get n' = true →
           attached lid n' = false) →
        port_has (st_nodes st !!! u) k lid = true
        ∧ ∀ p, pdict_get (t_link_map t) lid = Some p →
               st_links st !! p = graph_links d !! p)
    ∧ ((∀ j n' nid' name',
          graph_nodes d !! j = Some n' → is_get n' = true →
          bound_name n' = Ok name' →
          is_Some (pdict_get (t_name_to_source t) name') →
          py_getitem_key n' "id" = Ok nid' → py_eq nid' nid = false) →
       (∀ kk, ∃ extra,
          port_ids (st_nodes st !!! u) kk = port_ids n kk ++ extra
          ∧ (extra ≠ [] →
             ∃ name' c, pdict_get (t_name_to_source t) name' = Some c
                        ∧ py_eq c.1.1 nid = true
                        ∧ as_int c.1.2 = Some (Z.of_nat kk)))
       ∧ ((∀ name' c, pdict_get (t_name_to_source t) name' = Some c →
                      py_eq c.1.1 nid = false) →
          st_nodes st !! u = Some n)).
Proof.
  intros Hpass Hu Hget Hname Hnone.
  apply rewrite_pass_Ok in Hpass as (Hnbi & Hlm & Hset & Hpass).
  set (ns0 := graph_nodes d) in *. set (ls0 := graph_links d) in *.
  set (idx := t_name_to_source t) in *.
  assert (∃ nid, py_getitem_key n "id" = Ok nid) as [nid Hnid].
  { apply build_index_keys in Hnbi. rewrite Forall_lookup in Hnbi.
    destruct (Hnbi u n Hu) as (nid & Hk & _). by exists nid. }
  assert (skipped_entry idx n = [VTuple [nid; name]]) as Hentry.
  { unfold skipped_entry. by rewrite Hget, Hname, Hnid, Hnone. }
  pose proof (get_pass_skipped _ _ _ _ _ _ Hpass) as Hsk.
  exists nid. split; [done|]. split; [done|]. split.
  { intros Huniq. rewrite Hsk.
    rewrite <- (take_drop_middle ns0 u n Hu), flat_map_app. simpl.
    rewrite Hentry. simpl.
    eexists _, _. split; [done|].
    assert (∀ l off, (∀ j n', l !! j = Some n' → ns0 !! (off j) = Some n'
                                ∧ off j ≠ u) →
              VTuple [nid; name] ∉ flat_map (skipped_entry idx) l) as Hnot.
    { intros l off Hl Hin. apply list_elem_of_In, in_flat_map in Hin as (n' & Hn' & Hin).
      apply list_elem_of_In, list_elem_of_lookup_1 in Hn' as [j Hj].
      apply list_elem_of_In, skipped_entry_inv in Hin as (nid' & name' & He & Hid).
      injection He as <- <-. destruct (Hl j n' Hj) as [Hj' Hne].
      by eapply Huniq. }
    split.
    - apply (Hnot _ (λ j, j)). intros j n' Hj.
      apply lookup_take_Some in Hj as [Hj Hlt]. split; [done|lia].
    - apply (Hnot _ (λ j, (S u + j)%nat)). intros j n' Hj.
      rewrite lookup_drop in Hj. split; [done|lia]. }
  pose proof (list_lookup_total_correct _ _ _ Hu) as Hu'.
  split.
  2:{ intros Hrm.
      assert (∀ x, pdict_get (t_nodes_by_id t) x = Some u →
                   py_eq nid x = true) as Hfound.
      { intros x Hx.
        destruct (build_index_sound _ _ _ _ _ Hnbi Hx) as (n' & kx & Hn' & Hk & He).
        fold ns0 in Hn'. rewrite Hu in Hn'. injection Hn' as <-.
        unfold node_key in Hk. rewrite Hnid in Hk. by injection Hk as <-. }
      destruct (get_pass_grows (t_nodes_by_id t) (t_link_map t) idx ns0 ls0 u)
        with (st := st) as [Hgrown Hkept]; [|done|].
      { intros j nid' name' Hg Hn Hb Hk Hfind.
        destruct (ns0 !! j) as [n'|] eqn:Ej.
        - rewrite (list_lookup_total_correct _ _ _ Ej) in Hg, Hn, Hk.
          specialize (Hrm j n' nid' name' Ej Hg Hn Hb Hk).
          rewrite py_eq_sym, (Hfound _ Hfind) in Hrm. done.
        - by rewrite list_lookup_total_alt, Ej in Hg. }
      split.
      - intros kk. destruct (Hgrown kk) as (extra & Hp & He).
        rewrite Hu' in Hp. exists extra. split; [done|]. intros Hne.
        destruct (He Hne) as (name' & c & Hc & Hcu & Hs).
        exists name', c. split; [done|]. split; [|done].
        rewrite py_eq_sym. by apply Hfound.
      - intros Hnb. rewrite <- Hu', <- Hkept.
        + apply list_lookup_lookup_total_lt.
          unfold get_pass in Hpass. apply get_nodes_evolves in Hpass as [Hlen _].
          simpl in Hlen. rewrite Hlen. by eapply lookup_lt_Some.
        + intros name' c Hc Hcu. specialize (Hnb name' c Hc).
          rewrite py_eq_sym, (Hfound _ Hcu) in Hnb. done. }
  intros k lid Hport H1.
  assert (∀ x q, pdict_get (t_link_map t) x = Some q →
            ∃ l kx, ls0 !! q = Some l ∧ link_key l = Ok kx ∧ py_eq kx x = true)
    as Hsound.
  { intros x q Hq. by eapply build_index_sound. }
  unfold get_pass in Hpass.
  set (st0 := {| st_nodes := ns0; st_links := ls0; st_rewired := [];
                 st_skipped := [] |}) in *.
  set (P := λ s : state,
    evolves st0 s
    ∧ (∀ j, j ≠ u → is_get (ns0 !!! j) = true →
            attached lid (st_nodes s !!! j) = false)
    ∧ port_has (st_nodes s !!! u) k lid = true
    ∧ (∀ p, pdict_get (t_link_map t) lid = Some p →
            st_links s !!! p = ls0 !!! p)).
  cut (P st).
  { intros (Hev & _ & Hp & Hl). split; [done|]. intros p Hp'.
    specialize (Hl p Hp'). destruct (Hsound _ _ Hp') as (l & _ & Hl0 & _).
    destruct Hev as (_ & _ & Hlen & _). simpl in Hlen.
    rewrite (list_lookup_total_correct _ _ _ Hl0) in Hl.
    rewrite Hl0, <- Hl. apply list_lookup_lookup_total_lt.
    rewrite Hlen. by eapply lookup_lt_Some. }
  revert Hpass. apply (foldM_inv P).
  - split; [apply evolves_refl|]. simpl. split; [|split; [|done]].
    + intros j Hj Hg. destruct (ns0 !! j) as [n'|] eqn:Ej.
      * rewrite (list_lookup_total_correct _ _ _ Ej) in *. by eapply H1.
      * by rewrite list_lookup_total_alt, Ej.
    + by rewrite (list_lookup_total_correct _ _ _ Hu).
  - intros s m s' _ (Hev & Hq & Hp & Hl) H.
    pose proof (get_node_evolves _ _ _ _ _ _ H) as Hev'.
    split; [by eapply evolves_trans|].
    assert (node_frame (ns0 !!! m) (st_nodes s !!! m)) as [Hmeta _].
    { destruct Hev as (_ & Hf & _). apply Hf. }
    eapply (get_node_quiet _ _ _ ls0 Hsound lid) in H as (Q2 & Q1 & Q3).
    + split; [|split].
      * intros j Hj Hg. rewrite Q1. by apply Hq.
      * by rewrite Q2.
      * intros p Hp'. rewrite Q3 by done. by apply Hl.
    + intros Hg Hres. destruct (decide (m = u)) as [->|Hne].
      * exfalso. apply (Hres name); [|done].
        rewrite (same_meta_bound_name _ _ Hmeta).
        by rewrite (list_lookup_total_correct _ _ _ Hu).
      * apply Hq; [done|]. by rewrite <- (same_meta_is_get _ _ Hmeta).
Qed.

Lemma unresolved_get_kept_witness :
  ∃ t st,
    rewrite_pass g_unresolved = Ok (t, st)
    ∧ VTuple [VInt 9; VStr "Z"] ∈ st_skipped st
    ∧ port_has (st_nodes st !!! 0%nat) 0 (VInt 10) = true
    ∧ st_links st !! 0%nat = Some (link6 10 9 0 1 0 "T")
    ∧ ∃ extra, port_ids (st_nodes st !!! 0%nat) 0 = [VInt 10] ++ extra.
Proof.
  destruct (rewrite_pass g_unresolved) as [[t st]|e] eqn:E;
    [|vm_compute in E; discriminate].
  exists t, st. split; [done|].
  assert (pdict_get (t_name_to_source t) (VStr "Z") = None) as Hz.
  { vm_compute in E. by injection E as <- <-. }
  destruct (unresolved_get_kept g_unresolved t st 0 (get_node_of 9 "Z" [10])
              (VStr "Z") E eq_refl eq_refl eq_refl Hz)
    as (nid & Hnid & Hsk & Hone & Hkeep & Hexact).
  injection Hnid as <-.
  destruct Hone as (l1 & l2 & Hl & _).
  { intros [|[|[|[|j]]]] n' Hj Hn'; try done; vm_compute in Hn';
      injection Hn' as <-; vm_compute; congruence. }
  destruct (Hkeep 0%nat (VInt 10) eq_refl) as [Hp Hlinks].
  { intros [|[|[|[|j]]]] n' Hj Hn'; try done; vm_compute in Hn';
      injection Hn' as <-; vm_compute; congruence. }
  destruct Hexact as [Hports _].
  { assert (t_name_to_source t = [(VStr "A", (VInt 9, VInt 0, VStr "T"))])
      as Hidx.
    { vm_compute in E. by injection E as <- <-. }
    rewrite Hidx.
    intros [|[|[|[|j]]]] n' nid' name' Hj Hg Hn Hb Hid; try done;
      vm_compute in Hj; injection Hj as <-; try (by vm_compute in Hg);
      vm_compute in Hn; injection Hn as <-;
      vm_compute in Hid; injection Hid as <-; try done.
    vm_compute in Hb. by destruct Hb. }
  split; [|split; [exact Hp|split]].
  - rewrite Hl. apply elem_of_app. right. left.
  - apply Hlinks. vm_compute in E. by injection E as <- <-.
  - destruct (Hports 0%nat) as (extra & Hextra & _). by exists extra.
Defined.

(** C6 as stated fails: [Get A] is rewired to the output of the unresolved
    [Get Z], whose port then holds link 20 besides link 10, and link 20 now
    leaves [Get Z]. *)
Lemma unresolved_get_port_grows :
  ∃ t st,
    rewrite_pass g_unresolved = Ok (t, st)
    ∧ graph_nodes g_unresolved !! 0%nat = Some (get_node_of 9 "Z" [10])
    ∧ pdict_get (t_name_to_source t) (VStr "Z") = None
    ∧ port_ids (get_node_of 9 "Z" [10]) 0 = [VInt 10]
    ∧ port_ids (st_nodes st !!! 0%nat) 0 = [VInt 10; VInt 20]
    ∧ graph_links g_unresolved !! 1%nat = Some (link6 20 2 0 3 0 "T")
    ∧ st_links st !! 1%nat = Some (link6 20 9 0 3 0 "T").
Proof. eexists _, _. vm_compute. repeat split. Qed.

(** ** C1: the origin of a rewired link *)

Lemma link_key_truthy l k : link_key l = Ok k → truthy l = true.
Proof.
  unfold link_key. destruct l as [| | |s|l|l|]; simpl; try discriminate.
  - by destruct s.
  - by destruct l.
  - by destruct l.
Qed.

Section origin.
Variables nodes_by_id link_map : pdict nat.
Variable name_to_source : pdict triple.
Variables ns0 ls0 : list value.
Variables (i k p : nat) (lid name : value) (c : triple).

Hypothesis link_map_sound :
  ∀ x q, pdict_get link_map x = Some q →
         ∃ l kx, ls0 !! q = Some l ∧ link_key l = Ok kx ∧ py_eq kx x = true.
Hypothesis lid_link : pdict_get link_map lid = Some p.
(** The node the binding names as the source is not a GetNode that the
    loop visits after [i], or the slot is none of its ports. *)
Hypothesis source_not_later :
  ∀ t, pdict_get nodes_by_id c.1.1 = Some t →
       (t ≤ i)%nat ∨ is_get (ns0 !!! t) = false
       ∨ ∀ s, as_int c.1.2 = Some (Z.of_nat s) →
              (length (node_ports (ns0 !!! t)) ≤ s)%nat.

Let st0 : state :=
  {| st_nodes := ns0; st_links := ls0; st_rewired := []; st_skipped := [] |}.

(** No GetNode after [i] holds [lid]. *)
Definition later_free (s : state) : Prop :=
  ∀ j, (i < j)%nat → is_get (ns0 !!! j) = true →
       attached lid (st_nodes s !!! j) = false.

(** The link of [lid] carries the binding [c]. *)
Definition origin_set (s : state) : Prop :=
  ∃ fs, ls0 !!! p = VList fs ∧ (5 < length fs)%nat
        ∧ st_links s !!! p = VList (with_origin c fs).

Definition origin_pending (s : state) : Prop :=
  st_links s !!! p = ls0 !!! p ∨ origin_set s.

Lemma rewire_link_own k' s x s' :
  evolves st0 s → later_free s → origin_pending s →
  rewire_link nodes_by_id link_map name c i k' s x = Ok s' →
  later_free s' ∧ origin_pending s'
  ∧ (origin_set s → origin_set s')
  ∧ (py_eq lid x = true → origin_set s')
  ∧ (∀ kk, port_has (st_nodes s !!! i) kk lid = true →
           kk ≠ k' ∨ py_eq lid x = false →
           port_has (st_nodes s' !!! i) kk lid = true).
Proof.
  intros Hev Hlater Hpend H.
  apply rewire_link_effect in H
    as [[-> Hno]|(q & fs & ns1 & nid & Hq & Hfs & Hlen & Hadd & Hnid & Hrem & Hl & _)].
  { split; [done|]. split; [done|]. split; [done|]. split; [|done].
    intros Hx. exfalso. rewrite <- (pdict_get_congr link_map lid x Hx) in Hno.
    destruct Hno as [Hno|(q & Hq & Hfalse)]; [congruence|].
    assert (q = p) as -> by congruence.
    destruct (link_map_sound _ _ lid_link) as (l & kx & Hl & Hk & _).
    destruct Hev as (_ & _ & _ & Hlf). specialize (Hlf p). simpl in Hlf.
    rewrite (list_lookup_total_correct _ _ _ Hl) in Hlf.
    rewrite (link_frame_truthy _ _ Hlf), (link_key_truthy _ _ Hk) in Hfalse.
    done. }
  pose proof (add_output_link_nodes _ _ _ _ _ _ Hadd) as [_ Hadd'].
  pose proof (remove_output_link_nodes _ _ _ _ _ _ Hrem) as [_ Hrem'].
  assert (q = p → origin_set s') as Hset.
  { intros ->. destruct Hpend as [Hsame|(fs1 & Hfs1 & Hlen1 & Hcur)].
    - exists fs. split; [congruence|]. split; [done|].
      rewrite Hl. apply list_lookup_total_insert_eq.
      destruct (link_map_sound _ _ lid_link) as (l & _ & Hl0 & _).
      destruct Hev as (_ & _ & Hll & _). simpl in Hll. rewrite Hll.
      by eapply lookup_lt_Some.
    - exists fs1. split; [done|]. split; [done|].
      rewrite Hl, list_lookup_total_insert_eq.
      + rewrite Hfs in Hcur. injection Hcur as ->. by rewrite with_origin_twice.
      + destruct (link_map_sound _ _ lid_link) as (l & _ & Hl0 & _).
        destruct Hev as (_ & _ & Hll & _). simpl in Hll. rewrite Hll.
        by eapply lookup_lt_Some. }
  assert (q ≠ p → st_links s' !!! p = st_links s !!! p) as Hother.
  { intros Hne. rewrite Hl. by apply list_lookup_total_insert_ne. }
  split; [|split; [|split; [|split]]].
  - intros j Hj Hg. destruct (attached lid (st_nodes s' !!! j)) eqn:E; [|done].
    apply attached_spec in E as [kk E]. apply (Hrem' j) in E.
    apply (Hadd' j) in E as [E|(Hx & Ht & Hslot & Hport)].
    { rewrite <- (Hlater j Hj Hg). symmetry. by eapply port_has_attached. }
    exfalso. destruct (source_not_later j Ht) as [Hle|[Hng|Hoff]];
      [lia|congruence|].
    specialize (Hoff kk Hslot).
    destruct Hev as (_ & Hf & _). destruct (Hf j) as [_ Hports].
    simpl in Hports. lia.
  - destruct (decide (q = p)) as [Heq|Hne]; [right; by apply Hset|].
    destruct Hpend as [Hsame|(fs1 & Hfs1 & Hlen1 & Hcur)].
    + left. by rewrite Hother.
    + right. exists fs1. by rewrite Hother.
  - intros (fs1 & Hfs1 & Hlen1 & Hcur).
    destruct (decide (q = p)) as [Heq|Hne]; [by apply Hset|].
    exists fs1. by rewrite Hother.
  - intros Hx. apply Hset.
    rewrite (pdict_get_congr link_map lid x Hx) in lid_link. congruence.
  - intros kk Hkk Hor. apply (Hrem' i); [by apply (Hadd' i)|done].
Qed.

Lemma rewire_links_own k' ids s s' :
  evolves st0 s → later_free s → origin_pending s →
  foldM (rewire_link nodes_by_id link_map name c i k') s ids = Ok s' →
  evolves st0 s' ∧ later_free s' ∧ origin_pending s'
  ∧ (origin_set s → origin_set s')
  ∧ (existsb (py_eq lid) ids = true → origin_set s')
  ∧ (∀ kk, kk ≠ k' → port_has (st_nodes s !!! i) kk lid = true →
           port_has (st_nodes s' !!! i) kk lid = true).
Proof.
  revert s. induction ids as [|x ids IH]; intros s Hev Hl Hp H; simpl in H.
  - injection H as <-. split; [done|]. split; [done|]. split; [done|].
    split; [done|]. split; [done|]. auto.
  - apply bind_Ok in H as (s1 & H1 & H).
    pose proof (rewire_link_evolves _ _ _ _ _ _ _ _ _ H1) as Hev1.
    destruct (rewire_link_own _ _ _ _ Hev Hl Hp H1) as (L1 & P1 & D1 & X1 & K1).
    destruct (IH s1 (evolves_trans _ _ _ Hev Hev1) L1 P1 H)
      as (E2 & L2 & P2 & D2 & X2 & K2).
    split; [done|]. split; [done|]. split; [done|].
    split; [auto|]. split.
    + simpl. intros Hx. apply orb_true_iff in Hx as [Hx|Hx]; auto.
    + intros kk Hne Hkk. apply K2; [done|]. apply K1; auto.
Qed.

Lemma rewire_ports_own s s' n :
  (k < n)%nat →
  evolves st0 s → later_free s → origin_pending s →
  port_has (st_nodes s !!! i) k lid = true →
  foldM (rewire_port nodes_by_id link_map name c i) s (seq 0 n) = Ok s' →
  evolves st0 s' ∧ later_free s' ∧ origin_set s'.
Proof.
  intros Hk Hev Hl Hp Hport H.
  set (P := λ (k' : nat) (s : state),
    evolves st0 s ∧ later_free s ∧ origin_pending s
    ∧ ((k' ≤ k)%nat → port_has (st_nodes s !!! i) k lid = true)
    ∧ ((k < k')%nat → origin_set s)).
  cut (P (0 + n)%nat s').
  { intros (E & L & _ & _ & D). split; [done|]. split; [done|]. apply D. lia. }
  revert H. apply (foldM_seq_inv P).
  - split; [done|]. split; [done|]. split; [done|]. split; [done|lia].
  - intros k' s1 s2 Hk' (E1 & L1 & P1 & K1 & D1) H.
    apply rewire_port_Ok in H.
    destruct (rewire_links_own _ _ _ _ E1 L1 P1 H)
      as (E2 & L2 & P2 & D2 & X2 & K2).
    split; [done|]. split; [done|]. split; [done|]. split.
    + intros Hle. apply K2; [lia|]. apply K1. lia.
    + intros Hlt. destruct (decide (k' = k)) as [->|Hne].
      * apply X2. rewrite <- port_has_ids. apply K1. lia.
      * apply D2, D1. lia.
Qed.

(** The invariant of the node loop: up to [i] the link is untouched and the
    id sits on port [k] of node [i] and on no other GetNode; after [i] the
    link carries [c] and no GetNode still to come holds the id. *)
Lemma get_pass_origin st :
  (i < length ns0)%nat →
  is_get (ns0 !!! i) = true →
  bound_name (ns0 !!! i) = Ok name →
  pdict_get name_to_source name = Some c →
  port_has (ns0 !!! i) k lid = true →
  (∀ j, j ≠ i → is_get (ns0 !!! j) = true → attached lid (ns0 !!! j) = false) →
  get_pass nodes_by_id link_map name_to_source ns0 ls0 = Ok st →
  evolves st0 st ∧ origin_set st.
Proof.
  intros Hi Hget Hname Hc Hport Hfree H. unfold get_pass in H. fold st0 in H.
  set (P := λ (m : nat) (s : state),
    evolves st0 s
    ∧ ((m ≤ i)%nat →
       (∀ j, j ≠ i → is_get (ns0 !!! j) = true →
             attached lid (st_nodes s !!! j) = false)
       ∧ port_has (st_nodes s !!! i) k lid = true
       ∧ st_links s !!! p = ls0 !!! p)
    ∧ ((i < m)%nat → later_free s ∧ origin_set s)).
  cut (P (0 + length ns0)%nat st).
  { intros (E & _ & D). split; [done|]. apply D. lia. }
  revert H. apply (foldM_seq_inv P).
  { split; [apply evolves_refl|]. split; [|lia]. intros _. done. }
  intros m s s' Hm (E & A & B) H.
  pose proof (get_node_evolves _ _ _ _ _ _ H) as E'.
  split; [by eapply evolves_trans|].
  assert (node_frame (ns0 !!! m) (st_nodes s !!! m)) as [Hmeta Hports].
  { destruct E as (_ & Hf & _). apply Hf. }
  destruct (lt_eq_lt_dec m i) as [[Hlt| ->]|Hgt].
  - (* before [i] *)
    split; [|lia]. intros _. destruct A as (Q & Hp & Hl); [lia|].
    eapply (get_node_quiet _ _ _ ls0 link_map_sound lid) in H as (Q2 & Q1 & Q3).
    + split; [|split].
      * intros j Hj Hg. rewrite Q1. by apply Q.
      * by rewrite Q2.
      * by rewrite Q3.
    + intros Hg _. apply Q; [lia|]. by rewrite <- (same_meta_is_get _ _ Hmeta).
  - (* at [i] *)
    split; [lia|]. intros _. destruct A as (Q & Hp & Hl); [lia|].
    apply get_node_Ok in H
      as [[Hg _]|(_ & name' & Hn & [(Hnone & _)|(c' & Hc' & H)])].
    + rewrite (same_meta_is_get _ _ Hmeta) in Hg. congruence.
    + rewrite (same_meta_bound_name _ _ Hmeta) in Hn. congruence.
    + rewrite (same_meta_bound_name _ _ Hmeta) in Hn.
      assert (name' = name) as -> by congruence.
      assert (c' = c) as -> by congruence.
      eapply rewire_ports_own in H as (_ & L & D); [done| |done| | |done].
      * rewrite Hports. rewrite port_has_ids in Hport. unfold port_ids in Hport.
        destruct (node_ports (ns0 !!! i) !! k) eqn:Ek; [|done].
        by eapply lookup_lt_Some.
      * intros j Hj Hg. apply Q; [lia|done].
      * by left.
  - (* after [i] *)
    split; [lia|]. intros _. destruct B as (L & D); [lia|].
    eapply (get_node_quiet _ _ _ ls0 link_map_sound lid) in H as (Q2 & Q1 & Q3).
    + split.
      * intros j Hj Hg. rewrite Q1. by apply L.
      * destruct D as (fs & Hfs & Hlen & Hcur). exists fs. by rewrite Q3.
    + intros Hg _. apply L; [lia|]. by rewrite <- (same_meta_is_get _ _ Hmeta).
Qed.
End origin.

Lemma lookup_total_None (l : list value) j : l !! j = None → l !!! j = VNone.
Proof. intros H. by rewrite list_lookup_total_alt, H. Qed.

Lemma evolves_links st st' q l :
  evolves st st' → st_links st !! q = Some l →
  ∃ l', st_links st' !! q = Some l' ∧ link_frame l l'.
Proof.
  intros (_ & _ & Hlen & Hf) Hl. specialize (Hf q).
  rewrite (list_lookup_total_correct _ _ _ Hl) in Hf.
  exists (st_links st' !!! q). split; [|done].
  apply list_lookup_lookup_total_lt. rewrite Hlen. by eapply lookup_lt_Some.
Qed.

(** C1, as the code has it.  Take a GetNode whose name the index binds to
    [c], and a link id attached to one of its ports and to no port of another
    GetNode, that the link map knows.  If the node the binding names as its
    source is not a GetNode visited later in node order (or the slot is none
    of its ports), then after the rewrite pass the link has source node id,
    source slot and type tag [c], and the id, target node id and target slot
    it had.  Every link of the graph is, after the pass, the input link up to
    its source node id, source slot and type tag. *)
Theorem rewired_link_origin d t st i n name c k lid p :
  rewrite_pass d = Ok (t, st) →
  graph_nodes d !! i = Some n →
  is_get n = true →
  bound_name n = Ok name →
  pdict_get (t_name_to_source t) name = Some c →
  port_has n k lid = true →
  pdict_get (t_link_map t) lid = Some p →
  (∀ j n', j ≠ i → graph_nodes d !! j = Some n' → is_get n' = true →
     attached lid n' = false) →
  (∀ j n', pdict_get (t_nodes_by_id t) c.1.1 = Some j →
     graph_nodes d !! j = Some n' →
     (j ≤ i)%nat ∨ is_get n' = false
     ∨ ∀ s, as_int c.1.2 = Some (Z.of_nat s) →
            (length (node_ports n') ≤ s)%nat) →
  (∃ fs fs',
     graph_links d !! p = Some (VList fs)
     ∧ st_links st !! p = Some (VList fs')
     ∧ length fs' = length fs
     ∧ fs' !! 1%nat = Some c.1.1
     ∧ fs' !! 2%nat = Some c.1.2
     ∧ fs' !! 5%nat = Some c.2
     ∧ fs' !! 0%nat = fs !! 0%nat
     ∧ fs' !! 3%nat = fs !! 3%nat
     ∧ fs' !! 4%nat = fs !! 4%nat)
  ∧ ∀ q l, graph_links d !! q = Some l →
           ∃ l', st_links st !! q = Some l' ∧ link_frame l l'.
Proof.
  intros Hpass Hi Hget Hname Hc Hport Hp Hfree Hsrc.
  apply rewrite_pass_Ok in Hpass as (Hnbi & Hlm & Hset & Hpass).
  set (ns0 := graph_nodes d) in *. set (ls0 := graph_links d) in *.
  assert (∀ x q, pdict_get (t_link_map t) x = Some q →
            ∃ l kx, ls0 !! q = Some l ∧ link_key l = Ok kx ∧ py_eq kx x = true)
    as Hsound.
  { intros x q Hq. by eapply build_index_sound. }
  pose proof (list_lookup_total_correct _ _ _ Hi) as Hi'.
  destruct (get_pass_origin (t_nodes_by_id t) (t_link_map t)
              (t_name_to_source t) ns0 ls0 i k p lid name c Hsound Hp) with (st := st)
    as (Hev & fs & Hfs & Hlen & Hcur); try done.
  - intros j Hj. destruct (ns0 !! j) as [n'|] eqn:Ej.
    + rewrite (list_lookup_total_correct _ _ _ Ej). by eapply Hsrc.
    + right. left. by rewrite (lookup_total_None _ _ Ej).
  - by eapply lookup_lt_Some.
  - by rewrite Hi'.
  - by rewrite Hi'.
  - by rewrite Hi'.
  - intros j Hj. destruct (ns0 !! j) as [n'|] eqn:Ej.
    + rewrite (list_lookup_total_correct _ _ _ Ej). by eapply Hfree.
    + by rewrite (lookup_total_None _ _ Ej).
  - split; [|intros q l Hl; by eapply (evolves_links _ _ _ _ Hev)].
    destruct (Hsound _ _ Hp) as (l & _ & Hl & _).
    rewrite (list_lookup_total_correct _ _ _ Hl) in Hfs. subst l.
    destruct (evolves_links _ _ _ _ Hev Hl) as (l' & Hl' & _).
    rewrite (list_lookup_total_correct _ _ _ Hl') in Hcur. subst l'.
    destruct (with_origin_fields c fs Hlen) as (F1 & F2 & F5 & F0 & F3 & F4).
    exists fs, (with_origin c fs). rewrite with_origin_length. done.
Qed.

Lemma rewired_link_origin_witness :
  ∃ t st,
    rewrite_pass g_example = Ok (t, st)
    ∧ graph_links g_example !! 1%nat = Some (link6 20 2 0 3 0 "IMAGE")
    ∧ ∃ fs', st_links st !! 1%nat = Some (VList fs')
             ∧ fs' !! 1%nat = Some (VInt 5)
             ∧ fs' !! 3%nat = Some (VInt 3).
Proof.
  destruct (rewrite_pass g_example) as [[t st]|e] eqn:E;
    [|vm_compute in E; discriminate].
  exists t, st. split; [done|]. split; [done|].
  assert (t_name_to_source t = [(VStr "X", (VInt 5, VInt 0, VStr "IMAGE"))]
          ∧ t_link_map t = [(VInt 10, 0%nat); (VInt 20, 1%nat)]
          ∧ t_nodes_by_id t
            = [(VInt 5, 0%nat); (VInt 1, 1%nat); (VInt 2, 2%nat); (VInt 3, 3%nat)])
    as (Hidx & Hlm & Hnbi).
  { vm_compute in E. by injection E as <- <-. }
  destruct (rewired_link_origin g_example t st 2 (get_node_of 2 "X" [20])
              (VStr "X") (VInt 5, VInt 0, VStr "IMAGE") 0 (VInt 20) 1 E)
    as [(fs & fs' & Hfs & Hfs' & _ & H1 & _ & _ & _ & H3 & _) _].
  - reflexivity.
  - reflexivity.
  - reflexivity.
  - by rewrite Hidx.
  - reflexivity.
  - by rewrite Hlm.
  - intros [|[|[|[|j]]]] n' Hj Hn'; try done; vm_compute in Hn';
      injection Hn' as <-; vm_compute; congruence.
  - rewrite Hnbi. intros j n' Hj. vm_compute in Hj. injection Hj as <-. left. lia.
  - exists fs'. split; [done|]. split; [done|].
    vm_compute in Hfs. injection Hfs as <-. by rewrite H3.
Defined.

(** C1 as stated fails.  In the chain [Get B] feeds [Set A] and [Get A] is
    visited first: link 20 of [Get A] is given the origin bound to [A], node
    3, registered on [Get B], and rewritten again when [Get B] is visited; it
    ends with source 6.  In the cycle, [X] is bound to the output of [Get X]
    itself, and link 20 ends with the GetNode's own id, 2, as its source. *)
Lemma rewired_origin_counterexample :
  (∃ t st,
     rewrite_pass g_chain = Ok (t, st)
     ∧ graph_nodes g_chain !! 2%nat = Some (get_node_of 2 "A" [20])
     ∧ pdict_get (t_name_to_source t) (VStr "A")
       = Some (VInt 3, VInt 0, VStr "T")
     ∧ port_has (get_node_of 2 "A" [20]) 0 (VInt 20) = true
     ∧ pdict_get (t_link_map t) (VInt 20) = Some 2%nat
     ∧ st_links st !! 2%nat = Some (link6 20 6 0 7 0 "T"))
  ∧ (∃ t st,
       rewrite_pass g_self = Ok (t, st)
       ∧ graph_nodes g_self !! 1%nat = Some (get_node_of 2 "X" [10; 20])
       ∧ pdict_get (t_name_to_source t) (VStr "X")
         = Some (VInt 2, VInt 0, VStr "T")
       ∧ port_has (get_node_of 2 "X" [10; 20]) 0 (VInt 20) = true
       ∧ pdict_get (t_link_map t) (VInt 20) = Some 1%nat
       ∧ st_links st !! 1%nat = Some (link6 20 2 0 3 0 "T")).
Proof. split; eexists _, _; vm_compute; repeat split. Qed.

(** ** C2: the binding the index holds and its use *)

(** C2, as the code has it.  After the SetNode pass the index holds, for a
    name, the triple of the last SetNode of that name whose triple is equal
    ([==]) to the one of the first SetNode of that name: a triple equal to
    the first one, and the first one itself unless a later SetNode offers a
    triple that is equal and not the same (as [1] and [true] are).  A name
    no SetNode writes has no entry.  The conflicts list has, in node order,
    one entry [(name, recorded, candidate, node id)] for each write whose
    triple differs from the one recorded when it is reached, and none for
    the others.  A link attached to a port of a GetNode of the name (and to
    no port of another GetNode) has, after the GetNode pass, the recorded
    triple as source node id, source slot and type tag, provided the source
    is not a GetNode visited later. *)
Theorem first_binding_wins d t st :
  rewrite_pass d = Ok (t, st) →
  ∃ ws,
    writes (t_link_map t) (graph_links d) (graph_nodes d) = Ok ws
    ∧ (∀ k, pdict_get (t_name_to_source t) k = recorded_binding ws k)
    ∧ (∀ k, first_binding ws k = None → recorded_binding ws k = None)
    ∧ (∀ k c0, first_binding ws k = Some c0 →
         (∃ c, recorded_binding ws k = Some c
               ∧ py_eq (tuple3 c) (tuple3 c0) = true)
         ∧ ((∀ w, w ∈ ws → py_eq w.1.1 k = true →
                  py_eq (tuple3 w.1.2) (tuple3 c0) = true → w.1.2 = c0) →
            recorded_binding ws k = Some c0))
    ∧ Forall2 conflict_entry (t_conflicts t)
        (List.filter (λ pw, conflicts_with pw.1 pw.2) (prefixes [] ws))
    ∧ ∀ i n name c k lid p,
        graph_nodes d !! i = Some n →
        is_get n = true →
        bound_name n = Ok name →
        recorded_binding ws name = Some c →
        port_has n k lid = true →
        pdict_get (t_link_map t) lid = Some p →
        (∀ j n', j ≠ i → graph_nodes d !! j = Some n' → is_get n' = true →
           attached lid n' = false) →
        (∀ j n', pdict_get (t_nodes_by_id t) c.1.1 = Some j →
           graph_nodes d !! j = Some n' →
           (j ≤ i)%nat ∨ is_get n' = false
           ∨ ∀ s, as_int c.1.2 = Some (Z.of_nat s) →
                  (length (node_ports n') ≤ s)%nat) →
        ∃ fs fs',
          graph_links d !! p = Some (VList fs)
          ∧ st_links st !! p = Some (VList fs')
          ∧ length fs' = length fs
          ∧ fs' !! 1%nat = Some c.1.1
          ∧ fs' !! 2%nat = Some c.1.2
          ∧ fs' !! 5%nat = Some c.2
          ∧ fs' !! 0%nat = fs !! 0%nat
          ∧ fs' !! 3%nat = fs !! 3%nat
          ∧ fs' !! 4%nat = fs !! 4%nat.
Proof.
  intros Hpass.
  apply rewrite_pass_Ok in Hpass as (Hnbi & Hlm & Hset & Hpass).
  set (ns0 := graph_nodes d) in *. set (ls0 := graph_links d) in *.
  destruct (set_pass_recorded_exactly (t_link_map t) ls0 ns0 [] ([], [])
              (t_name_to_source t, t_conflicts t))
    as (ws & Hws & Hidx & Hconf); [by split; simpl; [|constructor]|exact Hset|].
  simpl in Hws, Hidx, Hconf.
  exists ws. split; [done|]. split; [done|].
  split; [apply recorded_binding_none|].
  split.
  { intros k c0 Hf. split; [|by apply recorded_binding_exact].
    destruct (first_binding_recorded _ _ _ Hf) as [c Hc]. exists c.
    split; [done|].
    destruct (recorded_binding_first _ _ _ Hc) as (c0' & Hf' & He).
    congruence. }
  split; [done|].
  intros i n name c k lid p Hi Hget Hname Hc Hport Hp Hfree Hsrc.
  rewrite <- Hidx in Hc.
  assert (∀ x q, pdict_get (t_link_map t) x = Some q →
            ∃ l kx, ls0 !! q = Some l ∧ link_key l = Ok kx ∧ py_eq kx x = true)
    as Hsound.
  { intros x q Hq. by eapply build_index_sound. }
  pose proof (list_lookup_total_correct _ _ _ Hi) as Hi'.
  destruct (get_pass_origin (t_nodes_by_id t) (t_link_map t)
              (t_name_to_source t) ns0 ls0 i k p lid name c Hsound Hp)
    with (st := st) as (Hev & fs & Hfs & Hlen & Hcur); try done.
  - intros j Hj. destruct (ns0 !! j) as [n'|] eqn:Ej.
    + rewrite (list_lookup_total_correct _ _ _ Ej). by eapply Hsrc.
    + right. left. by rewrite (lookup_total_None _ _ Ej).
  - by eapply lookup_lt_Some.
  - by rewrite Hi'.
  - by rewrite Hi'.
  - by rewrite Hi'.
  - intros j Hj. destruct (ns0 !! j) as [n'|] eqn:Ej.
    + rewrite (list_lookup_total_correct _ _ _ Ej). by eapply Hfree.
    + by rewrite (lookup_total_None _ _ Ej).
  - destruct (Hsound _ _ Hp) as (l & _ & Hl & _).
    rewrite (list_lookup_total_correct _ _ _ Hl) in Hfs. subst l.
    destruct (evolves_links _ _ _ _ Hev Hl) as (l' & Hl' & _).
    rewrite (list_lookup_total_correct _ _ _ Hl') in Hcur. subst l'.
    destruct (with_origin_fields c fs Hlen) as (F1 & F2 & F5 & F0 & F3 & F4).
    exists fs, (with_origin c fs). rewrite with_origin_length. done.
Qed.

Lemma first_binding_wins_witness :
  ∃ t st ws,
    rewrite_pass g_conflict = Ok (t, st)
    ∧ writes (t_link_map t) (graph_links g_conflict) (graph_nodes g_conflict)
      = Ok ws
    ∧ first_binding ws (VStr "X") = Some (VInt 5, VInt 0, VStr "T")
    ∧ pdict_get (t_name_to_source t) (VStr "X")
      = Some (VInt 5, VInt 0, VStr "T")
    ∧ length (t_conflicts t) = 1%nat
    ∧ st_links st !! 2%nat = Some (link6 20 5 0 3 0 "T").
Proof.
  destruct (rewrite_pass g_conflict) as [[t st]|e] eqn:E;
    [|vm_compute in E; discriminate].
  destruct (first_binding_wins g_conflict t st E)
    as (ws & Hws & Hidx & _ & Hfirst & Hconf & Hget).
  assert (t_link_map t = conflict_link_map
          ∧ t_nodes_by_id t
            = [(VInt 5, 0%nat); (VInt 6, 1%nat); (VInt 1, 2%nat);
               (VInt 4, 3%nat); (VInt 2, 4%nat); (VInt 3, 5%nat)])
    as (Hlm & Hnbi).
  { vm_compute in E. by injection E as <- <-. }
  assert (ws = [(VStr "X", (VInt 5, VInt 0, VStr "T"), set_node_of 1 "X" 10);
                (VStr "X", (VInt 6, VInt 0, VStr "T"), set_node_of 4 "X" 11)])
    as Ews.
  { rewrite Hlm in Hws. vm_compute in Hws. by injection Hws as <-. }
  assert (recorded_binding ws (VStr "X") = Some (VInt 5, VInt 0, VStr "T"))
    as Hrec.
  { apply (Hfirst (VStr "X")); [by rewrite Ews|].
    rewrite Ews. intros w Hw. apply list_elem_of_In in Hw.
    destruct Hw as [<-|[<-|[]]]; [done|]. intros _ H. by vm_compute in H. }
  exists t, st, ws. split; [done|]. split; [done|].
  split; [by rewrite Ews|]. split; [by rewrite Hidx|].
  split.
  { erewrite Forall2_length by exact Hconf. rewrite Ews. by vm_compute. }
  destruct (Hget 4%nat (get_node_of 2 "X" [20]) (VStr "X")
              (VInt 5, VInt 0, VStr "T") 0%nat (VInt 20) 2%nat)
    as (fs & fs' & Hfs & Hfs' & Hlen & H1 & H2 & H5 & H0 & H3 & H4);
    try done.
  - by rewrite Hlm.
  - intros [|[|[|[|[|[|j]]]]]] n' Hj Hn'; try done; vm_compute in Hn';
      injection Hn' as <-; vm_compute; congruence.
  - rewrite Hnbi. intros j n' Hj. vm_compute in Hj. injection Hj as <-.
    left. lia.
  - rewrite Hfs'. vm_compute in Hfs. injection Hfs as <-.
    do 6 (destruct fs' as [|? fs']; [done|]). destruct fs'; [|done].
    cbn in H0, H1, H2, H3, H4, H5.
    injection H0 as ->. injection H1 as ->. injection H2 as ->.
    injection H3 as ->. injection H4 as ->. injection H5 as ->. done.
Defined.

(** C2 as stated fails.  The second SetNode of [X] offers [(true, false, T)],
    which is equal to the first one's [(1, 0, T)]: it raises no conflict and
    is stored in its place, and the link of [Get X] is rewritten with it. *)
Lemma equal_binding_replaces_first :
  ∃ t st ws,
    rewrite_pass g_rebind = Ok (t, st)
    ∧ writes (t_link_map t) (graph_links g_rebind) (graph_nodes g_rebind)
      = Ok ws
    ∧ first_binding ws (VStr "X") = Some (VInt 1, VInt 0, VStr "T")
    ∧ pdict_get (t_name_to_source t) (VStr "X")
      = Some (VBool true, VBool false, VStr "T")
    ∧ t_conflicts t = []
    ∧ st_links st !! 2%nat
      = Some (VList [VInt 20; VBool true; VBool false; VInt 5; VInt 0;
                     VStr "T"]).
Proof. eexists _, _, _. vm_compute. repeat split. Qed.

(** ** C10: a binding whose source is not in the graph *)

Lemma remove_first_absent x l :
  existsb (py_eq x) l = false → remove_first x l = l.
Proof.
  induction l as [|y l IH]; simpl; [done|]. intros H.
  apply orb_false_iff in H as [H1 H2]. rewrite py_eq_sym in H1.
  by rewrite H1, IH.
Qed.

Lemma remove_first_app_skip x D L :
  Forall (λ y, py_eq y x = false) D →
  remove_first x (D ++ x :: L) = D ++ L.
Proof.
  induction 1 as [|y D Hy _ IH]; simpl.
  - by rewrite py_eq_refl.
  - by rewrite Hy, IH.
Qed.

Section shapes.
Variables nodes_by_id link_map : pdict nat.
Variable name_to_source : pdict triple.

Lemma add_output_link_is_list ns a b x ns' j kk :
  add_output_link nodes_by_id ns a b x = Ok ns' →
  port_is_list (ns !!! j) kk → port_is_list (ns' !!! j) kk.
Proof.
  intros H. apply add_output_link_effect in H
    as [->|(t & s & pd & Ht & Hb & Hs & Hx & ->)]; [done|].
  rewrite list_lookup_total_insert. case_decide as Hj; [|done].
  destruct Hj as [<- _]. apply set_port_links_is_list.
Qed.

Lemma remove_output_link_is_list ns nid k x ns' j kk :
  remove_output_link nodes_by_id ns nid k x = Ok ns' →
  port_is_list (ns !!! j) kk → port_is_list (ns' !!! j) kk.
Proof.
  intros H. apply remove_output_link_effect in H
    as [->|(t & pd & l & Ht & Hs & Hl & ->)]; [done|].
  rewrite list_lookup_total_insert. case_decide as Hj; [|done].
  destruct Hj as [<- _]. apply set_port_links_is_list.
Qed.

(** Every step keeps list ports lists and only appends to the trace. *)
Definition shape_kept (st s : state) : Prop :=
  (∀ j kk, port_is_list (st_nodes st !!! j) kk →
           port_is_list (st_nodes s !!! j) kk)
  ∧ ∃ l, st_rewired s = st_rewired st ++ l.

Lemma shape_kept_refl st : shape_kept st st.
Proof. split; [done|]. exists []. by rewrite app_nil_r. Qed.

Lemma shape_kept_trans a b c : shape_kept a b → shape_kept b c → shape_kept a c.
Proof.
  intros [P1 [l1 R1]] [P2 [l2 R2]]. split; [auto|].
  exists (l1 ++ l2). by rewrite R2, R1, app_assoc.
Qed.

Lemma rewire_link_shape name c i k st x st' :
  rewire_link nodes_by_id link_map name c i k st x = Ok st' → shape_kept st st'.
Proof.
  intros H. apply rewire_link_effect in H
    as [[-> _]|(p & fs & ns1 & nid & Hp & Hfs & Hlen & Hadd & Hnid & Hrem & Hl & Hrw & _)];
    [apply shape_kept_refl|].
  split; [|eauto]. intros j kk Hj.
  eapply remove_output_link_is_list; [exact Hrem|].
  by eapply add_output_link_is_list.
Qed.

Lemma get_node_shape st m st' :
  get_node nodes_by_id link_map name_to_source st m = Ok st' → shape_kept st st'.
Proof.
  intros H.
  eapply (get_node_lift _ _ _ (λ s, shape_kept st s) (λ _, True));
    [done| | | |exact H].
  - intros name c k s x s' Hs _ H'. eapply shape_kept_trans; [exact Hs|].
    by eapply rewire_link_shape.
  - intros s sk Hs. exact Hs.
  - apply shape_kept_refl.
Qed.

(** [add_output_link] does nothing when the source is no node of the graph
    or the slot is none of its ports. *)
Lemma add_output_link_noop ns a b x ns' :
  add_output_link nodes_by_id ns a b x = Ok ns' →
  (∀ t s, pdict_get nodes_by_id a = Some t → as_int b = Some (Z.of_nat s) →
          (length (node_ports (ns !!! t)) ≤ s)%nat) →
  ns' = ns.
Proof.
  intros H Hoff. apply add_output_link_effect in H
    as [->|(t & s & pd & Ht & Hb & Hs & Hx & ->)]; [done|].
  specialize (Hoff t s Ht Hb). apply lookup_lt_Some in Hs. lia.
Qed.

(** [remove_output_link] on a port that is a list. *)
Lemma remove_output_link_ids ns nid k x ns' t :
  remove_output_link nodes_by_id ns nid k x = Ok ns' →
  pdict_get nodes_by_id nid = Some t →
  (t < length ns)%nat →
  port_is_list (ns !!! t) k →
  port_ids (ns' !!! t) k = remove_first x (port_ids (ns !!! t) k).
Proof.
  intros H Ht Hlen (pd & l & Hk & Hl).
  rewrite (port_is_list_ids _ _ _ _ Hk Hl).
  unfold remove_output_link, pdict_lookup in H.
  destruct (py_hashable nid); simpl in H; [|discriminate].
  rewrite Ht in H.
  apply bind_Ok in H as (outs & Houts & H).
  apply bind_Ok in H as (n & Hn & H).
  assert (node_ports (ns !!! t) = match py_iter outs with Ok ps => ps | _ => [] end)
    as Hports.
  { unfold node_ports. by rewrite Houts. }
  assert (py_getitem_idx outs k = Ok (VDict pd) ∧ (Z.of_nat k < n)) as [Hport Hkn].
  { rewrite Hports in Hk. apply lookup_lt_Some in Hk as Hlt.
    destruct outs as [| | |str|ps|ps|od]; simpl in *; try done.
    - by destruct (str_chars_lookup _ _ _ Hk) as [c ?].
    - rewrite Hk. injection Hn as <-. split; [done|lia].
    - rewrite Hk. injection Hn as <-. split; [done|lia].
    - rewrite list_lookup_fmap in Hk. destruct (od !! k); done. }
  apply Z.ltb_lt in Hkn. rewrite Hkn, Hport in H. simpl in H. rewrite Hl in H.
  simpl in H. destruct (existsb (py_eq x) l) eqn:Ex.
  - injection H as <-. rewrite list_lookup_total_insert_eq by done.
    rewrite set_port_links_ids, Hk. by rewrite decide_True.
  - injection H as <-. rewrite (port_is_list_ids _ _ _ _ Hk Hl).
    by rewrite remove_first_absent.
Qed.
End shapes.

Section missing_source.
Variables nodes_by_id link_map : pdict nat.
Variable name_to_source : pdict triple.
Variables ns0 ls0 : list value.
Variables (i k : nat) (lid name nid : value) (c : triple).

Hypothesis link_map_sound :
  ∀ x q, pdict_get link_map x = Some q →
         ∃ l kx, ls0 !! q = Some l ∧ link_key l = Ok kx ∧ py_eq kx x = true.
Hypothesis lid_known : is_Some (pdict_get link_map lid).
Hypothesis node_in_range : (i < length ns0)%nat.
Hypothesis node_id : py_getitem_key (ns0 !!! i) "id" = Ok nid.
Hypothesis id_is_own : pdict_get nodes_by_id nid = Some i.
(** The source of the binding is no node of the graph, or the slot is none
    of its ports. *)
Hypothesis source_missing :
  ∀ t s, pdict_get nodes_by_id c.1.1 = Some t →
         as_int c.1.2 = Some (Z.of_nat s) →
         (length (node_ports (ns0 !!! t)) ≤ s)%nat.

Let st0 : state :=
  {| st_nodes := ns0; st_links := ls0; st_rewired := []; st_skipped := [] |}.

Let entry (x : value) : value := VTuple [name; x; nid; c.1.1].

Lemma rewire_link_missing k' s x s' :
  evolves st0 s →
  rewire_link nodes_by_id link_map name c i k' s x = Ok s' →
  (∀ j kk y, port_has (st_nodes s' !!! j) kk y = true →
             port_has (st_nodes s !!! j) kk y = true)
  ∧ (∀ kk, kk ≠ k' → port_has (st_nodes s !!! i) kk lid = true →
           port_has (st_nodes s' !!! i) kk lid = true)
  ∧ match pdict_get link_map x with
    | None => s' = s
    | Some _ =>
        st_rewired s' = st_rewired s ++ [entry x]
        ∧ (port_is_list (st_nodes s !!! i) k' →
           port_ids (st_nodes s' !!! i) k'
           = remove_first x (port_ids (st_nodes s !!! i) k'))
    end.
Proof.
  intros Hev H.
  apply rewire_link_effect in H
    as [[-> Hno]|(q & fs & ns1 & nid' & Hq & Hfs & Hlen & Hadd & Hnid & Hrem & Hl & Hrw & _)].
  { split; [done|]. split; [done|].
    destruct Hno as [->|(q & Hq & Hfalse)]; [done|]. exfalso.
    destruct (link_map_sound _ _ Hq) as (l & kx & Hl & Hk & _).
    destruct Hev as (_ & _ & _ & Hlf). specialize (Hlf q). simpl in Hlf.
    rewrite (list_lookup_total_correct _ _ _ Hl) in Hlf.
    rewrite (link_frame_truthy _ _ Hlf), (link_key_truthy _ _ Hk) in Hfalse.
    done. }
  assert (ns1 = st_nodes s) as ->.
  { eapply add_output_link_noop; [exact Hadd|]. intros t s1 Ht Hs1.
    destruct Hev as (_ & Hf & _). destruct (Hf t) as [_ Hports].
    simpl in Hports. rewrite Hports. by apply source_missing. }
  assert (nid' = nid) as ->.
  { destruct Hev as (_ & Hf & _). destruct (Hf i) as [Hmeta _]. simpl in Hmeta.
    rewrite (same_meta_getitem _ _ "id" Hmeta) in Hnid by done. congruence. }
  pose proof (remove_output_link_nodes _ _ _ _ _ _ Hrem) as [_ Hrem'].
  split; [|split].
  - intros j kk y Hy. by apply (Hrem' j).
  - intros kk Hne Hkk. apply (Hrem' i); [done|by left].
  - rewrite Hq. split; [done|]. intros Hlist.
    eapply remove_output_link_ids; [exact Hrem|done| |done].
    destruct Hev as (Hn & _). simpl in Hn. lia.
Qed.

Lemma rewire_links_missing ids : ∀ D s s',
  evolves st0 s →
  port_is_list (st_nodes s !!! i) k →
  port_ids (st_nodes s !!! i) k = D ++ ids →
  Forall (λ y, pdict_get link_map y = None) D →
  foldM (rewire_link nodes_by_id link_map name c i k) s ids = Ok s' →
  Forall (λ y, pdict_get link_map y = None) (port_ids (st_nodes s' !!! i) k)
  ∧ (∀ x, x ∈ ids → is_Some (pdict_get link_map x) →
          entry x ∈ st_rewired s').
Proof.
  induction ids as [|x ids IH]; intros D s s' Hev Hlist Hids HD H; simpl in H.
  - injection H as <-. rewrite Hids, app_nil_r. split; [done|].
    by intros x Hx%elem_of_nil.
  - apply bind_Ok in H as (s1 & H1 & H).
    pose proof (rewire_link_evolves _ _ _ _ _ _ _ _ _ H1) as Hev1.
    pose proof (rewire_link_shape _ _ _ _ _ _ _ _ _ H1) as [Hshape _].
    destruct (rewire_link_missing _ _ _ _ Hev H1) as (_ & _ & Hx).
    pose proof (evolves_trans _ _ _ Hev Hev1) as Hev'.
    assert (∃ l, st_rewired s' = st_rewired s1 ++ l) as [l Hgrow].
    { clear -H. revert s1 H. induction ids as [|y ids IH]; intros s1 H; simpl in H.
      - injection H as <-. exists []. by rewrite app_nil_r.
      - apply bind_Ok in H as (s2 & H2 & H).
        apply rewire_link_shape in H2 as [_ [l2 R2]].
        destruct (IH _ H) as [l R]. exists (l2 ++ l). by rewrite R, R2, app_assoc. }
    destruct (pdict_get link_map x) as [q|] eqn:Eq.
    + destruct Hx as [Hrw Hrem]. specialize (Hrem Hlist).
      rewrite Hids, remove_first_app_skip in Hrem.
      2:{ eapply Forall_impl; [|exact HD]. simpl. intros y Hy.
          destruct (py_eq y x) eqn:E; [|done].
          rewrite (pdict_get_congr link_map y x E) in Hy. congruence. }
      destruct (IH D s1 s' Hev' (Hshape _ _ Hlist) Hrem HD H) as [Hall Hent].
      split; [done|]. intros y Hy Hsome.
      apply elem_of_cons in Hy as [->|Hy]; [|by apply Hent].
      rewrite Hgrow, Hrw. apply elem_of_app. left. apply elem_of_app. right.
      by left.
    + subst s1.
      destruct (IH (D ++ [x]) s s' Hev Hlist) as [Hall Hent]; try done.
      * by rewrite <- app_assoc.
      * apply Forall_app. split; [done|]. by constructor.
      * split; [done|]. intros y Hy Hsome.
        apply elem_of_cons in Hy as [->|Hy]; [|by apply Hent].
        rewrite Eq in Hsome. by destruct Hsome.
Qed.

(** All the rewrites of node [i]: nothing is attached anywhere, the id is
    gone from port [k] and the trace has its entry. *)
Lemma rewire_ports_missing s s' n :
  (k < n)%nat →
  evolves st0 s →
  port_is_list (st_nodes s !!! i) k →
  port_has (st_nodes s !!! i) k lid = true →
  foldM (rewire_port nodes_by_id link_map name c i) s (seq 0 n) = Ok s' →
  (∀ j kk y, port_has (st_nodes s' !!! j) kk y = true →
             port_has (st_nodes s !!! j) kk y = true)
  ∧ port_has (st_nodes s' !!! i) k lid = false
  ∧ ∃ x, py_eq lid x = true ∧ entry x ∈ st_rewired s'.
Proof.
  intros Hk Hev Hlist Hport H.
  set (P := λ (k' : nat) (s1 : state),
    evolves st0 s1 ∧ shape_kept s s1
    ∧ (∀ j kk y, port_has (st_nodes s1 !!! j) kk y = true →
                 port_has (st_nodes s !!! j) kk y = true)
    ∧ ((k' ≤ k)%nat → port_has (st_nodes s1 !!! i) k lid = true)
    ∧ ((k < k')%nat →
       port_has (st_nodes s1 !!! i) k lid = false
       ∧ ∃ x, py_eq lid x = true ∧ entry x ∈ st_rewired s1)).
  cut (P (0 + n)%nat s').
  { intros (_ & _ & M & _ & D). split; [done|]. apply D. lia. }
  revert H. apply (foldM_seq_inv P).
  { split; [done|]. split; [apply shape_kept_refl|]. split; [done|].
    split; [done|lia]. }
  intros k' s1 s2 Hk' (E1 & Sh1 & M1 & K1 & D1) H. apply rewire_port_Ok in H.
  assert (evolves st0 s2 ∧ shape_kept s1 s2
          ∧ (∀ j kk y, port_has (st_nodes s2 !!! j) kk y = true →
                       port_has (st_nodes s1 !!! j) kk y = true)
          ∧ (∀ kk, kk ≠ k' → port_has (st_nodes s1 !!! i) kk lid = true →
                   port_has (st_nodes s2 !!! i) kk lid = true))
    as (E2 & Sh2 & M2 & K2).
  { clear Sh1 M1 K1 D1.
    revert H. generalize (port_ids (st_nodes s1 !!! i) k'). intros ids H.
    revert s1 E1 H. induction ids as [|x ids IH]; intros s1 E1 H; simpl in H.
    - injection H as <-. split; [done|]. split; [apply shape_kept_refl|]. done.
    - apply bind_Ok in H as (s3 & H3 & H).
      pose proof (rewire_link_evolves _ _ _ _ _ _ _ _ _ H3) as Hev3.
      pose proof (rewire_link_shape _ _ _ _ _ _ _ _ _ H3) as Hsh3.
      destruct (rewire_link_missing _ _ _ _ E1 H3) as (M3 & K3 & _).
      destruct (IH s3 (evolves_trans _ _ _ E1 Hev3) H) as (E4 & Sh4 & M4 & K4).
      split; [done|]. split; [by eapply shape_kept_trans|]. split; auto. }
  split; [done|]. split; [by eapply shape_kept_trans|]. split; [auto|].
  split.
  - intros Hle. apply K2; [lia|]. apply K1. lia.
  - intros Hlt. destruct (decide (k' = k)) as [->|Hne].
    + destruct Sh1 as [Hshape _].
      destruct (rewire_links_missing _ [] s1 s2 E1 (Hshape _ _ Hlist) eq_refl
                  (Forall_nil_2 _) H) as [Hall Hent].
      split.
      * rewrite port_has_ids. destruct (existsb _ _) eqn:Ex; [|done].
        apply existsb_exists in Ex as (y & Hy & Hly).
        rewrite List.Forall_forall in Hall. specialize (Hall y Hy).
        rewrite <- (pdict_get_congr _ _ _ Hly) in Hall.
        rewrite Hall in lid_known. by destruct lid_known.
      * specialize (K1 (le_n _)). rewrite port_has_ids in K1.
        apply existsb_exists in K1 as (x & Hx & Hlx). exists x. split; [done|].
        apply Hent; [by apply list_elem_of_In|].
        by rewrite <- (pdict_get_congr _ _ _ Hlx).
    + destruct D1 as (Hfalse & x & Hx & Hin); [lia|]. split.
      * destruct (port_has (st_nodes s2 !!! i) k lid) eqn:E; [|done].
        apply M2 in E. congruence.
      * exists x. split; [done|]. destruct Sh2 as [_ [l ->]].
        apply elem_of_app. by left.
Qed.
End missing_source.

Section missing_source_pass.
Variables nodes_by_id link_map : pdict nat.
Variable name_to_source : pdict triple.
Variables ns0 ls0 : list value.
Variables (i k : nat) (lid name nid : value) (c : triple).

Hypothesis link_map_sound :
  ∀ x q, pdict_get link_map x = Some q →
         ∃ l kx, ls0 !! q = Some l ∧ link_key l = Ok kx ∧ py_eq kx x = true.
Hypothesis lid_known : is_Some (pdict_get link_map lid).
Hypothesis node_in_range : (i < length ns0)%nat.
Hypothesis node_is_get : is_get (ns0 !!! i) = true.
Hypothesis node_name : bound_name (ns0 !!! i) = Ok name.
Hypothesis name_bound : pdict_get name_to_source name = Some c.
Hypothesis node_id : py_getitem_key (ns0 !!! i) "id" = Ok nid.
Hypothesis id_is_own : pdict_get nodes_by_id nid = Some i.
Hypothesis source_missing :
  ∀ t s, pdict_get nodes_by_id c.1.1 = Some t →
         as_int c.1.2 = Some (Z.of_nat s) →
         (length (node_ports (ns0 !!! t)) ≤ s)%nat.
Hypothesis port_list : port_is_list (ns0 !!! i) k.
Hypothesis port_holds : port_has (ns0 !!! i) k lid = true.
Hypothesis held_once :
  ∀ j, j ≠ i → is_get (ns0 !!! j) = true → attached lid (ns0 !!! j) = false.

Lemma get_pass_missing st :
  get_pass nodes_by_id link_map name_to_source ns0 ls0 = Ok st →
  port_has (st_nodes st !!! i) k lid = false
  ∧ (∃ x, py_eq lid x = true ∧ VTuple [name; x; nid; c.1.1] ∈ st_rewired st)
  ∧ ∀ j kk, port_has (st_nodes st !!! j) kk lid = true →
            port_has (ns0 !!! j) kk lid = true.
Proof.
  unfold get_pass.
  set (st0 := {| st_nodes := ns0; st_links := ls0; st_rewired := [];
                 st_skipped := [] |}).
  intros H.
  set (P := λ (m : nat) (s : state),
    evolves st0 s
    ∧ (∀ j kk, port_has (st_nodes s !!! j) kk lid = true →
               port_has (ns0 !!! j) kk lid = true)
    ∧ ((m ≤ i)%nat →
       port_is_list (st_nodes s !!! i) k
       ∧ port_has (st_nodes s !!! i) k lid = true)
    ∧ ((i < m)%nat →
       port_has (st_nodes s !!! i) k lid = false
       ∧ ∃ x, py_eq lid x = true
              ∧ VTuple [name; x; nid; c.1.1] ∈ st_rewired s)).
  cut (P (0 + length ns0)%nat st).
  { intros (_ & N & _ & D). destruct D as [D1 D2]; [lia|]. done. }
  revert H. apply (foldM_seq_inv P).
  { split; [apply evolves_refl|]. split; [done|]. split; [done|lia]. }
  intros m s s' Hm (E & N & A & B) H.
  pose proof (get_node_evolves _ _ _ _ _ _ H) as E'.
  pose proof (get_node_shape _ _ _ _ _ _ H) as [Hshape [l Hgrow]].
  split; [by eapply evolves_trans|].
  assert (node_frame (ns0 !!! m) (st_nodes s !!! m)) as [Hmeta Hports].
  { destruct E as (_ & Hf & _). apply Hf. }
  assert (∀ j, j ≠ i → is_get (ns0 !!! j) = true →
               attached lid (st_nodes s !!! j) = false) as Hq.
  { intros j Hj Hg. destruct (attached lid (st_nodes s !!! j)) eqn:Ea; [|done].
    apply attached_spec in Ea as [kk Ea]. apply N, port_has_attached in Ea.
    rewrite held_once in Ea; done. }
  destruct (decide (m = i)) as [->|Hne].
  - destruct A as [Hlist Hport]; [lia|].
    apply get_node_Ok in H
      as [[Hg _]|(_ & name' & Hn & [(Hnone & _)|(c' & Hc' & H)])].
    + rewrite (same_meta_is_get _ _ Hmeta) in Hg. congruence.
    + rewrite (same_meta_bound_name _ _ Hmeta) in Hn. congruence.
    + rewrite (same_meta_bound_name _ _ Hmeta) in Hn.
      assert (name' = name) as -> by congruence.
      assert (c' = c) as -> by congruence.
      eapply (rewire_ports_missing _ _ ns0 ls0 i k lid name nid c) in H
        as (M & Hgone & Hent); try done.
      * split; [auto|]. split; [lia|]. done.
      * rewrite Hports. destruct port_list as (pd & l0 & Hk & _).
        by eapply lookup_lt_Some.
  - eapply (get_node_quiet _ _ _ ls0 link_map_sound lid) in H as (Q2 & Q1 & Q3).
    + split; [|split].
      * intros j kk. rewrite Q2. apply N.
      * intros Hle. destruct A as [Hlist Hport]; [lia|]. split; [auto|].
        by rewrite Q2.
      * intros Hlt. destruct B as (Hgone & x & Hx & Hin); [lia|].
        split; [by rewrite Q2|]. exists x. split; [done|].
        rewrite Hgrow. apply elem_of_app. by left.
    + intros Hg _. apply Hq; [done|]. by rewrite <- (same_meta_is_get _ _ Hmeta).
Qed.
End missing_source_pass.

Lemma last_match_None key k i xs :
  last_match key k i xs = None →
  ∀ q x kx, xs !! q = Some x → key x = Ok kx → py_eq kx k = false.
Proof.
  revert i. induction xs as [|y xs IH]; intros i H q x kx Hq Hk; [done|].
  simpl in H. destruct (last_match key k (S i) xs) eqn:E; [done|].
  destruct q as [|q]; simpl in Hq.
  - injection Hq as ->. rewrite Hk in H. by destruct (py_eq kx k).
  - by eapply IH.
Qed.

Lemma build_index_None key xs m k :
  build_index key 0 xs [] = Ok m →
  pdict_get m k = None →
  ∀ q x kx, xs !! q = Some x → key x = Ok kx → py_eq kx k = false.
Proof.
  intros H Hk. rewrite (build_index_spec _ _ _ _ _ H k) in Hk.
  destruct (last_match key k 0 xs) eqn:E; [done|]. by eapply last_match_None.
Qed.

(** The state the passes leave is a later state of the input's lists. *)
Lemma rewrite_pass_lengths d t st :
  rewrite_pass d = Ok (t, st) →
  evolves {| st_nodes := graph_nodes d; st_links := graph_links d;
             st_rewired := []; st_skipped := [] |} st.
Proof.
  intros H. apply rewrite_pass_Ok in H as (_ & _ & _ & H).
  unfold get_pass in H. by apply get_nodes_evolves in H.
Qed.

Lemma unkeyed_elements key (xs : list value) i acc m :
  build_index key i xs acc = Ok m →
  Forall (λ x, ∃ e, key x = Raise e) xs → xs = [].
Proof.
  intros H Hxs. apply build_index_keys in H.
  destruct xs as [|x xs]; [done|].
  inversion_clear H as [|? ? (k & Hk & _) _].
  inversion_clear Hxs as [|? ? (e & He) _]. congruence.
Qed.

Lemma graph_nodes_stored d t st :
  rewrite_pass d = Ok (t, st) →
  graph_nodes (store_elements d "nodes" (st_nodes st)) = st_nodes st.
Proof.
  intros H. pose proof (rewrite_pass_lengths _ _ _ H) as (Hlen & _).
  apply rewrite_pass_Ok in H as (Hidx & _). simpl in Hlen.
  unfold store_elements, graph_nodes in *. simpl in *.
  destruct (dict_get d "nodes") as [[| | |s|ns|ns|nd]|] eqn:E; simpl in *;
    rewrite ?dict_get_set, ?E; simpl; try (by destruct (st_nodes st)).
  - apply unkeyed_elements in Hidx.
    + rewrite Hidx in *. by destruct (st_nodes st).
    + clear. unfold str_chars.
      induction (code_points s); simpl; constructor; eauto.
  - apply unkeyed_elements in Hidx.
    + rewrite Hidx in *. by destruct (st_nodes st).
    + clear. induction nd; simpl; constructor; eauto.
Qed.

Lemma evolves_plain_links st st' :
  evolves st st' →
  Forall (λ l, ∀ fs, l ≠ VList fs) (st_links st) →
  st_links st' = st_links st.
Proof.
  intros (_ & _ & Hlen & Hf) Hall.
  apply list_eq_same_length with (length (st_links st)); [done|done|].
  intros q x y Hq Hx Hy.
  specialize (Hf q).
  rewrite (list_lookup_total_correct _ _ _ Hx),
    (list_lookup_total_correct _ _ _ Hy) in Hf.
  destruct Hf as [->|(fs & c & -> & _)]; [done|].
  pose proof (Forall_lookup_1 _ _ _ _ Hall Hy) as Hne. by destruct (Hne fs).
Qed.

Lemma graph_links_stored d t st wf :
  rewrite_pass d = Ok (t, st) →
  dict_get wf "links" = dict_get d "links" →
  graph_links (store_elements wf "links" (st_links st)) = st_links st.
Proof.
  intros H Hwf. pose proof (rewrite_pass_lengths _ _ _ H) as Hev.
  apply rewrite_pass_Ok in H as (_ & Hidx & _).
  unfold store_elements, graph_links in *. simpl in *. rewrite Hwf.
  destruct (dict_get d "links") as [[| | |s|ls|ls|ld]|] eqn:E; simpl in *;
    rewrite ?dict_get_set, ?Hwf, ?E; simpl; try done;
    symmetry; apply (evolves_plain_links _ _ Hev); simpl;
    try (by constructor).
  - clear. unfold str_chars.
    induction (code_points s); simpl; constructor; done.
  - clear. induction ld; simpl; constructor; done.
Qed.

Lemma store_elements_other wf k xs k' :
  k ≠ k' → dict_get (store_elements wf k xs) k' = dict_get wf k'.
Proof.
  intros Hne. unfold store_elements.
  destruct (dict_get wf k) as [[]|]; try done; by apply dict_get_set_ne.
Qed.

Lemma evolves_Forall2 st st' :
  evolves st st' →
  Forall2 node_frame (st_nodes st) (st_nodes st')
  ∧ Forall2 link_frame (st_links st) (st_links st').
Proof.
  intros (Hn & Hnf & Hl & Hlf). split.
  - apply Forall2_same_length_lookup_2; [done|]. intros j x y Hx Hy.
    specialize (Hnf j).
    by rewrite (list_lookup_total_correct _ _ _ Hx),
      (list_lookup_total_correct _ _ _ Hy) in Hnf.
  - apply Forall2_same_length_lookup_2; [done|]. intros j x y Hx Hy.
    specialize (Hlf j).
    by rewrite (list_lookup_total_correct _ _ _ Hx),
      (list_lookup_total_correct _ _ _ Hy) in Hlf.
Qed.

(** What a call without pruning returns: the lists the passes left, and the
    report. *)
Lemma unpruned_result limit workflow out :
  convert_setget_to_hardlines limit workflow false = Ok out →
  ∃ d d' t st rep,
    workflow = VDict d ∧ out = VDict d'
    ∧ rewrite_pass d = Ok (t, st)
    ∧ graph_nodes d' = st_nodes st
    ∧ graph_links d' = st_links st
    ∧ report_of d' = Some (VDict rep)
    ∧ dict_get rep "rewired_count"
      = Some (VInt (Z.of_nat (length (st_rewired st)))).
Proof.
  intros H. apply convert_Ok in H as (d & -> & _ & _ & H).
  apply rewire_Ok in H
    as (t & st & wf1 & wf2 & Hpass & Hwf1 & -> & wf3 & Hrep & ->).
  apply attach_report_Ok in Hrep as [Hreport Hframe].
  eexists d, wf3, t, st, _. split; [done|]. split; [done|]. split; [done|].
  split; [|split; [|split; [exact Hreport|]]].
  - unfold graph_nodes. simpl. rewrite Hframe by done. subst wf1.
    rewrite store_elements_other by done.
    pose proof (graph_nodes_stored _ _ _ Hpass) as Hs.
    unfold graph_nodes in Hs. simpl in Hs. exact Hs.
  - unfold graph_links. simpl. rewrite Hframe by done. subst wf1.
    pose proof (graph_links_stored d t st
                  (store_elements d "nodes" (st_nodes st)) Hpass) as Hs.
    unfold graph_links in Hs. simpl in Hs. apply Hs.
    by apply store_elements_other.
  - by rewrite dict_get_set_ne, dict_get_set_ne, dict_get_set.
Qed.

(** The rewrites of a GetNode whose binding has no source in the graph. *)
Lemma missing_source_pass d t st i n name c k lid p nid pd l :
  rewrite_pass d = Ok (t, st) →
  graph_nodes d !! i = Some n →
  is_get n = true →
  bound_name n = Ok name →
  pdict_get (t_name_to_source t) name = Some c →
  (∀ j n' s, pdict_get (t_nodes_by_id t) c.1.1 = Some j →
     graph_nodes d !! j = Some n' →
     as_int c.1.2 = Some (Z.of_nat s) →
     (length (node_ports n') ≤ s)%nat) →
  node_ports n !! k = Some (VDict pd) →
  dict_get pd "links" = Some (VList l) →
  existsb (py_eq lid) l = true →
  pdict_get (t_link_map t) lid = Some p →
  py_getitem_key n "id" = Ok nid →
  (∀ j n' nid', j ≠ i → graph_nodes d !! j = Some n' →
     py_getitem_key n' "id" = Ok nid' → py_eq nid' nid = false) →
  (∀ j n', j ≠ i → graph_nodes d !! j = Some n' → is_get n' = true →
     attached lid n' = false) →
  (∃ fs fs',
     graph_links d !! p = Some (VList fs)
     ∧ st_links st !! p = Some (VList fs')
     ∧ length fs' = length fs
     ∧ fs' !! 1%nat = Some c.1.1
     ∧ fs' !! 2%nat = Some c.1.2
     ∧ fs' !! 5%nat = Some c.2
     ∧ fs' !! 0%nat = fs !! 0%nat
     ∧ fs' !! 3%nat = fs !! 3%nat
     ∧ fs' !! 4%nat = fs !! 4%nat)
  ∧ (∃ x, py_eq lid x = true ∧ VTuple [name; x; nid; c.1.1] ∈ st_rewired st)
  ∧ port_has (st_nodes st !!! i) k lid = false
  ∧ (∀ j kk, port_has (st_nodes st !!! j) kk lid = true →
             ∃ n', graph_nodes d !! j = Some n' ∧ port_has n' kk lid = true)
  ∧ (pdict_get (t_nodes_by_id t) c.1.1 = None →
     ∀ j n' nid', graph_nodes d !! j = Some n' →
                  py_getitem_key n' "id" = Ok nid' →
                  py_eq nid' c.1.1 = false).
Proof.
  intros Hpass Hi Hget Hname Hc Hoff Hk Hl Hin Hp Hnid Huniq Hfree.
  apply rewrite_pass_Ok in Hpass as (Hnbi & Hlm & Hset & Hpass).
  set (ns0 := graph_nodes d) in *. set (ls0 := graph_links d) in *.
  assert (∀ x q, pdict_get (t_link_map t) x = Some q →
            ∃ l kx, ls0 !! q = Some l ∧ link_key l = Ok kx ∧ py_eq kx x = true)
    as Hsound.
  { intros x q Hq. by eapply build_index_sound. }
  pose proof (list_lookup_total_correct _ _ _ Hi) as Hi'.
  assert (i < length ns0)%nat as Hlt by (by eapply lookup_lt_Some).
  assert (∀ j s, pdict_get (t_nodes_by_id t) c.1.1 = Some j →
            as_int c.1.2 = Some (Z.of_nat s) →
            (length (node_ports (ns0 !!! j)) ≤ s)%nat) as Hoff'.
  { intros j s Hj Hs. destruct (ns0 !! j) as [n'|] eqn:Ej.
    - rewrite (list_lookup_total_correct _ _ _ Ej). by eapply Hoff.
    - rewrite (lookup_total_None _ _ Ej). simpl. lia. }
  assert (∀ j, j ≠ i → is_get (ns0 !!! j) = true →
               attached lid (ns0 !!! j) = false) as Hfree'.
  { intros j Hj. destruct (ns0 !! j) as [n'|] eqn:Ej.
    - rewrite (list_lookup_total_correct _ _ _ Ej). by eapply Hfree.
    - by rewrite (lookup_total_None _ _ Ej). }
  assert (port_has n k lid = true) as Hport.
  { rewrite port_has_ids, (port_is_list_ids _ _ _ _ Hk Hl). done. }
  assert (pdict_get (t_nodes_by_id t) nid = Some i) as Hown.
  { eapply build_index_unique; [exact Hnbi|exact Hi|exact Hnid|].
    intros q x kx Hq Hx Hkx. by eapply Huniq. }
  destruct (get_pass_origin (t_nodes_by_id t) (t_link_map t)
              (t_name_to_source t) ns0 ls0 i k p lid name c Hsound Hp) with (st := st)
    as (Hev & fs & Hfs & Hlen & Hcur); try done; try (by rewrite Hi').
  { intros j Hj. right. right. intros s Hs. by apply Hoff'. }
  destruct (get_pass_missing (t_nodes_by_id t) (t_link_map t)
              (t_name_to_source t) ns0 ls0 i k lid name nid c Hsound) with (st := st)
    as (Hgone & Hent & Hnew); try done; try (by rewrite Hi').
  { rewrite Hi'. by exists pd, l. }
  split.
  { destruct (Hsound _ _ Hp) as (l0 & _ & Hl0 & _).
    rewrite (list_lookup_total_correct _ _ _ Hl0) in Hfs. subst l0.
    destruct (evolves_links _ _ _ _ Hev Hl0) as (l' & Hl' & _).
    rewrite (list_lookup_total_correct _ _ _ Hl') in Hcur. subst l'.
    destruct (with_origin_fields c fs Hlen) as (F1 & F2 & F5 & F0 & F3 & F4).
    exists fs, (with_origin c fs). rewrite with_origin_length. done. }
  split; [done|]. split; [done|]. split.
  { intros j kk Hj. apply Hnew in Hj. destruct (ns0 !! j) as [n'|] eqn:Ej.
    - rewrite (list_lookup_total_correct _ _ _ Ej) in Hj. eauto.
    - by rewrite (lookup_total_None _ _ Ej) in Hj. }
  intros Hnone j n' nid' Hj Hid. by eapply (build_index_None node_key).
Qed.

(** C10, as the code has it.  Take a GetNode whose name is bound to [c]
    where the source id of [c] is the id of no node, or the slot of [c] is
    none of that node's ports; a link id held by the list of one of its
    ports, and by no port of another GetNode, that the link map knows; no
    other node having the GetNode's id.  In the graph the call returns
    without pruning the link has the source node id, slot and type tag of
    [c] and its own id and target, the trace the report counts in
    [rewired_count] has an entry for the id, the id is gone from the port,
    and it is registered on no port that did not hold it; when the source id
    is the id of no node, no node of the returned graph has the id the
    link's source names. *)
Theorem missing_source_rewired limit workflow out :
  convert_setget_to_hardlines limit workflow false = Ok out →
  ∃ d d' t st rep,
    workflow = VDict d ∧ out = VDict d'
    ∧ rewrite_pass d = Ok (t, st)
    ∧ report_of d' = Some (VDict rep)
    ∧ dict_get rep "rewired_count"
      = Some (VInt (Z.of_nat (length (st_rewired st))))
    ∧ ∀ i n name c k lid p nid pd l,
        graph_nodes d !! i = Some n →
        is_get n = true →
        bound_name n = Ok name →
        pdict_get (t_name_to_source t) name = Some c →
        (∀ j n' s, pdict_get (t_nodes_by_id t) c.1.1 = Some j →
           graph_nodes d !! j = Some n' →
           as_int c.1.2 = Some (Z.of_nat s) →
           (length (node_ports n') ≤ s)%nat) →
        node_ports n !! k = Some (VDict pd) →
        dict_get pd "links" = Some (VList l) →
        existsb (py_eq lid) l = true →
        pdict_get (t_link_map t) lid = Some p →
        py_getitem_key n "id" = Ok nid →
        (∀ j n' nid', j ≠ i → graph_nodes d !! j = Some n' →
           py_getitem_key n' "id" = Ok nid' → py_eq nid' nid = false) →
        (∀ j n', j ≠ i → graph_nodes d !! j = Some n' → is_get n' = true →
           attached lid n' = false) →
        (∃ fs fs',
           graph_links d !! p = Some (VList fs)
           ∧ graph_links d' !! p = Some (VList fs')
           ∧ length fs' = length fs
           ∧ fs' !! 1%nat = Some c.1.1
           ∧ fs' !! 2%nat = Some c.1.2
           ∧ fs' !! 5%nat = Some c.2
           ∧ fs' !! 0%nat = fs !! 0%nat
           ∧ fs' !! 3%nat = fs !! 3%nat
           ∧ fs' !! 4%nat = fs !! 4%nat)
        ∧ (∃ x, py_eq lid x = true
                ∧ VTuple [name; x; nid; c.1.1] ∈ st_rewired st)
        ∧ port_has (graph_nodes d' !!! i) k lid = false
        ∧ (∀ j kk, port_has (graph_nodes d' !!! j) kk lid = true →
                   ∃ n', graph_nodes d !! j = Some n'
                         ∧ port_has n' kk lid = true)
        ∧ (pdict_get (t_nodes_by_id t) c.1.1 = None →
           ∀ j n' nid', graph_nodes d' !! j = Some n' →
                        py_getitem_key n' "id" = Ok nid' →
                        py_eq nid' c.1.1 = false).
Proof.
  intros H.
  destruct (unpruned_result _ _ _ H)
    as (d & d' & t & st & rep & -> & -> & Hpass & Hns & Hls & Hrep & Hcount).
  exists d, d', t, st, rep. do 5 (split; [done|]).
  intros i n name c k lid p nid pd l Hi Hget Hname Hc Hoff Hk Hl Hin Hp Hnid
    Huniq Hfree.
  destruct (missing_source_pass d t st i n name c k lid p nid pd l)
    as (Hlink & Hent & Hgone & Hnew & Hnone); try done.
  rewrite Hns, Hls. split; [done|]. split; [done|]. split; [done|].
  split; [done|].
  intros Hmiss j n' nid' Hj Hid.
  destruct (evolves_Forall2 _ _ (rewrite_pass_lengths _ _ _ Hpass)) as [Hnf _].
  simpl in Hnf.
  destruct (Forall2_lookup_r _ _ _ _ _ Hnf Hj) as (n0 & Hn0 & [Hmeta _]).
  apply (Hnone Hmiss j n0 nid' Hn0).
  by rewrite <- (same_meta_getitem _ _ "id" Hmeta).
Qed.

Lemma missing_source_rewired_witness :
  ∃ d' fs',
    convert_setget_to_hardlines 64 (VDict g_missing) false = Ok (VDict d')
    ∧ graph_links d' !! 1%nat = Some (VList fs')
    ∧ fs' !! 1%nat = Some (VInt 99)
    ∧ port_has (graph_nodes d' !!! 1%nat) 0 (VInt 20) = false
    ∧ ∀ j n' nid', graph_nodes d' !! j = Some n' →
                   py_getitem_key n' "id" = Ok nid' →
                   py_eq nid' (VInt 99) = false.
Proof.
  destruct (convert_setget_to_hardlines 64 (VDict g_missing) false)
    as [out|e] eqn:E; [|by vm_compute in E].
  destruct (missing_source_rewired 64 (VDict g_missing) out E)
    as (d & d' & t & st & rep & Hd & -> & Hpass & _ & _ & Hall).
  injection Hd as <-.
  assert (t_name_to_source t = [(VStr "X", (VInt 99, VInt 0, VStr "T"))]
          ∧ t_link_map t = [(VInt 10, 0%nat); (VInt 20, 1%nat)]
          ∧ t_nodes_by_id t = [(VInt 1, 0%nat); (VInt 2, 1%nat); (VInt 3, 2%nat)])
    as (Hidx & Hlm & Hnbi).
  { vm_compute in Hpass. by injection Hpass as <- <-. }
  destruct (Hall 1%nat (get_node_of 2 "X" [20])
              (VStr "X") (VInt 99, VInt 0, VStr "T") 0%nat (VInt 20) 1%nat
              (VInt 2) [("links", VList [VInt 20])] [VInt 20])
    as ((fs & fs' & _ & Hfs' & _ & H1 & _) & _ & Hgone & _ & Hnone).
  - reflexivity.
  - reflexivity.
  - reflexivity.
  - by rewrite Hidx.
  - rewrite Hnbi. intros j n' s Hj. vm_compute in Hj. discriminate.
  - reflexivity.
  - reflexivity.
  - reflexivity.
  - by rewrite Hlm.
  - reflexivity.
  - intros [|[|[|j]]] n' nid' Hj Hn' Hid; try done; vm_compute in Hn';
      injection Hn' as <-; vm_compute in Hid; injection Hid as <-; reflexivity.
  - intros [|[|[|j]]] n' Hj Hn'; try done; vm_compute in Hn';
      injection Hn' as <-; vm_compute; congruence.
  - exists d', fs'. split; [done|]. split; [done|]. split; [done|].
    split; [done|]. apply Hnone. by rewrite Hnbi.
Defined.

(** C10 as stated fails.  In [g_dup] a later node has the id of [Get X]:
    link 20 is rewritten to the missing source 99 and its id stays on the
    port of [Get X].  In [g_shared] link 20 is on a port of [Get X] and of
    [Get Y], bound to the missing sources 99 and 98: it ends with source
    98. *)
Lemma missing_source_needs_own_id :
  (∃ d',
     convert_setget_to_hardlines 64 (VDict g_dup) false = Ok (VDict d')
     ∧ graph_nodes g_dup !! 1%nat = Some (get_node_of 2 "X" [20])
     ∧ graph_links d' !! 1%nat = Some (link6 20 99 0 3 0 "T")
     ∧ port_has (graph_nodes d' !!! 1%nat) 0 (VInt 20) = true)
  ∧ (∃ d' t st,
       convert_setget_to_hardlines 64 (VDict g_shared) false = Ok (VDict d')
       ∧ rewrite_pass g_shared = Ok (t, st)
       ∧ graph_nodes g_shared !! 2%nat = Some (get_node_of 2 "X" [20])
       ∧ pdict_get (t_name_to_source t) (VStr "X")
         = Some (VInt 99, VInt 0, VStr "T")
       ∧ pdict_get (t_nodes_by_id t) (VInt 99) = None
       ∧ graph_links d' !! 2%nat = Some (link6 20 98 0 3 0 "T")).
Proof. split; [eexists|eexists _, _, _]; vm_compute; repeat split. Qed.

(** ** C7: the count of rewired pairs *)

Lemma sum_nat_app l1 l2 : sum_nat (l1 ++ l2) = (sum_nat l1 + sum_nat l2)%nat.
Proof. unfold sum_nat. induction l1 as [|x l1 IH]; simpl; [done|]. lia. Qed.

Section counting.
Variables nodes_by_id link_map : pdict nat.
Variable name_to_source : pdict triple.
Variables ns0 ls0 : list value.

Hypothesis link_map_sound :
  ∀ x q, pdict_get link_map x = Some q →
         ∃ l kx, ls0 !! q = Some l ∧ link_key l = Ok kx ∧ py_eq kx x = true.

Let st0 : state :=
  {| st_nodes := ns0; st_links := ls0; st_rewired := []; st_skipped := [] |}.

(** One rewrite: one more entry exactly when the id maps to a link; the
    nodes change at the source of the binding and at the node the id of the
    GetNode maps to, there at port [k] only. *)
Lemma rewire_link_count name c i k s x s' :
  evolves st0 s →
  rewire_link nodes_by_id link_map name c i k s x = Ok s' →
  length (st_rewired s')
  = (length (st_rewired s) + if is_present link_map x then 1 else 0)%nat
  ∧ (Forall (λ e, ∃ nm y nid src, e = VTuple [nm; y; nid; src]
                                  ∧ is_present link_map y = true)
       (st_rewired s) →
     Forall (λ e, ∃ nm y nid src, e = VTuple [nm; y; nid; src]
                                  ∧ is_present link_map y = true)
       (st_rewired s')).
Proof.
  intros Hev H. unfold is_present.
  apply rewire_link_effect in H
    as [[-> Hno]|(q & fs & ns1 & nid' & Hq & Hfs & Hlen & Hadd & Hnid & Hrem & Hl & Hrw & _)].
  - destruct Hno as [->|(q & Hq & Hfalse)]; [split; [lia|done]|]. exfalso.
    destruct (link_map_sound _ _ Hq) as (l & kx & Hl & Hk & _).
    destruct Hev as (_ & _ & _ & Hlf). specialize (Hlf q). simpl in Hlf.
    rewrite (list_lookup_total_correct _ _ _ Hl) in Hlf.
    rewrite (link_frame_truthy _ _ Hlf), (link_key_truthy _ _ Hk) in Hfalse.
    done.
  - rewrite Hq, Hrw, length_app. simpl. split; [done|]. intros Hall.
    apply Forall_app. split; [done|]. constructor; [|done].
    eexists _, _, _, _. split; [done|]. by rewrite Hq.
Qed.

Lemma rewire_link_touches name c i k s x s' nid :
  py_getitem_key (st_nodes s !!! i) "id" = Ok nid →
  rewire_link nodes_by_id link_map name c i k s x = Ok s' →
  ∀ j, pdict_get nodes_by_id c.1.1 ≠ Some j →
       (pdict_get nodes_by_id nid ≠ Some j → st_nodes s' !!! j = st_nodes s !!! j)
       ∧ ∀ kk, kk ≠ k → port_ids (st_nodes s' !!! j) kk
                        = port_ids (st_nodes s !!! j) kk.
Proof.
  intros Hid H j Hsrc.
  apply rewire_link_effect in H
    as [[-> _]|(q & fs & ns1 & nid' & Hq & Hfs & Hlen & Hadd & Hnid & Hrem & _)];
    [done|].
  pose proof (add_output_link_nodes _ _ _ _ _ _ Hadd) as [_ Hadd'].
  destruct (Hadd' j) as (_ & Hsame & _). specialize (Hsame Hsrc).
  destruct (Hadd' i) as (Hmeta & _).
  rewrite (same_meta_getitem _ _ "id" Hmeta) in Hnid by done.
  assert (nid' = nid) as -> by congruence.
  apply remove_output_link_effect in Hrem
    as [->|(t & pd & l & Ht & Hs & Hl & ->)]; [by rewrite Hsame|].
  split.
  - intros Hne. rewrite list_lookup_total_insert_ne; [done|congruence].
  - intros kk Hkk. rewrite list_lookup_total_insert. case_decide as Hj.
    + destruct Hj as [<- _]. rewrite set_port_links_ids, Hs.
      rewrite decide_False by done. by rewrite Hsame.
    + by rewrite Hsame.
Qed.

Lemma get_pass_entries st :
  get_pass nodes_by_id link_map name_to_source ns0 ls0 = Ok st →
  Forall (λ e, ∃ nm y nid src, e = VTuple [nm; y; nid; src]
                               ∧ is_present link_map y = true)
    (st_rewired st).
Proof.
  unfold get_pass. fold st0. intros H.
  set (P := λ s : state,
    evolves st0 s
    ∧ Forall (λ e, ∃ nm y nid src, e = VTuple [nm; y; nid; src]
                                   ∧ is_present link_map y = true)
        (st_rewired s)).
  cut (P st).
  { by intros [_ ?]. }
  revert H. apply (foldM_inv P).
  { split; [apply evolves_refl|constructor]. }
  intros s m s' _ Hs H.
  eapply (get_node_lift _ _ _ P (λ _, True)); [done| | |exact Hs|exact H].
  - intros name c k s1 x s2 [E1 F1] _ H1. split.
    + eapply evolves_trans; [exact E1|]. by eapply rewire_link_evolves.
    + by eapply rewire_link_count.
  - intros s1 sk Hs1. exact Hs1.
Qed.
End counting.

Section counting_pass.
Variables nodes_by_id link_map : pdict nat.
Variable name_to_source : pdict triple.
Variables ns0 ls0 : list value.

Hypothesis link_map_sound :
  ∀ x q, pdict_get link_map x = Some q →
         ∃ l kx, ls0 !! q = Some l ∧ link_key l = Ok kx ∧ py_eq kx x = true.
(** The id of a GetNode maps to the node itself, and no binding names a
    GetNode as its source. *)
Hypothesis own_id :
  ∀ j nid, is_get (ns0 !!! j) = true →
           py_getitem_key (ns0 !!! j) "id" = Ok nid →
           pdict_get nodes_by_id nid = Some j.
Hypothesis source_no_get :
  ∀ name c t, pdict_get name_to_source name = Some c →
              pdict_get nodes_by_id c.1.1 = Some t →
              is_get (ns0 !!! t) = false.

Let st0 : state :=
  {| st_nodes := ns0; st_links := ls0; st_rewired := []; st_skipped := [] |}.

Let entries_present (s : state) : Prop :=
  Forall (λ e, ∃ nm y nid src, e = VTuple [nm; y; nid; src]
                               ∧ is_present link_map y = true)
    (st_rewired s).

Lemma rewire_links_count name c m k nid ids : ∀ s s',
  pdict_get name_to_source name = Some c →
  is_get (ns0 !!! m) = true →
  py_getitem_key (ns0 !!! m) "id" = Ok nid →
  evolves st0 s →
  foldM (rewire_link nodes_by_id link_map name c m k) s ids = Ok s' →
  evolves st0 s'
  ∧ length (st_rewired s')
    = (length (st_rewired s) + present_count link_map ids)%nat
  ∧ (entries_present s → entries_present s')
  ∧ ∀ j, is_get (ns0 !!! j) = true →
         (j ≠ m → st_nodes s' !!! j = st_nodes s !!! j)
         ∧ ∀ kk, kk ≠ k → port_ids (st_nodes s' !!! j) kk
                          = port_ids (st_nodes s !!! j) kk.
Proof.
  induction ids as [|x ids IH]; intros s s' Hc Hg Hnid0 Hev H; simpl in H.
  - injection H as <-. unfold present_count. simpl.
    split; [done|]. split; [lia|]. split; [done|]. intros j Hj. done.
  - apply bind_Ok in H as (s1 & H1 & H).
    pose proof (rewire_link_evolves _ _ _ _ _ _ _ _ _ H1) as Hev1.
    pose proof (evolves_trans _ _ _ Hev Hev1) as Hev'.
    destruct (rewire_link_count nodes_by_id link_map ns0 ls0 link_map_sound
                _ _ _ _ _ _ _ Hev H1) as [Hlen Hent].
    destruct (IH s1 s' Hc Hg Hnid0 Hev' H) as (E2 & L2 & P2 & T2).
    assert (py_getitem_key (st_nodes s !!! m) "id" = Ok nid) as Hnid.
    { destruct Hev as (_ & Hf & _). destruct (Hf m) as [Hmeta _]. simpl in Hmeta.
      by rewrite (same_meta_getitem _ _ "id" Hmeta). }
    pose proof (rewire_link_touches _ _ _ _ _ _ _ _ _ _ Hnid H1) as Htouch.
    split; [done|]. split.
    { rewrite L2, Hlen. unfold present_count. simpl.
      destruct (is_present link_map x); simpl; lia. }
    split; [intros He; apply P2, Hent, He|]. intros j Hj.
    destruct (T2 j Hj) as [T2a T2b].
    assert (pdict_get nodes_by_id c.1.1 ≠ Some j) as Hsrc.
    { intros Ht. rewrite (source_no_get _ _ _ Hc Ht) in Hj. done. }
    destruct (Htouch j Hsrc) as [T1a T1b].
    split.
    + intros Hne. rewrite T2a by done. apply T1a.
      rewrite (own_id m nid Hg Hnid0). congruence.
    + intros kk Hkk. rewrite T2b by done. by apply T1b.
Qed.

(** All the ports of one GetNode, none of which was touched before the loop
    reached it. *)
Lemma rewire_ports_count name c m nid s s' n :
  pdict_get name_to_source name = Some c →
  is_get (ns0 !!! m) = true →
  py_getitem_key (ns0 !!! m) "id" = Ok nid →
  evolves st0 s →
  foldM (rewire_port nodes_by_id link_map name c m) s (seq 0 n) = Ok s' →
  evolves st0 s'
  ∧ length (st_rewired s')
    = (length (st_rewired s)
       + sum_nat (map (λ k, present_count link_map
                              (port_ids (st_nodes s !!! m) k)) (seq 0 n)))%nat
  ∧ (entries_present s → entries_present s')
  ∧ ∀ j, is_get (ns0 !!! j) = true → j ≠ m →
         st_nodes s' !!! j = st_nodes s !!! j.
Proof.
  intros Hc Hg Hnid Hev H.
  set (P := λ (k : nat) (s1 : state),
    evolves st0 s1
    ∧ length (st_rewired s1)
      = (length (st_rewired s)
         + sum_nat (map (λ k, present_count link_map
                                (port_ids (st_nodes s !!! m) k)) (seq 0 k)))%nat
    ∧ (entries_present s → entries_present s1)
    ∧ (∀ j, is_get (ns0 !!! j) = true → j ≠ m →
            st_nodes s1 !!! j = st_nodes s !!! j)
    ∧ ∀ kk, (k ≤ kk)%nat → port_ids (st_nodes s1 !!! m) kk
                           = port_ids (st_nodes s !!! m) kk).
  cut (P (0 + n)%nat s').
  { intros (E & L & F & T & _). done. }
  revert H. apply (foldM_seq_inv P).
  { split; [done|]. split; [simpl; lia|]. done. }
  intros k s1 s2 Hk (E1 & L1 & F1 & T1 & K1) H. apply rewire_port_Ok in H.
  destruct (rewire_links_count _ _ _ _ _ _ _ _ Hc Hg Hnid E1 H)
    as (E2 & L2 & F2 & T2).
  split; [done|]. split.
  { rewrite L2, L1, seq_S, map_app, sum_nat_app. simpl.
    rewrite K1 by lia. lia. }
  split; [intros He; apply F2, F1, He|]. split.
  - intros j Hj Hne. destruct (T2 j Hj) as [T2a _]. rewrite T2a by done. auto.
  - intros kk Hkk. destruct (T2 m Hg) as [_ T2b]. rewrite T2b by lia.
    apply K1. lia.
Qed.

(** The node loop: the GetNodes still to come are the input's, and the
    trace has as many entries as the nodes visited have pairs. *)
Lemma get_pass_count st :
  (∀ j, (j < length ns0)%nat → ∃ nid, py_getitem_key (ns0 !!! j) "id" = Ok nid) →
  get_pass nodes_by_id link_map name_to_source ns0 ls0 = Ok st →
  length (st_rewired st) = graph_pairs name_to_source link_map ns0
  ∧ entries_present st.
Proof.
  intros Hids H. unfold get_pass in H. fold st0 in H.
  set (P := λ (m : nat) (s : state),
    evolves st0 s
    ∧ length (st_rewired s)
      = graph_pairs name_to_source link_map (take m ns0)
    ∧ entries_present s
    ∧ ∀ j, (m ≤ j)%nat → is_get (ns0 !!! j) = true →
           st_nodes s !!! j = ns0 !!! j).
  cut (P (0 + length ns0)%nat st).
  { intros (_ & L & F & _). rewrite take_ge in L by (simpl; lia). done. }
  revert H. apply (foldM_seq_inv P).
  { split; [apply evolves_refl|]. split; [done|]. split; [constructor|done]. }
  intros m s s' Hm (E & L & F & U) H.
  pose proof (get_node_evolves _ _ _ _ _ _ H) as E'.
  split; [by eapply evolves_trans|].
  destruct (lookup_lt_is_Some_2 ns0 m) as [n Hn]; [lia|].
  pose proof (list_lookup_total_correct _ _ _ Hn) as Hn'.
  assert (node_frame (ns0 !!! m) (st_nodes s !!! m)) as [Hmeta _].
  { destruct E as (_ & Hf & _). apply Hf. }
  unfold graph_pairs in *.
  rewrite (take_S_r _ _ _ Hn), map_app, sum_nat_app. simpl.
  rewrite <- Hn'.
  set (T := sum_nat (map (node_pairs name_to_source link_map) (take m ns0))) in *.
  unfold node_pairs.
  apply get_node_Ok in H
    as [[Hg ->]|(Hg & name & Hname & [(Hnone & nid & _ & ->)|(c & Hc & H)])];
    rewrite (same_meta_is_get _ _ Hmeta) in Hg; rewrite Hg.
  - split; [lia|]. split; [done|]. intros j Hj. apply U. lia.
  - rewrite (same_meta_bound_name _ _ Hmeta) in Hname. rewrite Hname, Hnone.
    simpl. split; [lia|]. split; [done|]. intros j Hj. apply U. lia.
  - rewrite (same_meta_bound_name _ _ Hmeta) in Hname. rewrite Hname, Hc.
    destruct (Hids m) as [nid Hnid]; [lia|].
    destruct (rewire_ports_count _ _ _ _ _ _ _ Hc Hg Hnid E H)
      as (E2 & L2 & F2 & T2).
    rewrite (U m (le_n _) Hg) in L2.
    split; [rewrite L2, L; simpl; lia|]. split; [by apply F2|].
    intros j Hj Hgj. rewrite T2; [apply U; [lia|done]|done|lia].
Qed.
End counting_pass.

(** C7.  The [rewired_count] of the report is the length of the trace the
    pass appended to, one entry for each link id of a GetNode's port that
    maps to a link, none for an id that maps to no link.  In a graph whose
    node ids are unique and where no binding names a GetNode as its source,
    this is the number of (port, link id) pairs of the GetNodes with a bound
    name whose id maps to a link, an id on several ports counting once per
    port. *)
Theorem rewired_count_correct limit workflow drop_setget out :
  convert_setget_to_hardlines limit workflow drop_setget = Ok out →
  ∃ d t st rep,
    workflow = VDict d
    ∧ rewrite_pass d = Ok (t, st)
    ∧ get_report out = Some (VDict rep)
    ∧ dict_get rep "rewired_count"
      = Some (VInt (Z.of_nat (length (st_rewired st))))
    ∧ Forall (λ e, ∃ nm y nid src, e = VTuple [nm; y; nid; src]
                                   ∧ is_present (t_link_map t) y = true)
        (st_rewired st)
    ∧ ((∀ j j' n n' a a', j ≠ j' →
          graph_nodes d !! j = Some n → graph_nodes d !! j' = Some n' →
          py_getitem_key n "id" = Ok a → py_getitem_key n' "id" = Ok a' →
          py_eq a' a = false) →
       (∀ name c j n', pdict_get (t_name_to_source t) name = Some c →
          pdict_get (t_nodes_by_id t) c.1.1 = Some j →
          graph_nodes d !! j = Some n' → is_get n' = false) →
       length (st_rewired st)
       = graph_pairs (t_name_to_source t) (t_link_map t) (graph_nodes d)).
Proof.
  intros H. apply convert_Ok in H as (d & -> & _ & _ & H).
  apply rewire_Ok in H
    as (t & st & wf1 & wf2 & Hpass & Hwf1 & Hwf2 & wf3 & Hrep & ->).
  apply attach_report_Ok in Hrep as [Hrep _].
  exists d, t, st. eexists. split; [done|]. split; [done|].
  split; [exact Hrep|].
  split; [by rewrite dict_get_set_ne, dict_get_set_ne, dict_get_set|].
  apply rewrite_pass_Ok in Hpass as (Hnbi & Hlm & Hset & Hpass).
  set (ns0 := graph_nodes d) in *. set (ls0 := graph_links d) in *.
  assert (∀ x q, pdict_get (t_link_map t) x = Some q →
            ∃ l kx, ls0 !! q = Some l ∧ link_key l = Ok kx ∧ py_eq kx x = true)
    as Hsound.
  { intros x q Hq. by eapply build_index_sound. }
  split; [by eapply get_pass_entries|].
  intros Huniq Hsrc.
  eapply get_pass_count; [exact Hsound| | | |exact Hpass].
  - intros j nid Hg Hid. destruct (ns0 !! j) as [n|] eqn:Ej.
    + rewrite (list_lookup_total_correct _ _ _ Ej) in Hid.
      eapply build_index_unique; [exact Hnbi|exact Ej|exact Hid|].
      intros q x kx Hq Hx Hkx. by eapply (Huniq j q).
    + by rewrite (lookup_total_None _ _ Ej) in Hg.
  - intros name c j Hc Hj.
    destruct (build_index_sound _ _ _ _ _ Hnbi Hj) as (n' & _ & Hn' & _).
    rewrite (list_lookup_total_correct _ _ _ Hn'). by eapply Hsrc.
  - intros j Hj. apply build_index_keys in Hnbi.
    destruct (lookup_lt_is_Some_2 ns0 j Hj) as [n Hn].
    rewrite (list_lookup_total_correct _ _ _ Hn).
    rewrite Forall_lookup in Hnbi. destruct (Hnbi j n Hn) as (nid & Hk & _).
    by exists nid.
Qed.

Lemma rewired_count_correct_witness :
  ∃ out rep,
    convert_setget_to_hardlines 64 wf_example false = Ok out
    ∧ get_report out = Some (VDict rep)
    ∧ dict_get rep "rewired_count" = Some (VInt 1).
Proof.
  eexists.
  destruct (rewired_count_correct 64 wf_example false _ eq_refl)
    as (d & t & st & rep & Hd & Hpass & Hrep & Hrc & _ & Hcount).
  injection Hd as <-.
  exists rep. split; [reflexivity|]. split; [exact Hrep|].
  rewrite Hrc, Hcount.
  - vm_compute in Hpass. by injection Hpass as <- <-.
  - intros [|[|[|[|j]]]] [|[|[|[|j']]]] n n' a a' Hne Hn Hn' Ha Ha'; try done;
      vm_compute in Hn, Hn'; injection Hn as <-; injection Hn' as <-;
      vm_compute in Ha, Ha'; injection Ha as <-; injection Ha' as <-;
      reflexivity.
  - vm_compute in Hpass. injection Hpass as <- <-.
    intros name c j n' Hc Hj Hn'. cbn [t_name_to_source pdict_get] in Hc.
    destruct (py_eq (VStr "X") name); [|discriminate]. injection Hc as <-.
    vm_compute in Hj. injection Hj as <-. vm_compute in Hn'.
    injection Hn' as <-. reflexivity.
Defined.

(** ** C3: when the call fails and when it returns *)

(** *** Only the precondition check raises its error *)

Lemma not_nw_bind {A B} (m : result A) (f : A → result B) :
  not_nw m → (∀ a, not_nw (f a)) → not_nw (bind m f).
Proof.
  destruct m as [a|e]; simpl; [auto|]. intros H _ H'. injection H' as ->.
  by apply H.
Qed.

Lemma not_nw_foldM {A S} (f : S → A → result S) s xs :
  (∀ s x, not_nw (f s x)) → not_nw (foldM f s xs).
Proof.
  intros Hf. revert s. induction xs as [|x xs IH]; intros s; simpl; [done|].
  apply not_nw_bind; auto.
Qed.

Ltac nw_step :=
  match goal with
  | |- not_nw (bind _ _) => apply not_nw_bind; [|intros ?]
  | |- not_nw (foldM _ _ _) => apply not_nw_foldM; intros ? ?
  | |- not_nw (Ok _) => by unfold not_nw
  | |- not_nw (Raise _) => by unfold not_nw
  | |- not_nw (if ?b then _ else _) => destruct b
  | |- not_nw (match ?x with _ => _ end) => destruct x
  end.

Ltac nw :=
  repeat first
    [ nw_step
    | progress unfold py_get, py_get_default, py_getitem_key, py_getitem_idx,
        py_setitem_idx, py_iter, py_len, py_contains, py_unpack6, pdict_lookup,
        slot_in_range, bound_name, in_dropped, is_routing, node_key, link_key,
        rewrite_origin ].

Lemma not_nw_build_index key :
  (∀ x, not_nw (key x)) → ∀ xs i acc, not_nw (build_index key i xs acc).
Proof.
  intros Hk xs. induction xs as [|x xs IH]; intros i acc; simpl; [done|].
  apply not_nw_bind; [apply Hk|]. intros k. destruct (py_hashable k); [apply IH|done].
Qed.

Lemma not_nw_add_output_link nbi ns a b x : not_nw (add_output_link nbi ns a b x).
Proof. unfold add_output_link. nw. Qed.

Lemma not_nw_remove_output_link nbi ns nid k x :
  not_nw (remove_output_link nbi ns nid k x).
Proof. unfold remove_output_link. nw. Qed.

Lemma not_nw_set_node lm ls acc n : not_nw (set_node lm ls acc n).
Proof. unfold set_node, set_candidate, record_binding. nw. Qed.

Lemma not_nw_rewire_link nbi lm name c i k st x :
  not_nw (rewire_link nbi lm name c i k st x).
Proof.
  unfold rewire_link. nw; try apply not_nw_add_output_link;
    try apply not_nw_remove_output_link.
Qed.

Lemma not_nw_get_node nbi lm idx st i : not_nw (get_node nbi lm idx st i).
Proof.
  unfold get_node, rewire_port, port_snapshot. nw; apply not_nw_rewire_link.
Qed.

Lemma not_nw_rewrite_pass d : not_nw (rewrite_pass d).
Proof.
  unfold rewrite_pass, set_pass, get_pass. nw;
    try (apply not_nw_build_index; intros; nw);
    try apply not_nw_set_node; try apply not_nw_get_node.
Qed.

Lemma not_nw_rewire d drop_setget : not_nw (rewire d drop_setget).
Proof.
  unfold rewire. apply not_nw_bind; [apply not_nw_rewrite_pass|].
  intros [t st]. unfold prune, attach_report, set_report, drop_link, drop_node.
  nw.
Qed.

(** *** A well-formed graph is processed without an exception *)

Lemma node_ok_inv n :
  node_ok n = true →
  ∃ nd nid,
    n = VDict nd ∧ dict_get nd "id" = Some nid ∧ py_hashable nid = true
    ∧ widgets_ok nd = true ∧ inputs_ok nd = true ∧ outputs_ok nd = true.
Proof.
  destruct n as [| | | | | |nd]; try discriminate.
  unfold node_ok, node_has_id.
  intros H. apply andb_true_iff in H as [H Ho].
  apply andb_true_iff in H as [H Hi]. apply andb_true_iff in H as [H Hw].
  destruct (dict_get nd "id") as [nid|] eqn:Eid; [|discriminate].
  exists nd, nid. done.
Qed.

Lemma outputs_ok_inv nd :
  outputs_ok nd = true →
  ∃ ps, py_get_default (VDict nd) "outputs" (VList []) = Ok (VList ps)
        ∧ node_ports (VDict nd) = ps
        ∧ forallb port_ok ps = true
        ∧ (dict_get nd "outputs" = None ∧ ps = []
           ∨ dict_get nd "outputs" = Some (VList ps)).
Proof.
  unfold outputs_ok, node_ports. simpl.
  destruct (dict_get nd "outputs") as [[| | | |ps| |]|] eqn:E; try discriminate.
  - intros H. exists ps. simpl. repeat split; auto.
  - intros _. exists []. simpl. repeat split; auto.
Qed.

Lemma port_ok_inv p :
  port_ok p = true →
  ∃ pd, p = VDict pd
        ∧ (default VNone (dict_get pd "links") = VNone
           ∨ ∃ ids, dict_get pd "links" = Some (VList ids)
                    ∧ forallb py_hashable ids = true).
Proof.
  destruct p as [| | | | | |pd]; try discriminate. simpl.
  destruct (dict_get pd "links") as [[| | | |ids| |]|] eqn:E; try discriminate;
    intros H; exists pd; (split; [done|]); rewrite E; simpl.
  - by left.
  - right. by exists ids.
  - by left.
Qed.

Lemma port_ok_snapshot p :
  port_ok p = true →
  ∃ ids, port_snapshot p = Ok ids ∧ forallb py_hashable ids = true.
Proof.
  intros H. apply port_ok_inv in H as (pd & -> & [Hn|(ids & Hl & Hh)]).
  - exists []. unfold port_snapshot. simpl. rewrite Hn. done.
  - exists ids. unfold port_snapshot. simpl. rewrite Hl. simpl.
    split; [|done]. by destruct ids.
Qed.

Lemma set_port_links_ok node s new :
  node_ok node = true →
  forallb py_hashable new = true →
  node_ok (set_port_links node s (VList new)) = true.
Proof.
  intros Hn Hnew. pose proof Hn as Hn'.
  apply node_ok_inv in Hn' as (nd & nid & -> & Hid & Hh & Hw & Hi & Ho).
  unfold set_port_links.
  destruct (outputs_ok_inv nd Ho) as (ps & _ & _ & Hps & [[Hnone _]|Hsome]).
  { by rewrite Hnone. }
  rewrite Hsome. destruct (ps !! s) as [[| | | | | |pd]|] eqn:Es; try done.
  simpl. unfold widgets_ok, inputs_ok, outputs_ok.
  rewrite !dict_get_set_ne by done. rewrite dict_get_set.
  unfold widgets_ok, inputs_ok in Hw, Hi. rewrite Hid, Hh, Hw, Hi. simpl.
  apply forallb_forall. intros p Hp. rewrite <- list_elem_of_In in Hp.
  apply list_elem_of_lookup_1 in Hp as [j Hj].
  rewrite forallb_forall in Hps.
  destruct (decide (j = s)) as [->|Hne].
  - rewrite list_lookup_insert_eq in Hj by (by eapply lookup_lt_Some).
    injection Hj as <-. simpl. by rewrite dict_get_set.
  - rewrite list_lookup_insert_ne in Hj by done.
    apply Hps. rewrite <- list_elem_of_In. by eapply list_elem_of_lookup_2.
Qed.

Lemma forallb_app_1 {A} (f : A → bool) l x :
  forallb f l = true → f x = true → forallb f (l ++ [x]) = true.
Proof. intros Hl Hx. rewrite forallb_app, Hl. simpl. by rewrite Hx. Qed.

Lemma forallb_remove_first x l :
  forallb py_hashable l = true → forallb py_hashable (remove_first x l) = true.
Proof.
  induction l as [|y l IH]; simpl; [done|]. intros H.
  apply andb_true_iff in H as [Hy Hl]. destruct (py_eq y x); [done|].
  simpl. by rewrite Hy, IH.
Qed.

Lemma foldM_total {A St} (P : St → Prop) (Q : A → Prop)
    (f : St → A → result St) xs s :
  P s → Forall Q xs →
  (∀ s x, P s → Q x → ∃ s', f s x = Ok s' ∧ P s') →
  ∃ s', foldM f s xs = Ok s' ∧ P s'.
Proof.
  intros Hs Hxs Hstep. revert s Hs.
  induction Hxs as [|x xs Hx _ IH]; intros s Hs; simpl; [eauto|].
  destruct (Hstep s x Hs Hx) as (s1 & -> & Hs1). simpl. by apply IH.
Qed.

Lemma triple_ok_inv c :
  triple_ok c = true → py_hashable c.1.1 = true ∧ is_Some (as_int c.1.2).
Proof.
  unfold triple_ok. intros H. apply andb_true_iff in H as [H1 H2].
  by apply bool_decide_eq_true in H2.
Qed.

Lemma link_ok_inv l :
  link_ok l = true →
  ∃ lid src slot dst ds ty,
    l = VList [lid; src; slot; dst; ds; ty]
    ∧ py_hashable lid = true ∧ triple_ok (src, slot, ty) = true
    ∧ py_hashable dst = true.
Proof.
  destruct l as [| | | |fs| |]; try discriminate.
  destruct fs as [|lid [|src [|slot [|dst [|ds [|ty [|? ?]]]]]]]; try discriminate.
  simpl. intros H. apply andb_true_iff in H as [H Hd].
  apply andb_true_iff in H as [Hl Ht]. by exists lid, src, slot, dst, ds, ty.
Qed.

Lemma rewrite_origin_total c l :
  link_ok l = true → triple_ok c = true →
  ∃ l', rewrite_origin c l = Ok l' ∧ link_ok l' = true.
Proof.
  intros Hl Hc.
  apply link_ok_inv in Hl as (lid & src & slot & dst & ds & ty & -> & Hh & _ & Hd).
  destruct c as [[a b] t]. eexists. split; [reflexivity|].
  simpl. by rewrite Hh, Hc, Hd.
Qed.

Lemma node_ok_name n :
  node_ok n = true →
  ∃ name, bound_name n = Ok name ∧ py_hashable name = true.
Proof.
  intros H. apply node_ok_inv in H as (nd & nid & -> & _ & _ & Hw & _ & _).
  unfold bound_name, widgets_ok in *. simpl.
  destruct (dict_get nd "widgets_values") as [wv|]; simpl; [|by exists VNone].
  destruct (truthy wv); [|by exists VNone].
  destruct wv as [| | | |[|name ?]| |]; try discriminate. by exists name.
Qed.

Section totality.
Variables nodes_by_id link_map : pdict nat.
Variable name_to_source : pdict triple.
Variables ns0 ls0 : list value.

Hypothesis nodes_by_id_range :
  ∀ x j, pdict_get nodes_by_id x = Some j → (j < length ns0)%nat.
Hypothesis link_map_range :
  ∀ x j, pdict_get link_map x = Some j → (j < length ls0)%nat.

Definition nodes_fit (ns : list value) : Prop :=
  length ns = length ns0 ∧ Forall (λ n, node_ok n = true) ns.

Definition links_fit (ls : list value) : Prop :=
  length ls = length ls0 ∧ Forall (λ l, link_ok l = true) ls.

#[local] Arguments set_port_links : simpl never.

Lemma nodes_fit_insert ns j n :
  nodes_fit ns → node_ok n = true → nodes_fit (<[j := n]> ns).
Proof.
  intros [Hlen Hall] Hn. split; [by rewrite length_insert|].
  by apply Forall_insert.
Qed.

Lemma add_output_link_total ns a b x :
  nodes_fit ns → py_hashable a = true → is_Some (as_int b) →
  py_hashable x = true →
  ∃ ns', add_output_link nodes_by_id ns a b x = Ok ns' ∧ nodes_fit ns'.
Proof.
  intros Hfit Ha [z Hz] Hx. unfold add_output_link, pdict_lookup.
  rewrite Ha. simpl.
  destruct (pdict_get nodes_by_id a) as [j|] eqn:Ej; [|eauto].
  pose proof Hfit as [Hlen Hall].
  assert (node_ok (ns !!! j) = true) as Hnode.
  { apply Forall_lookup_total_1; [done|]. rewrite Hlen. by eapply nodes_by_id_range. }
  pose proof Hnode as Hnode'.
  apply node_ok_inv in Hnode' as (nd & nid & Hnd & _ & _ & _ & _ & Ho).
  rewrite Hnd.
  destruct (outputs_ok_inv nd Ho) as (ps & -> & _ & Hps & _). simpl.
  unfold slot_in_range. rewrite Hz.
  destruct (z <? 0) eqn:Eneg; simpl; [by eauto|].
  destruct (z <? Z.of_nat (length ps)) eqn:Elt; simpl; [|by eauto].
  apply Z.ltb_lt in Elt. apply Z.ltb_ge in Eneg.
  destruct (lookup_lt_is_Some_2 ps (Z.to_nat z)) as [p Hp]; [lia|].
  rewrite Hp. simpl.
  assert (port_ok p = true) as Hpok.
  { rewrite forallb_forall in Hps. apply Hps. rewrite <- list_elem_of_In.
    by eapply list_elem_of_lookup_2. }
  apply port_ok_inv in Hpok as (pd & -> & [Hn|(ids & Hl & Hh)]); simpl.
  - rewrite Hn. simpl. eexists. split; [done|].
    apply nodes_fit_insert; [done|].
    apply set_port_links_ok; [first [exact Hnode | by rewrite <- Hnd]|]. simpl. by rewrite Hx.
  - rewrite Hl. simpl. destruct (existsb (py_eq x) ids); [by eauto|].
    eexists. split; [done|]. apply nodes_fit_insert; [done|].
    apply set_port_links_ok; [first [exact Hnode | by rewrite <- Hnd]|]. by apply forallb_app_1.
Qed.

Lemma remove_output_link_total ns nid k x :
  nodes_fit ns → py_hashable nid = true →
  ∃ ns', remove_output_link nodes_by_id ns nid k x = Ok ns' ∧ nodes_fit ns'.
Proof.
  intros Hfit Hh. unfold remove_output_link, pdict_lookup.
  rewrite Hh. simpl.
  destruct (pdict_get nodes_by_id nid) as [j|] eqn:Ej; [|eauto].
  pose proof Hfit as [Hlen Hall].
  assert (node_ok (ns !!! j) = true) as Hnode.
  { apply Forall_lookup_total_1; [done|]. rewrite Hlen. by eapply nodes_by_id_range. }
  pose proof Hnode as Hnode'.
  apply node_ok_inv in Hnode' as (nd & nid' & Hnd & _ & _ & _ & _ & Ho).
  rewrite Hnd.
  destruct (outputs_ok_inv nd Ho) as (ps & -> & _ & Hps & _). simpl.
  destruct (Z.of_nat k <? Z.of_nat (length ps)) eqn:Elt; [|by eauto].
  apply Z.ltb_lt in Elt.
  destruct (lookup_lt_is_Some_2 ps k) as [p Hp]; [lia|].
  rewrite Hp. simpl.
  assert (port_ok p = true) as Hpok.
  { rewrite forallb_forall in Hps. apply Hps. rewrite <- list_elem_of_In.
    by eapply list_elem_of_lookup_2. }
  apply port_ok_inv in Hpok as (pd & -> & [Hn|(ids & Hl & Hids)]); simpl.
  - destruct (default VNone (dict_get pd "links")); try discriminate. eauto.
  - rewrite Hl. simpl. destruct (existsb (py_eq x) ids); [|by eauto].
    eexists. split; [done|]. apply nodes_fit_insert; [done|].
    apply set_port_links_ok; [first [exact Hnode | by rewrite <- Hnd]|]. by apply forallb_remove_first.
Qed.
Definition fits (st : state) : Prop :=
  nodes_fit (st_nodes st) ∧ links_fit (st_links st).

Lemma rewire_link_total name c i k st lid :
  fits st → triple_ok c = true → py_hashable lid = true →
  (i < length ns0)%nat →
  ∃ st', rewire_link nodes_by_id link_map name c i k st lid = Ok st' ∧ fits st'.
Proof.
  intros [Hn [Hllen Hl]] Hc Hlid Hi. unfold rewire_link, pdict_lookup.
  rewrite Hlid. cbn [bind].
  destruct (pdict_get link_map lid) as [p|] eqn:Ep; [|by exists st].
  assert (p < length (st_links st))%nat as Hp.
  { rewrite Hllen. by eapply link_map_range. }
  assert (link_ok (st_links st !!! p) = true) as Hlink.
  { by apply Forall_lookup_total_1. }
  destruct (rewrite_origin_total c _ Hlink Hc) as (l' & Hro & Hl').
  assert (truthy (st_links st !!! p) = true) as ->.
  { apply link_ok_inv in Hlink as (? & ? & ? & ? & ? & ? & -> & _). done. }
  cbn [negb]. rewrite Hro. cbn [bind].
  apply triple_ok_inv in Hc as [Ha Hb].
  destruct (add_output_link_total _ _ _ _ Hn Ha Hb Hlid) as (ns1 & -> & Hn1).
  cbn [bind].
  assert (node_ok (ns1 !!! i) = true) as Hnode.
  { destruct Hn1 as [Hlen1 Hall1]. apply Forall_lookup_total_1; [done|lia]. }
  apply node_ok_inv in Hnode as (nd & nid & -> & Hid & Hh & _).
  unfold py_getitem_key. rewrite Hid. cbn [bind].
  destruct (remove_output_link_total _ nid k lid Hn1 Hh) as (ns2 & -> & Hn2).
  cbn [bind]. eexists. split; [done|]. split; [done|]. simpl.
  split; [by rewrite length_insert|]. by apply Forall_insert.
Qed.

Lemma node_fit_outputs ns i :
  nodes_fit ns → (i < length ns0)%nat →
  ∃ ps, py_get_default (ns !!! i) "outputs" (VList []) = Ok (VList ps)
        ∧ Forall (λ p, port_ok p = true) ps.
Proof.
  intros [Hlen Hall] Hi.
  assert (node_ok (ns !!! i) = true) as Hnode.
  { apply Forall_lookup_total_1; [done|lia]. }
  apply node_ok_inv in Hnode as (nd & nid & -> & _ & _ & _ & _ & Ho).
  destruct (outputs_ok_inv nd Ho) as (ps & -> & _ & Hps & _).
  exists ps. split; [done|]. apply List.Forall_forall.
  by rewrite forallb_forall in Hps.
Qed.

Lemma rewire_port_total name c i st k :
  fits st → triple_ok c = true → (i < length ns0)%nat →
  ∃ st', rewire_port nodes_by_id link_map name c i st k = Ok st' ∧ fits st'.
Proof.
  intros Hst Hc Hi. unfold rewire_port.
  destruct (node_fit_outputs _ i (proj1 Hst) Hi) as (ps & -> & Hps).
  cbn [bind py_iter].
  destruct (ps !! k) as [out|] eqn:Ek; [|by exists st].
  assert (port_ok out = true) as Hout.
  { by eapply Forall_lookup in Hps. }
  apply port_ok_snapshot in Hout as (ids & -> & Hids). cbn [bind].
  apply (foldM_total fits (λ x, py_hashable x = true)); [done| |].
  - apply List.Forall_forall. by rewrite forallb_forall in Hids.
  - intros s x Hs Hx. by apply rewire_link_total.
Qed.

Hypothesis name_to_source_ok :
  ∀ x c, pdict_get name_to_source x = Some c → triple_ok c = true.

Lemma get_node_total st i :
  fits st → (i < length ns0)%nat →
  ∃ st', get_node nodes_by_id link_map name_to_source st i = Ok st' ∧ fits st'.
Proof.
  intros Hst Hi. unfold get_node.
  assert (node_ok (st_nodes st !!! i) = true) as Hnode.
  { destruct Hst as [[Hlen Hall] _]. apply Forall_lookup_total_1; [done|lia]. }
  destruct (node_ok_name _ Hnode) as (name & Hname & Hh).
  destruct (node_fit_outputs _ i (proj1 Hst) Hi) as (ps & Hout & Hps).
  rewrite Hname, Hout.
  apply node_ok_inv in Hnode as (nd & nid & -> & Hid & _).
  cbn [py_get py_get_default bind].
  destruct (negb _); [by exists st|].
  unfold pdict_lookup. rewrite Hh. cbn [bind].
  destruct (pdict_get name_to_source name) as [c|] eqn:Ec.
  - cbn [py_iter bind].
    apply (foldM_total fits (λ _, True)); [done| |].
    + apply List.Forall_forall. done.
    + intros s k Hs _. apply rewire_port_total; [done| |done].
      by eapply name_to_source_ok.
  - unfold py_getitem_key. rewrite Hid. cbn [bind]. eexists. split; [done|].
    done.
Qed.

End totality.


Lemma get_pass_total nbi lm idx ns ls :
  (∀ x j, pdict_get nbi x = Some j → (j < length ns)%nat) →
  (∀ x j, pdict_get lm x = Some j → (j < length ls)%nat) →
  (∀ x c, pdict_get idx x = Some c → triple_ok c = true) →
  Forall (λ n, node_ok n = true) ns → Forall (λ l, link_ok l = true) ls →
  ∃ st, get_pass nbi lm idx ns ls = Ok st ∧ fits ns ls st.
Proof.
  intros Hnr Hlr Hidx Hns Hls. unfold get_pass.
  apply (foldM_total (fits ns ls) (λ i, (i < length ns)%nat)).
  - by repeat split.
  - apply List.Forall_forall. intros i Hi. apply in_seq in Hi. lia.
  - intros st i Hst Hi. by eapply get_node_total.
Qed.

(** *** The SetNode pass on a well-formed graph *)

Lemma set_candidate_total lm ls n :
  (∀ x j, pdict_get lm x = Some j → (j < length ls)%nat) →
  Forall (λ l, link_ok l = true) ls → node_ok n = true →
  ∃ r, set_candidate lm ls n = Ok r
       ∧ match r with
         | Some (name, c) => py_hashable name = true ∧ triple_ok c = true
         | None => True
         end.
Proof.
  intros Hr Hls Hn. destruct (node_ok_name _ Hn) as (name & Hname & Hh).
  apply node_ok_inv in Hn as (nd & nid & -> & Hid & _ & _ & Hi & _).
  unfold set_candidate. rewrite Hname. cbn [py_get py_get_default bind].
  destruct (negb (py_eq _ _)); [by exists None|].
  destruct (negb (truthy name)); [by exists None|].
  unfold inputs_ok in Hi. unfold py_getitem_key.
  destruct (dict_get nd "inputs") as [ins|] eqn:Ei; cbn [default from_option id];
    [|cbn [truthy negb]; by exists None].
  destruct (truthy ins); cbn [negb]; [|by exists None].
  destruct ins as [| | | |[|[| | | | | |inp] ?]| |]; try discriminate.
  cbn [bind py_getitem_idx lookup list_lookup py_get py_get_default].
  destruct (dict_get inp "link") as [lk|] eqn:Elk;
    cbn [default from_option id is_none]; [|by exists None].
  destruct (is_none lk); [by exists None|].
  unfold pdict_lookup. rewrite Hi. cbn [bind].
  destruct (pdict_get lm lk) as [p|] eqn:Ep; [|by exists None].
  assert (link_ok (ls !!! p) = true) as Hlink.
  { apply Forall_lookup_total_1; [done|]. by eapply Hr. }
  apply link_ok_inv in Hlink as (lid & src & slot & dst & ds & ty & -> & _ & Ht & _).
  simpl. by exists (Some (name, (src, slot, ty))).
Qed.

Lemma record_binding_total acc n name c :
  (∀ x c, pdict_get acc.1 x = Some c → triple_ok c = true) →
  node_ok n = true → py_hashable name = true → triple_ok c = true →
  ∃ acc', record_binding acc n name c = Ok acc'
          ∧ ∀ x c, pdict_get acc'.1 x = Some c → triple_ok c = true.
Proof.
  intros Hacc Hn Hh Hc. unfold record_binding, pdict_lookup.
  rewrite Hh. cbn [bind].
  assert (∀ x c', pdict_get (pdict_set acc.1 name c) x = Some c' →
                  triple_ok c' = true) as Hset.
  { intros x c'. rewrite pdict_get_set.
    destruct (py_eq name x); [by intros [= <-]|apply Hacc]. }
  destruct (pdict_get acc.1 name) as [pv|]; [|by eexists].
  destruct (negb _); [|by eexists].
  apply node_ok_inv in Hn as (nd & nid & -> & Hid & _).
  unfold py_getitem_key. rewrite Hid. cbn [bind]. by eexists.
Qed.

Lemma set_pass_total lm ns ls :
  (∀ x j, pdict_get lm x = Some j → (j < length ls)%nat) →
  Forall (λ n, node_ok n = true) ns → Forall (λ l, link_ok l = true) ls →
  ∃ r, set_pass lm ns ls = Ok r
       ∧ ∀ x c, pdict_get r.1 x = Some c → triple_ok c = true.
Proof.
  intros Hr Hns Hls. unfold set_pass.
  apply (foldM_total
           (λ acc : pdict triple * list value,
              ∀ x c, pdict_get acc.1 x = Some c → triple_ok c = true)
           (λ n, node_ok n = true)); [done|done|].
  intros acc n Hacc Hn. unfold set_node.
  destruct (set_candidate_total lm ls n Hr Hls Hn) as ([[name c]|] & -> & Hc);
    cbn [bind]; [|by exists acc].
  destruct Hc as [Hh Hc]. by apply record_binding_total.
Qed.

(** *** Pruning a well-formed graph *)

Lemma prune_total ns ls :
  Forall (λ n, node_ok n = true) ns → Forall (λ l, link_ok l = true) ls →
  ∃ r, prune ns ls = Ok r.
Proof.
  intros Hns Hls. unfold prune.
  destruct (foldM_total (λ _, True) (λ n, node_ok n = true) drop_node ns
              ([], []) I Hns) as (r & -> & _).
  { intros acc n _ Hn.
    apply node_ok_inv in Hn as (nd & nid & -> & Hid & Hh & _).
    unfold drop_node, is_routing, py_getitem_key. cbn [py_get py_get_default bind].
    rewrite Hid. cbn [bind]. rewrite Hh. destruct (_ || _); by eexists. }
  cbn [bind].
  destruct (foldM_total (λ _, True) (λ l, link_ok l = true) (drop_link r.2) ls
              [] I Hls) as (k & -> & _); [|by eexists].
  intros keep l _ Hl.
  apply link_ok_inv in Hl as (lid & src & slot & dst & ds & ty & -> & _ & Ht & Hd).
  apply triple_ok_inv in Ht as [Hs _]. simpl in Hs.
  unfold drop_link, in_dropped. simpl. rewrite Hs, Hd. simpl.
  destruct (existsb (py_eq src) r.2); simpl; [by eexists|].
  destruct (existsb (py_eq dst) r.2); by eexists.
Qed.

(** *** The whole call *)

Lemma graph_ok_inv d :
  graph_ok d = true →
  ∃ ns ls,
    dict_get d "nodes" = Some (VList ns) ∧ dict_get d "links" = Some (VList ls)
    ∧ Forall (λ n, node_ok n = true) ns ∧ Forall (λ l, link_ok l = true) ls
    ∧ report_slot_ok d = true.
Proof.
  unfold graph_ok. intros H.
  destruct (dict_get d "nodes") as [[| | | |ns| |]|]; try discriminate.
  destruct (dict_get d "links") as [[| | | |ls| |]|]; try discriminate.
  apply andb_true_iff in H as [H Hrep]. apply andb_true_iff in H as [Hns Hls].
  exists ns, ls. rewrite forallb_forall in Hns, Hls.
  repeat split; try done; by apply List.Forall_forall.
Qed.

Lemma rewire_total d drop_setget :
  graph_ok d = true → ∃ out, rewire d drop_setget = Ok out.
Proof.
  intros H. apply graph_ok_inv in H as (ns & ls & En & El & Hns & Hls & Hrep).
  destruct (build_index_Ok node_key ns) with (i := 0%nat) (acc := @nil (value * nat))
    as [nbi Hnbi].
  { eapply Forall_impl; [|exact Hns]. intros n Hn.
    apply node_ok_inv in Hn as (nd & nid & -> & Hid & Hh & _).
    exists nid. unfold node_key, py_getitem_key. by rewrite Hid. }
  destruct (build_index_Ok link_key ls) with (i := 0%nat) (acc := @nil (value * nat))
    as [lm Hlm].
  { eapply Forall_impl; [|exact Hls]. intros l Hl.
    apply link_ok_inv in Hl as (lid & ? & ? & ? & ? & ? & -> & Hh & _).
    by exists lid. }
  assert (∀ x j, pdict_get nbi x = Some j → (j < length ns)%nat) as Hnr.
  { intros x j Hj.
    destruct (build_index_sound _ _ _ _ _ Hnbi Hj) as (n & _ & Hn & _).
    by eapply lookup_lt_Some. }
  assert (∀ x j, pdict_get lm x = Some j → (j < length ls)%nat) as Hlr.
  { intros x j Hj.
    destruct (build_index_sound _ _ _ _ _ Hlm Hj) as (l & _ & Hl & _).
    by eapply lookup_lt_Some. }
  destruct (set_pass_total lm ns ls Hlr Hns Hls) as (r & Hset & Hidx).
  destruct (get_pass_total nbi lm r.1 ns ls Hnr Hlr Hidx Hns Hls)
    as (st & Hget & [[_ Hns1] [_ Hls1]]).
  unfold rewire, rewrite_pass, py_getitem_key. rewrite En, El.
  cbn [bind py_iter]. rewrite Hnbi. cbn [bind]. rewrite Hlm. cbn [bind].
  rewrite Hset. cbn [bind]. rewrite Hget. cbn [bind].
  unfold store_elements. rewrite En.
  rewrite dict_get_set_ne by done. rewrite El. cbn [st_nodes st_links].
  assert (∀ wf, report_slot_ok wf = true →
            ∃ out, (wf <- attach_report wf (st_rewired st) (st_skipped st)
                            (t_conflicts
                               {| t_nodes_by_id := nbi; t_link_map := lm;
                                  t_name_to_source := r.1;
                                  t_conflicts := r.2 |});;
                    Ok (VDict wf)) = Ok out) as Hrepd.
  { intros wf Hwf.
    destruct (attach_report_total wf (st_rewired st) (st_skipped st) r.2 Hwf)
      as [wf' Hwf'].
    cbn [t_conflicts]. rewrite Hwf'. by eexists. }
  destruct drop_setget.
  - destruct (prune_total _ _ Hns1 Hls1) as [pr ->]. cbn [bind].
    apply Hrepd. unfold report_slot_ok. by rewrite !dict_get_set_ne.
  - cbn [bind]. apply Hrepd. unfold report_slot_ok.
    by rewrite !dict_get_set_ne.
Qed.

Lemma key_fault_None key x :
  key_fault key x = None → ∃ k, key x = Ok k ∧ py_hashable k = true.
Proof.
  unfold key_fault. destruct (key x) as [k|]; [|done].
  destruct (py_hashable k) eqn:E; [eauto|done].
Qed.

Lemma build_index_fault key pre x post e :
  Forall (λ y, key_fault key y = None) pre →
  key_fault key x = Some e →
  ∀ i acc, build_index key i (pre ++ x :: post) acc = Raise e.
Proof.
  intros Hpre Hx. induction Hpre as [|y pre Hy _ IH]; intros i acc; simpl.
  - unfold key_fault in Hx. destruct (key x) as [k|e']; simpl.
    + destruct (py_hashable k); [done|]. by injection Hx as <-.
    + by injection Hx as <-.
  - apply key_fault_None in Hy as (k & Hk & Hh). rewrite Hk. simpl.
    rewrite Hh. apply IH.
Qed.

(** The call on a dict: the copy, then the precondition check. *)
Lemma convert_dict limit d drop_setget :
  convert_setget_to_hardlines limit (VDict d) drop_setget =
  if (depth (VDict d) <=? limit)%nat then
    match dict_get d "nodes", dict_get d "links" with
    | Some _, Some _ => rewire d drop_setget
    | _, _ => Raise (ValueError NotAWorkflow)
    end
  else Raise RecursionError.
Proof.
  unfold convert_setget_to_hardlines. rewrite deepcopy_depth.
  destruct (depth (VDict d) <=? limit)%nat; [|done].
  cbn [py_contains py_hashable bind].
  destruct (dict_get d "nodes") as [ns|]; [|done].
  destruct (dict_get d "links") as [ls|]; done.
Qed.

Lemma convert_fits limit d drop_setget :
  (depth (VDict d) ≤ limit)%nat →
  convert_setget_to_hardlines limit (VDict d) drop_setget =
  match dict_get d "nodes", dict_get d "links" with
  | Some _, Some _ => rewire d drop_setget
  | _, _ => Raise (ValueError NotAWorkflow)
  end.
Proof. intros H. rewrite convert_dict. by apply Nat.leb_le in H as ->. Qed.

(** C3 (amended).  Called on a graph object nested more deeply than
    [deepcopy] can follow, the function raises [RecursionError].  Otherwise
    it raises the missing-collection [ValueError] exactly when the object
    has no [nodes] or no [links] entry.  It returns a graph when [nodes] and
    [links] are lists, every node is an object with a hashable [id] whose
    [widgets_values], [inputs] and [outputs], where present, have the shape
    the passes read, every link has six fields with hashable ids and an
    integer source slot, and the report slot, if any, is an object: nodes
    without [widgets_values], [inputs], [outputs] or [type] and link ids
    that map to no link are passed over.  A node without an [id] is not:
    the first node for which [n['id']] raises ([KeyError] for a dict without
    the key) or is unhashable makes the call raise that exception. *)
Theorem raises_iff_collection_missing limit d drop_setget :
  ((limit < depth (VDict d))%nat →
   convert_setget_to_hardlines limit (VDict d) drop_setget
   = Raise RecursionError)
  ∧ (convert_setget_to_hardlines limit (VDict d) drop_setget
       = Raise (ValueError NotAWorkflow)
     ↔ (depth (VDict d) ≤ limit)%nat
       ∧ (dict_get d "nodes" = None ∨ dict_get d "links" = None))
  ∧ ((depth (VDict d) ≤ limit)%nat → graph_ok d = true →
     ∃ out, convert_setget_to_hardlines limit (VDict d) drop_setget = Ok out)
  ∧ ((depth (VDict d) ≤ limit)%nat →
     ∀ pre n post e,
       dict_get d "nodes" = Some (VList (pre ++ n :: post)) →
       is_Some (dict_get d "links") →
       Forall (λ x, key_fault node_key x = None) pre →
       key_fault node_key n = Some e →
       convert_setget_to_hardlines limit (VDict d) drop_setget = Raise e)
  ∧ ∀ n, key_fault node_key n = Some KeyError
         ↔ ∃ nd, n = VDict nd ∧ dict_get nd "id" = None.
Proof.
  split; [|split; [|split; [|split]]].
  - intros H. rewrite convert_dict. by apply Nat.leb_gt in H as ->.
  - rewrite convert_dict.
    destruct (depth (VDict d) <=? limit)%nat eqn:E.
    + apply Nat.leb_le in E.
      destruct (dict_get d "nodes") as [ns|]; [|by split; [split; [|left]|]].
      destruct (dict_get d "links") as [ls|]; [|by split; [split; [|right]|]].
      split; [|by intros [_ [|]]]. intros H. by apply not_nw_rewire in H.
    + apply Nat.leb_gt in E. split; [done|]. intros [H _]. lia.
  - intros Hfit H. rewrite (convert_fits _ _ _ Hfit).
    pose proof (rewire_total d drop_setget H) as Hout.
    apply graph_ok_inv in H as (ns & ls & -> & -> & _). done.
  - intros Hfit pre n post e Hn [ls Hl] Hpre Hbad.
    rewrite (convert_fits _ _ _ Hfit), Hn, Hl.
    unfold rewire, rewrite_pass, py_getitem_key. rewrite Hn. simpl.
    by rewrite (build_index_fault node_key pre n post e).
  - intros n. unfold key_fault, node_key, py_getitem_key. split.
    + destruct n as [| | | | | |nd]; try done.
      destruct (dict_get nd "id") as [k|] eqn:E; [|by eauto].
      by destruct (py_hashable k).
    + by intros (nd & -> & ->).
Qed.

Lemma raises_iff_collection_missing_witness :
  graph_ok g_sparse = true
  ∧ ∃ out, convert_setget_to_hardlines 64 (VDict g_sparse) true = Ok out.
Proof.
  split; [by vm_compute|].
  apply (raises_iff_collection_missing 64 g_sparse true);
    [vm_compute; lia|by vm_compute].
Defined.

(** ** C4: the caller's objects *)

Section frame.
Import Store.
Variable n0 : nat.

Lemma sound_mono {A} (P Q : A → Prop) (m : M A) :
  (∀ a, P a → Q a) → sound n0 P m → sound n0 Q m.
Proof.
  intros HPQ Hm h Hh. destruct (Hm h Hh) as (Hc & Hk & HP). eauto.
Qed.

Lemma sound_ret {A} (P : A → Prop) a : P a → sound n0 P (ret a).
Proof.
  intros Ha h Hh. split; [done|]. split; [done|]. by intros a' [= <-].
Qed.

Lemma sound_fail {A} (P : A → Prop) f : sound n0 P (fail f).
Proof. intros h Hh. split; [done|]. split; done. Qed.

Lemma sound_bind {A B} (P : A → Prop) (Q : B → Prop) (m : M A) (f : A → M B) :
  sound n0 P m → (∀ a, P a → sound n0 Q (f a)) → sound n0 Q (mbind m f).
Proof.
  intros Hm Hf h Hh. unfold mbind.
  destruct (Hm h Hh) as (Hc & Hk & HP).
  destruct (m h) as [[a|e] h1]; simpl in *; [|done].
  destruct (Hf a (HP a eq_refl) h1 Hc) as (Hc2 & Hk2 & HQ).
  split; [done|]. split; [|done].
  intros l Hl. rewrite (Hk2 l Hl). by apply Hk.
Qed.

Lemma sound_pure {A} (P : A → Prop) (f : heap → A + fault) :
  (∀ h a, f h = inl a → P a) → sound n0 P (λ h, (f h, h)).
Proof. intros Hf h Hh. split; [done|]. split; [done|]. simpl. apply Hf. Qed.

Lemma sound_alloc o : fresh n0 o → sound n0 (fresh n0) (alloc o).
Proof.
  intros Ho h [Hlen Hh]. unfold alloc. simpl. split; [split|split].
  - rewrite length_app. lia.
  - intros l o' Hl Hlook. apply lookup_app_Some in Hlook as [Hlook|[_ Hlook]].
    + by eapply Hh.
    + apply list_lookup_singleton_Some in Hlook as [_ <-]. done.
  - intros l Hl. apply lookup_app_l. lia.
  - intros a [= <-]. exact Hlen.
Qed.

Lemma sound_deref_any l : sound n0 (λ _, True) (deref l).
Proof.
  intros h Hh. unfold deref. destruct (h !! l); (split; [done|]); split; done.
Qed.

Lemma sound_deref l : (n0 ≤ l)%nat → sound n0 (fresh n0) (deref l).
Proof.
  intros Hl h Hh. unfold deref.
  destruct (h !! l) as [o|] eqn:E; (split; [done|]); (split; [done|]);
    [|done].
  intros a [= <-]. destruct Hh as [_ Hh]. by eapply Hh.
Qed.

Lemma sound_store (P : unit → Prop) l o :
  (n0 ≤ l)%nat → fresh n0 o → P tt → sound n0 P (store l o).
Proof.
  intros Hl Ho HP h [Hlen Hh]. unfold store. simpl. split; [split|split].
  - by rewrite length_insert.
  - intros l' o' Hl' Hlook.
    destruct (decide (l = l')) as [<-|Hne].
    + apply list_lookup_insert_Some in Hlook as [(_ & <- & _)|[? _]]; done.
    + rewrite list_lookup_insert_ne in Hlook by done. by eapply Hh.
  - intros l' Hl'. apply list_lookup_insert_ne. lia.
  - by intros [] _.
Qed.

Lemma sound_mfold {A St} (I : St → Prop) (Q : A → Prop)
    (f : St → A → M St) s xs :
  (∀ s x, I s → Q x → sound n0 I (f s x)) → I s → Forall Q xs →
  sound n0 I (mfold f s xs).
Proof.
  intros Hf Hs Hxs. revert s Hs.
  induction Hxs as [|x xs Hx _ IH]; intros s Hs; simpl.
  - by apply sound_ret.
  - eapply sound_bind; [by apply Hf|]. intros s' Hs'. by apply IH.
Qed.

Lemma sound_for_seq {St} (I : St → Prop) (Q : hval → Prop)
    (body : St → nat → hval → M St) i s xs :
  (∀ s i x, I s → Q x → sound n0 I (body s i x)) → I s → Forall Q xs →
  sound n0 I (for_seq body i s xs).
Proof.
  intros Hf Hs Hxs. revert i s Hs.
  induction Hxs as [|x xs Hx _ IH]; intros i s Hs; simpl.
  - by apply sound_ret.
  - eapply sound_bind; [by apply Hf|]. intros s' Hs'. by apply IH.
Qed.

Lemma sound_for_list {St} (I : St → Prop)
    (body : St → nat → hval → M St) steps l i s :
  (n0 ≤ l)%nat →
  (∀ s i x, I s → fresh n0 x → sound n0 I (body s i x)) → I s →
  sound n0 I (for_list steps l i body s).
Proof.
  intros Hl Hf. revert i s.
  induction steps as [|steps IH]; intros i s Hs; simpl.
  - apply sound_fail.
  - eapply sound_bind; [by apply sound_deref|]. intros [xs|d] Ho.
    + destruct (xs !! i) as [x|] eqn:Ex; [|by apply sound_ret].
      eapply sound_bind; [|intros s' Hs'; by apply IH].
      apply Hf; [done|]. eapply (Forall_lookup_1 _ xs); [exact Ho|exact Ex].
    + apply sound_fail.
Qed.

(** Freshness of the data the operations build. *)

Lemma fresh_tuple xs : fresh n0 (HTuple xs) ↔ fresh n0 xs.
Proof.
  unfold fresh, fresh_hval, fresh_list. simpl.
  induction xs as [|x xs IH]; simpl.
  - split; [by constructor|done].
  - split.
    + intros [Hx Hxs]. constructor; [done|by apply IH].
    + intros Hall. inversion_clear Hall as [|? ? Hx Hxs].
      split; [done|by apply IH].
Qed.

Lemma fresh_tuple_intro xs : fresh n0 xs → fresh n0 (HTuple xs).
Proof. apply fresh_tuple. Qed.

Lemma fresh_tuple_elim xs : fresh n0 (HTuple xs) → fresh n0 xs.
Proof. apply fresh_tuple. Qed.

Lemma fresh_str_chars s : fresh n0 (str_chars s).
Proof.
  unfold str_chars. induction (code_points s); simpl; constructor; done.
Qed.

Lemma fresh_keys (d : list (string * hval)) :
  fresh n0 (map (λ kv, HStr kv.1) d).
Proof. induction d; simpl; constructor; done. Qed.

Lemma fresh_dict_get d k x :
  fresh n0 d → dict_get d k = Some x → fresh n0 x.
Proof.
  induction 1 as [|[k' v] d [_ Hv] _ IH]; simpl; [done|].
  destruct (String.eqb k' k); [by intros [= <-]|done].
Qed.

Lemma fresh_dict_set d k x :
  fresh n0 d → fresh n0 x → fresh n0 (dict_set d k x).
Proof.
  intros Hd Hx. induction Hd as [|[k' v] d [_ Hv] Hd IH]; simpl.
  - by repeat constructor.
  - destruct (String.eqb k' k); constructor; done.
Qed.

Lemma fresh_kdict_get {V} `{Fresh n0 V} (d : kdict V) k x :
  fresh n0 d → kdict_get d k = Some x → fresh n0 x.
Proof.
  induction 1 as [|[k' v] d [_ Hv] _ IH]; simpl; [done|].
  destruct (key_eq k' k); [by intros [= <-]|done].
Qed.

Lemma fresh_kdict_set {V} `{Fresh n0 V} (d : kdict V) k x :
  fresh n0 d → fresh n0 k → fresh n0 x → fresh n0 (kdict_set d k x).
Proof.
  intros Hd Hk Hx. induction Hd as [|[k' v] d [Hk' Hv] Hd IH]; simpl.
  - by repeat constructor.
  - destruct (key_eq k' k); constructor; done.
Qed.

Lemma fresh_lookup {A} `{Fresh n0 A} (xs : list A) i x :
  fresh n0 xs → xs !! i = Some x → fresh n0 x.
Proof. intros Hxs Hx. by eapply (Forall_lookup_1 _ xs). Qed.

Lemma fresh_snoc {A} `{Fresh n0 A} (xs : list A) x :
  fresh n0 xs → fresh n0 x → fresh n0 (xs ++ [x]).
Proof. intros Hxs Hx. apply Forall_app. split; [done|]. by constructor. Qed.

Lemma fresh_insert {A} `{Fresh n0 A} (xs : list A) i x :
  fresh n0 xs → fresh n0 x → fresh n0 (<[i := x]> xs).
Proof. intros Hxs Hx. by apply Forall_insert. Qed.

Lemma fresh_delete {A} `{Fresh n0 A} (xs : list A) i :
  fresh n0 xs → fresh n0 (delete i xs).
Proof. intros Hxs. by apply Forall_delete. Qed.

(** The operations of the interpreter write to fresh objects only. *)

Lemma safe_ret {A} `{Fresh n0 A} (a : A) : fresh n0 a → safe n0 (ret a).
Proof. apply sound_ret. Qed.

Lemma safe_fail {A} `{Fresh n0 A} f : safe n0 (fail (A := A) f).
Proof. apply sound_fail. Qed.

Lemma safe_raise {A} `{Fresh n0 A} e : safe n0 (raise (A := A) e).
Proof. apply sound_fail. Qed.

Lemma safe_bind {A B} `{Fresh n0 A, Fresh n0 B} (m : M A) (f : A → M B) :
  safe n0 m → (∀ a, fresh n0 a → safe n0 (f a)) → safe n0 (mbind m f).
Proof. apply sound_bind. Qed.

Lemma safe_view v : fresh n0 v → safe n0 (view v).
Proof.
  intros Hv. destruct v; simpl; try by apply safe_ret.
  - apply safe_ret. by apply fresh_tuple.
  - apply safe_bind; [by apply sound_deref|].
    intros [xs|d] Ho; by apply safe_ret.
Qed.

Lemma safe_alloc o : fresh n0 o → safe n0 (alloc o).
Proof. apply sound_alloc. Qed.

Lemma safe_store l o : (n0 ≤ l)%nat → fresh n0 o → safe n0 (store l o).
Proof. intros Hl Ho. by apply sound_store. Qed.

Lemma safe_pure {A} `{Fresh n0 A} (f : heap → A + fault) :
  (∀ a, fresh n0 a) → safe n0 (λ h, (f h, h)).
Proof. intros Ha. apply sound_pure. intros h a _. apply Ha. Qed.

Lemma safe_py_eq limit a b : safe n0 (py_eq limit a b).
Proof. by apply safe_pure. Qed.

Lemma safe_py_index limit x xs : safe n0 (py_index limit x xs).
Proof. apply safe_pure. by intros []. Qed.

Lemma safe_mfold {A St} `{Fresh n0 A, Fresh n0 St} (f : St → A → M St) s xs :
  (∀ s x, fresh n0 s → fresh n0 x → safe n0 (f s x)) →
  fresh n0 s → fresh n0 xs → safe n0 (mfold f s xs).
Proof. apply sound_mfold. Qed.

Ltac fresh_hyps :=
  repeat match goal with
         | H : @fresh _ (_ * _)%type _ _ |- _ => destruct H; cbn [fst snd] in *
         | H : fresh ?n (Some ?a) |- _ => change (fresh n a) in H
         | H : fresh _ (_ :: _) |- _ => inversion_clear H
         | H : Forall _ (_ :: _) |- _ => inversion_clear H
         | H : fresh _ (HTuple _) |- _ => apply fresh_tuple_elim in H
         | H : fresh _ (SList _ _) |- _ => destruct H
         | H : fresh _ (SDict _ _) |- _ => destruct H
         | H : _ ∧ _ |- _ => destruct H
         end.

Ltac fresh_goal :=
  cbn [fst snd tuple3];
  first
    [ assumption | exact I
    | apply Forall_nil_2
    | apply Forall_cons_2; fresh_goal
    | apply fresh_snoc; fresh_goal
    | apply fresh_tuple_intro; fresh_goal
    | apply fresh_insert; fresh_goal
    | apply fresh_delete; fresh_goal
    | apply fresh_dict_set; fresh_goal
    | apply fresh_kdict_set; fresh_goal
    | apply fresh_str_chars | apply fresh_keys
    | eapply fresh_dict_get; [|eassumption]; fresh_goal
    | eapply fresh_kdict_get; [|eassumption]; fresh_goal
    | eapply fresh_lookup; [|eassumption]; fresh_goal
    | split; fresh_goal
    | match goal with
      | |- fresh _ (match ?x with _ => _ end) => destruct x eqn:?
      end; fresh_goal
    | progress hnf; fresh_goal ].

Ltac fresh_tac := fresh_hyps; fresh_goal.

Ltac safe_step :=
  first
    [ apply safe_py_eq | apply safe_py_index | apply safe_view
    | apply safe_alloc | apply safe_store
    | apply safe_ret | apply safe_fail | apply safe_raise
    | apply safe_mfold; [intros ? ? ? ?| |]
    | match goal with
      | |- safe _ (match ?x with _ => _ end) => destruct x eqn:?
      end
    | apply safe_bind; [|intros ? ?] ].

Ltac safe_go := repeat safe_step; try solve [fresh_tac].

Lemma safe_truthy v : fresh n0 v → safe n0 (truthy v).
Proof. intros. unfold truthy. safe_go. Qed.

Lemma safe_py_iter v : fresh n0 v → safe n0 (py_iter v).
Proof. intros. unfold py_iter. safe_go. Qed.

Lemma safe_py_len v : fresh n0 v → safe n0 (py_len v).
Proof. intros. unfold py_len. safe_go. Qed.

Lemma safe_py_get_default v k dflt :
  fresh n0 v → safe n0 dflt → safe n0 (py_get_default v k dflt).
Proof.
  intros Hv Hd. unfold py_get_default.
  apply safe_bind; [by apply safe_view|]. intros sh Hsh.
  destruct sh; try apply safe_raise.
  apply safe_bind; [done|]. intros x Hx. apply safe_ret.
  destruct (dict_get d k) eqn:E; simpl; [|done]. fresh_tac.
Qed.

Lemma safe_py_get v k : fresh n0 v → safe n0 (py_get v k).
Proof. intros. apply safe_py_get_default; [done|by apply safe_ret]. Qed.

Lemma safe_py_getitem_key v k : fresh n0 v → safe n0 (py_getitem_key v k).
Proof. intros. unfold py_getitem_key. safe_go. Qed.

Lemma safe_py_getitem_idx v i : fresh n0 v → safe n0 (py_getitem_idx v i).
Proof. intros. unfold py_getitem_idx. safe_go. Qed.

Lemma safe_py_setitem_idx v i x :
  fresh n0 v → fresh n0 x → safe n0 (py_setitem_idx v i x).
Proof. intros. unfold py_setitem_idx. safe_go. Qed.

Lemma safe_py_setitem_key v k x :
  fresh n0 v → fresh n0 x → safe n0 (py_setitem_key v k x).
Proof. intros. unfold py_setitem_key. safe_go. Qed.

Lemma safe_py_setdefault v k dflt :
  fresh n0 v → safe n0 dflt → safe n0 (py_setdefault v k dflt).
Proof.
  intros Hv Hd. unfold py_setdefault.
  apply safe_bind; [by apply safe_view|]. intros sh Hsh.
  destruct sh; try apply safe_raise.
  apply safe_bind; [done|]. intros x Hx. safe_go.
Qed.

Lemma safe_py_append v x : fresh n0 v → fresh n0 x → safe n0 (py_append v x).
Proof. intros. unfold py_append. safe_go. Qed.

Lemma safe_py_contains limit c x :
  fresh n0 c → safe n0 (py_contains limit c x).
Proof. intros. unfold py_contains. safe_go. Qed.

Lemma safe_py_remove limit v x : fresh n0 v → safe n0 (py_remove limit v x).
Proof. intros. unfold py_remove. safe_go. Qed.

Lemma safe_py_unpack6 v : fresh n0 v → safe n0 (py_unpack6 v).
Proof.
  intros. unfold py_unpack6. apply safe_bind; [by apply safe_py_iter|].
  intros l Hl.
  destruct l as [|a [|b [|c [|d [|e [|f [|? ?]]]]]]]; try apply safe_raise.
  apply safe_ret. fresh_tac.
Qed.

Lemma safe_kdict_lookup {V} `{Fresh n0 V} (d : kdict V) k :
  fresh n0 d → safe n0 (kdict_lookup d k).
Proof.
  intros. unfold kdict_lookup. safe_go.
  destruct (kdict_get d k) eqn:E; fresh_tac.
Qed.

Lemma safe_py_for {St} `{Fresh n0 St} steps v
    (body : St → nat → hval → M St) s :
  fresh n0 v →
  (∀ s i x, fresh n0 s → fresh n0 x → safe n0 (body s i x)) →
  fresh n0 s → safe n0 (py_for steps v body s).
Proof.
  intros Hv Hbody Hs. unfold py_for.
  apply safe_bind; [by apply safe_view|]. intros sh Hsh.
  destruct sh; try apply safe_raise.
  - apply sound_for_seq with (Q := fresh n0); [done|done|].
    apply fresh_str_chars.
  - apply sound_for_seq with (Q := fresh n0); [done|done|exact Hsh].
  - destruct Hsh as [Hl _]. by apply sound_for_list.
  - apply sound_for_seq with (Q := fresh n0); [done|done|].
    apply fresh_keys.
Qed.

Ltac safe_op :=
  first
    [ apply safe_py_eq | apply safe_py_index | apply safe_view
    | apply safe_truthy | apply safe_py_iter | apply safe_py_len
    | apply safe_py_get | apply safe_py_get_default
    | apply safe_py_getitem_key | apply safe_py_getitem_idx
    | apply safe_py_setitem_idx | apply safe_py_setitem_key
    | apply safe_py_setdefault | apply safe_py_append
    | apply safe_py_contains | apply safe_py_remove | apply safe_py_unpack6
    | apply safe_kdict_lookup
    | apply safe_py_for; [|intros ? ? ? ? ?|] ].

Ltac safe_body := repeat first [safe_op | safe_step]; try solve [fresh_tac].

Lemma safe_bound_name n : fresh n0 n → safe n0 (bound_name n).
Proof. intros. unfold bound_name. safe_body. Qed.

Lemma safe_slot_in_range slot_index outs :
  fresh n0 outs → safe n0 (slot_in_range slot_index outs).
Proof. intros. unfold slot_in_range. safe_body. Qed.

Section passes_frame.
Variables limit steps : nat.
Variables nodes_by_id link_map : kdict hval.
Variable name_to_source : kdict triple.
Hypothesis nodes_by_id_fresh : fresh n0 nodes_by_id.
Hypothesis link_map_fresh : fresh n0 link_map.
Hypothesis name_to_source_fresh : fresh n0 name_to_source.

Lemma safe_add_output_link node_id slot_index link_id :
  fresh n0 link_id →
  safe n0 (add_output_link limit nodes_by_id node_id slot_index link_id).
Proof.
  intros. unfold add_output_link.
  repeat first [apply safe_slot_in_range | safe_op | safe_step];
    try solve [fresh_tac].
Qed.

Lemma safe_remove_output_link node_id slot_index link_id :
  safe n0 (remove_output_link limit nodes_by_id node_id slot_index link_id).
Proof. unfold remove_output_link. safe_body. Qed.

Lemma safe_set_node acc n :
  fresh n0 acc → fresh n0 n → safe n0 (set_node limit link_map acc n).
Proof.
  intros. unfold set_node.
  repeat first [apply safe_bound_name | safe_op | safe_step];
    try solve [fresh_tac].
Qed.

Lemma safe_rewire_link name c n k s lid :
  fresh n0 name → fresh n0 c → fresh n0 n → fresh n0 s → fresh n0 lid →
  safe n0 (rewire_link limit nodes_by_id link_map name c n k s lid).
Proof.
  intros. unfold rewire_link.
  repeat first [apply safe_add_output_link | apply safe_remove_output_link
               | safe_op | safe_step];
    try solve [fresh_tac].
Qed.

Lemma safe_rewire_port name c n s k out :
  fresh n0 name → fresh n0 c → fresh n0 n → fresh n0 s → fresh n0 out →
  safe n0 (rewire_port limit nodes_by_id link_map name c n s k out).
Proof.
  intros. unfold rewire_port.
  repeat first [apply safe_rewire_link | safe_op | safe_step];
    try solve [fresh_tac].
Qed.

Lemma safe_get_node s n :
  fresh n0 s → fresh n0 n →
  safe n0 (get_node limit steps nodes_by_id link_map name_to_source s n).
Proof.
  intros. unfold get_node.
  repeat first [apply safe_bound_name | apply safe_rewire_port
               | safe_op | safe_step];
    try solve [fresh_tac].
Qed.
End passes_frame.

Lemma safe_drop_node limit acc n :
  fresh n0 acc → fresh n0 n → safe n0 (drop_node limit acc n).
Proof. intros. unfold drop_node, is_routing. safe_body. Qed.

Lemma safe_drop_link dropped keep l :
  fresh n0 keep → fresh n0 l → safe n0 (drop_link dropped keep l).
Proof. intros. unfold drop_link, in_dropped. safe_body. Qed.

Lemma safe_prune limit steps wf :
  fresh n0 wf → safe n0 (prune limit steps wf).
Proof.
  intros. unfold prune.
  repeat first [apply safe_drop_node | apply safe_drop_link
               | safe_op | safe_step];
    try solve [fresh_tac].
Qed.

Lemma safe_set_report wf key v :
  fresh n0 wf → fresh n0 v → safe n0 (set_report wf key v).
Proof. intros. unfold set_report. safe_body. Qed.

Lemma safe_index_by key acc x :
  (∀ x, fresh n0 x → safe n0 (key x)) →
  fresh n0 acc → fresh n0 x → safe n0 (index_by key acc x).
Proof.
  intros Hkey ? ?. unfold index_by.
  apply safe_bind; [by apply Hkey|]. intros k Hk. safe_body.
Qed.

Lemma safe_rewire limit steps wf drop_setget :
  fresh n0 wf → safe n0 (rewire limit steps wf drop_setget).
Proof.
  intros. unfold rewire.
  repeat first [apply safe_index_by; [intros ? ?| |]
               | apply safe_set_node | apply safe_get_node
               | apply safe_prune | apply safe_set_report
               | safe_op | safe_step];
    try solve [fresh_tac].
Qed.

Lemma memo_get_fresh (memo : list (loc * hval)) l y :
  fresh n0 memo → memo_get memo l = Some y → fresh n0 y.
Proof.
  unfold memo_get. intros Hm Hy.
  destruct (List.find _ memo) as [[l' y']|] eqn:E; [|done].
  injection Hy as <-. apply find_some in E as [Hin _].
  apply (proj1 (List.Forall_forall _ memo) Hm) in Hin as [_ Hy]. exact Hy.
Qed.

(** The copy is made of fresh objects, whatever is copied. *)
Lemma safe_deepcopy fuel :
  ∀ memo v, fresh n0 memo → safe n0 (deepcopy fuel memo v).
Proof.
  induction fuel as [|fuel IH]; intros memo v Hm; simpl; [apply safe_fail|].
  destruct v as [| | | |xs|l]; try (apply safe_ret; fresh_tac).
  - apply safe_bind.
    + apply sound_mfold with (Q := λ _, True);
        [|fresh_tac|by apply Forall_true].
      intros acc a [Hacc Hmemo] _.
      apply safe_bind; [by apply IH|]. intros r Hr.
      apply safe_ret. fresh_tac.
    + intros r Hr. apply safe_ret. fresh_tac.
  - destruct (memo_get memo l) as [y|] eqn:E.
    { apply safe_ret. split; [by eapply memo_get_fresh|done]. }
    eapply (sound_bind (λ _, True)); [apply sound_deref_any|].
    intros [xs|d] _.
    + apply safe_bind; [apply safe_alloc; fresh_tac|]. intros y Hy.
      apply safe_bind; [|intros m Hm'; apply safe_ret; fresh_tac].
      apply sound_mfold with (Q := λ _, True);
        [|fresh_tac|by apply Forall_true].
      intros m a Hm' _.
      apply safe_bind; [by apply IH|]. intros r Hr.
      apply safe_bind; [apply safe_py_append; fresh_tac|]. intros _ _.
      apply safe_ret. fresh_tac.
    + apply safe_bind; [apply safe_alloc; fresh_tac|]. intros y Hy.
      apply safe_bind; [|intros m Hm'; apply safe_ret; fresh_tac].
      apply sound_mfold with (Q := λ _, True);
        [|fresh_tac|by apply Forall_true].
      intros m a Hm' _.
      apply safe_bind; [by apply IH|]. intros r Hr.
      apply safe_bind; [apply safe_py_setitem_key; fresh_tac|]. intros _ _.
      apply safe_ret. fresh_tac.
Qed.

Lemma safe_convert limit steps workflow drop_setget :
  safe n0 (convert_setget_to_hardlines limit steps workflow drop_setget).
Proof.
  unfold convert_setget_to_hardlines.
  apply safe_bind; [apply safe_deepcopy; fresh_tac|].
  intros r Hr. apply safe_rewire. fresh_tac.
Qed.
End frame.

(** What the caller can read of its own data is read from its own
    objects. *)
Lemma reify_kept fuel (h h' : list Store.obj) :
  (∀ l o, h !! l = Some o → h' !! l = Some o) →
  ∀ v t, Store.reify fuel h v = Some t → Store.reify fuel h' v = Some t.
Proof.
  intros Hk. induction fuel as [|fuel IH]; intros v t; simpl; [done|].
  assert (∀ xs, mapM (Store.reify fuel h) xs = mapM (Store.reify fuel h') xs
                ∨ mapM (Store.reify fuel h) xs = None) as Hlist.
  { induction xs as [|x xs [IHxs|IHxs]]; simpl; [by left| |].
    - destruct (Store.reify fuel h x) as [t'|] eqn:E; simpl; [|by right].
      rewrite (IH _ _ E). simpl. rewrite <- IHxs. by left.
    - right. destruct (Store.reify fuel h x); simpl; [|done].
      by rewrite IHxs. }
  assert (∀ d : list (string * Store.hval),
            mapM (λ kv, pair kv.1 <$> Store.reify fuel h kv.2) d
            = mapM (λ kv, pair kv.1 <$> Store.reify fuel h' kv.2) d
            ∨ mapM (λ kv, pair kv.1 <$> Store.reify fuel h kv.2) d = None)
    as Hdict.
  { induction d as [|[k x] d [IHd|IHd]]; simpl; [by left| |].
    - destruct (Store.reify fuel h x) as [t'|] eqn:E; simpl; [|by right].
      rewrite (IH _ _ E). simpl. rewrite <- IHd. by left.
    - right. destruct (Store.reify fuel h x); simpl; [|done].
      by rewrite IHd. }
  destruct v as [| | | |xs|l]; try done.
  - destruct (Hlist xs) as [<- | ->]; done.
  - destruct (h !! l) as [[xs|d]|] eqn:E; [| |done]; rewrite (Hk _ _ E).
    + destruct (Hlist xs) as [<- | ->]; done.
    + destruct (Hdict d) as [<- | ->]; done.
Qed.

(** C4.  Whatever the call does, returning or raising, every object that
    was in the store when it started is afterwards what it was: the function
    writes to the objects of its deep copy and to those it allocates.  Hence
    the caller reads the same workflow, nested lists included. *)
Theorem caller_graph_unchanged limit steps workflow drop_setget
    (h : list Store.obj) :
  let h' := (Store.convert_setget_to_hardlines limit steps workflow
               drop_setget h).2 in
  (∀ l o, h !! l = Some o → h' !! l = Some o)
  ∧ (∀ fuel t, Store.reify fuel h workflow = Some t →
               Store.reify fuel h' workflow = Some t).
Proof.
  intros h'.
  assert (∀ l o, h !! l = Some o → h' !! l = Some o) as Hkept.
  { assert (Store.closed (length h) h) as Hclosed.
    { split; [done|]. intros l o Hl Hlook. apply lookup_lt_Some in Hlook. lia. }
    destruct (safe_convert (length h) limit steps workflow drop_setget h
                Hclosed) as (_ & Hk & _).
    intros l o Hlook. unfold h'. rewrite Hk; [done|].
    by eapply lookup_lt_Some. }
  split; [done|]. intros fuel t. by apply reify_kept.
Qed.

Lemma caller_graph_unchanged_witness :
  Store.reify 64 Store.example_store.2 Store.example_store.1 = Some wf_example
  ∧ Store.reify 64
      (Store.convert_setget_to_hardlines 64 64 Store.example_store.1 true
         Store.example_store.2).2
      Store.example_store.1
    = Some wf_example.
Proof.
  split; [by vm_compute|].
  apply (caller_graph_unchanged 64 64 Store.example_store.1 true
           Store.example_store.2).
  by vm_compute.
Defined.

(** The store model computes what the tree model computes, and leaves the
    caller's workflow as it was, on the example workflows. *)
Lemma store_agrees_with_tree :
  Forall (λ w, ∀ b,
            Store.call (λ r, Store.convert_setget_to_hardlines 64 64 r b) w
            = (Some w, tree_outcome (convert_setget_to_hardlines 64 w b)))
    [wf_example; wf_chain; wf_self; wf_unresolved; wf_no_id; wf_prior_report;
     VDict g_sparse; VDict g_missing; VDict plain_graph; VList []; VDict [];
     VDict g_conflict; VDict g_rebind; VDict g_dup; VDict g_shared;
     VDict g_plain_no_id; VDict g_short_link].
Proof. repeat constructor; intros []; vm_compute; reflexivity. Qed.

(** They agree on when the copy fails: below, at and above the depth of the
    example. *)
Lemma store_agrees_near_the_limit :
  Forall (λ limit, ∀ b,
            Store.call (λ r, Store.convert_setget_to_hardlines limit 64 r b)
              wf_example
            = (Some wf_example,
               tree_outcome (convert_setget_to_hardlines limit wf_example b)))
    (seq 0 12)
  ∧ depth wf_example = 7%nat
  ∧ convert_setget_to_hardlines 6 wf_example false = Raise RecursionError.
Proof.
  split; [|by vm_compute].
  repeat constructor; intros []; vm_compute; reflexivity.
Qed.

(** Without the copy the same statements write to the caller's objects. *)
Lemma rewire_in_place_writes :
  (Store.call (λ r, Store.rewire 64 64 r false) wf_example).1
  ≠ Some wf_example.
Proof. vm_compute. discriminate. Qed.

(** * Further properties *)

(** ** What a call leaves alone *)

(** X1.  Without pruning the returned workflow has the nodes and the links
    of the input, one for one and in order: a node differs from the input's
    in its [outputs] at most and has as many ports, a link in its source
    node id, source slot and type tag at most. *)
Theorem rewiring_keeps_nodes_and_links limit workflow out :
  convert_setget_to_hardlines limit workflow false = Ok out →
  ∃ d d',
    workflow = VDict d ∧ out = VDict d'
    ∧ Forall2 node_frame (graph_nodes d) (graph_nodes d')
    ∧ Forall2 link_frame (graph_links d) (graph_links d').
Proof.
  intros H. apply convert_Ok in H as (d & -> & _ & _ & H).
  apply rewire_Ok in H
    as (t & st & wf1 & wf2 & Hpass & Hwf1 & -> & wf3 & Hrep & ->).
  apply attach_report_Ok in Hrep as [_ Hframe].
  exists d, wf3. split; [done|]. split; [done|].
  destruct (evolves_Forall2 _ _ (rewrite_pass_lengths _ _ _ Hpass)) as [Hn Hl].
  simpl in Hn, Hl.
  assert (graph_nodes wf3 = st_nodes st) as ->.
  { unfold graph_nodes. simpl. rewrite Hframe by done. subst wf1.
    rewrite store_elements_other by done.
    pose proof (graph_nodes_stored _ _ _ Hpass) as Hs.
    unfold graph_nodes in Hs. simpl in Hs. exact Hs. }
  assert (graph_links wf3 = st_links st) as ->; [|done].
  unfold graph_links. simpl. rewrite Hframe by done. subst wf1.
  pose proof (graph_links_stored d t st
                (store_elements d "nodes" (st_nodes st)) Hpass) as Hs.
  unfold graph_links in Hs. simpl in Hs. apply Hs.
  by apply store_elements_other.
Qed.

Lemma rewiring_keeps_nodes_and_links_witness :
  ∃ d',
    convert_setget_to_hardlines 64 wf_example false = Ok (VDict d')
    ∧ Forall2 node_frame (graph_nodes g_example) (graph_nodes d')
    ∧ Forall2 link_frame (graph_links g_example) (graph_links d').
Proof.
  destruct (convert_setget_to_hardlines 64 wf_example false) as [out|e] eqn:E;
    [|by vm_compute in E].
  destruct (rewiring_keeps_nodes_and_links 64 wf_example out E)
    as (d & d' & Hd & -> & Hn & Hl).
  injection Hd as <-. by exists d'.
Defined.

(** ** From the SetNode to the GetNode's links *)

Lemma as_int_congr a b : py_eq a b = true → as_int a = as_int b.
Proof.
  intros H. apply py_eq_norm in H.
  destruct a, b; simpl in *; try done; congruence.
Qed.

Lemma tuple3_eq c c0 :
  py_eq (tuple3 c) (tuple3 c0) = true →
  py_eq c.1.1 c0.1.1 = true ∧ py_eq c.1.2 c0.1.2 = true
  ∧ py_eq c.2 c0.2 = true.
Proof.
  intros H. apply py_eq_norm in H. unfold tuple3 in H. simpl in H.
  injection H as H1 H2 H3. by rewrite !py_eq_norm.
Qed.

(** The first SetNode to offer a name is the first write to it. *)
Lemma writes_first link_map ls ns : ∀ ws a sn name c0,
  writes link_map ls ns = Ok ws →
  ns !! a = Some sn →
  set_candidate link_map ls sn = Ok (Some (name, c0)) →
  (∀ a' n' name' c', (a' < a)%nat → ns !! a' = Some n' →
     set_candidate link_map ls n' = Ok (Some (name', c')) →
     py_eq name' name = false) →
  first_binding ws name = Some c0.
Proof.
  induction ns as [|n ns IH]; intros ws [|a] sn name c0 H Ha Hc Hfirst;
    simpl in H, Ha; try done.
  - injection Ha as ->. rewrite Hc in H. simpl in H.
    apply bind_Ok in H as (ws' & _ & H). injection H as <-. simpl.
    by rewrite py_eq_refl.
  - apply bind_Ok in H as (r & Hr & H). apply bind_Ok in H as (ws' & Hws & H).
    injection H as <-.
    assert (first_binding ws' name = Some c0) as Hrest.
    { apply (IH ws' a sn name c0 Hws Ha Hc). intros a' n' name' c' Hlt Hn'.
      apply (Hfirst (S a')); [lia|done]. }
    destruct r as [[name' c']|]; [|done]. simpl.
    by rewrite (Hfirst 0%nat n name' c' ltac:(lia) eq_refl Hr).
Qed.

(** X2.  The rewrite end to end. Take the first SetNode, in node order, that
    offers a binding of a name, the triple being source node id, source slot
    and type tag of the link into the SetNode; a GetNode of that name and a
    link id attached to one of its ports, and to no port of another GetNode,
    that the link map knows. If the node the source id denotes is not a
    GetNode visited later (or the slot is none of its ports), then after the
    pass the link starts where the link into the SetNode started: its source
    node id, source slot and type tag equal ([==]) those of the SetNode's
    link, and it has the id, target node id and target slot it had. *)
Theorem get_link_starts_at_set_source
    d t st a sn name c0 i n gname k lid p :
  rewrite_pass d = Ok (t, st) →
  graph_nodes d !! a = Some sn →
  set_candidate (t_link_map t) (graph_links d) sn = Ok (Some (name, c0)) →
  (∀ a' n' name' c', (a' < a)%nat → graph_nodes d !! a' = Some n' →
     set_candidate (t_link_map t) (graph_links d) n' = Ok (Some (name', c')) →
     py_eq name' name = false) →
  graph_nodes d !! i = Some n →
  is_get n = true →
  bound_name n = Ok gname →
  py_eq name gname = true →
  port_has n k lid = true →
  pdict_get (t_link_map t) lid = Some p →
  (∀ j n', j ≠ i → graph_nodes d !! j = Some n' → is_get n' = true →
     attached lid n' = false) →
  (∀ j n', pdict_get (t_nodes_by_id t) c0.1.1 = Some j →
     graph_nodes d !! j = Some n' →
     (j ≤ i)%nat ∨ is_get n' = false
     ∨ ∀ s, as_int c0.1.2 = Some (Z.of_nat s) →
            (length (node_ports n') ≤ s)%nat) →
  ∃ fs fs' src slot ty,
    graph_links d !! p = Some (VList fs)
    ∧ st_links st !! p = Some (VList fs')
    ∧ length fs' = length fs
    ∧ fs' !! 1%nat = Some src ∧ py_eq src c0.1.1 = true
    ∧ fs' !! 2%nat = Some slot ∧ py_eq slot c0.1.2 = true
    ∧ fs' !! 5%nat = Some ty ∧ py_eq ty c0.2 = true
    ∧ fs' !! 0%nat = fs !! 0%nat
    ∧ fs' !! 3%nat = fs !! 3%nat
    ∧ fs' !! 4%nat = fs !! 4%nat.
Proof.
  intros Hpass Ha Hcand Hfirst Hi Hget Hname Hnames Hport Hp Hfree Hsrc.
  apply rewrite_pass_Ok in Hpass as (Hnbi & Hlm & Hset & Hpass).
  set (ns0 := graph_nodes d) in *. set (ls0 := graph_links d) in *.
  destruct (set_pass_recorded (t_link_map t) ls0 ns0 [] ([], [])
              (t_name_to_source t, t_conflicts t))
    as (ws & Hws & Hidx & _); [by split; simpl; [|constructor]|exact Hset|].
  simpl in Hws, Hidx. specialize (Hidx name).
  rewrite (writes_first _ _ _ _ _ _ _ _ Hws Ha Hcand Hfirst) in Hidx.
  destruct Hidx as (c & Hc & Heq). simpl in Hc.
  rewrite (pdict_get_congr _ _ _ Hnames) in Hc.
  apply tuple3_eq in Heq as (E1 & E2 & E5).
  assert (∀ x q, pdict_get (t_link_map t) x = Some q →
            ∃ l kx, ls0 !! q = Some l ∧ link_key l = Ok kx ∧ py_eq kx x = true)
    as Hsound.
  { intros x q Hq. by eapply build_index_sound. }
  pose proof (list_lookup_total_correct _ _ _ Hi) as Hi'.
  destruct (get_pass_origin (t_nodes_by_id t) (t_link_map t)
              (t_name_to_source t) ns0 ls0 i k p lid gname c Hsound Hp)
    with (st := st) as (Hev & fs & Hfs & Hlen & Hcur); try done.
  - intros j Hj. rewrite (pdict_get_congr _ _ _ E1) in Hj.
    rewrite (as_int_congr _ _ E2).
    destruct (ns0 !! j) as [n'|] eqn:Ej.
    + rewrite (list_lookup_total_correct _ _ _ Ej). by eapply Hsrc.
    + right. left. by rewrite (lookup_total_None _ _ Ej).
  - by eapply lookup_lt_Some.
  - by rewrite Hi'.
  - by rewrite Hi'.
  - by rewrite Hi'.
  - intros j Hj. destruct (ns0 !! j) as [n'|] eqn:Ej.
    + rewrite (list_lookup_total_correct _ _ _ Ej). by eapply Hfree.
    + by rewrite (lookup_total_None _ _ Ej).
  - destruct (Hsound _ _ Hp) as (l & _ & Hl & _).
    rewrite (list_lookup_total_correct _ _ _ Hl) in Hfs. subst l.
    destruct (evolves_links _ _ _ _ Hev Hl) as (l' & Hl' & _).
    rewrite (list_lookup_total_correct _ _ _ Hl') in Hcur. subst l'.
    destruct (with_origin_fields c fs Hlen) as (F1 & F2 & F5 & F0 & F3 & F4).
    exists fs, (with_origin c fs), c.1.1, c.1.2, c.2.
    rewrite with_origin_length. done.
Qed.

Lemma get_link_starts_at_set_source_witness :
  ∃ t st fs' src slot,
    rewrite_pass g_example = Ok (t, st)
    ∧ st_links st !! 1%nat = Some (VList fs')
    ∧ fs' !! 1%nat = Some src ∧ py_eq src (VInt 5) = true
    ∧ fs' !! 2%nat = Some slot ∧ py_eq slot (VInt 0) = true.
Proof.
  destruct (rewrite_pass g_example) as [[t st]|e] eqn:E;
    [|vm_compute in E; discriminate].
  assert (t_link_map t = [(VInt 10, 0%nat); (VInt 20, 1%nat)]
          ∧ t_nodes_by_id t
            = [(VInt 5, 0%nat); (VInt 1, 1%nat); (VInt 2, 2%nat);
               (VInt 3, 3%nat)])
    as (Hlm & Hnbi).
  { vm_compute in E. by injection E as <- <-. }
  destruct (get_link_starts_at_set_source g_example t st 1
              (set_node_of 1 "X" 10) (VStr "X")
              (VInt 5, VInt 0, VStr "IMAGE") 2 (get_node_of 2 "X" [20])
              (VStr "X") 0 (VInt 20) 1 E)
    as (fs & fs' & src & slot & ty & _ & Hfs' & _ & H1 & E1 & H2 & E2 & _).
  - reflexivity.
  - by rewrite Hlm.
  - rewrite Hlm. intros [|a'] n' name' c' Hlt Hn' Hc'; [|lia].
    vm_compute in Hn'. injection Hn' as <-. by vm_compute in Hc'.
  - reflexivity.
  - reflexivity.
  - reflexivity.
  - reflexivity.
  - reflexivity.
  - by rewrite Hlm.
  - intros [|[|[|[|j]]]] n' Hj Hn'; try done; vm_compute in Hn';
      injection Hn' as <-; vm_compute; congruence.
  - rewrite Hnbi. intros j n' Hj. vm_compute in Hj. injection Hj as <-.
    left. lia.
  - by exists t, st, fs', src, slot.
Defined.

(** ** The rewired id on the ports *)

Section source_port.
Variable nodes_by_id : pdict nat.

Lemma port_in_outs node outs k pd n :
  py_get_default node "outputs" (VList []) = Ok outs →
  node_ports node !! k = Some (VDict pd) →
  py_len outs = Ok n →
  py_getitem_idx outs k = Ok (VDict pd) ∧ Z.of_nat k < n.
Proof.
  intros Houts Hk Hn.
  assert (node_ports node = match py_iter outs with Ok ps => ps | _ => [] end)
    as Hports.
  { unfold node_ports. by rewrite Houts. }
  rewrite Hports in Hk. apply lookup_lt_Some in Hk as Hlt.
  destruct outs as [| | |str|ps|ps|od]; simpl in *; try done.
  - by destruct (str_chars_lookup _ _ _ Hk) as [c ?].
  - rewrite Hk. injection Hn as <-. split; [done|lia].
  - rewrite Hk. injection Hn as <-. split; [done|lia].
  - rewrite list_lookup_fmap in Hk. destruct (od !! k); done.
Qed.

(** [add_output_link] on a port that is a list: the id is on the port
    afterwards, appended or there already. *)
Lemma add_output_link_registers ns a b x ns' t s :
  add_output_link nodes_by_id ns a b x = Ok ns' →
  pdict_get nodes_by_id a = Some t →
  as_int b = Some (Z.of_nat s) →
  (t < length ns)%nat →
  port_is_list (ns !!! t) s →
  port_has (ns' !!! t) s x = true.
Proof.
  intros H Ht Hb Hlen (pd & l & Hk & Hl).
  unfold add_output_link, pdict_lookup in H.
  destruct (py_hashable a); simpl in H; [|discriminate].
  rewrite Ht in H.
  apply bind_Ok in H as (outs & Houts & H).
  apply bind_Ok in H as (r & Hr & H).
  unfold slot_in_range in Hr. rewrite Hb in Hr.
  destruct (Z.of_nat s <? 0) eqn:Eneg; [apply Z.ltb_lt in Eneg; lia|].
  apply bind_Ok in Hr as (n & Hn & Hr).
  destruct (port_in_outs _ _ _ _ _ Houts Hk Hn) as [Hport Hsn].
  apply Z.ltb_lt in Hsn. rewrite Hsn, Nat2Z.id in Hr. injection Hr as <-.
  rewrite Hport in H. simpl in H. rewrite Hl in H. simpl in H.
  destruct (existsb (py_eq x) l) eqn:Ex.
  - injection H as <-. by rewrite port_has_ids, (port_is_list_ids _ _ _ _ Hk Hl).
  - injection H as <-. rewrite list_lookup_total_insert_eq by done.
    rewrite port_has_set_port_links, Hk, bool_decide_true by done.
    rewrite existsb_app. simpl. by rewrite py_eq_refl, orb_true_r.
Qed.
End source_port.

Section present_source.
Variables nodes_by_id link_map : pdict nat.
Variable name_to_source : pdict triple.
Variables ns0 ls0 : list value.
Variables (i k t sl : nat) (lid name nid : value) (c : triple).

Hypothesis link_map_sound :
  ∀ x q, pdict_get link_map x = Some q →
         ∃ l kx, ls0 !! q = Some l ∧ link_key l = Ok kx ∧ py_eq kx x = true.
Hypothesis lid_known : is_Some (pdict_get link_map lid).
Hypothesis node_in_range : (i < length ns0)%nat.
Hypothesis node_id : py_getitem_key (ns0 !!! i) "id" = Ok nid.
Hypothesis id_is_own : pdict_get nodes_by_id nid = Some i.
(** The binding's source is node [t], another node, and its slot is port
    [sl] of that node. *)
Hypothesis source_at : pdict_get nodes_by_id c.1.1 = Some t.
Hypothesis source_other : t ≠ i.
Hypothesis source_in_range : (t < length ns0)%nat.
Hypothesis source_slot : as_int c.1.2 = Some (Z.of_nat sl).

Let st0 : state :=
  {| st_nodes := ns0; st_links := ls0; st_rewired := []; st_skipped := [] |}.

(** One rewrite: ids appear on port [sl] of node [t] only, node [t] loses
    none, and a rewritten id is on that port and off the GetNode's. *)
Lemma rewire_link_present k' s x s' :
  evolves st0 s →
  port_is_list (st_nodes s !!! t) sl →
  rewire_link nodes_by_id link_map name c i k' s x = Ok s' →
  (∀ j kk y, port_has (st_nodes s' !!! j) kk y = true →
             port_has (st_nodes s !!! j) kk y = true ∨ (j = t ∧ kk = sl))
  ∧ (∀ kk y, port_has (st_nodes s !!! t) kk y = true →
             port_has (st_nodes s' !!! t) kk y = true)
  ∧ (∀ kk, kk ≠ k' → port_has (st_nodes s !!! i) kk lid = true →
           port_has (st_nodes s' !!! i) kk lid = true)
  ∧ match pdict_get link_map x with
    | None => s' = s
    | Some _ =>
        port_has (st_nodes s' !!! t) sl x = true
        ∧ (port_is_list (st_nodes s !!! i) k' →
           port_ids (st_nodes s' !!! i) k'
           = remove_first x (port_ids (st_nodes s !!! i) k'))
    end.
Proof.
  intros Hev Hsrc H.
  apply rewire_link_effect in H
    as [[-> Hno]|(q & fs & ns1 & nid' & Hq & Hfs & Hlen & Hadd & Hnid & Hrem
                  & Hl & Hrw & _)].
  { split; [by left|]. split; [done|]. split; [done|].
    destruct Hno as [->|(q & Hq & Hfalse)]; [done|]. exfalso.
    destruct (link_map_sound _ _ Hq) as (l & kx & Hl & Hk & _).
    destruct Hev as (_ & _ & _ & Hlf). specialize (Hlf q). simpl in Hlf.
    rewrite (list_lookup_total_correct _ _ _ Hl) in Hlf.
    rewrite (link_frame_truthy _ _ Hlf), (link_key_truthy _ _ Hk) in Hfalse.
    done. }
  assert (length (st_nodes s) = length ns0) as Hlen0 by apply Hev.
  pose proof (add_output_link_registers _ _ _ _ _ _ _ _ Hadd source_at
                source_slot ltac:(lia) Hsrc) as Hreg.
  pose proof (add_output_link_nodes _ _ _ _ _ _ Hadd) as [Hlen1 Hadd'].
  assert (ns1 !!! i = st_nodes s !!! i) as Hsame.
  { apply (Hadd' i). rewrite source_at. congruence. }
  assert (nid' = nid) as ->.
  { rewrite Hsame in Hnid.
    destruct Hev as (_ & Hf & _). destruct (Hf i) as [Hmeta _]. simpl in Hmeta.
    rewrite (same_meta_getitem _ _ "id" Hmeta) in Hnid by done. congruence. }
  pose proof (remove_output_link_nodes _ _ _ _ _ _ Hrem) as [_ Hrem'].
  assert (st_nodes s' !!! t = ns1 !!! t) as Ht.
  { apply (Hrem' t). rewrite id_is_own. congruence. }
  split; [|split; [|split]].
  - intros j kk y Hy. apply (Hrem' j) in Hy. apply (Hadd' j) in Hy
      as [Hy|(_ & Hj & Hkk & _)]; [by left|right].
    split; [congruence|]. rewrite source_slot in Hkk. injection Hkk. lia.
  - intros kk y Hy. rewrite Ht. by apply (Hadd' t).
  - intros kk Hne Hkk. apply (Hrem' i); [|by left]. by rewrite Hsame.
  - rewrite Hq. split; [by rewrite Ht|]. intros Hlist. rewrite <- Hsame.
    eapply remove_output_link_ids; [exact Hrem|done|lia|by rewrite Hsame].
Qed.

(** The rewrites of one port. *)
Lemma rewire_links_present k' ids : ∀ s s',
  evolves st0 s →
  port_is_list (st_nodes s !!! t) sl →
  foldM (rewire_link nodes_by_id link_map name c i k') s ids = Ok s' →
  evolves st0 s' ∧ shape_kept s s'
  ∧ (∀ j kk y, port_has (st_nodes s' !!! j) kk y = true →
               port_has (st_nodes s !!! j) kk y = true ∨ (j = t ∧ kk = sl))
  ∧ (∀ kk y, port_has (st_nodes s !!! t) kk y = true →
             port_has (st_nodes s' !!! t) kk y = true)
  ∧ (∀ kk, kk ≠ k' → port_has (st_nodes s !!! i) kk lid = true →
           port_has (st_nodes s' !!! i) kk lid = true)
  ∧ (∀ x, x ∈ ids → is_Some (pdict_get link_map x) →
          port_has (st_nodes s' !!! t) sl x = true).
Proof.
  induction ids as [|x ids IH]; intros s s' Hev Hsrc H; simpl in H.
  - injection H as <-. split; [done|]. split; [apply shape_kept_refl|].
    split; [by left|]. split; [done|]. split; [done|].
    by intros x Hx%elem_of_nil.
  - apply bind_Ok in H as (s1 & H1 & H).
    pose proof (rewire_link_evolves _ _ _ _ _ _ _ _ _ H1) as Hev1.
    pose proof (rewire_link_shape _ _ _ _ _ _ _ _ _ H1) as Hsh1.
    destruct (rewire_link_present _ _ _ _ Hev Hsrc H1) as (A1 & B1 & C1 & D1).
    destruct (IH s1 s' (evolves_trans _ _ _ Hev Hev1)
                (proj1 Hsh1 _ _ Hsrc) H) as (E2 & Sh2 & A2 & B2 & C2 & D2).
    split; [done|]. split; [by eapply shape_kept_trans|].
    split; [|split; [|split]].
    + intros j kk y Hy. apply A2 in Hy as [Hy|Hy]; [|by right]. by apply A1.
    + intros kk y Hy. by apply B2, B1.
    + intros kk Hne Hkk. by apply C2, C1.
    + intros y Hy Hsome. apply elem_of_cons in Hy as [->|Hy]; [|by apply D2].
      destruct (pdict_get link_map x); [|by destruct Hsome].
      apply B2, D1.
Qed.

(** The rewrites of port [k] empty it of the ids the link map knows. *)
Lemma rewire_links_gone ids : ∀ D s s',
  evolves st0 s →
  port_is_list (st_nodes s !!! t) sl →
  port_is_list (st_nodes s !!! i) k →
  port_ids (st_nodes s !!! i) k = D ++ ids →
  Forall (λ y, pdict_get link_map y = None) D →
  foldM (rewire_link nodes_by_id link_map name c i k) s ids = Ok s' →
  Forall (λ y, pdict_get link_map y = None) (port_ids (st_nodes s' !!! i) k).
Proof.
  induction ids as [|x ids IH]; intros D s s' Hev Hsrc Hlist Hids HD H;
    simpl in H.
  - injection H as <-. by rewrite Hids, app_nil_r.
  - apply bind_Ok in H as (s1 & H1 & H).
    pose proof (rewire_link_evolves _ _ _ _ _ _ _ _ _ H1) as Hev1.
    pose proof (rewire_link_shape _ _ _ _ _ _ _ _ _ H1) as [Hshape _].
    destruct (rewire_link_present _ _ _ _ Hev Hsrc H1) as (_ & _ & _ & Hx).
    pose proof (evolves_trans _ _ _ Hev Hev1) as Hev'.
    destruct (pdict_get link_map x) as [q|] eqn:Eq.
    + destruct Hx as [_ Hrem]. specialize (Hrem Hlist).
      rewrite Hids, remove_first_app_skip in Hrem.
      2:{ eapply Forall_impl; [|exact HD]. simpl. intros y Hy.
          destruct (py_eq y x) eqn:E; [|done].
          rewrite (pdict_get_congr link_map y x E) in Hy. congruence. }
      by apply (IH D s1 s' Hev' (Hshape _ _ Hsrc) (Hshape _ _ Hlist) Hrem HD).
    + subst s1. apply (IH (D ++ [x]) s s' Hev Hsrc Hlist); try done.
      * by rewrite <- app_assoc.
      * apply Forall_app. split; [done|]. by constructor.
Qed.

(** All the rewrites of node [i]. *)
Lemma rewire_ports_present s s' n :
  (k < n)%nat →
  evolves st0 s →
  port_is_list (st_nodes s !!! t) sl →
  port_is_list (st_nodes s !!! i) k →
  port_has (st_nodes s !!! i) k lid = true →
  foldM (rewire_port nodes_by_id link_map name c i) s (seq 0 n) = Ok s' →
  (∀ j kk y, port_has (st_nodes s' !!! j) kk y = true →
             port_has (st_nodes s !!! j) kk y = true ∨ (j = t ∧ kk = sl))
  ∧ port_has (st_nodes s' !!! i) k lid = false
  ∧ port_has (st_nodes s' !!! t) sl lid = true.
Proof.
  intros Hk Hev Hsrc Hlist Hport H.
  set (P := λ (k' : nat) (s1 : state),
    evolves st0 s1 ∧ shape_kept s s1
    ∧ (∀ j kk y, port_has (st_nodes s1 !!! j) kk y = true →
                 port_has (st_nodes s !!! j) kk y = true ∨ (j = t ∧ kk = sl))
    ∧ ((k' ≤ k)%nat → port_has (st_nodes s1 !!! i) k lid = true)
    ∧ ((k < k')%nat →
       port_has (st_nodes s1 !!! i) k lid = false
       ∧ port_has (st_nodes s1 !!! t) sl lid = true)).
  cut (P (0 + n)%nat s').
  { intros (_ & _ & M & _ & D). split; [done|]. apply D. lia. }
  revert H. apply (foldM_seq_inv P).
  { split; [done|]. split; [apply shape_kept_refl|]. split; [by left|].
    split; [done|lia]. }
  intros k' s1 s2 Hk' (E1 & Sh1 & M1 & K1 & D1) H. apply rewire_port_Ok in H.
  pose proof (proj1 Sh1) as Hshape.
  destruct (rewire_links_present _ _ _ _ E1 (Hshape _ _ Hsrc) H)
    as (E2 & Sh2 & A2 & B2 & C2 & D2).
  split; [done|]. split; [by eapply shape_kept_trans|]. split.
  { intros j kk y Hy. apply A2 in Hy as [Hy|Hy]; [|by right]. by apply M1. }
  split.
  - intros Hle. apply C2; [lia|]. apply K1. lia.
  - intros Hlt. destruct (decide (k' = k)) as [->|Hne].
    + pose proof (rewire_links_gone _ [] s1 s2 E1 (Hshape _ _ Hsrc)
                    (Hshape _ _ Hlist) eq_refl (Forall_nil_2 _) H) as Hall.
      split.
      * rewrite port_has_ids. destruct (existsb _ _) eqn:Ex; [|done].
        apply existsb_exists in Ex as (y & Hy & Hly).
        rewrite List.Forall_forall in Hall. specialize (Hall y Hy).
        rewrite <- (pdict_get_congr _ _ _ Hly) in Hall.
        rewrite Hall in lid_known. by destruct lid_known.
      * specialize (K1 (le_n _)). rewrite port_has_ids in K1.
        apply existsb_exists in K1 as (x & Hx & Hlx).
        rewrite (port_has_congr _ _ _ _ Hlx).
        apply D2; [by apply list_elem_of_In|].
        by rewrite <- (pdict_get_congr _ _ _ Hlx).
    + destruct D1 as [Hfalse Hon]; [lia|]. split.
      * destruct (port_has (st_nodes s2 !!! i) k lid) eqn:E; [|done].
        apply A2 in E as [E|[E _]]; congruence.
      * by apply B2.
Qed.
End present_source.

Section present_source_pass.
Variables nodes_by_id link_map : pdict nat.
Variable name_to_source : pdict triple.
Variables ns0 ls0 : list value.
Variables (i k t sl : nat) (lid name nid : value) (c : triple).

Hypothesis link_map_sound :
  ∀ x q, pdict_get link_map x = Some q →
         ∃ l kx, ls0 !! q = Some l ∧ link_key l = Ok kx ∧ py_eq kx x = true.
Hypothesis lid_known : is_Some (pdict_get link_map lid).
Hypothesis node_in_range : (i < length ns0)%nat.
Hypothesis node_is_get : is_get (ns0 !!! i) = true.
Hypothesis node_name : bound_name (ns0 !!! i) = Ok name.
Hypothesis name_bound : pdict_get name_to_source name = Some c.
Hypothesis node_id : py_getitem_key (ns0 !!! i) "id" = Ok nid.
Hypothesis id_is_own : pdict_get nodes_by_id nid = Some i.
Hypothesis source_at : pdict_get nodes_by_id c.1.1 = Some t.
Hypothesis source_in_range : (t < length ns0)%nat.
Hypothesis source_plain : is_get (ns0 !!! t) = false.
Hypothesis source_slot : as_int c.1.2 = Some (Z.of_nat sl).
Hypothesis source_list : port_is_list (ns0 !!! t) sl.
Hypothesis port_list : port_is_list (ns0 !!! i) k.
Hypothesis port_holds : port_has (ns0 !!! i) k lid = true.
Hypothesis held_once :
  ∀ j, j ≠ i → is_get (ns0 !!! j) = true → attached lid (ns0 !!! j) = false.

Lemma get_pass_present st :
  get_pass nodes_by_id link_map name_to_source ns0 ls0 = Ok st →
  port_has (st_nodes st !!! i) k lid = false
  ∧ port_has (st_nodes st !!! t) sl lid = true
  ∧ ∀ j kk, port_has (st_nodes st !!! j) kk lid = true →
            port_has (ns0 !!! j) kk lid = true ∨ (j = t ∧ kk = sl).
Proof.
  unfold get_pass.
  set (st0 := {| st_nodes := ns0; st_links := ls0; st_rewired := [];
                 st_skipped := [] |}).
  intros H.
  assert (t ≠ i) as Hti by (intros ->; congruence).
  set (P := λ (m : nat) (s : state),
    evolves st0 s
    ∧ (∀ j kk, port_is_list (ns0 !!! j) kk →
               port_is_list (st_nodes s !!! j) kk)
    ∧ (∀ j kk, port_has (st_nodes s !!! j) kk lid = true →
               port_has (ns0 !!! j) kk lid = true ∨ (j = t ∧ kk = sl))
    ∧ ((m ≤ i)%nat → port_has (st_nodes s !!! i) k lid = true)
    ∧ ((i < m)%nat →
       port_has (st_nodes s !!! i) k lid = false
       ∧ port_has (st_nodes s !!! t) sl lid = true)).
  cut (P (0 + length ns0)%nat st).
  { intros (_ & _ & N & _ & D). destruct D as [D1 D2]; [lia|]. done. }
  revert H. apply (foldM_seq_inv P).
  { split; [apply evolves_refl|]. split; [done|]. split; [by left|].
    split; [done|lia]. }
  intros m s s' Hm (E & L & N & A & B) H.
  pose proof (get_node_evolves _ _ _ _ _ _ H) as E'.
  pose proof (get_node_shape _ _ _ _ _ _ H) as [Hshape _].
  split; [by eapply evolves_trans|]. split; [auto|].
  assert (node_frame (ns0 !!! m) (st_nodes s !!! m)) as [Hmeta Hports].
  { destruct E as (_ & Hf & _). apply Hf. }
  assert (∀ j, j ≠ i → is_get (ns0 !!! j) = true →
               attached lid (st_nodes s !!! j) = false) as Hq.
  { intros j Hj Hg. destruct (attached lid (st_nodes s !!! j)) eqn:Ea; [|done].
    apply attached_spec in Ea as [kk Ea]. apply N in Ea as [Ea|[-> _]].
    - apply port_has_attached in Ea. rewrite held_once in Ea; done.
    - congruence. }
  destruct (decide (m = i)) as [->|Hne].
  - specialize (A (le_n _)).
    apply get_node_Ok in H
      as [[Hg _]|(_ & name' & Hn & [(Hnone & _)|(c' & Hc' & H)])].
    + rewrite (same_meta_is_get _ _ Hmeta) in Hg. congruence.
    + rewrite (same_meta_bound_name _ _ Hmeta) in Hn. congruence.
    + rewrite (same_meta_bound_name _ _ Hmeta) in Hn.
      assert (name' = name) as -> by congruence.
      assert (c' = c) as -> by congruence.
      eapply (rewire_ports_present _ _ ns0 ls0 i k t sl lid name nid c) in H
        as (M & Hgone & Hon); try done; [| |by apply L|by apply L].
      * split; [|split; [lia|done]].
        intros j kk Hj. apply M in Hj as [Hj|Hj]; [|by right]. by apply N.
      * rewrite Hports. destruct port_list as (pd & l0 & Hk & _).
        by eapply lookup_lt_Some.
  - eapply (get_node_quiet _ _ _ ls0 link_map_sound lid) in H as (Q2 & Q1 & Q3).
    + split; [|split].
      * intros j kk. rewrite Q2. apply N.
      * intros Hle. rewrite Q2. apply A. lia.
      * intros Hlt. rewrite !Q2. apply B. lia.
    + intros Hg _. apply Hq; [done|]. by rewrite <- (same_meta_is_get _ _ Hmeta).
Qed.
End present_source_pass.

(** X3.  Take a GetNode whose name is bound to [c], where the source id of
    [c] is the id of a node that is no GetNode and the slot of [c] is a port
    of that node whose [links] is a list; a link id held by the list of one
    of the GetNode's ports (and by no port of another GetNode) that the link
    map knows; the GetNode's id being its own. After the pass the id is on
    the source's port and gone from the GetNode's port, and it is on no
    other port that did not hold it. *)
Theorem rewired_id_moves_to_source
    d t st i n name c k lid p nid pd l j src sl pd' l' :
  rewrite_pass d = Ok (t, st) →
  graph_nodes d !! i = Some n →
  is_get n = true →
  bound_name n = Ok name →
  pdict_get (t_name_to_source t) name = Some c →
  pdict_get (t_nodes_by_id t) c.1.1 = Some j →
  graph_nodes d !! j = Some src →
  is_get src = false →
  as_int c.1.2 = Some (Z.of_nat sl) →
  node_ports src !! sl = Some (VDict pd') →
  dict_get pd' "links" = Some (VList l') →
  node_ports n !! k = Some (VDict pd) →
  dict_get pd "links" = Some (VList l) →
  existsb (py_eq lid) l = true →
  pdict_get (t_link_map t) lid = Some p →
  py_getitem_key n "id" = Ok nid →
  (∀ q n' nid', q ≠ i → graph_nodes d !! q = Some n' →
     py_getitem_key n' "id" = Ok nid' → py_eq nid' nid = false) →
  (∀ q n', q ≠ i → graph_nodes d !! q = Some n' → is_get n' = true →
     attached lid n' = false) →
  port_has (st_nodes st !!! j) sl lid = true
  ∧ port_has (st_nodes st !!! i) k lid = false
  ∧ ∀ q kk, port_has (st_nodes st !!! q) kk lid = true →
            (q = j ∧ kk = sl)
            ∨ ∃ n', graph_nodes d !! q = Some n' ∧ port_has n' kk lid = true.
Proof.
  intros Hpass Hi Hget Hname Hc Hj Hsrc Hplain Hsl Hk' Hl' Hk Hl Hin Hp Hnid
    Huniq Hfree.
  apply rewrite_pass_Ok in Hpass as (Hnbi & Hlm & Hset & Hpass).
  set (ns0 := graph_nodes d) in *. set (ls0 := graph_links d) in *.
  assert (∀ x q, pdict_get (t_link_map t) x = Some q →
            ∃ l kx, ls0 !! q = Some l ∧ link_key l = Ok kx ∧ py_eq kx x = true)
    as Hsound.
  { intros x q Hq. by eapply build_index_sound. }
  pose proof (list_lookup_total_correct _ _ _ Hi) as Hi'.
  pose proof (list_lookup_total_correct _ _ _ Hsrc) as Hj'.
  assert (i < length ns0)%nat as Hlt by (by eapply lookup_lt_Some).
  assert (j < length ns0)%nat as Hjlt by (by eapply lookup_lt_Some).
  assert (∀ q, q ≠ i → is_get (ns0 !!! q) = true →
               attached lid (ns0 !!! q) = false) as Hfree'.
  { intros q Hq. destruct (ns0 !! q) as [n'|] eqn:Eq.
    - rewrite (list_lookup_total_correct _ _ _ Eq). by eapply Hfree.
    - by rewrite (lookup_total_None _ _ Eq). }
  assert (port_has n k lid = true) as Hport.
  { rewrite port_has_ids, (port_is_list_ids _ _ _ _ Hk Hl). done. }
  assert (pdict_get (t_nodes_by_id t) nid = Some i) as Hown.
  { eapply build_index_unique; [exact Hnbi|exact Hi|exact Hnid|].
    intros q x kx Hq Hx Hkx. by eapply Huniq. }
  destruct (get_pass_present (t_nodes_by_id t) (t_link_map t)
              (t_name_to_source t) ns0 ls0 i k j sl lid name nid c Hsound)
    with (st := st) as (Hgone & Hon & Hnew); try done;
    try (by rewrite Hi'); try (by rewrite Hj').
  { rewrite Hj'. by exists pd', l'. }
  { rewrite Hi'. by exists pd, l. }
  split; [done|]. split; [done|].
  intros q kk Hq. apply Hnew in Hq as [Hq|Hq]; [right|by left].
  destruct (ns0 !! q) as [n'|] eqn:Eq.
  - rewrite (list_lookup_total_correct _ _ _ Eq) in Hq. eauto.
  - by rewrite (lookup_total_None _ _ Eq) in Hq.
Qed.

Lemma rewired_id_moves_to_source_witness :
  ∃ t st,
    rewrite_pass g_example = Ok (t, st)
    ∧ port_has (st_nodes st !!! 0%nat) 0 (VInt 20) = true
    ∧ port_has (st_nodes st !!! 2%nat) 0 (VInt 20) = false.
Proof.
  destruct (rewrite_pass g_example) as [[t st]|e] eqn:E;
    [|vm_compute in E; discriminate].
  exists t, st. split; [done|].
  assert (t_name_to_source t = [(VStr "X", (VInt 5, VInt 0, VStr "IMAGE"))]
          ∧ t_link_map t = [(VInt 10, 0%nat); (VInt 20, 1%nat)]
          ∧ t_nodes_by_id t
            = [(VInt 5, 0%nat); (VInt 1, 1%nat); (VInt 2, 2%nat);
               (VInt 3, 3%nat)])
    as (Hidx & Hlm & Hnbi).
  { vm_compute in E. by injection E as <- <-. }
  destruct (rewired_id_moves_to_source g_example t st 2
              (get_node_of 2 "X" [20]) (VStr "X")
              (VInt 5, VInt 0, VStr "IMAGE") 0 (VInt 20) 1 (VInt 2)
              [("links", VList [VInt 20])] [VInt 20]
              0 (plain_node 5 [] [10]) 0
              [("links", VList [VInt 10])] [VInt 10] E)
    as (Hon & Hgone & _).
  - reflexivity.
  - reflexivity.
  - reflexivity.
  - by rewrite Hidx.
  - by rewrite Hnbi.
  - reflexivity.
  - reflexivity.
  - reflexivity.
  - reflexivity.
  - reflexivity.
  - reflexivity.
  - reflexivity.
  - reflexivity.
  - by rewrite Hlm.
  - reflexivity.
  - intros [|[|[|[|q]]]] n' nid' Hq Hn' Hid; try done; vm_compute in Hn';
      injection Hn' as <-; vm_compute in Hid; injection Hid as <-; reflexivity.
  - intros [|[|[|[|q]]]] n' Hq Hn'; try done; vm_compute in Hn';
      injection Hn' as <-; vm_compute; congruence.
  - done.
Defined.

(** ** Entries the function does not read *)

Lemma set_report_extra wf key v wf' :
  set_report wf key v = Ok wf' →
  ∀ k, k ≠ "__hardline_rewire" → extra_entry wf' k = extra_entry wf k.
Proof.
  unfold set_report, extra_entry. intros H k Hk.
  destruct (dict_get wf "extra") as [[| | | | | |extra]|] eqn:E;
    try discriminate; simpl in H.
  - destruct (default (VDict []) (dict_get extra "__hardline_rewire"));
      try discriminate.
    injection H as <-. rewrite dict_get_set. by apply dict_get_set_ne.
  - injection H as <-. rewrite dict_get_set.
    change (dict_get (dict_set [] "__hardline_rewire"
                        (VDict (dict_set [] key v))) k = None).
    by rewrite dict_get_set_ne.
Qed.

Lemma attach_report_extra wf rw sk cf wf' :
  attach_report wf rw sk cf = Ok wf' →
  ∀ k, k ≠ "__hardline_rewire" → extra_entry wf' k = extra_entry wf k.
Proof.
  unfold attach_report. intros H k Hk.
  apply bind_Ok in H as (w1 & H1 & H). apply bind_Ok in H as (w2 & H2 & H3).
  rewrite (set_report_extra _ _ _ _ H3 k Hk), (set_report_extra _ _ _ _ H2 k Hk).
  by apply (set_report_extra _ _ _ _ H1).
Qed.

(** X4.  Whatever the flag, the call returns every top-level entry of the
    workflow other than [nodes], [links] and [extra] as it was, and every
    entry of [extra] other than the report. *)
Theorem other_entries_kept limit workflow drop_setget out :
  convert_setget_to_hardlines limit workflow drop_setget = Ok out →
  ∃ d d',
    workflow = VDict d ∧ out = VDict d'
    ∧ (∀ k, k ≠ "nodes" → k ≠ "links" → k ≠ "extra" →
         dict_get d' k = dict_get d k)
    ∧ (∀ k, k ≠ "__hardline_rewire" → extra_entry d' k = extra_entry d k).
Proof.
  intros H. apply convert_Ok in H as (d & -> & _ & _ & H).
  apply rewire_Ok in H
    as (t & st & wf1 & wf2 & Hpass & Hwf1 & Hwf2 & wf3 & Hrep & ->).
  exists d, wf3. split; [done|]. split; [done|].
  assert (∀ k, k ≠ "nodes" → k ≠ "links" → dict_get wf2 k = dict_get d k)
    as Hkeep.
  { intros k Hn Hl.
    assert (dict_get wf1 k = dict_get d k) as H1.
    { subst wf1. by rewrite !store_elements_other. }
    destruct drop_setget.
    - destruct Hwf2 as (r & _ & ->). by rewrite !dict_get_set_ne.
    - by subst wf2. }
  split.
  - intros k Hn Hl He.
    destruct (attach_report_Ok _ _ _ _ _ Hrep) as [_ Hframe].
    rewrite Hframe by done. by apply Hkeep.
  - intros k Hk. rewrite (attach_report_extra _ _ _ _ _ Hrep k Hk).
    unfold extra_entry. by rewrite Hkeep.
Qed.

Lemma other_entries_kept_witness :
  ∃ d',
    convert_setget_to_hardlines 64 (VDict g_annotated) true = Ok (VDict d')
    ∧ dict_get d' "version" = Some (VInt 1)
    ∧ extra_entry d' "ds" = Some (VStr "view").
Proof.
  destruct (convert_setget_to_hardlines 64 (VDict g_annotated) true)
    as [out|e] eqn:E; [|by vm_compute in E].
  destruct (other_entries_kept 64 (VDict g_annotated) true out E)
    as (d & d' & Hd & -> & Htop & Hextra).
  injection Hd as <-. exists d'. split; [done|]. split.
  - by rewrite Htop.
  - by rewrite Hextra.
Defined.

(** ** The flag *)

(** The report is written from what is under [extra] and nothing else. *)
Lemma set_report_congr wf wf' key v a :
  dict_get wf' "extra" = dict_get wf "extra" →
  set_report wf key v = Ok a →
  ∃ a', set_report wf' key v = Ok a'
        ∧ dict_get a' "extra" = dict_get a "extra".
Proof.
  unfold set_report. intros -> H.
  destruct (default (VDict []) (dict_get wf "extra")) as [| | | | | |extra];
    try discriminate.
  destruct (default (VDict []) (dict_get extra "__hardline_rewire"));
    try discriminate.
  injection H as <-. eexists. split; [done|]. by rewrite !dict_get_set.
Qed.

Lemma attach_report_congr wf wf' rw sk cf a :
  dict_get wf' "extra" = dict_get wf "extra" →
  attach_report wf rw sk cf = Ok a →
  ∃ a', attach_report wf' rw sk cf = Ok a'
        ∧ dict_get a' "extra" = dict_get a "extra".
Proof.
  unfold attach_report. intros He H.
  apply bind_Ok in H as (w1 & H1 & H). apply bind_Ok in H as (w2 & H2 & H3).
  destruct (set_report_congr _ _ _ _ _ He H1) as (w1' & -> & He1). simpl.
  destruct (set_report_congr _ _ _ _ _ He1 H2) as (w2' & -> & He2). simpl.
  by apply (set_report_congr _ _ _ _ _ He2).
Qed.

(** X5.  [drop_setget] changes nothing but the two lists: when the call with
    the flag returns, so does the call without it, with the same report and
    the same other entries, and the flagged call's nodes and links are the
    unflagged call's without the SetNodes and GetNodes and without the links
    from or to one of them. *)
Theorem pruning_only_filters limit workflow out1 :
  convert_setget_to_hardlines limit workflow true = Ok out1 →
  ∃ d0 d1 dropped_ids,
    convert_setget_to_hardlines limit workflow false = Ok (VDict d0)
    ∧ out1 = VDict d1
    ∧ dict_get d1 "nodes"
      = Some (VList (List.filter non_routing (graph_nodes d0)))
    ∧ dict_get d1 "links"
      = Some (VList (List.filter (survives dropped_ids) (graph_links d0)))
    ∧ Forall2 (λ n nid, py_getitem_key n "id" = Ok nid)
        (List.filter routing (graph_nodes d0)) dropped_ids
    ∧ ∀ k, k ≠ "nodes" → k ≠ "links" → dict_get d1 k = dict_get d0 k.
Proof.
  intros H. pose proof H as Hconv.
  apply convert_Ok in H as (d & -> & Hn & Hl & H).
  apply rewire_Ok in H
    as (t & st & wf1 & wf2 & Hpass & Hwf1 & (r & Hprune & Hwf2) & wf3 & Hrep & ->).
  assert (dict_get wf1 "extra" = dict_get wf2 "extra") as Hextra.
  { subst wf2. by rewrite !dict_get_set_ne. }
  destruct (attach_report_congr _ wf1 _ _ _ _ Hextra Hrep) as (wf0 & Hrep0 & He0).
  destruct (attach_report_Ok _ _ _ _ _ Hrep) as [_ Hframe].
  destruct (attach_report_Ok _ _ _ _ _ Hrep0) as [_ Hframe0].
  assert (graph_nodes wf0 = st_nodes st) as Hns.
  { unfold graph_nodes. simpl. rewrite Hframe0 by done. subst wf1.
    rewrite store_elements_other by done.
    pose proof (graph_nodes_stored _ _ _ Hpass) as Hs.
    unfold graph_nodes in Hs. simpl in Hs. exact Hs. }
  assert (graph_links wf0 = st_links st) as Hls.
  { unfold graph_links. simpl. rewrite Hframe0 by done. subst wf1.
    pose proof (graph_links_stored d t st
                  (store_elements d "nodes" (st_nodes st)) Hpass) as Hs.
    unfold graph_links in Hs. simpl in Hs. apply Hs.
    by apply store_elements_other. }
  unfold prune in Hprune.
  apply bind_Ok in Hprune as ([new dr] & Hdn & Hprune).
  apply bind_Ok in Hprune as (keep & Hdl & Hprune). simpl in Hdl.
  injection Hprune as <-. simpl in Hwf2.
  apply drop_nodes_spec in Hdn as (Hnew & ids & Hdr & Hids).
  simpl in Hnew, Hdr. apply drop_links_spec in Hdl. simpl in Hdl.
  subst new dr keep.
  exists wf0, wf3, ids. rewrite Hns, Hls.
  split.
  { rewrite (convert_fits _ _ _ (convert_depth _ _ _ _ Hconv)).
    destruct Hn as [? ->], Hl as [? ->].
    unfold rewire. rewrite Hpass. simpl. rewrite <- Hwf1, Hrep0. done. }
  split; [done|].
  split. { rewrite Hframe by done. subst wf2. by rewrite dict_get_set_ne, dict_get_set. }
  split. { rewrite Hframe by done. subst wf2. by rewrite dict_get_set. }
  split; [done|].
  intros k Hkn Hkl. destruct (decide (k = "extra")) as [->|Hke].
  - done.
  - rewrite Hframe, Hframe0 by done. subst wf2. by rewrite !dict_get_set_ne.
Qed.

Lemma pruning_only_filters_witness :
  ∃ d0 d1,
    convert_setget_to_hardlines 64 wf_example false = Ok (VDict d0)
    ∧ convert_setget_to_hardlines 64 wf_example true = Ok (VDict d1)
    ∧ dict_get d1 "nodes"
      = Some (VList (List.filter non_routing (graph_nodes d0))).
Proof.
  destruct (convert_setget_to_hardlines 64 wf_example true) as [out|e] eqn:E;
    [|by vm_compute in E].
  destruct (pruning_only_filters 64 wf_example out E)
    as (d0 & d1 & dropped & H0 & -> & Hn & _).
  by exists d0, d1.
Defined.

(** ** Running the function on its own output *)

Lemma node_key_has_id n k :
  node_key n = Ok k → py_hashable k = true → node_has_id n = true.
Proof.
  unfold node_key, py_getitem_key, node_has_id.
  destruct n as [| | | | | |nd]; try discriminate.
  destruct (dict_get nd "id"); [|discriminate]. by intros [= ->].
Qed.

Lemma node_frame_key n n' : node_frame n n' → node_key n' = node_key n.
Proof. intros [Hm _]. unfold node_key. by apply same_meta_getitem. Qed.

Lemma link_frame_key l l' : link_frame l l' → link_key l' = link_key l.
Proof.
  intros [->|(fs & c & -> & ->)]; [done|]. unfold link_key, with_origin. simpl.
  by rewrite !list_lookup_insert_ne.
Qed.

Lemma drop_links_prunable dropped ls keep0 keep :
  foldM (drop_link dropped) keep0 ls = Ok keep →
  Forall (λ l, link_prunable l = true) (List.filter (survives dropped) ls).
Proof.
  revert keep0. induction ls as [|l ls IH]; intros keep0 H; simpl in *;
    [constructor|].
  apply bind_Ok in H as (keep1 & Hl & H). specialize (IH _ H).
  destruct (survives dropped l) eqn:Es; [|done]. constructor; [|done].
  unfold survives, link_prunable in *. unfold drop_link, in_dropped in Hl.
  destruct (py_unpack6 l) as [[[[[[a src] b] dst] c] ty]|]; [|done].
  simpl in Hl. apply andb_true_iff in Es as [E1 E2].
  apply negb_true_iff in E1, E2.
  destruct (py_hashable src); [|done]. simpl in Hl. rewrite E1 in Hl.
  destruct (py_hashable dst); done.
Qed.

Lemma prune_fixed ns ls :
  Forall (λ n, non_routing n = true) ns →
  Forall (λ l, link_prunable l = true) ls →
  prune ns ls = Ok (ns, ls, []).
Proof.
  intros Hns Hls. unfold prune.
  assert (∀ new0, foldM drop_node (new0, []) ns = Ok (new0 ++ ns, [])) as Hn.
  { induction Hns as [|n ns Hn _ IH]; intros new0; simpl.
    - by rewrite app_nil_r.
    - apply non_routing_is_routing in Hn. unfold drop_node at 1.
      rewrite Hn. simpl. rewrite IH. by rewrite <- app_assoc. }
  rewrite Hn. simpl.
  assert (∀ keep0, foldM (drop_link []) keep0 ls = Ok (keep0 ++ ls)) as Hl.
  { induction Hls as [|l ls Hl _ IH]; intros keep0; simpl.
    - by rewrite app_nil_r.
    - unfold link_prunable in Hl. unfold drop_link at 1, in_dropped.
      destruct (py_unpack6 l) as [[[[[[a src] b] dst] c] ty]|]; [|done].
      apply andb_true_iff in Hl as [H1 H2]. simpl. rewrite H1, H2. simpl.
      rewrite IH. by rewrite <- app_assoc. }
  by rewrite Hl.
Qed.

(** A workflow without SetNodes and GetNodes comes back with the empty
    report written into it. *)
Lemma no_routing_run limit d ns ls drop_setget :
  (depth (VDict d) ≤ limit)%nat →
  dict_get d "nodes" = Some (VList ns) →
  dict_get d "links" = Some (VList ls) →
  Forall (λ n, node_has_id n = true ∧ non_routing n = true) ns →
  Forall (λ l, ∃ k, link_key l = Ok k ∧ py_hashable k = true) ls →
  Forall (λ l, link_prunable l = true) ls →
  report_slot_ok d = true →
  ∃ d', convert_setget_to_hardlines limit (VDict d) drop_setget = Ok (VDict d')
        ∧ attach_report d [] [] [] = Ok d'.
Proof.
  intros Hfit Hnodes Hlinks Hns Hkeys Hls Hslot.
  destruct (attach_report_total d [] [] [] Hslot) as (d' & Hrep).
  exists d'. split; [|done].
  rewrite (convert_fits _ _ _ Hfit), Hnodes, Hlinks.
  assert (Forall (λ n, non_routing n = true) ns) as Hnr.
  { eapply Forall_impl; [|exact Hns]. by intros n [_ ?]. }
  assert (∃ nbi, build_index node_key 0 ns [] = Ok nbi) as [nbi Hnbi].
  { apply build_index_Ok. eapply Forall_impl; [|exact Hns].
    intros n [Hid _]. by apply node_has_id_key. }
  destruct (build_index_Ok link_key ls Hkeys 0%nat []) as [lm Hlm].
  unfold rewire, rewrite_pass. simpl. rewrite Hnodes, Hlinks. simpl.
  rewrite Hnbi. simpl. rewrite Hlm. simpl.
  unfold set_pass. rewrite set_pass_no_routing by done. simpl.
  unfold get_pass. rewrite get_pass_no_routing; simpl; [|done|].
  2:{ apply List.Forall_forall. intros i Hi. apply in_seq in Hi. lia. }
  rewrite (store_elements_same d "nodes" ns Hnodes).
  rewrite (store_elements_same d "links" ls Hlinks).
  destruct drop_setget; simpl.
  - rewrite prune_fixed by done. simpl.
    rewrite (dict_set_same d "nodes" _ Hnodes).
    rewrite (dict_set_same d "links" _ Hlinks). simpl.
    by rewrite Hrep.
  - by rewrite Hrep.
Qed.

Lemma Forall2_Forall_r {A B} (R : A → B → Prop) (P : A → Prop) (Q : B → Prop)
    l k :
  Forall2 R l k → Forall P l → (∀ x y, R x y → P x → Q y) → Forall Q k.
Proof.
  intros HR HP Himp. induction HR as [|x y l k Hxy _ IH]; [constructor|].
  inversion_clear HP. constructor; eauto.
Qed.

(** X6.  The output of a pruning call is a fixed point: called on it again,
    with or without the flag, the function returns it with the report reset
    to zero rewired links, no skipped GetNodes and no conflicts, every other
    entry being the same, provided the output, report included, is nested
    no deeper than the second call's [deepcopy] can follow. *)
Theorem pruned_output_is_fixed limit limit' workflow out1 drop_setget :
  convert_setget_to_hardlines limit workflow true = Ok out1 →
  (depth out1 ≤ limit')%nat →
  ∃ d1 d2 rep,
    out1 = VDict d1
    ∧ convert_setget_to_hardlines limit' out1 drop_setget = Ok (VDict d2)
    ∧ (∀ k, k ≠ "extra" → dict_get d2 k = dict_get d1 k)
    ∧ (∀ k, k ≠ "__hardline_rewire" → extra_entry d2 k = extra_entry d1 k)
    ∧ report_of d2 = Some (VDict rep)
    ∧ dict_get rep "rewired_count" = Some (VInt 0)
    ∧ dict_get rep "skipped_gets" = Some (VList [])
    ∧ dict_get rep "conflicts" = Some (VList [])
    ∧ ∀ k, k ≠ "rewired_count" → k ≠ "skipped_gets" → k ≠ "conflicts" →
           dict_get rep k = dict_get (prior_report d1) k.
Proof.
  intros H Hfit. apply convert_Ok in H as (d & -> & _ & _ & H).
  apply rewire_Ok in H
    as (t & st & wf1 & wf2 & Hpass & Hwf1 & (r & Hprune & Hwf2) & wf3 & Hrep & ->).
  destruct (attach_report_Ok _ _ _ _ _ Hrep) as [Hreport Hframe].
  destruct (evolves_Forall2 _ _ (rewrite_pass_lengths _ _ _ Hpass)) as [Hnf Hlf].
  simpl in Hnf, Hlf.
  destruct (rewrite_pass_Ok _ _ _ Hpass) as (Hnbi & Hlm & _).
  apply build_index_keys in Hnbi, Hlm.
  unfold prune in Hprune.
  apply bind_Ok in Hprune as ([new dr] & Hdn & Hprune).
  apply bind_Ok in Hprune as (keep & Hdl & Hprune). simpl in Hdl.
  injection Hprune as <-. simpl in Hwf2.
  pose proof (drop_links_prunable _ _ _ _ Hdl) as Hprunable.
  apply drop_nodes_spec in Hdn as (Hnew & ids & Hdr & Hids).
  simpl in Hnew, Hdr. apply drop_links_spec in Hdl. simpl in Hdl.
  subst new dr keep.
  assert (dict_get wf3 "nodes"
          = Some (VList (List.filter non_routing (st_nodes st)))) as Hnodes.
  { rewrite Hframe by done. subst wf2. by rewrite dict_get_set_ne, dict_get_set. }
  assert (dict_get wf3 "links"
          = Some (VList (List.filter (survives ids) (st_links st)))) as Hlinks.
  { rewrite Hframe by done. subst wf2. by rewrite dict_get_set. }
  assert (report_slot_ok wf3 = true) as Hslot.
  { unfold report_slot_ok. unfold report_of in Hreport.
    destruct (dict_get wf3 "extra") as [[| | | | | |extra]|]; try done.
    by rewrite Hreport. }
  destruct (no_routing_run limit' wf3 _ _ drop_setget Hfit Hnodes Hlinks)
    as (d2 & Hrun & Hrep2); try done.
  { apply List.Forall_forall. intros n Hin. apply filter_In in Hin as [Hin Hnr].
    split; [|done].
    assert (Forall (λ n, node_has_id n = true) (st_nodes st)) as Hids'.
    { apply (Forall2_Forall_r _ _ _ _ _ Hnf Hnbi).
      intros x y Hxy (k & Hk & Hh). apply (node_key_has_id _ k); [|done].
      by rewrite (node_frame_key x y). }
    by apply (proj1 (List.Forall_forall _ _) Hids'). }
  { apply List.Forall_forall. intros l Hin. apply filter_In in Hin as [Hin _].
    assert (Forall (λ l, ∃ k, link_key l = Ok k ∧ py_hashable k = true)
              (st_links st)) as Hks.
    { apply (Forall2_Forall_r _ _ _ _ _ Hlf Hlm).
      intros x y Hxy (k & Hk & Hh). exists k. by rewrite (link_frame_key x y). }
    by apply (proj1 (List.Forall_forall _ _) Hks). }
  destruct (attach_report_Ok _ _ _ _ _ Hrep2) as [Hreport2 Hframe2].
  eexists wf3, d2, _. split; [done|]. split; [exact Hrun|].
  split; [exact Hframe2|].
  split; [by apply (attach_report_extra _ _ _ _ _ Hrep2)|].
  split; [exact Hreport2|].
  split; [by rewrite dict_get_set_ne, dict_get_set_ne, dict_get_set|].
  split; [by rewrite dict_get_set_ne, dict_get_set|].
  split; [by rewrite dict_get_set|].
  intros k H1 H2 H3. by rewrite !dict_get_set_ne.
Qed.

Lemma pruned_output_is_fixed_witness :
  ∃ d1 d2,
    convert_setget_to_hardlines 64 wf_example true = Ok (VDict d1)
    ∧ convert_setget_to_hardlines 64 (VDict d1) false = Ok (VDict d2)
    ∧ dict_get d2 "nodes" = dict_get d1 "nodes"
    ∧ dict_get d2 "links" = dict_get d1 "links".
Proof.
  destruct (convert_setget_to_hardlines 64 wf_example true) as [out|e] eqn:E;
    [|by vm_compute in E].
  destruct (pruned_output_is_fixed 64 64 wf_example out false E)
    as (d1 & d2 & rep & -> & H2 & Hk & _).
  { vm_compute in E. injection E as <-. vm_compute. lia. }
  exists d1, d2. split; [done|]. split; [done|]. split; by apply Hk.
Defined.

(** ** The link ids on the ports *)

Lemma port_has_total_elem (ns : list value) t k y :
  port_has (ns !!! t) k y = true → ns !!! t ∈ ns.
Proof.
  intros H. destruct (ns !! t) as [n|] eqn:E.
  - rewrite (list_lookup_total_correct _ _ _ E). by eapply list_elem_of_lookup_2.
  - by rewrite (lookup_total_None _ _ E) in H.
Qed.

Lemma elem_of_insert_inv (ns : list value) t n' n :
  n ∈ <[t := n']> ns → n = n' ∨ n ∈ ns.
Proof.
  intros H. apply list_elem_of_lookup_1 in H as [j Hj].
  apply list_lookup_insert_Some in Hj as [(-> & -> & _)|[_ Hj]]; [by left|].
  right. by eapply list_elem_of_lookup_2.
Qed.

Lemma on_some_port_congr ns x y :
  py_eq y x = true → on_some_port ns x → on_some_port ns y.
Proof.
  intros He (n & k & Hn & Hx). exists n, k. split; [done|].
  by rewrite (port_has_congr n k y x).
Qed.

Section port_ids_origin.
Variables nodes_by_id link_map : pdict nat.
Variable name_to_source : pdict triple.
Variable ns0 : list value.

Lemma add_output_link_known ns a b x ns' :
  ids_known ns0 ns → on_some_port ns0 x →
  add_output_link nodes_by_id ns a b x = Ok ns' → ids_known ns0 ns'.
Proof.
  intros Hns Hx H.
  apply add_output_link_effect in H as [->|(t & s & pd & _ & _ & Hp & _ & ->)];
    [done|].
  intros n k y Hn Hy. apply elem_of_insert_inv in Hn as [->|Hn]; [|by eapply Hns].
  rewrite port_has_set_port_links, Hp in Hy.
  assert (ns !!! t ∈ ns) as Het.
  { destruct (ns !! t) as [n|] eqn:E.
    - rewrite (list_lookup_total_correct _ _ _ E).
      by eapply list_elem_of_lookup_2.
    - by rewrite (lookup_total_None _ _ E) in Hp. }
  case_bool_decide as Hk; [|by eapply Hns].
  rewrite existsb_app in Hy. apply orb_true_iff in Hy as [Hy|Hy].
  - apply (Hns (ns !!! t) s y Het). unfold port_has. by rewrite Hp.
  - simpl in Hy. rewrite orb_false_r in Hy. by apply (on_some_port_congr _ x).
Qed.

Lemma remove_output_link_known ns nid k x ns' :
  ids_known ns0 ns →
  remove_output_link nodes_by_id ns nid k x = Ok ns' → ids_known ns0 ns'.
Proof.
  intros Hns H.
  apply remove_output_link_effect in H as [->|(t & pd & l & _ & Hp & Hl & ->)];
    [done|].
  intros n kk y Hn Hy. apply elem_of_insert_inv in Hn as [->|Hn]; [|by eapply Hns].
  rewrite port_has_set_port_links, Hp in Hy.
  assert (ns !!! t ∈ ns) as Het.
  { destruct (ns !! t) as [n|] eqn:E.
    - rewrite (list_lookup_total_correct _ _ _ E).
      by eapply list_elem_of_lookup_2.
    - by rewrite (lookup_total_None _ _ E) in Hp. }
  case_bool_decide as Hk; [|by eapply Hns].
  apply existsb_remove_first_1 in Hy.
  apply (Hns (ns !!! t) k y Het). unfold port_has. by rewrite Hp, Hl.
Qed.

Lemma rewire_link_known name c i k st x st' :
  ids_known ns0 (st_nodes st) → on_some_port ns0 x →
  rewire_link nodes_by_id link_map name c i k st x = Ok st' →
  ids_known ns0 (st_nodes st').
Proof.
  intros Hst Hx H.
  apply rewire_link_effect in H
    as [[-> _]|(p & fs & ns1 & nid & _ & _ & _ & Hadd & _ & Hrem & _)]; [done|].
  eapply remove_output_link_known; [|exact Hrem].
  by eapply add_output_link_known.
Qed.

Lemma get_pass_known ns ls st :
  ns = ns0 →
  get_pass nodes_by_id link_map name_to_source ns ls = Ok st →
  ids_known ns0 (st_nodes st).
Proof.
  intros -> H. unfold get_pass in H. revert H.
  apply (foldM_inv (λ s, ids_known ns0 (st_nodes s))).
  { intros n k y Hn Hy. by exists n, k. }
  intros s m s' _ Hs H.
  eapply (get_node_lift _ _ _ (λ s, ids_known ns0 (st_nodes s)) (on_some_port ns0));
    [| | |exact Hs|exact H].
  - intros s1 k x Hs1 Hx. eapply Hs1; [|exact Hx].
    by eapply port_has_total_elem.
  - intros name c k s1 x s2 Hs1 Hx. by apply rewire_link_known.
  - done.
Qed.
End port_ids_origin.

(** X7.  The call invents no link id: an id on a port of a returned node,
    with or without pruning, is an id on some port of some node of the
    input. *)
Theorem port_ids_come_from_input limit workflow drop_setget out :
  convert_setget_to_hardlines limit workflow drop_setget = Ok out →
  ∃ d d',
    workflow = VDict d ∧ out = VDict d'
    ∧ ∀ n k y, n ∈ graph_nodes d' → port_has n k y = true →
               on_some_port (graph_nodes d) y.
Proof.
  intros H. apply convert_Ok in H as (d & -> & _ & _ & H).
  apply rewire_Ok in H
    as (t & st & wf1 & wf2 & Hpass & Hwf1 & Hwf2 & wf3 & Hrep & ->).
  destruct (attach_report_Ok _ _ _ _ _ Hrep) as [_ Hframe].
  exists d, wf3. split; [done|]. split; [done|].
  destruct (rewrite_pass_Ok _ _ _ Hpass) as (_ & _ & _ & Hget).
  pose proof (get_pass_known _ _ _ _ _ _ _ eq_refl Hget) as Hknown.
  assert (∀ n, n ∈ graph_nodes wf3 → n ∈ st_nodes st) as Hsub.
  { unfold graph_nodes at 1. simpl. rewrite Hframe by done.
    destruct drop_setget.
    - destruct Hwf2 as (r & Hprune & ->).
      rewrite dict_get_set_ne, dict_get_set by done. simpl.
      unfold prune in Hprune.
      apply bind_Ok in Hprune as ([new dr] & Hdn & Hprune).
      apply bind_Ok in Hprune as (keep & _ & Hprune).
      injection Hprune as <-.
      apply drop_nodes_spec in Hdn as (-> & _). simpl.
      intros n Hn. apply list_elem_of_In in Hn.
      apply filter_In in Hn as [Hn _]. by apply list_elem_of_In.
    - subst wf2 wf1. rewrite store_elements_other by done.
      pose proof (graph_nodes_stored _ _ _ Hpass) as Hs.
      unfold graph_nodes in Hs. simpl in Hs. by rewrite Hs. }
  intros n k y Hn Hy. eapply Hknown; [|exact Hy]. by apply Hsub.
Qed.

Lemma port_ids_come_from_input_witness :
  ∃ d' n,
    convert_setget_to_hardlines 64 wf_example false = Ok (VDict d')
    ∧ graph_nodes d' !! 0%nat = Some n
    ∧ port_has n 0 (VInt 20) = true
    ∧ on_some_port (graph_nodes g_example) (VInt 20).
Proof.
  destruct (convert_setget_to_hardlines 64 wf_example false) as [out|e] eqn:E;
    [|by vm_compute in E].
  destruct (port_ids_come_from_input 64 wf_example false out E)
    as (d & d' & Hd & -> & Hids).
  injection Hd as <-.
  destruct (graph_nodes d' !! 0%nat) as [n|] eqn:En;
    [|vm_compute in E; injection E as <-; by vm_compute in En].
  assert (port_has n 0 (VInt 20) = true) as Hp.
  { vm_compute in E. injection E as <-. vm_compute in En.
    by injection En as <-. }
  exists d', n. split; [done|]. split; [done|]. split; [done|].
  apply (Hids n 0%nat); [|done]. by eapply list_elem_of_lookup_2.
Defined.

(** ** The two tables *)

(** X8.  On a workflow nested no deeper than [deepcopy] can follow, the
    first node that has no [id] (KeyError), is no dict or has an unhashable
    [id] (TypeError) makes the call raise that exception, whatever the links
    and the flag. *)
Theorem malformed_node_aborts limit d pre n post e drop_setget :
  (depth (VDict d) ≤ limit)%nat →
  dict_get d "nodes" = Some (VList (pre ++ n :: post)) →
  is_Some (dict_get d "links") →
  Forall (λ x, key_fault node_key x = None) pre →
  key_fault node_key n = Some e →
  convert_setget_to_hardlines limit (VDict d) drop_setget = Raise e.
Proof.
  intros Hfit Hn [ls Hl] Hpre Hbad. rewrite (convert_fits _ _ _ Hfit), Hn, Hl.
  unfold rewire, rewrite_pass, py_getitem_key. rewrite Hn. simpl.
  by rewrite (build_index_fault node_key pre n post e).
Qed.

(** X9.  On a workflow nested no deeper than [deepcopy] can follow and
    with well-keyed nodes, the first link [l] for which [l[0]] fails
    (IndexError for an empty list, TypeError for a number or [None]) or is
    unhashable (TypeError) makes the call raise that exception. *)
Theorem malformed_link_aborts limit d ns pre l post e drop_setget :
  (depth (VDict d) ≤ limit)%nat →
  dict_get d "nodes" = Some (VList ns) →
  dict_get d "links" = Some (VList (pre ++ l :: post)) →
  Forall (λ x, key_fault node_key x = None) ns →
  Forall (λ x, key_fault link_key x = None) pre →
  key_fault link_key l = Some e →
  convert_setget_to_hardlines limit (VDict d) drop_setget = Raise e.
Proof.
  intros Hfit Hn Hl Hns Hpre Hbad. rewrite (convert_fits _ _ _ Hfit), Hn, Hl.
  unfold rewire, rewrite_pass, py_getitem_key. rewrite Hn, Hl. simpl.
  destruct (build_index_Ok node_key ns) with (i := 0%nat) (acc := @nil (value * nat))
    as [nbi ->].
  { eapply Forall_impl; [|exact Hns]. intros x. apply key_fault_None. }
  simpl. by rewrite (build_index_fault link_key pre l post e).
Qed.

Lemma last_match_last key k i xs q :
  last_match key k i xs = Some q →
  ∀ j x kx, xs !! j = Some x → key x = Ok kx → py_eq kx k = true →
            (i + j ≤ q)%nat.
Proof.
  revert i. induction xs as [|y xs IH]; intros i H j x kx Hj Hk He; [done|].
  simpl in H. destruct (last_match key k (S i) xs) as [q'|] eqn:E.
  - injection H as ->. destruct j as [|j]; simpl in Hj.
    + apply last_match_sound in E as [Hle _]. lia.
    + specialize (IH _ E j x kx Hj Hk He). lia.
  - destruct j as [|j]; simpl in Hj.
    + injection Hj as ->. rewrite Hk, He in H. injection H as <-. lia.
    + by rewrite (last_match_None _ _ _ _ E j x kx Hj Hk) in He.
Qed.

(** An element whose key occurs again later in the list is not the one the
    table points to. *)
Lemma build_index_shadowed key xs m q q' x x' k k' :
  build_index key 0 xs [] = Ok m →
  (q < q')%nat →
  xs !! q = Some x → xs !! q' = Some x' →
  key x = Ok k → key x' = Ok k' → py_eq k' k = true →
  ∀ y, pdict_get m y ≠ Some q.
Proof.
  intros H Hlt Hx Hx' Hk Hk' He y Hy.
  pose proof (build_index_sound _ _ _ _ _ H Hy) as (x0 & k0 & Hx0 & Hk0 & He0).
  rewrite Hx in Hx0. injection Hx0 as <-. rewrite Hk in Hk0. injection Hk0 as <-.
  rewrite (build_index_spec _ _ _ _ _ H y) in Hy.
  destruct (last_match key y 0 xs) as [q0|] eqn:E; [|done]. injection Hy as ->.
  pose proof (last_match_last _ _ _ _ _ E q' x' k' Hx' Hk'
                (py_eq_trans _ _ _ He He0)). lia.
Qed.

Section indexed.
Variables nodes_by_id link_map : pdict nat.
Variable name_to_source : pdict triple.
Variables ns0 ls0 : list value.

Lemma rewire_link_indexed name c i k st x st' :
  links_indexed link_map ls0 st ∧ nodes_indexed nodes_by_id ns0 (st_nodes st) →
  rewire_link nodes_by_id link_map name c i k st x = Ok st' →
  links_indexed link_map ls0 st' ∧ nodes_indexed nodes_by_id ns0 (st_nodes st').
Proof.
  intros [Hl Hn] H.
  apply rewire_link_effect in H
    as [[-> _]|(p & fs & ns1 & nid & Hp & _ & _ & Hadd & _ & Hrem & Hls & _)];
    [done|].
  split.
  - intros q Hq. rewrite Hls, list_lookup_total_insert_ne; [by apply Hl|].
    intros ->. by apply (Hq x).
  - assert (nodes_indexed nodes_by_id ns0 ns1) as Hn1.
    { apply add_output_link_effect in Hadd
        as [->|(t & s & pd & Ht & _ & _ & _ & ->)]; [done|].
      intros q Hq. rewrite list_lookup_total_insert_ne; [by apply Hn|].
      intros ->. by apply (Hq c.1.1). }
    apply remove_output_link_effect in Hrem
      as [->|(t & pd & l & Ht & _ & _ & ->)]; [done|].
    intros q Hq. rewrite list_lookup_total_insert_ne; [by apply Hn1|].
    intros ->. by apply (Hq nid).
Qed.

Lemma get_pass_indexed st :
  get_pass nodes_by_id link_map name_to_source ns0 ls0 = Ok st →
  links_indexed link_map ls0 st ∧ nodes_indexed nodes_by_id ns0 (st_nodes st).
Proof.
  unfold get_pass.
  apply (foldM_inv (λ s, links_indexed link_map ls0 s
                         ∧ nodes_indexed nodes_by_id ns0 (st_nodes s))).
  { split; by intros q _. }
  intros s m s' _ Hs H.
  eapply (get_node_lift _ _ _
            (λ s, links_indexed link_map ls0 s
                  ∧ nodes_indexed nodes_by_id ns0 (st_nodes s))
            (λ _, True)); [| | |exact Hs|exact H]; try done.
  intros name c k s1 x s2 Hs1 _. by apply rewire_link_indexed.
Qed.
End indexed.

Lemma rewire_lists limit workflow out :
  convert_setget_to_hardlines limit workflow false = Ok out →
  ∃ d t st d',
    workflow = VDict d ∧ out = VDict d'
    ∧ rewrite_pass d = Ok (t, st)
    ∧ graph_nodes d' = st_nodes st ∧ graph_links d' = st_links st.
Proof.
  intros H. apply convert_Ok in H as (d & -> & _ & _ & H).
  apply rewire_Ok in H
    as (t & st & wf1 & wf2 & Hpass & Hwf1 & -> & wf3 & Hrep & ->).
  apply attach_report_Ok in Hrep as [_ Hframe].
  exists d, t, st, wf3. split; [done|]. split; [done|]. split; [done|]. split.
  - unfold graph_nodes. simpl. rewrite Hframe by done. subst wf1.
    rewrite store_elements_other by done.
    pose proof (graph_nodes_stored _ _ _ Hpass) as Hs.
    unfold graph_nodes in Hs. simpl in Hs. exact Hs.
  - unfold graph_links. simpl. rewrite Hframe by done. subst wf1.
    pose proof (graph_links_stored d t st
                  (store_elements d "nodes" (st_nodes st)) Hpass) as Hs.
    unfold graph_links in Hs. simpl in Hs. apply Hs.
    by apply store_elements_other.
Qed.

(** X10.  Where two nodes have the same id, or two links, the tables point
    to the later one: the earlier one is returned exactly as it was given. *)
Theorem shadowed_elements_untouched limit workflow out :
  convert_setget_to_hardlines limit workflow false = Ok out →
  ∃ d d',
    workflow = VDict d ∧ out = VDict d'
    ∧ (∀ q q' n n' k k',
         (q < q')%nat →
         graph_nodes d !! q = Some n → graph_nodes d !! q' = Some n' →
         node_key n = Ok k → node_key n' = Ok k' → py_eq k' k = true →
         graph_nodes d' !! q = Some n)
    ∧ (∀ q q' l l' k k',
         (q < q')%nat →
         graph_links d !! q = Some l → graph_links d !! q' = Some l' →
         link_key l = Ok k → link_key l' = Ok k' → py_eq k' k = true →
         graph_links d' !! q = Some l).
Proof.
  intros H.
  apply rewire_lists in H as (d & t & st & d' & -> & -> & Hpass & Hns & Hls).
  exists d, d'. split; [done|]. split; [done|]. rewrite Hns, Hls.
  destruct (rewrite_pass_Ok _ _ _ Hpass) as (Hnbi & Hlm & _ & Hget).
  destruct (get_pass_indexed _ _ _ _ _ _ Hget) as [Hl Hn].
  destruct (rewrite_pass_lengths _ _ _ Hpass) as (Hnlen & _ & Hllen & _).
  simpl in Hnlen, Hllen.
  split.
  - intros q q' n n' k k' Hlt Hq Hq' Hk Hk' He.
    pose proof (build_index_shadowed _ _ _ _ _ _ _ _ _ Hnbi Hlt Hq Hq' Hk Hk' He)
      as Hfree.
    rewrite <- (list_lookup_total_correct _ _ _ Hq), <- (Hn q Hfree).
    apply list_lookup_lookup_total_lt. rewrite Hnlen. by eapply lookup_lt_Some.
  - intros q q' l l' k k' Hlt Hq Hq' Hk Hk' He.
    pose proof (build_index_shadowed _ _ _ _ _ _ _ _ _ Hlm Hlt Hq Hq' Hk Hk' He)
      as Hfree.
    rewrite <- (list_lookup_total_correct _ _ _ Hq), <- (Hl q Hfree).
    apply list_lookup_lookup_total_lt. rewrite Hllen. by eapply lookup_lt_Some.
Qed.

Lemma malformed_node_aborts_witness :
  convert_setget_to_hardlines 64 wf_no_id true = Raise KeyError.
Proof.
  apply (malformed_node_aborts 64 g_no_id [] (VDict [("type", VStr "Plain")])
           [] KeyError true);
    [vm_compute; lia|reflexivity|by eexists|constructor|reflexivity].
Defined.

Lemma malformed_link_aborts_witness :
  convert_setget_to_hardlines 64 (VDict g_bad_link) false = Raise IndexError.
Proof.
  apply (malformed_link_aborts 64 g_bad_link [plain_node 5 [] []] []
           (VList []) [] IndexError false);
    [vm_compute; lia|reflexivity|reflexivity|repeat constructor|constructor
    |reflexivity].
Defined.

Lemma shadowed_elements_untouched_witness :
  ∃ d',
    convert_setget_to_hardlines 64 (VDict g_shadow) false = Ok (VDict d')
    ∧ graph_nodes d' !! 0%nat = Some (plain_node 5 [] [10])
    ∧ graph_links d' !! 0%nat = Some (link6 20 9 9 9 9 "OLD").
Proof.
  destruct (convert_setget_to_hardlines 64 (VDict g_shadow) false)
    as [out|e] eqn:E; [|by vm_compute in E].
  destruct (shadowed_elements_untouched 64 (VDict g_shadow) out E)
    as (d & d' & Hd & -> & Hn & Hl).
  injection Hd as <-. exists d'. split; [done|]. split.
  - apply (Hn 0%nat 1%nat _ (plain_node 5 [] []) (VInt 5) (VInt 5));
      [lia|reflexivity..].
  - apply (Hl 0%nat 2%nat _ (link6 20 2 0 3 0 "T") (VInt 20) (VInt 20));
      [lia|reflexivity..].
Defined.

(** ** What the GetNode pass reaches *)

Lemma on_get_port_congr ns0 x y :
  py_eq y x = true → on_get_port ns0 x → on_get_port ns0 y.
Proof.
  intros He (j & k & Hg & Hx). exists j, k. split; [done|].
  by rewrite (port_has_congr _ k y x).
Qed.

Section off_get_ports.
Variables nodes_by_id link_map : pdict nat.
Variable name_to_source : pdict triple.
Variables ns0 ls0 : list value.

Lemma rewire_link_on_get_ports name c i k s x s' :
  get_ports_known ns0 s ∧ links_known link_map ns0 ls0 s →
  on_get_port ns0 x →
  rewire_link nodes_by_id link_map name c i k s x = Ok s' →
  get_ports_known ns0 s' ∧ links_known link_map ns0 ls0 s'.
Proof.
  intros [Hp Hl] Hx H.
  apply rewire_link_effect in H
    as [[-> _]|(p & fs & ns1 & nid & Hmap & _ & _ & Hadd & _ & Hrem & Hls & _)];
    [done|].
  split.
  - intros j kk y Hj Hy.
    destruct (remove_output_link_nodes _ _ _ _ _ _ Hrem) as [_ Hr].
    destruct (Hr j) as (_ & _ & Hports). apply (Hports kk y) in Hy.
    destruct (add_output_link_nodes _ _ _ _ _ _ Hadd) as [_ Ha].
    destruct (Ha j) as (_ & _ & Hports'). apply (Hports' kk y) in Hy.
    destruct Hy as [Hy|(He & _)]; [by eapply Hp|].
    by apply (on_get_port_congr _ x).
  - intros q Hq. rewrite Hls, list_lookup_total_insert_ne; [by apply Hl|].
    intros ->. by apply (Hq x).
Qed.

Lemma get_node_on_get_ports s m s' :
  evolves {| st_nodes := ns0; st_links := ls0; st_rewired := [];
             st_skipped := [] |} s →
  get_ports_known ns0 s ∧ links_known link_map ns0 ls0 s →
  get_node nodes_by_id link_map name_to_source s m = Ok s' →
  get_ports_known ns0 s' ∧ links_known link_map ns0 ls0 s'.
Proof.
  intros (_ & Hframe & _) Hs H.
  assert (is_get (st_nodes s !!! m) = is_get (ns0 !!! m)) as Hget.
  { destruct (Hframe m) as [Hm _]. by apply same_meta_is_get. }
  destruct (is_get (ns0 !!! m)) eqn:Em.
  - eapply (get_node_lift _ _ _
              (λ s, get_ports_known ns0 s ∧ links_known link_map ns0 ls0 s)
              (on_get_port ns0)); [| | |exact Hs|exact H].
    + intros s1 k x [Hp _] Hx. by eapply Hp.
    + intros name c k s1 x s2. apply rewire_link_on_get_ports.
    + done.
  - apply get_node_Ok in H as [[_ ->]|[Hg _]]; [done|]. congruence.
Qed.

Lemma get_pass_on_get_ports st :
  get_pass nodes_by_id link_map name_to_source ns0 ls0 = Ok st →
  links_known link_map ns0 ls0 st.
Proof.
  unfold get_pass. intros H.
  set (st0 := {| st_nodes := ns0; st_links := ls0; st_rewired := [];
                 st_skipped := [] |}) in *.
  cut (evolves st0 st
       ∧ get_ports_known ns0 st ∧ links_known link_map ns0 ls0 st).
  { by intros (_ & _ & ?). }
  revert H.
  apply (foldM_inv (λ s, evolves st0 s ∧ get_ports_known ns0 s
                         ∧ links_known link_map ns0 ls0 s)).
  { split; [apply evolves_refl|]. split; [|by intros p _].
    intros j k y Hj Hy. by exists j, k. }
  intros s m s' _ (He & Hs) H. split.
  - eapply evolves_trans; [exact He|]. by eapply get_node_evolves.
  - by eapply get_node_on_get_ports.
Qed.
End off_get_ports.

(** X11.  A link whose id is on no port of a GetNode of the input is
    returned as it was given (without pruning, which returns it or drops
    it). *)
Theorem links_off_get_ports_untouched limit workflow out :
  convert_setget_to_hardlines limit workflow false = Ok out →
  ∃ d d',
    workflow = VDict d ∧ out = VDict d'
    ∧ ∀ p l k,
        graph_links d !! p = Some l →
        link_key l = Ok k →
        (∀ n y, n ∈ graph_nodes d → is_get n = true →
                attached y n = true → py_eq k y = false) →
        graph_links d' !! p = Some l.
Proof.
  intros H.
  apply rewire_lists in H as (d & t & st & d' & -> & -> & Hpass & Hns & Hls).
  exists d, d'. split; [done|]. split; [done|]. rewrite Hls.
  destruct (rewrite_pass_Ok _ _ _ Hpass) as (_ & Hlm & _ & Hget).
  pose proof (get_pass_on_get_ports _ _ _ _ _ _ Hget) as Hknown.
  destruct (rewrite_pass_lengths _ _ _ Hpass) as (_ & _ & Hllen & _).
  simpl in Hllen.
  intros p l k Hp Hk Hoff.
  rewrite <- (list_lookup_total_correct _ _ _ Hp), <- (Hknown p).
  { apply list_lookup_lookup_total_lt. rewrite Hllen. by eapply lookup_lt_Some. }
  intros x (j & kk & Hj & Hx) Hmap.
  destruct (build_index_sound _ _ _ _ _ Hlm Hmap) as (l0 & k0 & Hl0 & Hk0 & He).
  rewrite Hp in Hl0. injection Hl0 as <-. rewrite Hk in Hk0. injection Hk0 as <-.
  rewrite (Hoff (graph_nodes d !!! j) x) in He; [done| |done|].
  - by eapply port_has_total_elem.
  - by eapply port_has_attached.
Qed.

Lemma links_off_get_ports_untouched_witness :
  ∃ d',
    convert_setget_to_hardlines 64 wf_example false = Ok (VDict d')
    ∧ graph_links d' !! 0%nat = Some (link6 10 5 0 1 0 "IMAGE").
Proof.
  destruct (convert_setget_to_hardlines 64 wf_example false) as [out|e] eqn:E;
    [|by vm_compute in E].
  destruct (links_off_get_ports_untouched 64 wf_example out E)
    as (d & d' & Hd & -> & Hl).
  injection Hd as <-. exists d'. split; [done|].
  apply (Hl 0%nat _ (VInt 10)); [reflexivity|reflexivity|].
  intros n y Hn Hg Ha. apply list_elem_of_In in Hn.
  destruct Hn as [<-|[<-|[<-|[<-|[]]]]]; try (by vm_compute in Hg).
  destruct y as [|[]|z| | | |]; try (by vm_compute in Ha).
  unfold attached, snapshot, port_snapshot in Ha. simpl in Ha.
  rewrite !orb_false_r in Ha. simpl.
  apply Z.eqb_eq in Ha as ->. reflexivity.
Defined.

Lemma is_get_in_range (ns : list value) m :
  is_get (ns !!! m) = true → ns !! m = Some (ns !!! m).
Proof.
  intros H. destruct (ns !! m) as [n|] eqn:E.
  - by rewrite (list_lookup_total_correct _ _ _ E).
  - by rewrite (lookup_total_None _ _ E) in H.
Qed.

Section off_routes.
Variables nodes_by_id link_map : pdict nat.
Variable name_to_source : pdict triple.
Variables ns0 ls0 : list value.

(** The link rewrites of a GetNode run with a binding of the index. *)
Lemma get_node_bound_lift (Inv : state → Prop) m st st' :
  (∀ name c k s x s',
     pdict_get name_to_source name = Some c →
     Inv s →
     rewire_link nodes_by_id link_map name c m k s x = Ok s' → Inv s') →
  (∀ s sk, Inv s →
     Inv {| st_nodes := st_nodes s; st_links := st_links s;
            st_rewired := st_rewired s; st_skipped := sk |}) →
  Inv st →
  get_node nodes_by_id link_map name_to_source st m = Ok st' →
  Inv st'.
Proof.
  intros Hstep Hskip Hst H.
  apply get_node_Ok in H
    as [[_ ->]|(_ & name & _ & [(_ & nid & _ & ->)|(c & Hc & H)])];
    [done|by apply Hskip|].
  revert H. apply (foldM_inv Inv); [done|]. intros s k s' _ Hs H.
  apply rewire_port_Ok in H. revert H. apply (foldM_inv Inv); [done|].
  intros s1 x s2 _ Hs1. by apply Hstep.
Qed.

Lemma rewire_link_off_routes name c m k s x s' :
  pdict_get name_to_source name = Some c →
  is_get (ns0 !!! m) = true →
  evolves {| st_nodes := ns0; st_links := ls0; st_rewired := [];
             st_skipped := [] |} s →
  nodes_off_routes_kept nodes_by_id name_to_source ns0 s →
  rewire_link nodes_by_id link_map name c m k s x = Ok s' →
  nodes_off_routes_kept nodes_by_id name_to_source ns0 s'.
Proof.
  intros Hc Hm (_ & Hframe & _) Hkept H.
  apply rewire_link_effect in H
    as [[-> _]|(p & fs & ns1 & nid & _ & _ & _ & Hadd & Hid & Hrem & _)];
    [done|].
  destruct (add_output_link_nodes _ _ _ _ _ _ Hadd) as [_ Ha].
  destruct (remove_output_link_nodes _ _ _ _ _ _ Hrem) as [_ Hr].
  assert (node_key (ns0 !!! m) = Ok nid) as Hkey.
  { unfold node_key. rewrite <- Hid. symmetry. apply same_meta_getitem; [|done].
    destruct (Hframe m) as [H1 _]. destruct (Ha m) as (H2 & _).
    by eapply same_meta_trans. }
  intros q [Hq1 Hq2].
  destruct (Hr q) as (_ & Hr2 & _). destruct (Ha q) as (_ & Ha2 & _).
  rewrite Hr2 by (by eapply Hq2). rewrite Ha2 by (by eapply Hq1).
  by apply Hkept.
Qed.

Lemma get_pass_off_routes st :
  get_pass nodes_by_id link_map name_to_source ns0 ls0 = Ok st →
  nodes_off_routes_kept nodes_by_id name_to_source ns0 st.
Proof.
  unfold get_pass. intros H.
  set (st0 := {| st_nodes := ns0; st_links := ls0; st_rewired := [];
                 st_skipped := [] |}) in *.
  cut (evolves st0 st
       ∧ nodes_off_routes_kept nodes_by_id name_to_source ns0 st).
  { by intros [_ ?]. }
  revert H.
  apply (foldM_inv (λ s, evolves st0 s
                         ∧ nodes_off_routes_kept nodes_by_id name_to_source
                             ns0 s)).
  { split; [apply evolves_refl|]. by intros q _. }
  intros s m s' _ [He Hs] H.
  destruct (is_get (ns0 !!! m)) eqn:Em.
  - revert H.
    apply (get_node_bound_lift
             (λ s, evolves st0 s
                   ∧ nodes_off_routes_kept nodes_by_id name_to_source ns0 s));
      [| |done].
    + intros name c k s1 x s2 Hc [He1 Hs1] H. split.
      * eapply evolves_trans; [exact He1|]. by eapply rewire_link_evolves.
      * by eapply rewire_link_off_routes.
    + intros s1 sk [He1 Hs1]. split; [exact He1|exact Hs1].
  - assert (is_get (st_nodes s !!! m) = false) as Hg.
    { destruct He as (_ & Hframe & _). destruct (Hframe m) as [Hm _].
      by rewrite (same_meta_is_get _ _ Hm). }
    apply get_node_Ok in H as [[_ ->]|[Hg' _]]; [done|congruence].
Qed.
End off_routes.

(** X12.  A node is returned exactly as it was given, [outputs] included,
    unless its id is the source of a recorded binding or the id of a
    GetNode. *)
Theorem nodes_off_the_routes_untouched limit workflow out :
  convert_setget_to_hardlines limit workflow false = Ok out →
  ∃ d d' t st,
    workflow = VDict d ∧ out = VDict d'
    ∧ rewrite_pass d = Ok (t, st)
    ∧ ∀ q n k,
        graph_nodes d !! q = Some n →
        node_key n = Ok k →
        (∀ name c, pdict_get (t_name_to_source t) name = Some c →
                   py_eq k c.1.1 = false) →
        (∀ n' k', n' ∈ graph_nodes d → is_get n' = true →
                  node_key n' = Ok k' → py_eq k k' = false) →
        graph_nodes d' !! q = Some n.
Proof.
  intros H.
  apply rewire_lists in H as (d & t & st & d' & -> & -> & Hpass & Hns & Hls).
  exists d, d', t, st. split; [done|]. split; [done|]. split; [done|].
  rewrite Hns.
  destruct (rewrite_pass_Ok _ _ _ Hpass) as (Hnbi & _ & _ & Hget).
  pose proof (get_pass_off_routes _ _ _ _ _ _ Hget) as Hkept.
  destruct (rewrite_pass_lengths _ _ _ Hpass) as (Hnlen & _). simpl in Hnlen.
  intros q n k Hq Hk Hsrc Hgets.
  rewrite <- (list_lookup_total_correct _ _ _ Hq), <- (Hkept q).
  { apply list_lookup_lookup_total_lt. rewrite Hnlen. by eapply lookup_lt_Some. }
  assert (∀ a, pdict_get (t_nodes_by_id t) a = Some q → py_eq k a = true)
    as Hfound.
  { intros a Ha.
    destruct (build_index_sound _ _ _ _ _ Hnbi Ha) as (n0 & k0 & Hn0 & Hk0 & He).
    rewrite Hq in Hn0. injection Hn0 as <-. rewrite Hk in Hk0. by injection Hk0 as <-. }
  split.
  - intros name c Hc Ha. apply Hfound in Ha. by rewrite (Hsrc name c Hc) in Ha.
  - intros j nid Hj Hid Ha. apply Hfound in Ha.
    rewrite (Hgets (graph_nodes d !!! j) nid) in Ha; [done| |done|done].
    apply is_get_in_range in Hj. by eapply list_elem_of_lookup_2.
Qed.

Lemma nodes_off_the_routes_untouched_witness :
  ∃ d',
    convert_setget_to_hardlines 64 wf_example false = Ok (VDict d')
    ∧ graph_nodes d' !! 3%nat = Some (plain_node 3 [20] []).
Proof.
  destruct (convert_setget_to_hardlines 64 wf_example false) as [out|e] eqn:E;
    [|by vm_compute in E].
  destruct (nodes_off_the_routes_untouched 64 wf_example out E)
    as (d & d' & t & st & Hd & -> & Hpass & Hq).
  injection Hd as <-. exists d'. split; [done|].
  apply (Hq 3%nat _ (VInt 3)); [reflexivity|reflexivity| |].
  - vm_compute in Hpass. injection Hpass as <- <-.
    intros name c Hc. cbn [t_name_to_source pdict_get] in Hc.
    destruct (py_eq (VStr "X") name); [|discriminate].
    by injection Hc as <-.
  - intros n' k' Hn Hg Hk. apply list_elem_of_In in Hn.
    destruct Hn as [<-|[<-|[<-|[<-|[]]]]]; try (by vm_compute in Hg).
    vm_compute in Hk. by injection Hk as <-.
Defined.

(** ** The returned object *)

Lemma fresh_holds n0 :
  ∀ v l, Store.fresh_val n0 v → holds v l → (n0 ≤ l)%nat.
Proof.
  fix IH 1. intros [| | | |xs|l'] l; simpl; try done.
  - induction xs as [|x xs IHxs]; [done|].
    intros [Hx Hxs] [Hl|Hl]; [by apply (IH x)|by apply IHxs].
  - by intros ? <-.
Qed.

Lemma fresh_obj_elems n0 o x :
  Store.fresh n0 o → x ∈ obj_elems o → Store.fresh_val n0 x.
Proof.
  destruct o as [xs|d]; simpl; intros Ho Hx.
  - apply list_elem_of_In in Hx. by apply (proj1 (List.Forall_forall _ xs) Ho).
  - apply list_elem_of_fmap in Hx as ([k y] & -> & Hin).
    apply list_elem_of_In in Hin.
    by apply (proj1 (List.Forall_forall _ d) Ho) in Hin as [_ Hy].
Qed.

Lemma reaches_fresh n0 (h : list Store.obj) v l :
  (∀ l o, (n0 ≤ l)%nat → h !! l = Some o → Store.fresh n0 o) →
  Store.fresh_val n0 v → reaches h v l → (n0 ≤ l)%nat.
Proof.
  intros Hc Hv Hreach. induction Hreach as [v l Hl|v l o x l' Hl Ho Hx _ IH].
  - by eapply fresh_holds.
  - apply IH. eapply fresh_obj_elems; [|exact Hx].
    eapply Hc; [|exact Ho]. by eapply fresh_holds.
Qed.

(** X13.  The call returns a new object: nothing one can get to from the
    returned workflow existed in the store before the call, so the result
    shares no list and no dict with the caller's workflow. *)
Theorem result_is_new limit steps workflow drop_setget
    (h h' : list Store.obj) out :
  Store.convert_setget_to_hardlines limit steps workflow drop_setget h
  = (inl out, h') →
  ∀ l, reaches h' out l → (length h ≤ l)%nat.
Proof.
  intros Hrun.
  assert (Store.closed (length h) h) as Hclosed.
  { split; [done|]. intros l o Hl Hlook. apply lookup_lt_Some in Hlook. lia. }
  destruct (safe_convert (length h) limit steps workflow drop_setget h Hclosed)
    as ([_ Hc] & _ & Hout).
  rewrite Hrun in Hc, Hout. simpl in Hc, Hout.
  specialize (Hout out eq_refl).
  intros l. by apply reaches_fresh.
Qed.

Lemma result_is_new_witness :
  ∃ l h',
    Store.convert_setget_to_hardlines 64 64 Store.example_store.1 true
      Store.example_store.2
    = (inl (Store.HRef l), h')
    ∧ (length Store.example_store.2 ≤ l)%nat.
Proof.
  destruct (Store.convert_setget_to_hardlines 64 64 Store.example_store.1
              true Store.example_store.2) as [[out|f] h'] eqn:E;
    [|by vm_compute in E].
  assert (∃ l, out = Store.HRef l) as [l ->].
  { vm_compute in E. injection E as <- _. by eexists. }
  exists l, h'. split; [done|].
  apply (result_is_new 64 64 Store.example_store.1 true
           Store.example_store.2 h' (Store.HRef l) E).
  by apply reaches_held.
Defined.

(** ** The caller's summary *)

Lemma dict_set_nonempty (d : dict) k v : length (dict_set d k v) ≠ 0%nat.
Proof.
  destruct d as [|[k' v'] d]; simpl; [done|]. by destruct (String.eqb k' k).
Qed.

(** X14.  After a call that returned, the summary [App.convert] builds from
    the returned workflow is built without an exception and shows the number
    of rewired links, of skipped GetNodes and of conflicts of this call. *)
Theorem summary_shows_the_counts limit workflow drop_setget out :
  convert_setget_to_hardlines limit workflow drop_setget = Ok out →
  ∃ d t st,
    workflow = VDict d
    ∧ rewrite_pass d = Ok (t, st)
    ∧ summary_stats out
      = Ok (VInt (Z.of_nat (length (st_rewired st))),
            Z.of_nat (length (st_skipped st)),
            Z.of_nat (length (t_conflicts t))).
Proof.
  intros H. apply convert_Ok in H as (d & -> & _ & _ & H).
  apply rewire_Ok in H
    as (t & st & wf1 & wf2 & Hpass & _ & _ & wf3 & Hrep & ->).
  apply attach_report_Ok in Hrep as [Hrep _].
  exists d, t, st. split; [done|]. split; [done|].
  unfold summary_stats, report_of in *. simpl.
  destruct (dict_get wf3 "extra") as [[| | | | | |extra]|]; try done. simpl.
  rewrite Hrep. simpl.
  set (rep := dict_set _ "conflicts" _).
  assert (negb (bool_decide (length rep = 0%nat)) = true) as ->.
  { apply negb_true_iff, bool_decide_eq_false, dict_set_nonempty. }
  unfold py_get, py_get_default. subst rep.
  rewrite dict_get_set_ne, dict_get_set_ne, dict_get_set by done. simpl.
  rewrite dict_get_set_ne, dict_get_set by done. simpl.
  rewrite dict_get_set. simpl.
  by destruct (st_skipped st), (t_conflicts t).
Qed.

Lemma summary_shows_the_counts_witness :
  ∃ out,
    convert_setget_to_hardlines 64 wf_example false = Ok out
    ∧ summary_stats out = Ok (VInt 1, 0, 0).
Proof.
  destruct (convert_setget_to_hardlines 64 wf_example false) as [out|e] eqn:E;
    [|by vm_compute in E].
  destruct (summary_shows_the_counts 64 wf_example false out E)
    as (d & t & st & Hd & Hpass & Hs).
  injection Hd as <-. exists out. split; [done|]. rewrite Hs.
  vm_compute in Hpass. by injection Hpass as <- <-.
Defined.

(** ** The default output path *)

Lemma string_length_append a b :
  String.length (String.append a b) = (String.length a + String.length b)%nat.
Proof. induction a as [|c a IH]; simpl; [done|]. by rewrite IH. Qed.

Lemma default_output_name stem suffix valid_name suffix_var in_path out :
  default_output_path stem suffix valid_name suffix_var in_path = Some out →
  p_parent out = p_parent in_path
  ∧ p_name out
    = String.append
        (String.append (stem (p_name in_path))
           (if String.eqb suffix_var "" then "_hardline" else suffix_var))
        (suffix (p_name in_path)).
Proof.
  unfold default_output_path, with_name.
  destruct (String.eqb (p_name in_path) ""); [done|].
  destruct (valid_name _); [|done]. by intros [= <-].
Qed.

Lemma substring_all s : String.substring 0 (String.length s) s = s.
Proof. induction s as [|c s IH]; simpl; [done|]. by rewrite IH. Qed.

(** The split of a name at its last dot. *)
Lemma rfind_dot_split name i :
  rfind_dot name = Some i →
  ∃ a ext, name = String.append a (String.append "." ext)
           ∧ String.length a = i ∧ rfind_dot ext = None.
Proof.
  revert i. induction name as [|c r IH]; intros i H; [done|].
  cbn [rfind_dot] in H. destruct (rfind_dot r) as [j|] eqn:E.
  - injection H as <-. destruct (IH j eq_refl) as (a & ext & -> & <- & He).
    exists (String c a), ext. split; [reflexivity|]. split; [reflexivity|done].
  - destruct (String.eqb_spec (String c EmptyString) ".") as [Hc|]; [|done].
    injection H as <-. injection Hc as ->. exists "", r.
    split; [reflexivity|]. split; [reflexivity|done].
Qed.

Lemma rfind_dot_last a ext :
  rfind_dot ext = None →
  rfind_dot (String.append a (String.append "." ext)) = Some (String.length a).
Proof.
  intros He. induction a as [|c a IH].
  - set (s := String.append "" (String.append "." ext)).
    vm_compute in s. subst s. cbn [rfind_dot]. by rewrite He.
  - change (rfind_dot (String c (String.append a (String.append "." ext)))
            = Some (S (String.length a))).
    cbn [rfind_dot]. by rewrite IH.
Qed.

Lemma substring_drop a b :
  String.substring (String.length a) (String.length b) (String.append a b) = b.
Proof.
  induction a as [|c a IH]; [apply substring_all|].
  change (String.substring (S (String.length a)) (String.length b)
            (String c (String.append a b)) = b).
  simpl. exact IH.
Qed.

Lemma py_suffix_spec a ext :
  rfind_dot ext = None → a ≠ "" → ext ≠ "" →
  py_suffix (String.append a (String.append "." ext)) = String.append "." ext.
Proof.
  intros He Ha Hext. unfold py_suffix, split_at.
  rewrite (rfind_dot_last a ext He), string_length_append.
  change (String.length (String.append "." ext)) with (S (String.length ext)).
  assert (0 < String.length a)%nat as H1 by (destruct a; [done|simpl; lia]).
  assert (0 < String.length ext)%nat as H2 by (destruct ext; [done|simpl; lia]).
  destruct (Nat.ltb_spec 0 (String.length a)); [|lia].
  destruct (Nat.ltb_spec (String.length a)
              (String.length a + S (String.length ext) - 1)); [|lia].
  simpl.
  replace (String.length a + S (String.length ext) - String.length a)%nat
    with (String.length (String.append "." ext))
    by (change (String.length (String.append "." ext))
          with (S (String.length ext)); lia).
  apply substring_drop.
Qed.

Lemma py_suffix_inv name :
  py_suffix name ≠ "" →
  ∃ a ext, name = String.append a (String.append "." ext)
           ∧ rfind_dot ext = None ∧ a ≠ "" ∧ ext ≠ ""
           ∧ py_stem name = a ∧ py_suffix name = String.append "." ext.
Proof.
  intros Hs. unfold py_suffix, py_stem in *. unfold split_at in *.
  destruct (rfind_dot name) as [i|] eqn:E; [|done].
  destruct (rfind_dot_split _ _ E) as (a & ext & -> & <- & He).
  rewrite string_length_append in *.
  change (String.length (String.append "." ext))
    with (S (String.length ext)) in *.
  destruct (Nat.ltb_spec 0 (String.length a)) as [H1|]; [|done].
  destruct (Nat.ltb_spec (String.length a)
              (String.length a + S (String.length ext) - 1)) as [H2|]; [|done].
  simpl in *. exists a, ext. split; [done|]. split; [done|].
  split; [by destruct a; [simpl in H1; lia|]|].
  split; [destruct ext; [simpl in H2; lia|done]|].
  split.
  - clear. induction a as [|c a IH]; [by destruct ext|].
    change (String.substring 0 (S (String.length a))
              (String c (String.append a (String.append "." ext)))
            = String c a).
    simpl. by rewrite IH.
  - replace (String.length a + S (String.length ext) - String.length a)%nat
      with (String.length (String.append "." ext))
    by (change (String.length (String.append "." ext))
          with (S (String.length ext)); lia).
    apply substring_drop.
Qed.

(** X16.  With [pathlib]'s split as it is up to CPython 3.13, an input that
    has an extension gives a default output with the same extension:
    [wf.json] becomes [wf_hardline.json], whatever the suffix field holds. *)
Theorem default_output_keeps_extension valid_name suffix_var in_path out :
  py_suffix (p_name in_path) ≠ "" →
  default_output_path py_stem py_suffix valid_name suffix_var in_path
  = Some out →
  py_suffix (p_name out) = py_suffix (p_name in_path).
Proof.
  intros Hs H. pose proof (default_output_name _ _ _ _ _ _ H) as [_ Hname].
  destruct (py_suffix_inv _ Hs) as (a & ext & Hn & He & Ha & Hext & Hstem & Hsuf).
  rewrite Hname, Hstem, Hsuf. apply py_suffix_spec; [done| |done].
  destruct a; [done|]. by destruct suffix_var.
Qed.

Lemma default_output_keeps_extension_witness :
  py_suffix (p_name (Path "/home/u" "wf.json")) = ".json"
  ∧ py_suffix (p_name (Path "/home/u" "wf_hardline.json"))
    = py_suffix (p_name (Path "/home/u" "wf.json")).
Proof.
  split; [by vm_compute|].
  apply (default_output_keeps_extension posix_valid_name ""
           (Path "/home/u" "wf.json") (Path "/home/u" "wf_hardline.json"));
    by vm_compute.
Defined.
